(** * TinyG-Utils, Config/Config.py: configuration store, text and JSON
      codec, and the request/response driver.

    The Python module is embedded shallowly: every function of Config.py
    that the verified properties talk about is a Rocq function with the
    same name.  Python values are an inductive type, dictionaries are
    insertion-ordered association lists, exceptions are an error result,
    and the serial port is an explicit state (lines still to be received,
    lines sent so far, lines printed so far). *)

From Stdlib Require Import List String Ascii ZArith Bool Lia Arith.
From Stdlib Require Import DecimalString Decimal DecimalZ.
From Stdlib Require DecimalPos DecimalN DecimalFacts.
From Stdlib Require Import SpecFloat.
Import ListNotations.
Open Scope string_scope.
Open Scope Z_scope.

(* ================================================================== *)
(** * Part I: definitions                                              *)
(* ================================================================== *)

(** ** Exceptions and results *)

(** The exceptions the code can raise.  [Unmodelled] is not a Python
    exception: it marks the few inputs on which the embedding does not
    follow Python (a format specification or a value outside the
    fragment described at the definition that returns it); nothing is
    claimed about the code there. *)
Inductive exn : Type :=
| TypeError
| KeyError
| NameError
| ValueError
| AttributeError
| IndexError
| OverflowError
| Unmodelled.

Inductive res (A : Type) : Type :=
| Ok (a : A)
| Raise (e : exn).

Arguments Ok {A} a.
Arguments Raise {A} e.

Definition bind {A B : Type} (m : res A) (k : A -> res B) : res B :=
  match m with
  | Ok a => k a
  | Raise e => Raise e
  end.

Notation "x <- m ;; k" := (bind m (fun x => k))
  (at level 61, m at next level, right associativity).
Notation "' p <- m ;; k" := (bind m (fun x => match x with p => k end))
  (at level 61, p pattern, m at next level, right associativity).


(** ** Strings

    A Python [str] is a Rocq [string]: the code points below 256.  All
    text on the wire is ASCII ([send_line] encodes as ASCII and
    [json.dumps] escapes everything else). *)

Definition chr (n : nat) : ascii := ascii_of_nat n.
Definition ord (c : ascii) : nat := nat_of_ascii c.

(** The double quote, and the newline. *)
Definition dquote : ascii := "034"%char.
Definition newline : ascii := "010"%char.

(** A text written with apostrophes where it has double quotes. *)
Fixpoint with_double_quotes (s : string) : string :=
  match s with
  | EmptyString => EmptyString
  | String c s' =>
      String (if Ascii.eqb c "'" then dquote else c) (with_double_quotes s')
  end.

(** [s[n:]] for [n >= 0] *)
Fixpoint str_drop (n : nat) (s : string) : string :=
  match n, s with
  | O, _ => s
  | S _, EmptyString => EmptyString
  | S n', String _ s' => str_drop n' s'
  end.

(** [s[:n]] for [n >= 0] *)
Fixpoint str_take (n : nat) (s : string) : string :=
  match n, s with
  | O, _ => EmptyString
  | S _, EmptyString => EmptyString
  | S n', String c s' => String c (str_take n' s')
  end.

(** [s[:k]] for any integer [k]: a negative [k] counts from the end. *)
Definition slice_to (k : Z) (s : string) : string :=
  if 0 <=? k then str_take (Z.to_nat k) s
  else str_take (Z.to_nat (Z.of_nat (String.length s) + k)) s.

(** [s.startswith(p)] *)
Definition startswith (s p : string) : bool := String.prefix p s.

(** [p in s] for strings: [p] occurs in [s] as a substring. *)
Fixpoint str_contains (s p : string) : bool :=
  if String.prefix p s then true
  else match s with
       | EmptyString => false
       | String _ s' => str_contains s' p
       end.

(** [s.find(c)] for a one-character [c]: index of the first occurrence,
    or -1. *)
Fixpoint str_find (c : ascii) (s : string) : Z :=
  match s with
  | EmptyString => -1
  | String a s' =>
      if Ascii.eqb a c then 0
      else let i := str_find c s' in if i <? 0 then -1 else i + 1
  end.

(** [sep.join(l)] *)
Fixpoint str_join (sep : string) (l : list string) : string :=
  match l with
  | [] => ""
  | [x] => x
  | x :: rest => x ++ sep ++ str_join sep rest
  end.

Fixpoint str_repeat (c : ascii) (n : nat) : string :=
  match n with
  | O => ""
  | S n' => String c (str_repeat c n')
  end.

(** ['{:Ws}'.format(s)]: pad on the right with spaces up to width [w]. *)
Definition ljust (w : nat) (s : string) : string :=
  s ++ str_repeat " " (w - String.length s).

(** Pad a digit string on the left with zeros up to width [w]. *)
Definition zfill (w : nat) (s : string) : string :=
  str_repeat "0" (w - String.length s) ++ s.

Definition str_forallb (p : ascii -> bool) (s : string) : bool :=
  forallb p (list_ascii_of_string s).

Definition is_digit (c : ascii) : bool :=
  (48 <=? ord c)%nat && (ord c <=? 57)%nat.

Definition to_lower (c : ascii) : ascii :=
  if (65 <=? ord c)%nat && (ord c <=? 90)%nat then chr (ord c + 32) else c.

Fixpoint str_lower (s : string) : string :=
  match s with
  | EmptyString => EmptyString
  | String c s' => String (to_lower c) (str_lower s')
  end.

(** Whitespace as [str.split()] and [str.strip()] see it (the code
    points below 256 with the Unicode White_Space property or of
    bidirectional type WS, B or S). *)
Definition is_space (c : ascii) : bool :=
  let n := ord c in
  ((9 <=? n)%nat && (n <=? 13)%nat) || ((28 <=? n)%nat && (n <=? 32)%nat)
  || (n =? 133)%nat || (n =? 160)%nat.

Fixpoint lstrip (s : string) : string :=
  match s with
  | EmptyString => EmptyString
  | String c s' => if is_space c then lstrip s' else s
  end.

Fixpoint rstrip (s : string) : string :=
  match s with
  | EmptyString => EmptyString
  | String c s' =>
      match rstrip s' with
      | EmptyString => if is_space c then EmptyString else String c EmptyString
      | r => String c r
      end
  end.

(** [s.strip()] *)
Definition strip (s : string) : string := rstrip (lstrip s).

(** Whitespace as [int()] and [float()] skip it around a literal: the
    separators U+001C to U+001F are not part of it. *)
Definition is_num_space (c : ascii) : bool :=
  let n := ord c in
  ((9 <=? n)%nat && (n <=? 13)%nat) || (n =? 32)%nat
  || (n =? 133)%nat || (n =? 160)%nat.

Fixpoint num_lstrip (s : string) : string :=
  match s with
  | EmptyString => EmptyString
  | String c s' => if is_num_space c then num_lstrip s' else s
  end.

Fixpoint num_rstrip (s : string) : string :=
  match s with
  | EmptyString => EmptyString
  | String c s' =>
      match num_rstrip s' with
      | EmptyString => if is_num_space c then EmptyString else String c EmptyString
      | r => String c r
      end
  end.

(** The literal that [int(s)] and [float(s)] read. *)
Definition num_strip (s : string) : string := num_rstrip (num_lstrip s).

Definition starts_with_space (s : string) : bool :=
  match s with
  | EmptyString => true
  | String c _ => is_space c
  end.

(** [s.split()]: the maximal runs of non-whitespace characters. *)
Fixpoint split (s : string) : list string :=
  match s with
  | EmptyString => []
  | String c s' =>
      if is_space c then split s'
      else if starts_with_space s' then String c EmptyString :: split s'
      else match split s' with
           | t :: ts => String c t :: ts
           | [] => [String c EmptyString]
           end
  end.

(** [file.readlines()] on the text of a file: the lines, each with its
    terminating newline (the last one possibly without). *)
Fixpoint readlines (text : string) : list string :=
  match text with
  | EmptyString => []
  | String c s' =>
      if Ascii.eqb c "010" then String c EmptyString :: readlines s'
      else let rest := readlines s' in
           match s', rest with
           | String _ _, l :: ls => String c l :: ls
           | _, _ => [String c EmptyString]
           end
  end.

(** *** The regular expression of [read_text]

    [re.search] with the pattern of [read_text] (an opening square
    bracket, a greedy group of arbitrary characters, a closing square
    bracket): the match starts at the first opening bracket that has a
    closing bracket after it on the same line, and the group runs up to
    the last such closing bracket (the dot matches everything but a
    newline).  The result is group 1, or [None] when nothing matches. *)

(** The text up to the last [']'] of the first line of [s]. *)
Fixpoint upto_last_bracket (s : string) : option string :=
  match s with
  | EmptyString => None
  | String c s' =>
      if Ascii.eqb c "010" then None
      else match upto_last_bracket s' with
           | Some g => Some (String c g)
           | None => if Ascii.eqb c "]" then Some EmptyString else None
           end
  end.

Fixpoint re_search_bracket (s : string) : option string :=
  match s with
  | EmptyString => None
  | String c s' =>
      if Ascii.eqb c "[" then
        match upto_last_bracket s' with
        | Some g => Some g
        | None => re_search_bracket s'
        end
      else re_search_bracket s'
  end.

(** ** Integers as text *)

(** The decimal text of an integer: [str(z)] for an [int] within the
    limit of digits (see [int_str]). *)
Definition str_of_int (z : Z) : string := NilZero.string_of_int (Z.to_int z).

(** The digits of a positive number: no leading zero. *)
Definition digits_of_pos (p : positive) : string :=
  NilEmpty.string_of_uint (Pos.to_uint p).

Definition is_digit_or_us (c : ascii) : bool := is_digit c || Ascii.eqb c "_".

(** No underscore at either end and no two in a row. *)
Fixpoint underscores_ok (prev_us : bool) (s : string) : bool :=
  match s with
  | EmptyString => negb prev_us
  | String c s' =>
      if Ascii.eqb c "_" then negb prev_us && underscores_ok true s'
      else underscores_ok false s'
  end.

Fixpoint remove_underscores (s : string) : string :=
  match s with
  | EmptyString => EmptyString
  | String c s' =>
      if Ascii.eqb c "_" then remove_underscores s'
      else String c (remove_underscores s')
  end.

(** A digit group of a numeric literal: decimal digits, with single
    underscores allowed between digits.  The result is the list of
    digits. *)
Definition digit_group (s : string) : option uint :=
  match s with
  | EmptyString => None
  | _ =>
      if str_forallb is_digit_or_us s && underscores_ok true s
      then NilEmpty.uint_of_string (remove_underscores s)
      else None
  end.

(** Split an optional sign off a literal: [(negative, rest)]. *)
Definition split_sign (s : string) : bool * string :=
  match s with
  | String c s' =>
      if Ascii.eqb c "-" then (true, s')
      else if Ascii.eqb c "+" then (false, s')
      else (false, s)
  | EmptyString => (false, s)
  end.

(** The most digits that [int()] reads and [str()] writes
    ([sys.int_info.default_max_str_digits] of CPython 3.11). *)
Definition max_str_digits : Z := 4300.

(** [int(s)] for a string; [None] stands for ValueError.  The digits
    are counted as written, leading zeros included, underscores not. *)
Definition py_int (s : string) : option Z :=
  let '(neg, body) := split_sign (num_strip s) in
  match digit_group body with
  | Some u =>
      if Z.of_nat (Decimal.nb_digits u) <=? max_str_digits
      then Some (if neg then - Z.of_uint u else Z.of_uint u)
      else None
  | None => None
  end.

(** The integers that [str()] writes and [int()] reads back: those of
    at most [max_str_digits] digits. *)
Definition int_in_limit (z : Z) : bool := Z.abs z <? 10 ^ max_str_digits.

(** [str(z)] and [format(z, 'd')]: ValueError past the limit of
    digits. *)
Definition int_str (z : Z) : res string :=
  if int_in_limit z then Ok (str_of_int z) else Raise ValueError.

(** ** Floats

    A Python [float] is an IEEE-754 binary64 number, represented as in
    the standard library's [SpecFloat] with 53 bits of precision and
    [emax = 1024].  Every conversion below rounds to nearest, ties to
    even, as CPython's does. *)

Definition prec : Z := 53.
Definition emax : Z := 1024.

Definition pyfloat : Type := spec_float.

(** [num / den] rounded to the nearest integer, ties to even
    ([num >= 0], [den > 0]). *)
Definition div_round_even (num den : Z) : Z :=
  let q := num / den in
  let r := num mod den in
  match 2 * r ?= den with
  | Lt => q
  | Gt => q + 1
  | Eq => if Z.even q then q else q + 1
  end.

(** The least exponent of a float: [2^emin] is the least positive
    float. *)
Definition emin : Z := 3 - emax - prec.

(** [2^k <= num / den], for positive [num] and [den]. *)
Definition pow2_le (k num den : Z) : bool :=
  den * 2 ^ Z.max k 0 <=? num * 2 ^ Z.max (- k) 0.

(** The binary exponent of [num / den]: the [k] with
    [2^k <= num / den < 2^(k+1)]. *)
Definition ratio_exp (num den : Z) : Z :=
  let d := Z.log2 num - Z.log2 den in
  if pow2_le d num den then d else d - 1.

(** The exponent of the floats around [num / den]: 53 significant
    bits, and no exponent below [emin]. *)
Definition float_exp (num den : Z) : Z := Z.max (ratio_exp num den - (prec - 1)) emin.

(** [num / den] counted in units of [2^e], to the nearest integer, ties
    to even. *)
Definition round_mantissa (num den e : Z) : Z :=
  div_round_even (num * 2 ^ Z.max (- e) 0) (den * 2 ^ Z.max e 0).

(** The float [m * 2^e] of a rounded mantissa [m <= 2^53]: a mantissa
    of [2^53] takes the next exponent, and past the greatest exponent
    stands infinity. *)
Definition make_float (neg : bool) (m e : Z) : pyfloat :=
  match m with
  | Zpos p =>
      let '(p', e') := if m =? 2 ^ prec then (Z.to_pos (2 ^ (prec - 1)), e + 1) else (p, e) in
      if emax - prec <? e' then S754_infinity neg else S754_finite neg p' e'
  | _ => S754_zero neg
  end.

(** The float nearest to [(-1)^neg * num / den] for positive [den]. *)
Definition float_of_ratio (neg : bool) (num den : Z) : pyfloat :=
  match num, den with
  | Zpos _, Zpos _ =>
      let e := float_exp num den in
      make_float neg (round_mantissa num den e) e
  | _, _ => S754_zero neg
  end.

(** [float(z)] for an [int]: OverflowError when too large. *)
Definition float_of_int (z : Z) : res pyfloat :=
  match float_of_ratio (z <? 0) (Z.abs z) 1 with
  | S754_infinity _ => Raise OverflowError
  | f => Ok f
  end.

(** The floats of the format: a finite one has a mantissa below [2^53]
    and an exponent from [-1074] to [971], and its mantissa has 53 bits
    unless the exponent is the least. *)
Definition is_float64 (f : pyfloat) : bool :=
  match f with
  | S754_finite _ m e =>
      (Zpos m <? 2 ^ prec) && (emin <=? e) && (e <=? emax - prec)
      && ((e =? emin) || (2 ^ (prec - 1) <=? Zpos m))
  | _ => true
  end.

Definition is_nan (f : pyfloat) : bool :=
  match f with
  | S754_nan => true
  | _ => false
  end.

(** Split at the first character satisfying [p]:
    [(before, Some after)], or [(s, None)] when there is none. *)
Fixpoint split_at (p : ascii -> bool) (s : string) : string * option string :=
  match s with
  | EmptyString => (EmptyString, None)
  | String c s' =>
      if p c then (EmptyString, Some s')
      else let '(a, b) := split_at p s' in (String c a, b)
  end.

Definition is_exp_marker (c : ascii) : bool := Ascii.eqb c "e" || Ascii.eqb c "E".
Definition is_point (c : ascii) : bool := Ascii.eqb c ".".

(** The mantissa of a decimal literal: its digits as one number and the
    count of digits after the point. *)
Definition parse_mantissa (s : string) : option (Z * Z) :=
  match split_at is_point s with
  | (ip, None) =>
      match digit_group ip with
      | Some u => Some (Z.of_uint u, 0)
      | None => None
      end
  | (ip, Some fp) =>
      match ip, fp with
      | EmptyString, EmptyString => None
      | EmptyString, _ =>
          match digit_group fp with
          | Some uf => Some (Z.of_uint uf, Z.of_nat (Decimal.nb_digits uf))
          | None => None
          end
      | _, EmptyString =>
          match digit_group ip with
          | Some ui => Some (Z.of_uint ui, 0)
          | None => None
          end
      | _, _ =>
          match digit_group ip, digit_group fp with
          | Some ui, Some uf =>
              Some (Z.of_uint (Decimal.app ui uf), Z.of_nat (Decimal.nb_digits uf))
          | _, _ => None
          end
      end
  end.

(** The exponent part of a decimal literal, after the [e]. *)
Definition parse_exponent (s : string) : option Z :=
  let '(neg, body) := split_sign s in
  match digit_group body with
  | Some u => Some (if neg then - Z.of_uint u else Z.of_uint u)
  | None => None
  end.

(** The float written by [digits * 10^exp10]. *)
Definition float_of_decimal (neg : bool) (digits exp10 : Z) : pyfloat :=
  if 0 <=? exp10 then float_of_ratio neg (digits * 10 ^ exp10) 1
  else float_of_ratio neg digits (10 ^ (- exp10)).

(** [float(s)] for a string; [None] stands for ValueError. *)
Definition py_float (s : string) : option pyfloat :=
  let '(neg, body) := split_sign (num_strip s) in
  let low := str_lower body in
  if String.eqb low "inf" || String.eqb low "infinity" then Some (S754_infinity neg)
  else if String.eqb low "nan" then Some S754_nan
  else
    match split_at is_exp_marker body with
    | (mant, None) =>
        match parse_mantissa mant with
        | Some (d, nfrac) => Some (float_of_decimal neg d (- nfrac))
        | None => None
        end
    | (mant, Some ex) =>
        match parse_mantissa mant, parse_exponent ex with
        | Some (d, nfrac), Some e => Some (float_of_decimal neg d (e - nfrac))
        | _, _ => None
        end
    end.

(** *** Fixed-point rendering, ['{:.Nf}'.format(f)] *)

(** A non-negative integer counted in units of [10^-n], written with
    [n] digits after the point (no point when [n = 0]). *)
Definition fixed_digits (n : nat) (scaled : Z) : string :=
  let ds := zfill (S n) (str_of_int scaled) in
  let k := (String.length ds - n)%nat in
  match n with
  | O => ds
  | _ => str_take k ds ++ "." ++ str_drop k ds
  end.

Definition sign_str (neg : bool) : string := if neg then "-" else "".

Definition format_fixed (n : nat) (f : pyfloat) : string :=
  match f with
  | S754_nan => "nan"
  | S754_infinity s => sign_str s ++ "inf"
  | S754_zero s => sign_str s ++ fixed_digits n 0
  | S754_finite s m e =>
      let scaled :=
        if 0 <=? e then Zpos m * 2 ^ e * 10 ^ Z.of_nat n
        else div_round_even (Zpos m * 10 ^ Z.of_nat n) (2 ^ (- e)) in
      sign_str s ++ fixed_digits n scaled
  end.

(** *** Shortest rendering, [repr(f)]

    [repr] of a finite float is the shortest decimal that reads back as
    the same float, and among those of that length the one nearest to
    it. *)

(** [10^x <= num / den], for positive [num] and [den]. *)
Definition pow10_le (x num den : Z) : bool :=
  if 0 <=? x then 10 ^ x * den <=? num else den <=? num * 10 ^ (- x).

(** The decimal exponent of [num / den]: the [x] with
    [10^x <= num/den < 10^(x+1)], searched around a first estimate. *)
Fixpoint adjust_exp10 (fuel : nat) (x num den : Z) : Z :=
  match fuel with
  | O => x
  | S fuel' =>
      if negb (pow10_le x num den) then adjust_exp10 fuel' (x - 1) num den
      else if pow10_le (x + 1) num den then adjust_exp10 fuel' (x + 1) num den
      else x
  end.

Definition nb_dec_digits (z : Z) : Z := Z.of_nat (String.length (str_of_int z)).

Definition exp10_of (num den : Z) : Z :=
  adjust_exp10 8 (nb_dec_digits num - nb_dec_digits den) num den.

(** Decidable identity of two floats (not Python's [==]). *)
Definition float_same (a b : pyfloat) : bool :=
  match a, b with
  | S754_zero s, S754_zero s' => Bool.eqb s s'
  | S754_infinity s, S754_infinity s' => Bool.eqb s s'
  | S754_nan, S754_nan => true
  | S754_finite s m e, S754_finite s' m' e' => Bool.eqb s s' && Pos.eqb m m' && Z.eqb e e'
  | _, _ => false
  end.

(** The decimal [(digits, exp10)] with [k] significant digits to print
    for the positive float [f = num / den] of decimal exponent [x], if
    one with [k] digits reads back as [f]. *)
Definition short_candidate (f : pyfloat) (num den x : Z) (k : Z) : option (Z * Z) :=
  let t := k - 1 - x in
  let n' := if 0 <=? t then num * 10 ^ t else num in
  let d' := if 0 <=? t then den else den * 10 ^ (- t) in
  let lo := n' / d' in
  let r := n' mod d' in
  let ok D := float_same (float_of_decimal false D (- t)) f in
  let hi := lo + 1 in
  match ok lo, (negb (r =? 0)) && ok hi with
  | true, true =>
      match 2 * r ?= d' with
      | Lt => Some (lo, - t)
      | Gt => Some (hi, - t)
      | Eq => Some (if Z.even lo then lo else hi, - t)
      end
  | true, false => Some (lo, - t)
  | false, true => Some (hi, - t)
  | false, false => None
  end.

(** The decimal that is the float [m * 2^e] exactly. *)
Definition exact_decimal (m : positive) (e : Z) : Z * Z :=
  if 0 <=? e then (Zpos m * 2 ^ e, 0) else (Zpos m * 5 ^ (- e), e).

(** Try [k], [k + 1], ... significant digits.  Seventeen always
    suffice; past them stands the exact decimal, which reads back as
    the float whatever its length. *)
Fixpoint shortest_from (fuel : nat) (f : pyfloat) (num den x : Z) (k : Z)
    (last : Z * Z) : Z * Z :=
  match fuel with
  | O => last
  | S fuel' =>
      match short_candidate f num den x k with
      | Some r => r
      | None => shortest_from fuel' f num den x (k + 1) last
      end
  end.

Fixpoint strip_trailing_zeros (s : string) : string :=
  match s with
  | EmptyString => EmptyString
  | String c s' =>
      match strip_trailing_zeros s' with
      | EmptyString => if Ascii.eqb c "0" then EmptyString else String c EmptyString
      | r => String c r
      end
  end.

(** Lay out the digit string [ds] whose decimal point stands after
    [decpt] digits, as [repr] does: plain notation when
    [-4 < decpt <= 16], exponent notation otherwise. *)
Definition repr_layout (ds : string) (decpt : Z) : string :=
  let n := Z.of_nat (String.length ds) in
  if (-4 <? decpt) && (decpt <=? 16) then
    if decpt <=? 0 then "0." ++ str_repeat "0" (Z.to_nat (- decpt)) ++ ds
    else if n <=? decpt then ds ++ str_repeat "0" (Z.to_nat (decpt - n)) ++ ".0"
    else str_take (Z.to_nat decpt) ds ++ "." ++ str_drop (Z.to_nat decpt) ds
  else
    let e := decpt - 1 in
    let mant := match ds with
                | String c EmptyString => ds
                | String c rest => String c ("." ++ rest)
                | EmptyString => ds
                end in
    mant ++ "e" ++ (if e <? 0 then "-" else "+") ++ zfill 2 (str_of_int (Z.abs e)).

Definition float_repr (f : pyfloat) : string :=
  match f with
  | S754_nan => "nan"
  | S754_infinity s => sign_str s ++ "inf"
  | S754_zero s => sign_str s ++ "0.0"
  | S754_finite s m e =>
      let num := if 0 <=? e then Zpos m * 2 ^ e else Zpos m in
      let den := if 0 <=? e then 1 else 2 ^ (- e) in
      let x := exp10_of num den in
      let '(D, e10) :=
        shortest_from 17 (S754_finite false m e) num den x 1 (exact_decimal m e) in
      let all := str_of_int D in
      let ds := strip_trailing_zeros all in
      sign_str s ++ repr_layout ds (Z.of_nat (String.length all) + e10)
  end.

(** ** Python values *)

#[warnings="-register-all"]
Inductive pyval : Type :=
| PNone
| PBool (b : bool)
| PInt (z : Z)
| PFloat (f : pyfloat)
| PStr (s : string)
| PList (l : list pyval)
| PDict (d : list (string * pyval)).

(** A [dict] with string keys, in insertion order, keys unique. *)
Definition pydict : Type := list (string * pyval).

(** Lookup in a table keyed by strings (first binding wins). *)
Fixpoint assoc {A : Type} (k : string) (l : list (string * A)) : option A :=
  match l with
  | [] => None
  | (k', v) :: l' => if String.eqb k' k then Some v else assoc k l'
  end.

(** [k in d] *)
Definition dict_mem {A : Type} (k : string) (d : list (string * A)) : bool :=
  match assoc k d with
  | Some _ => true
  | None => false
  end.

(** [d[k] = v]: an existing key keeps its place, a new one goes last. *)
Fixpoint dict_set {A : Type} (k : string) (v : A) (d : list (string * A))
    : list (string * A) :=
  match d with
  | [] => [(k, v)]
  | (k', v') :: d' =>
      if String.eqb k' k then (k', v) :: d' else (k', v') :: dict_set k v d'
  end.

(** [d.update(d2)] *)
Definition dict_update {A : Type} (d d2 : list (string * A)) : list (string * A) :=
  fold_left (fun acc kv => dict_set (fst kv) (snd kv) acc) d2 d.

(** [del d[k]] *)
Fixpoint dict_del {A : Type} (k : string) (d : list (string * A))
    : list (string * A) :=
  match d with
  | [] => []
  | (k', v') :: d' =>
      if String.eqb k' k then d' else (k', v') :: dict_del k d'
  end.

(** [list(d.keys())] *)
Definition dict_keys {A : Type} (d : list (string * A)) : list string :=
  map fst d.

(** [dict(pairs)] *)
Definition dict_of_pairs {A : Type} (pairs : list (string * A)) : list (string * A) :=
  dict_update [] pairs.

(** Truth value of an object, as [if v:] and [not v] test it. *)
Definition truthy (v : pyval) : bool :=
  match v with
  | PNone => false
  | PBool b => b
  | PInt z => negb (z =? 0)
  | PFloat (S754_zero _) => false
  | PFloat _ => true
  | PStr EmptyString => false
  | PStr _ => true
  | PList [] => false
  | PList _ => true
  | PDict [] => false
  | PDict _ => true
  end.

(** *** Equality, [a == b] *)

Definition float_eq (a b : pyfloat) : bool := SFeqb a b.

(** An [int] against a [float]: the float must have exactly that value. *)
Definition float_eq_int (f : pyfloat) (z : Z) : bool :=
  match f with
  | S754_zero _ => z =? 0
  | S754_finite s m e =>
      let sm := if s then Zneg m else Zpos m in
      if 0 <=? e then sm * 2 ^ e =? z else sm =? z * 2 ^ (- e)
  | _ => false
  end.

Definition int_of_bool (b : bool) : Z := if b then 1 else 0.

(** [a == b].  Containers compare their items with [==]; the shortcut
    CPython takes for two references to one and the same object is not
    modelled, the values compared here are always distinct objects. *)
Fixpoint py_eq (a b : pyval) : bool :=
  match a, b with
  | PNone, PNone => true
  | PBool x, PBool y => Bool.eqb x y
  | PBool x, PInt z | PInt z, PBool x => int_of_bool x =? z
  | PBool x, PFloat f | PFloat f, PBool x => float_eq_int f (int_of_bool x)
  | PInt x, PInt y => x =? y
  | PInt z, PFloat f | PFloat f, PInt z => float_eq_int f z
  | PFloat f, PFloat g => float_eq f g
  | PStr s, PStr t => String.eqb s t
  | PList l, PList l' =>
      (fix go (l l' : list pyval) : bool :=
         match l, l' with
         | [], [] => true
         | x :: xs, y :: ys => py_eq x y && go xs ys
         | _, _ => false
         end) l l'
  | PDict d, PDict d' =>
      (List.length d =? List.length d')%nat &&
      (fix go (d : list (string * pyval)) : bool :=
         match d with
         | [] => true
         | (k, v) :: r =>
             match assoc k d' with
             | Some v' => py_eq v v'
             | None => false
             end && go r
         end) d
  | _, _ => false
  end.

(** *** [str(v)] and [format] *)

(** [str(v)]; the text of a list or a dict is outside the model. *)
Definition py_str (v : pyval) : res string :=
  match v with
  | PNone => Ok "None"
  | PBool true => Ok "True"
  | PBool false => Ok "False"
  | PInt z => int_str z
  | PFloat f => Ok (float_repr f)
  | PStr s => Ok s
  | PList _ | PDict _ => Raise Unmodelled
  end.

(** A format specification [[width][.precision][type]]. *)
Record fmt_spec : Type := {
  fs_width : option nat;
  fs_prec : option nat;
  fs_type : option ascii
}.

Fixpoint take_digits (s : string) : string * string :=
  match s with
  | EmptyString => (EmptyString, EmptyString)
  | String c s' =>
      if is_digit c then let '(ds, r) := take_digits s' in (String c ds, r)
      else (EmptyString, s)
  end.

Definition nat_of_digits (ds : string) : option nat :=
  match ds with
  | EmptyString => None
  | _ => match NilEmpty.uint_of_string ds with
         | Some u => Some (Nat.of_uint u)
         | None => None
         end
  end.

(** Read a format specification; anything beyond width, precision and a
    type among [d], [f], [s] is outside the model. *)
Definition parse_spec (s : string) : res fmt_spec :=
  let '(w, r1) := take_digits s in
  let wd := match w with
            | String "0" _ => None
            | _ => Some (nat_of_digits w)
            end in
  match wd with
  | None => Raise Unmodelled
  | Some width =>
      let '(prec_o, r2) :=
        match r1 with
        | String "." r => let '(p, r') := take_digits r in (Some (nat_of_digits p), r')
        | _ => (None, r1)
        end in
      match prec_o with
      | Some None => Raise ValueError
      | _ =>
          let precision := match prec_o with Some p => p | None => None end in
          match r2 with
          | EmptyString => Ok {| fs_width := width; fs_prec := precision; fs_type := None |}
          | String c EmptyString =>
              if Ascii.eqb c "d" || Ascii.eqb c "f" || Ascii.eqb c "s"
              then Ok {| fs_width := width; fs_prec := precision; fs_type := Some c |}
              else Raise Unmodelled
          | _ => Raise Unmodelled
          end
      end
  end.

(** Numbers are right-aligned in their field, strings left-aligned. *)
Definition rjust (w : option nat) (s : string) : string :=
  match w with
  | Some n => str_repeat " " (n - String.length s) ++ s
  | None => s
  end.

Definition ljust_opt (w : option nat) (s : string) : string :=
  match w with
  | Some n => ljust n s
  | None => s
  end.

(** [format(v, spec)] *)
Definition format_value (spec : fmt_spec) (v : pyval) : res string :=
  match fs_type spec with
  | Some "d"%char =>
      match fs_prec spec, v with
      | Some _, (PInt _ | PBool _) => Raise ValueError
      | None, PInt z => s <- int_str z ;; Ok (rjust (fs_width spec) s)
      | None, PBool b => Ok (rjust (fs_width spec) (str_of_int (int_of_bool b)))
      | _, (PFloat _ | PStr _) => Raise ValueError
      | _, _ => Raise TypeError
      end
  | Some "f"%char =>
      let n := match fs_prec spec with Some p => p | None => 6%nat end in
      match v with
      | PFloat f => Ok (rjust (fs_width spec) (format_fixed n f))
      | PInt z => f <- float_of_int z ;; Ok (rjust (fs_width spec) (format_fixed n f))
      | PBool b => f <- float_of_int (int_of_bool b) ;;
                   Ok (rjust (fs_width spec) (format_fixed n f))
      | PStr _ => Raise ValueError
      | _ => Raise TypeError
      end
  | Some "s"%char =>
      match v with
      | PStr s =>
          let s' := match fs_prec spec with Some p => str_take p s | None => s end in
          Ok (ljust_opt (fs_width spec) s')
      | PInt _ | PBool _ | PFloat _ => Raise ValueError
      | _ => Raise TypeError
      end
  | _ =>
      match fs_width spec, fs_prec spec, v with
      | None, None, _ => py_str v
      | _, _, PStr s =>
          let s' := match fs_prec spec with Some p => str_take p s | None => s end in
          Ok (ljust_opt (fs_width spec) s')
      | None, _, (PNone | PList _ | PDict _) => Raise TypeError
      | _, _, _ => Raise Unmodelled
      end
  end.

(** A replacement field [{...}] of a template; only the automatic
    numbering with an optional [:spec] is modelled. *)
Definition parse_field (body : string) : res fmt_spec :=
  match body with
  | EmptyString => Ok {| fs_width := None; fs_prec := None; fs_type := None |}
  | String ":" spec => parse_spec spec
  | _ => Raise Unmodelled
  end.

(** Where the scan of a template stands. *)
Inductive fmt_state : Type :=
| FLit                         (* in literal text *)
| FOpen                        (* just after an opening brace *)
| FField (body_rev : string)   (* inside a field, body read so far, reversed *)
| FClose.                      (* just after a closing brace in literal text *)

Fixpoint str_rev_append (s acc : string) : string :=
  match s with
  | EmptyString => acc
  | String c s' => str_rev_append s' (String c acc)
  end.

Definition render_field (body_rev : string) (args : list pyval)
    : res (string * list pyval) :=
  match args with
  | [] => Raise IndexError
  | v :: args' =>
      spec <- parse_field (str_rev_append body_rev "") ;;
      out <- format_value spec v ;;
      Ok (out, args')
  end.

Fixpoint format_go (st : fmt_state) (tpl : string) (args : list pyval) : res string :=
  match tpl with
  | EmptyString =>
      match st with
      | FLit => Ok ""
      | _ => Raise ValueError
      end
  | String c tpl' =>
      match st with
      | FLit =>
          if Ascii.eqb c "{" then format_go FOpen tpl' args
          else if Ascii.eqb c "}" then format_go FClose tpl' args
          else r <- format_go FLit tpl' args ;; Ok (String c r)
      | FOpen =>
          if Ascii.eqb c "{" then r <- format_go FLit tpl' args ;; Ok (String c r)
          else if Ascii.eqb c "}" then
            ' (out, args') <- render_field "" args ;;
            r <- format_go FLit tpl' args' ;; Ok (out ++ r)
          else format_go (FField (String c "")) tpl' args
      | FField body =>
          if Ascii.eqb c "}" then
            ' (out, args') <- render_field body args ;;
            r <- format_go FLit tpl' args' ;; Ok (out ++ r)
          else if Ascii.eqb c "{" then Raise Unmodelled
          else format_go (FField (String c body)) tpl' args
      | FClose =>
          if Ascii.eqb c "}" then r <- format_go FLit tpl' args ;; Ok (String c r)
          else Raise ValueError
      end
  end.

(** [tpl.format(args...)] *)
Definition py_format (tpl : string) (args : list pyval) : res string :=
  format_go FLit tpl args.

(** ** JSON, as the [json] module of the standard library writes and
       reads it (default options) *)

(** *** [json.dumps] *)

Definition hex_digit (n : nat) : ascii :=
  if (n <? 10)%nat then chr (48 + n) else chr (87 + n).

(** One character inside a JSON string: printable ASCII stands for
    itself, the rest is escaped. *)
Definition json_escape_char (c : ascii) : string :=
  let n := ord c in
  if Ascii.eqb c dquote then String "\" (String dquote "")
  else if Ascii.eqb c "\" then "\\"
  else if (n =? 10)%nat then "\n"
  else if (n =? 13)%nat then "\r"
  else if (n =? 9)%nat then "\t"
  else if (n =? 8)%nat then "\b"
  else if (n =? 12)%nat then "\f"
  else if (32 <=? n)%nat && (n <=? 126)%nat then String c ""
  else String "\" (String "u" (String "0" (String "0"
         (String (hex_digit (n / 16)) (String (hex_digit (n mod 16)) ""))))).

Fixpoint json_escape (s : string) : string :=
  match s with
  | EmptyString => EmptyString
  | String c s' => json_escape_char c ++ json_escape s'
  end.

Definition json_string (s : string) : string :=
  String dquote (json_escape s ++ String dquote "").

Definition json_float (f : pyfloat) : string :=
  match f with
  | S754_nan => "NaN"
  | S754_infinity false => "Infinity"
  | S754_infinity true => "-Infinity"
  | _ => float_repr f
  end.

Fixpoint json_dumps (v : pyval) : string :=
  match v with
  | PNone => "null"
  | PBool true => "true"
  | PBool false => "false"
  | PInt z => str_of_int z
  | PFloat f => json_float f
  | PStr s => json_string s
  | PList l =>
      "[" ++
      (fix elems (l : list pyval) : string :=
         match l with
         | [] => ""
         | x :: r =>
             match r with
             | [] => json_dumps x
             | _ => json_dumps x ++ ", " ++ elems r
             end
         end) l ++ "]"
  | PDict d =>
      "{" ++
      (fix items (d : list (string * pyval)) : string :=
         match d with
         | [] => ""
         | (k, x) :: r =>
             match r with
             | [] => json_string k ++ ": " ++ json_dumps x
             | _ => json_string k ++ ": " ++ json_dumps x ++ ", " ++ items r
             end
         end) d ++ "}"
  end.

(** *** [json.loads] *)

Definition is_json_ws (c : ascii) : bool :=
  Ascii.eqb c " " || (ord c =? 9)%nat || (ord c =? 10)%nat || (ord c =? 13)%nat.

Fixpoint skip_ws (s : string) : string :=
  match s with
  | EmptyString => EmptyString
  | String c s' => if is_json_ws c then skip_ws s' else s
  end.

Definition hex_value (c : ascii) : option nat :=
  let n := ord c in
  if (48 <=? n)%nat && (n <=? 57)%nat then Some (n - 48)%nat
  else if (97 <=? n)%nat && (n <=? 102)%nat then Some (n - 87)%nat
  else if (65 <=? n)%nat && (n <=? 70)%nat then Some (n - 55)%nat
  else None.

(** The code point written by four hexadecimal digits. *)
Definition hex4 (a b c d : ascii) : option nat :=
  match hex_value a, hex_value b, hex_value c, hex_value d with
  | Some x, Some y, Some z, Some w => Some (((x * 16 + y) * 16 + z) * 16 + w)%nat
  | _, _, _, _ => None
  end.

(** The contents of a string literal, after its opening quote, and the
    text after its closing quote.  An escape for a code point above 255
    is outside the model. *)
Fixpoint scan_string (s : string) : res (string * string) :=
  match s with
  | EmptyString => Raise ValueError
  | String c s' =>
      if Ascii.eqb c dquote then Ok (EmptyString, s')
      else if Ascii.eqb c "\" then
        match s' with
        | String e s'' =>
            if Ascii.eqb e "u" then
              match s'' with
              | String h1 (String h2 (String h3 (String h4 rest))) =>
                  match hex4 h1 h2 h3 h4 with
                  | Some n =>
                      if (n <? 256)%nat then
                        ' (str, after) <- scan_string rest ;;
                        Ok (String (chr n) str, after)
                      else Raise Unmodelled
                  | None => Raise ValueError
                  end
              | _ => Raise ValueError
              end
            else
              let plain :=
                if Ascii.eqb e dquote then Some e
                else if Ascii.eqb e "\" then Some e
                else if Ascii.eqb e "/" then Some e
                else if Ascii.eqb e "b" then Some (chr 8)
                else if Ascii.eqb e "f" then Some (chr 12)
                else if Ascii.eqb e "n" then Some (chr 10)
                else if Ascii.eqb e "r" then Some (chr 13)
                else if Ascii.eqb e "t" then Some (chr 9)
                else None in
              match plain with
              | Some ch =>
                  ' (str, after) <- scan_string s'' ;;
                  Ok (String ch str, after)
              | None => Raise ValueError
              end
        | EmptyString => Raise ValueError
        end
      else if (ord c <? 32)%nat then Raise ValueError
      else
        ' (str, after) <- scan_string s' ;;
        Ok (String c str, after)
  end.

(** The characters a number can be made of. *)
Definition is_number_char (c : ascii) : bool :=
  is_digit c || Ascii.eqb c "-" || Ascii.eqb c "+" || Ascii.eqb c "."
  || Ascii.eqb c "e" || Ascii.eqb c "E".

(** The longest run of number characters at the start of [s]. *)
Fixpoint take_number (s : string) : string * string :=
  match s with
  | EmptyString => (EmptyString, EmptyString)
  | String c s' =>
      if is_number_char c then let '(t, r) := take_number s' in (String c t, r)
      else (EmptyString, s)
  end.

Definition all_digits (s : string) : bool :=
  match s with
  | EmptyString => false
  | _ => str_forallb is_digit s
  end.

(** The integer part of a JSON number: [0], or digits not starting
    with [0]. *)
Definition json_int_part (s : string) : bool :=
  match s with
  | String c r =>
      if Ascii.eqb c "0" then
        match r with
        | EmptyString => true
        | _ => false
        end
      else all_digits s
  | EmptyString => false
  end.

Definition json_exp_part (s : string) : bool :=
  match s with
  | String c r =>
      if Ascii.eqb c "+" || Ascii.eqb c "-" then all_digits r else all_digits s
  | EmptyString => false
  end.

Definition drop_minus (s : string) : string :=
  match s with
  | String c r => if Ascii.eqb c "-" then r else s
  | EmptyString => s
  end.

(** A whole number token: an integer gives an [int], a fraction or an
    exponent makes it a [float]. *)
Definition json_number (tok : string) : res pyval :=
  let '(mant, ex) := split_at is_exp_marker (drop_minus tok) in
  let '(ip, fp) := split_at is_point mant in
  let ok :=
    json_int_part ip
    && match fp with Some f => all_digits f | None => true end
    && match ex with Some e => json_exp_part e | None => true end in
  if ok then
    match fp, ex with
    | None, None =>
        match py_int tok with
        | Some z => Ok (PInt z)
        | None => Raise ValueError
        end
    | _, _ =>
        match py_float tok with
        | Some f => Ok (PFloat f)
        | None => Raise ValueError
        end
    end
  else Raise ValueError.

(** A value that is neither a string, an object nor an array: one of
    the literal names, or a number. *)
Definition parse_atom (s : string) : res (pyval * string) :=
  if String.prefix "null" s then Ok (PNone, str_drop 4 s)
  else if String.prefix "true" s then Ok (PBool true, str_drop 4 s)
  else if String.prefix "false" s then Ok (PBool false, str_drop 5 s)
  else if String.prefix "NaN" s then Ok (PFloat S754_nan, str_drop 3 s)
  else if String.prefix "Infinity" s then Ok (PFloat (S754_infinity false), str_drop 8 s)
  else if String.prefix "-Infinity" s then Ok (PFloat (S754_infinity true), str_drop 9 s)
  else
    let '(tok, rest) := take_number s in
    v <- json_number tok ;; Ok (v, rest).

(** The scanner.  [parse_value] reads one value at the very start of
    the text, [parse_members] the members of an object from just after
    the opening quote of a key, [parse_elements] the elements of an
    array; each returns what is left of the text.  The [fuel] bounds
    the number of nested and successive steps.  A value nested in
    another costs two steps and one character at least, a value that
    follows another one step and two characters, so twice the length of
    the text, and one, is always enough. *)
Fixpoint parse_value (fuel : nat) (s : string) : res (pyval * string) :=
  match fuel with
  | O => Raise Unmodelled
  | S fuel' =>
      match s with
      | EmptyString => Raise ValueError
      | String c s' =>
          if Ascii.eqb c dquote then
            ' (str, rest) <- scan_string s' ;; Ok (PStr str, rest)
          else if Ascii.eqb c "{" then
            match skip_ws s' with
            | String c2 rest =>
                if Ascii.eqb c2 "}" then Ok (PDict [], rest)
                else if Ascii.eqb c2 dquote then parse_members fuel' rest []
                else Raise ValueError
            | EmptyString => Raise ValueError
            end
          else if Ascii.eqb c "[" then
            match skip_ws s' with
            | String c2 rest =>
                if Ascii.eqb c2 "]" then Ok (PList [], rest)
                else parse_elements fuel' (String c2 rest) []
            | EmptyString => Raise ValueError
            end
          else parse_atom s
      end
  end

with parse_members (fuel : nat) (s : string) (pairs : list (string * pyval))
    : res (pyval * string) :=
  match fuel with
  | O => Raise Unmodelled
  | S fuel' =>
      ' (key, after_key) <- scan_string s ;;
      match skip_ws after_key with
      | String c after_colon =>
          if Ascii.eqb c ":" then
            ' (v, after_value) <- parse_value fuel' (skip_ws after_colon) ;;
            let pairs' := (pairs ++ [(key, v)])%list in
            match skip_ws after_value with
            | String c2 rest =>
                if Ascii.eqb c2 "}" then Ok (PDict (dict_of_pairs pairs'), rest)
                else if Ascii.eqb c2 "," then
                  match skip_ws rest with
                  | String c3 rest' =>
                      if Ascii.eqb c3 dquote then parse_members fuel' rest' pairs'
                      else Raise ValueError
                  | EmptyString => Raise ValueError
                  end
                else Raise ValueError
            | EmptyString => Raise ValueError
            end
          else Raise ValueError
      | EmptyString => Raise ValueError
      end
  end

with parse_elements (fuel : nat) (s : string) (elems : list pyval)
    : res (pyval * string) :=
  match fuel with
  | O => Raise Unmodelled
  | S fuel' =>
      ' (v, after_value) <- parse_value fuel' s ;;
      let elems' := (elems ++ [v])%list in
      match skip_ws after_value with
      | String c2 rest =>
          if Ascii.eqb c2 "]" then Ok (PList elems', rest)
          else if Ascii.eqb c2 "," then parse_elements fuel' (skip_ws rest) elems'
          else Raise ValueError
      | EmptyString => Raise ValueError
      end
  end.

(** [json.loads(text)]: one value, with whitespace allowed around it and
    nothing else. *)
Definition json_loads (text : string) : res pyval :=
  ' (v, rest) <- parse_value (S (2 * String.length text)) (skip_ws text) ;;
  match skip_ws rest with
  | EmptyString => Ok v
  | _ => Raise ValueError
  end.

(** ** Schema registry *)

(** One entry of a schema: key, description, display template. *)
Definition str_entry : Type := (string * string * string)%type.

Definition entry_key (e : str_entry) : string := fst (fst e).
Definition entry_descr (e : str_entry) : string := snd (fst e).
Definition entry_units (e : str_entry) : string := snd e.

Definition CONFIG_STR : list (string * list str_entry) :=
  [ ("sys",
     [ ("fb",   "firmware build",              "{:.2f}");
       ("fv",   "firmware version",            "{:.2f}");
       ("hp",   "hardware platform",           "{:.2f}");
       ("hv",   "hardware version",            "{:.2f}");
       ("id",   "TinyG ID",                    "{}");
       ("ja",   "junction acceleration",       "{:d} mm");
       ("ct",   "chordal tolerance",           "{:.4f} mm");
       ("sl",   "soft limit enable",           "{:d}");
       ("st",   "switch type",                 "{:d} [0=NO,1=NC]");
       ("mt",   "motor idle timeout",          "{:.2f} Sec");
       ("ej",   "enable json mode",            "{:d} [0=text,1=JSON]");
       ("jv",   "json verbosity",              "{:d} [0=silent,1=footer,2=messages,3=configs,4=linenum,5=verbose]");
       ("js",   "json serialize style",        "{:d} [0=relaxed,1=strict]");
       ("tv",   "text verbosity",              "{:d} [0=silent,1=verbose]");
       ("qv",   "queue report verbosity",      "{:d} [0=off,1=single,2=triple]");
       ("sv",   "status report verbosity",     "{:d} [0=off,1=filtered,2=verbose]");
       ("si",   "status interval",             "{:d} ms");
       ("ec",   "expand LF to CRLF on TX",     "{:d} [0=off,1=on]");
       ("ee",   "enable echo",                 "{:d} [0=off,1=on]");
       ("ex",   "enable flow control",         "{:d} [0=off,1=XON/XOFF, 2=RTS/CTS]");
       ("baud", "USB baud rate",               "{:d} [1=9600,2=19200,3=38400,4=57600,5=115200,6=230400]");
       ("net",  "network mode",                "{:d} [0=master]");
       ("gpl",  "default gcode plane",         "{:d} [0=G17,1=G18,2=G19]");
       ("gun",  "default gcode units mode",    "{:d} [0=G20,1=G21]");
       ("gco",  "default gcode coord system",  "{:d} [1-6 (G54-G59)]");
       ("gpa",  "default gcode path control",  "{:d} [0=G61,1=G61.1,2=G64]");
       ("gdi",  "default gcode distance mode", "{:d} [0=G90,1=G91]") ]);
    ("1",
     [ ("ma",   "map to axis",                 "{:d} [0=X,1=Y,2=Z...]");
       ("sa",   "step angle",                  "{:.3f} deg");
       ("tr",   "travel per revolution",       "{:.4f} mm");
       ("mi",   "microsteps",                  "{:d} [1,2,4,8]");
       ("po",   "polarity",                    "{:d} [0=normal,1=reverse]");
       ("pm",   "power management",            "{:d} [0=disabled,1=always on,2=in cycle,3=when moving]") ]);
    ("x",
     [ ("am",   "axis mode",                   "{:d} [standard]");
       ("vm",   "velocity maximum",            "{:d} mm/min");
       ("fr",   "feedrate maximum",            "{:d} mm/min");
       ("tn",   "travel minimum",              "{:.3f} mm");
       ("tm",   "travel maximum",              "{:.3f} mm");
       ("jm",   "jerk maximum",                "{:d} mm/min^3 * 1 million");
       ("jh",   "jerk homing",                 "{:d} mm/min^3 * 1 million");
       ("jd",   "junction deviation",          "{:.4f} mm (larger is faster)");
       ("sn",   "switch min",                  "{:d} [0=off,1=homing,2=limit,3=limit+homing]");
       ("sx",   "switch max",                  "{:d} [0=off,1=homing,2=limit,3=limit+homing]");
       ("sv",   "search velocity",             "{:d} mm/min");
       ("lv",   "latch velocity",              "{:d} mm/min");
       ("lb",   "latch backoff",               "{:.3f} mm");
       ("zb",   "zero backoff",                "{:.3f} mm") ]);
    ("a",
     [ ("am",   "axis mode",                   "{:d} [radius]");
       ("vm",   "velocity maximum",            "{:d} deg/min");
       ("fr",   "feedrate maximum",            "{:d} deg/min");
       ("tn",   "travel minimum",              "{:.3f} deg");
       ("tm",   "travel maximum",              "{:.3f} deg");
       ("jm",   "jerk maximum",                "{:d} deg/min^3 * 1 million");
       ("jh",   "jerk homing",                 "{:d} deg/min^3 * 1 million");
       ("jd",   "junction deviation",          "{:.4f} deg (larger is faster)");
       ("ra",   "radius value",                "{:.4f} deg");
       ("sn",   "switch min",                  "{:d} [0=off,1=homing,2=limit,3=limit+homing]");
       ("sx",   "switch max",                  "{:d} [0=off,1=homing,2=limit,3=limit+homing]");
       ("sv",   "search velocity",             "{:d} deg/min");
       ("lv",   "latch velocity",              "{:d} deg/min");
       ("lb",   "latch backoff",               "{:.3f} deg");
       ("zb",   "zero backoff",                "{:.3f} deg") ]);
    ("p",
     [ ("frq",  "pwm frequency",               "{:d} Hz");
       ("csl",  "pwm cw speed lo",             "{:d} RPM");
       ("csh",  "pwm cw speed hi",             "{:d} RPM");
       ("cpl",  "pwm cw phase lo",             "{:.3f} [0..1]");
       ("cph",  "pwm cw phase hi",             "{:.3f} [0..1]");
       ("wsl",  "pwm ccw speed lo",            "{:d} RPM");
       ("wsh",  "pwm ccw speed hi",            "{:d} RPM");
       ("wpl",  "pwm ccw phase lo",            "{:.3f} [0..1]");
       ("wph",  "pwm ccw phase hi",            "{:.3f} [0..1]");
       ("pof",  "pwm phase off",               "{:.3f} [0..1]") ]);
    ("g",
     [ ("x",    "x offset",                    "{:.3f} mm");
       ("y",    "y offset",                    "{:.3f} mm");
       ("z",    "z offset",                    "{:.3f} mm");
       ("a",    "a offset",                    "{:.3f} deg");
       ("b",    "b offset",                    "{:.3f} deg");
       ("c",    "c offset",                    "{:.3f} deg") ]);
    ("h",
     [ ("x",    "x position",                  "{:.3f} mm");
       ("y",    "y position",                  "{:.3f} mm");
       ("z",    "z position",                  "{:.3f} mm");
       ("a",    "a position",                  "{:.3f} deg");
       ("b",    "b position",                  "{:.3f} deg");
       ("c",    "c position",                  "{:.3f} deg") ]) ].

Definition CONFIG_MAP : list (string * string) :=
  [ ("sys", "sys");
    ("1", "1"); ("2", "1"); ("3", "1"); ("4", "1");
    ("x", "x"); ("y", "x"); ("z", "x");
    ("a", "a"); ("b", "a"); ("c", "a");
    ("p1", "p");
    ("g54", "g"); ("g55", "g"); ("g56", "g"); ("g57", "g"); ("g58", "g");
    ("g59", "g"); ("g92", "g");
    ("g28", "h"); ("g30", "h") ].

Definition CONFIG_READ_ONLY : list (string * list string) :=
  [ ("sys", ["fb"; "fv"; "hp"; "hv"; "id"; "baud"]) ].

Definition AXIS_MODE : list string :=
  ["[disabled]"; "[standard]"; "[inhibited]"; "[radius]"].

(** [CONFIG_STR[name]]: a missing schema name is a KeyError. *)
Definition CONFIG_STR_get (name : string) : res (list str_entry) :=
  match assoc name CONFIG_STR with
  | Some strs => Ok strs
  | None => Raise KeyError
  end.

(** The loop of [get_group_strs] over the remaining map entries; falling
    off the end of the loop returns [None]. *)
Fixpoint get_group_strs_from (entries : list (string * string))
    (group_id : string) : res (option (list str_entry)) :=
  match entries with
  | [] => Ok None
  | mapEntry :: rest =>
      if String.eqb (fst mapEntry) group_id
      then strs <- CONFIG_STR_get (snd mapEntry) ;; Ok (Some strs)
      else get_group_strs_from rest group_id
  end.

Definition get_group_strs (group_id : string) : res (option (list str_entry)) :=
  get_group_strs_from CONFIG_MAP group_id.

(** The loop [for entry in group_strs: if entry[0] == id: return True]. *)
Fixpoint id_in_strs (id : string) (group_strs : list str_entry) : bool :=
  match group_strs with
  | [] => false
  | entry :: rest => if String.eqb (entry_key entry) id then true else id_in_strs id rest
  end.

(** Iterating over [None] (unknown group id) is a TypeError. *)
Definition is_id_in_group (id group_id : string) : res bool :=
  group_strs <- get_group_strs group_id ;;
  match group_strs with
  | None => Raise TypeError
  | Some strs => Ok (id_in_strs id strs)
  end.

(** The loop of [id_to_group_key] over the remaining map entries. *)
Fixpoint id_to_group_key_from (entries : list (string * string)) (id : string)
    : res (option (string * string)) :=
  match entries with
  | [] => Ok None
  | mapEntry :: rest =>
      let group_id := fst mapEntry in
      if startswith id group_id then
        let group_key := str_drop (String.length group_id) id in
        found <- is_id_in_group group_key group_id ;;
        if found then Ok (Some (group_id, group_key))
        else id_to_group_key_from rest id
      else id_to_group_key_from rest id
  end.

Definition id_to_group_key (id : string) : res (option (string * string)) :=
  in_sys <- is_id_in_group id "sys" ;;
  if in_sys then Ok (Some ("sys", id))
  else id_to_group_key_from CONFIG_MAP id.

(** The flat key under which the text dump shows a field. *)
Definition flat_key (group_id key : string) : string :=
  if String.eqb group_id "sys" then key else group_id ++ key.

(** All (group id, key) pairs reachable through the group mapping. *)
Definition reachable_pairs : list (string * string) :=
  flat_map (fun mapEntry =>
              match assoc (snd mapEntry) CONFIG_STR with
              | Some strs => map (fun e => (fst mapEntry, entry_key e)) strs
              | None => []
              end) CONFIG_MAP.

Definition resolves (p : string * string) : bool :=
  match id_to_group_key (flat_key (fst p) (snd p)) with
  | Ok (Some (g, k)) => String.eqb g (fst p) && String.eqb k (snd p)
  | _ => false
  end.


(** ** Scalars read from text *)

(** [is_number(s)]: does [float(s)] succeed? *)
Definition is_number (s : string) : bool :=
  match py_float s with
  | Some _ => true
  | None => false
  end.

(** [get_val(val_str)]: an integer, else a float, else the string. *)
Definition get_val (val_str : string) : pyval :=
  match py_int val_str with
  | Some z => PInt z
  | None =>
      match py_float val_str with
      | Some f => PFloat f
      | None => PStr val_str
      end
  end.

(** ** The class [Config]

    An instance is its attribute [config], a dictionary from group id to
    the group's dictionary.  The model is for [verbose = False]. *)

(** [target.update(other)] for a dictionary [target].  Updating from a
    non-empty list (of key-value pairs) is outside the model. *)
Definition py_dict_update (target : pydict) (other : pyval) : res pydict :=
  match other with
  | PDict d2 => Ok (dict_update target d2)
  | PList [] => Ok target
  | PStr EmptyString => Ok target
  | PStr _ => Raise ValueError
  | PList _ => Raise Unmodelled
  | PNone | PBool _ | PInt _ | PFloat _ => Raise TypeError
  end.

(** One round of the loop of [add_group], for the key [key] of
    [group_dict] and its value. *)
Definition add_group_item (config : pydict) (key : string) (val : pyval) : res pydict :=
  match assoc key config with
  | Some (PDict group) =>
      group' <- py_dict_update group val ;;
      Ok (dict_set key (PDict group') config)
  | Some _ => Raise AttributeError
  | None => Ok (dict_set key val config)
  end.

Fixpoint add_group_items (config : pydict) (items : list (string * pyval)) : res pydict :=
  match items with
  | [] => Ok config
  | (key, val) :: rest =>
      config' <- add_group_item config key val ;;
      add_group_items config' rest
  end.

(** [Config.add_group].  [group_dict] is a dictionary in every call the
    module makes, except for the payload of a reply in [read_config];
    iterating over a non-empty list is outside the model.

    Dictionaries are values here and carry no identity.  The code
    stores the dictionary of the payload itself under a new group and
    updates the dictionary of a group already there in place, so in a
    store where two groups are one dictionary object a merge into one
    shows in the other, and a payload dictionary changed after the
    call changes the store.  The model describes the stores in which
    no dictionary object is shared. *)
Definition add_group (config : pydict) (group_dict : pyval) : res pydict :=
  match group_dict with
  | PDict items => add_group_items config items
  | PStr EmptyString => Ok config
  | PStr (String c _) =>
      match assoc (String c EmptyString) config with
      | Some (PDict _) | None => Raise TypeError
      | Some _ => Raise AttributeError
      end
  | PList [] => Ok config
  | PList _ => Raise Unmodelled
  | PNone | PBool _ | PInt _ | PFloat _ => Raise TypeError
  end.

(** [Config.get_group]: a copy of the group's dictionary, or [None].
    A group that is a list is outside the model. *)
Definition get_group (config : pydict) (group_id : string) : res (option pydict) :=
  match assoc group_id config with
  | None => Ok None
  | Some (PDict group) => Ok (Some group)
  | Some (PList _) => Raise Unmodelled
  | Some _ => Raise AttributeError
  end.

(** [Config.write]: the text written to the file. *)
Definition write (config : pydict) : string :=
  json_dumps (PDict config) ++ String (chr 10) "".

(** The first field of [fields] that looks like a number. *)
Fixpoint first_number (fields : list string) : option string :=
  match fields with
  | [] => None
  | field :: rest => if is_number field then Some field else first_number rest
  end.

(** One round of the loop of [read_text]. *)
Definition read_text_line (config : pydict) (line : string) : res pydict :=
  match line with
  | EmptyString => Raise IndexError
  | String c _ =>
      if negb (Ascii.eqb c "[") then Ok config
      else
        let fields := split (strip line) in
        match re_search_bracket (hd "" fields) with
        | None => Raise AttributeError
        | Some key =>
            val_str <-
              (if String.eqb key "id" then
                 match nth_error fields 3 with
                 | Some field => Ok (Some field)
                 | None => Raise IndexError
                 end
               else Ok (first_number (tl fields))) ;;
            resolved <- id_to_group_key key ;;
            match resolved, val_str with
            | None, _ => Raise TypeError
            | Some _, None => Raise TypeError
            | Some (group_id, group_key), Some s =>
                add_group config (PDict [(group_id, PDict [(group_key, get_val s)])])
            end
        end
  end.

(** [Config.read_text] *)
Fixpoint read_text (config : pydict) (lines : list string) : res pydict :=
  match lines with
  | [] => Ok config
  | line :: rest =>
      config' <- read_text_line config line ;;
      read_text config' rest
  end.

(** The loop of [read] over the keys of the parsed document. *)
Fixpoint read_json_items (config : pydict) (items : list (string * pyval)) : res pydict :=
  match items with
  | [] => Ok config
  | (key, val) :: rest =>
      config' <- add_group config (PDict [(key, val)]) ;;
      read_json_items config' rest
  end.

(** [Config.read], on the text of the file.  A document that is not an
    object cannot pass the test on the first character; looping over a
    string or a list is outside the model. *)
Definition read (config : pydict) (text : string) : res pydict :=
  let lines := readlines text in
  let is_text :=
    match lines with
    | (String c _) :: _ => negb (Ascii.eqb c "{")
    | _ => false
    end in
  if is_text then read_text config lines
  else
    cfg_dict <- json_loads (str_join " " lines) ;;
    match cfg_dict with
    | PDict items => read_json_items config items
    | PNone | PBool _ | PInt _ | PFloat _ => Raise TypeError
    | PStr _ | PList _ => Raise Unmodelled
    end.

(** *** [Config.dump_formatted] *)

(** [key in vals] *)
Definition py_contains (key : string) (vals : pyval) : res bool :=
  match vals with
  | PDict d => Ok (dict_mem key d)
  | PStr s => Ok (str_contains s key)
  | PList l => Ok (existsb (py_eq (PStr key)) l)
  | PNone | PBool _ | PInt _ | PFloat _ => Raise TypeError
  end.

(** [vals[key]] for a string [key] *)
Definition py_getitem (vals : pyval) (key : string) : res pyval :=
  match vals with
  | PDict d =>
      match assoc key d with
      | Some v => Ok v
      | None => Raise KeyError
      end
  | _ => Raise TypeError
  end.

(** [AXIS_MODE[val]]: a negative index counts from the end. *)
Definition axis_mode_at (val : pyval) : res string :=
  let at_index (z : Z) : res string :=
    let n := Z.of_nat (List.length AXIS_MODE) in
    let i := if z <? 0 then z + n else z in
    if (0 <=? i) && (i <? n) then
      match nth_error AXIS_MODE (Z.to_nat i) with
      | Some s => Ok s
      | None => Raise IndexError
      end
    else Raise IndexError in
  match val with
  | PInt z => at_index z
  | PBool b => at_index (int_of_bool b)
  | _ => Raise TypeError
  end.

(** The column at which the label is cut, from the rendered value. *)
Definition align_of (right : string) : Z :=
  let space := str_find " " right in
  let period := str_find "." right in
  let align := space in
  let align :=
    if (0 <? period) && ((space <? 0) || ((0 <? space) && (period <? space)))
    then period else align in
  if align <? 0 then 1 else align.

(** The line printed for one field: the body of the inner loop, once
    [key in vals] holds. *)
Definition format_line (prefix mapPrefix : string) (strEntry : str_entry) (val : pyval)
    : res string :=
  let key := entry_key strEntry in
  let descr := entry_descr strEntry in
  descr <-
    (if String.eqb mapPrefix "1" then py_format "m{:s} {:s}" [PStr prefix; PStr descr]
     else if str_contains "xagh" mapPrefix then py_format "{:s} {:s}" [PStr prefix; PStr descr]
     else Ok descr) ;;
  let units := entry_units strEntry in
  let fmt_key :=
    if String.eqb prefix "sys" then "[" ++ key ++ "]"
    else "[" ++ prefix ++ key ++ "]" in
  units <-
    (if String.eqb key "am" then
       mode <- axis_mode_at val ;; py_format "{{:d}} {:s}" [PStr mode]
     else Ok units) ;;
  padded <- py_format "{:5s} {:29s}" [PStr fmt_key; PStr descr] ;;
  let left := str_take 35 padded in
  right <- py_format units [val] ;;
  let align := align_of right in
  Ok (slice_to (- (align + 1)) left ++ " " ++ right).

(** The inner loop, over the entries of the group's schema; the lines
    printed are collected in order. *)
Fixpoint dump_group (prefix mapPrefix : string) (vals : pyval) (strs : list str_entry)
    : res (list string) :=
  match strs with
  | [] => Ok []
  | strEntry :: rest =>
      present <- py_contains (entry_key strEntry) vals ;;
      if present then
        val <- py_getitem vals (entry_key strEntry) ;;
        line <- format_line prefix mapPrefix strEntry val ;;
        lines <- dump_group prefix mapPrefix vals rest ;;
        Ok (line :: lines)
      else dump_group prefix mapPrefix vals rest
  end.

(** The outer loop, over the remaining entries of the group mapping. *)
Fixpoint dump_formatted_from (entries : list (string * string)) (config : pydict)
    : res (list string) :=
  match entries with
  | [] => Ok []
  | mapEntry :: rest =>
      let prefix := fst mapEntry in
      match assoc prefix config with
      | None => dump_formatted_from rest config
      | Some vals =>
          strs <- CONFIG_STR_get (snd mapEntry) ;;
          lines <- dump_group prefix (snd mapEntry) vals strs ;;
          more <- dump_formatted_from rest config ;;
          Ok (lines ++ more)%list
      end
  end.

(** [Config.dump_formatted]: the lines it prints. *)
Definition dump_formatted (config : pydict) : res (list string) :=
  dump_formatted_from CONFIG_MAP config.

(** The lines as a file holds them, each with its newline. *)
Definition with_newlines (lines : list string) : list string :=
  map (fun l => l ++ String (chr 10) "") lines.

(** The text line of the example, as the firmware's dump would have it. *)
Definition motor_line : string := "[1mi]  motor 1 microsteps      8 [1,2,4,8]".

(** The entry of the schema [sys] for the field [sl], and the label
    column of its line before it is cut. *)
Definition sl_entry : str_entry := ("sl", "soft limit enable", "{:d}").
Definition sl_left : string := "[sl]  soft limit enable            ".

(** ** The class [TinyG]

    The serial port is a state: the lines the device will still deliver
    (an empty string, or no line at all, is a read that times out), the
    lines sent so far and the lines printed so far.  A computation on
    the port returns its outcome together with the port as it stands
    then, also when it raises.  The model is for [verbose = False]. *)

Record port : Type := {
  incoming : list string;
  sent : list string;
  printed : list string
}.

Definition drv (A : Type) : Type := port -> res A * port.

Definition ret {A : Type} (a : A) : drv A := fun st => (Ok a, st).

Definition raise {A : Type} (e : exn) : drv A := fun st => (Raise e, st).

Definition dbind {A B : Type} (m : drv A) (k : A -> drv B) : drv B :=
  fun st =>
    match m st with
    | (Ok a, st') => k a st'
    | (Raise e, st') => (Raise e, st')
    end.

Definition lift {A : Type} (r : res A) : drv A := fun st => (r, st).

Declare Scope drv_scope.
Delimit Scope drv_scope with drv.
Notation "x <<- m ;;; k" := (dbind m (fun x => k))
  (at level 61, m at next level, right associativity) : drv_scope.
Notation "m ;;; k" := (dbind m (fun _ => k))
  (at level 61, right associativity) : drv_scope.

(** [print(line)] *)
Definition print (line : string) : drv unit :=
  fun st => (Ok tt, {| incoming := incoming st; sent := sent st;
                       printed := (printed st ++ [line])%list |}).

(** [TinyG.send_line] *)
Definition send_line (line : string) : drv unit :=
  fun st => (Ok tt, {| incoming := incoming st; sent := (sent st ++ [line])%list;
                       printed := printed st |}).

(** [TinyG.send_json] *)
Definition send_json (cmd_dict : pyval) : drv unit :=
  send_line (json_dumps cmd_dict).

(** A line that decodes as ASCII. *)
Definition ascii_line (line : string) : bool :=
  str_forallb (fun c => (ord c <? 128)%nat) line.

(** [serial_port.readline(512).decode('ascii')]: the next line, the
    empty string on a timeout; a byte above 127 does not decode. *)
Definition readline : drv string :=
  fun st =>
    match incoming st with
    | [] => (Ok "", st)
    | line :: rest =>
        let st' := {| incoming := rest; sent := sent st; printed := printed st |} in
        if ascii_line line then (Ok line, st')
        else (Raise ValueError, st')
    end.

(** [TinyG.recv_json]: the parsed line, or [None] after a timeout. *)
Definition recv_json : drv pyval :=
  (line <<- readline ;;;
   match line with
   | EmptyString => print "Timed out" ;;; ret PNone
   | _ => lift (json_loads line)
   end)%drv.

(** What [read_response] does with one received value: [inl] is the
    value it returns, [inr tt] another round of the loop. *)
Definition response_step (response : pyval) : res (pyval + unit) :=
  if negb (truthy response) then Ok (inl PNone)
  else
    has_r <- py_contains "r" response ;;
    if has_r then r <- py_getitem response "r" ;; Ok (inl r)
    else Ok (inr tt).

(** [TinyG.read_response]: every round of the loop takes one line off
    the port, and running out of lines is a timeout, so the loop is a
    recursion on the lines still to come. *)
Fixpoint read_response_loop (fuel : nat) : drv pyval :=
  (response <<- recv_json ;;;
   step <<- lift (response_step response) ;;;
   match step with
   | inl r => ret r
   | inr _ =>
       match fuel with
       | O => raise Unmodelled
       | S fuel' => read_response_loop fuel'
       end
   end)%drv.

Definition read_response : drv pyval :=
  fun st => read_response_loop (List.length (incoming st)) st.

(** One round of the loop of [read_config]. *)
Definition read_config_group (group : string) (config : pydict) : drv pydict :=
  (send_json (PDict [(group, PNone)]) ;;;
   response <<- read_response ;;;
   if truthy response then lift (add_group config response)
   else ret config)%drv.

Fixpoint read_config_from (entries : list (string * string)) (config : pydict)
    : drv pydict :=
  match entries with
  | [] => ret config
  | mapEntry :: rest =>
      (config' <<- read_config_group (fst mapEntry) config ;;;
       read_config_from rest config')%drv
  end.

(** [TinyG.read_config]: the configuration after the merges. *)
Definition read_config (config : pydict) : drv pydict :=
  read_config_from CONFIG_MAP config.

(** Remove the read-only keys of the group from a copy of its
    dictionary. *)
Definition remove_read_only (group_id : string) (group_config : pydict) : pydict :=
  match assoc group_id CONFIG_READ_ONLY with
  | Some ro_keys =>
      fold_left (fun filtered ro_key =>
                   if dict_mem ro_key filtered then dict_del ro_key filtered
                   else filtered)
                ro_keys group_config
  | None => group_config
  end.

(** Is [key] read-only in the group? *)
Definition is_read_only (group_id key : string) : bool :=
  match assoc group_id CONFIG_READ_ONLY with
  | Some ro_keys => existsb (String.eqb key) ro_keys
  | None => false
  end.

(** [{key : filtered_config[key] for key in key_slice}], the keys being
    entered in the order of the slice. *)
Fixpoint chunk_dict_from (acc filtered_config : pydict) (key_slice : list string)
    : res pydict :=
  match key_slice with
  | [] => Ok acc
  | key :: rest =>
      match assoc key filtered_config with
      | Some v => chunk_dict_from (dict_set key v acc) filtered_config rest
      | None => Raise KeyError
      end
  end.

Definition chunk_dict (filtered_config : pydict) (key_slice : list string) : res pydict :=
  chunk_dict_from [] filtered_config key_slice.

(** The [while filtered_keys:] loop of [write_config].  When a chunk is
    not answered the code means to print a message and leave the loop,
    but the message is built from the name [group], which is bound
    nowhere in [write_config] nor in the module: evaluating it raises
    NameError, before anything is printed. *)
Fixpoint write_chunks (fuel : nat) (group_id : string) (filtered_config : pydict)
    (filtered_keys : list string) : drv unit :=
  match filtered_keys with
  | [] => ret tt
  | _ =>
      match fuel with
      | O => raise Unmodelled
      | S fuel' =>
          let key_slice := firstn 10 filtered_keys in
          let filtered_keys' := skipn 10 filtered_keys in
          (chunk <<- lift (chunk_dict filtered_config key_slice) ;;;
           send_json (PDict [(group_id, PDict chunk)]) ;;;
           response <<- read_response ;;;
           if negb (truthy response) then raise NameError
           else write_chunks fuel' group_id filtered_config filtered_keys')%drv
      end
  end.

(** One round of the [for] loop of [write_config]. *)
Definition write_group (group_id : string) (config : pydict) : drv unit :=
  (group_config <<- lift (get_group config group_id) ;;;
   match group_config with
   | None | Some [] => ret tt
   | Some group_config =>
       let filtered_config := remove_read_only group_id group_config in
       let filtered_keys := dict_keys filtered_config in
       write_chunks (List.length filtered_keys) group_id filtered_config filtered_keys
   end)%drv.

Fixpoint write_config_from (entries : list (string * string)) (config : pydict)
    : drv unit :=
  match entries with
  | [] => ret tt
  | mapEntry :: rest =>
      (write_group (fst mapEntry) config ;;; write_config_from rest config)%drv
  end.

(** [TinyG.write_config] *)
Definition write_config (config : pydict) : drv unit :=
  write_config_from CONFIG_MAP config.

Definition mk_port (lines snt prt : list string) : port :=
  {| incoming := lines; sent := snt; printed := prt |}.

(** A port on which nothing was sent or printed yet. *)
Definition fresh_port (lines : list string) : port :=
  {| incoming := lines; sent := []; printed := [] |}.

(** The query sent for a group, and the set command for a chunk. *)
Definition query_line (group : string) : string :=
  json_dumps (PDict [(group, PNone)]).

Definition set_line (group_id : string) (chunk : pydict) : string :=
  json_dumps (PDict [(group_id, PDict chunk)]).

(** A received line that is a non-empty JSON object without the key
    [r]: an unsolicited report. *)
Definition status_line (line : string) : Prop :=
  line <> "" /\ ascii_line line = true /\
  exists d, json_loads line = Ok (PDict d) /\ d <> [] /\ assoc "r" d = None.

(** A received line that is a JSON object with the payload [r] under
    the key [r]. *)
Definition reply_line (line : string) (r : pyval) : Prop :=
  line <> "" /\ ascii_line line = true /\
  exists d, json_loads line = Ok (PDict d) /\ assoc "r" d = Some r.

(** A read that times out: no line left, or the empty line. *)
Definition times_out (lines : list string) : Prop :=
  lines = [] \/ exists rest, lines = "" :: rest.

(** What is left to receive after the read that timed out. *)
Definition after_timeout (lines : list string) : list string := tl lines.

(** The two lines of the example: an unsolicited status report, then the
    reply to the query for the group [x]. *)
Definition sr_line : string := with_double_quotes "{'sr':{'posx':1.0}}".
Definition r_line : string := with_double_quotes "{'r':{'x':{'vm':500}}}".


(** A reply that acknowledges a write to the group [x]. *)
Definition ack_line : string := with_double_quotes "{'r':{'x':{}}}".
Definition ack_payload : pyval := PDict [("x", PDict [])].

(** A group of 23 fields, none of them read-only. *)
Definition group23 : pydict :=
  [ ("k01", PInt 1); ("k02", PInt 2); ("k03", PInt 3); ("k04", PInt 4); ("k05", PInt 5);
    ("k06", PInt 6); ("k07", PInt 7); ("k08", PInt 8); ("k09", PInt 9); ("k10", PInt 10);
    ("k11", PInt 11); ("k12", PInt 12); ("k13", PInt 13); ("k14", PInt 14); ("k15", PInt 15);
    ("k16", PInt 16); ("k17", PInt 17); ("k18", PInt 18); ("k19", PInt 19); ("k20", PInt 20);
    ("k21", PInt 21); ("k22", PInt 22); ("k23", PInt 23) ].

Definition config23 : pydict := [("x", PDict group23)].

(** A configuration of two groups, one field each. *)
Definition config_sys_x : pydict :=
  [("sys", PDict [("ja", PInt 5)]); ("x", PDict [("vm", PInt 1)])].

(** A reply whose payload is the empty object. *)
Definition empty_reply_line : string := with_double_quotes "{'r':{}}".

(** ** Stores that are written and read back

    The shape of a store for the round trip through JSON: a dictionary
    with unique keys whose values are dictionaries with unique keys
    whose values are scalars. *)

(** Decidable identity of floats agrees with their Python rendering
    being read back: a float other than NaN whose [repr], where it is
    finite, is made of number characters and converts back to it. *)
Definition float_reads_back (f : pyfloat) : bool :=
  match f with
  | S754_nan => false
  | S754_infinity _ => true
  | _ =>
      str_forallb is_number_char (float_repr f)
      && match json_number (float_repr f) with
         | Ok (PFloat g) => float_same g f
         | _ => false
         end
  end.

(** An integer, a string, or a float that is not NaN. *)
Definition scalar_ok (v : pyval) : bool :=
  match v with
  | PInt _ | PStr _ => true
  | PFloat f => float_reads_back f
  | _ => false
  end.

Fixpoint unique_keys {A : Type} (d : list (string * A)) : bool :=
  match d with
  | [] => true
  | (k, _) :: r => negb (dict_mem k r) && unique_keys r
  end.

Definition group_ok (v : pyval) : bool :=
  match v with
  | PDict g => unique_keys g && forallb (fun kv => scalar_ok (snd kv)) g
  | _ => false
  end.

Definition store_ok (config : pydict) : bool :=
  unique_keys config && forallb (fun kv => group_ok (snd kv)) config.

(** The scalars of Python that JSON carries: an integer that [str()]
    writes (one within the limit of digits), a float of the format,
    None, a boolean, a string. *)
Definition json_scalar (v : pyval) : bool :=
  match v with
  | PInt z => int_in_limit z
  | PFloat f => is_float64 f
  | PNone | PBool _ | PStr _ => true
  | PDict _ | PList _ => false
  end.

(** The scalars of the round trip: an integer, a string, or a float
    other than NaN. *)
Definition round_trip_scalar (v : pyval) : bool :=
  match v with
  | PInt z => int_in_limit z
  | PFloat f => is_float64 f && negb (is_nan f)
  | PStr _ => true
  | _ => false
  end.

(** A dictionary with distinct keys whose values all pass [q]. *)
Definition group_of (q : pyval -> bool) (v : pyval) : bool :=
  match v with
  | PDict g => unique_keys g && forallb (fun kv => q (snd kv)) g
  | _ => false
  end.

(** A store with distinct group ids whose groups are dictionaries with
    distinct keys and values that pass [q]. *)
Definition store_of (q : pyval -> bool) (config : pydict) : bool :=
  unique_keys config && forallb (fun kv => group_of q (snd kv)) config.

(** The members of an object as [json.dumps] writes them. *)
Fixpoint json_items (d : pydict) : string :=
  match d with
  | [] => ""
  | (k, x) :: r =>
      match r with
      | [] => json_string k ++ ": " ++ json_dumps x
      | _ => json_string k ++ ": " ++ json_dumps x ++ ", " ++ json_items r
      end
  end.

(** What can follow a value in a JSON text. *)
Definition json_delim (rest : string) : bool :=
  match rest with
  | EmptyString => true
  | String c _ =>
      Ascii.eqb c "," || Ascii.eqb c "}" || Ascii.eqb c "]" || is_json_ws c
  end.

Definition no_newline (s : string) : bool :=
  str_forallb (fun c => negb (Ascii.eqb c newline)) s.

Definition no_space (s : string) : bool := str_forallb (fun c => negb (is_space c)) s.

(** A store holding a NaN. *)
Definition nan_config : pydict := [("x", PDict [("vm", PFloat S754_nan)])].

(** A store holding an integer of 4301 digits. *)
Definition long_int_config : pydict := [("x", PDict [("vm", PInt (10 ^ 4300))])].

(** A store with every kind of scalar that JSON carries. *)
Definition json_config : pydict :=
  [ ("sys", PDict [("id", PStr "9H3583-PXN"); ("ja", PInt 2000000);
                   ("mt", PFloat (S754_finite true 5629499534213120 (-51)));
                   ("ej", PBool true); ("st", PNone)]);
    ("x", PDict [("vm", PFloat S754_nan); ("fr", PFloat (S754_infinity true));
                 ("jm", PFloat (S754_zero true))]) ].

(** A store with the three kinds of scalars. *)
Definition sample_config : pydict :=
  [ ("sys", PDict [("id", PStr "9H3583-PXN"); ("ja", PInt 2000000);
                   ("mt", PFloat (S754_finite false 5629499534213120 (-51)))]);
    ("x", PDict [("vm", PInt 16000)]) ].

(** A value whose JSON text is read back as the value itself, whatever
    delimiter follows, with a fuel of at least the length of the text. *)
Definition reads_back (v : pyval) : Prop :=
  (exists c s, json_dumps v = String c s /\ is_json_ws c = false)
  /\ no_newline (json_dumps v) = true
  /\ forall fuel rest,
      (String.length (json_dumps v) <= fuel)%nat ->
      json_delim rest = true ->
      parse_value fuel (json_dumps v ++ rest) = Ok (v, rest).

(** The text of the members of an object, after the opening quote of
    the first key. *)
Definition members_text (k : string) (v : pyval) (items : pydict) : string :=
  json_escape k
  ++ String dquote (": " ++ json_dumps v
                    ++ match items with
                       | [] => ""
                       | _ => ", " ++ json_items items
                       end).

(** ** The fields of the text dump

    Helper definitions for the properties of [dump_formatted] and
    [read_text]: the parts of a printed line, and the conditions under
    which a printed line is read back. *)

(** The fields in the order in which [dump_formatted] visits them:
    group id, schema id, entry of the schema. *)
Definition schema_fields (mapEntry : string * string) : list (string * string * str_entry) :=
  match assoc (snd mapEntry) CONFIG_STR with
  | Some strs => map (fun e => (fst mapEntry, snd mapEntry, e)) strs
  | None => []
  end.

Definition all_fields : list (string * string * str_entry) :=
  flat_map schema_fields CONFIG_MAP.

(** [config[group][key]], when the group is there and is a dictionary
    holding the key. *)
Definition lookup2 (config : pydict) (group key : string) : option pyval :=
  match assoc group config with
  | Some (PDict d) => assoc key d
  | _ => None
  end.

(** The fields that [dump_formatted] prints for a store, with their
    values. *)
Definition shown (config : pydict) (field : string * string * str_entry)
    : list (string * string * str_entry * pyval) :=
  match lookup2 config (fst (fst field)) (entry_key (snd field)) with
  | Some v => [(field, v)]
  | None => []
  end.

Definition displayed (config : pydict) : list (string * string * str_entry * pyval) :=
  flat_map (shown config) all_fields.

Fixpoint mapM {A B : Type} (f : A -> res B) (l : list A) : res (list B) :=
  match l with
  | [] => Ok []
  | x :: rest => y <- f x ;; ys <- mapM f rest ;; Ok (y :: ys)
  end.

Definition format_field (fv : string * string * str_entry * pyval) : res string :=
  format_line (fst (fst (fst fv))) (snd (fst (fst fv))) (snd (fst fv)) (snd fv).

(** Every group of the mapping that the store holds is a dictionary. *)
Definition groups_are_dicts (config : pydict) : bool :=
  forallb (fun mapEntry =>
             match assoc (fst mapEntry) config with
             | None | Some (PDict _) => true
             | Some _ => false
             end) CONFIG_MAP.

(** The parts of the line of a field: the bracketed key, the label
    column of 35 characters, the template in force and the rendered
    value. *)
Definition fmt_key_of (prefix key : string) : string :=
  if String.eqb prefix "sys" then "[" ++ key ++ "]"
  else "[" ++ prefix ++ key ++ "]".

Definition label_column (prefix mapPrefix : string) (strEntry : str_entry) : res string :=
  descr <-
    (if String.eqb mapPrefix "1"
     then py_format "m{:s} {:s}" [PStr prefix; PStr (entry_descr strEntry)]
     else if str_contains "xagh" mapPrefix
     then py_format "{:s} {:s}" [PStr prefix; PStr (entry_descr strEntry)]
     else Ok (entry_descr strEntry)) ;;
  padded <- py_format "{:5s} {:29s}"
              [PStr (fmt_key_of prefix (entry_key strEntry)); PStr descr] ;;
  Ok (str_take 35 padded).

Definition field_units (strEntry : str_entry) (val : pyval) : res string :=
  if String.eqb (entry_key strEntry) "am" then
    mode <- axis_mode_at val ;; py_format "{{:d}} {:s}" [PStr mode]
  else Ok (entry_units strEntry).

Definition field_right (strEntry : str_entry) (val : pyval) : res string :=
  units <- field_units strEntry val ;; py_format units [val].

(** How many characters of the label column a line keeps. *)
Definition kept_of (right : string) : Z := 35 - (align_of right + 1).

(** The kinds of templates of the schemas: an integer, a fixed number
    of decimals, or plain text; each followed by a literal text. *)
Inductive tpl_kind : Type :=
| KInt
| KFixed (n : nat)
| KAny.

Definition classify (units : string) : option (tpl_kind * string) :=
  if String.prefix "{:d}" units then Some (KInt, str_drop 4 units)
  else if String.prefix "{:.2f}" units then Some (KFixed 2, str_drop 6 units)
  else if String.prefix "{:.3f}" units then Some (KFixed 3, str_drop 6 units)
  else if String.prefix "{:.4f}" units then Some (KFixed 4, str_drop 6 units)
  else if String.eqb units "{}" then Some (KAny, "")
  else None.

(** The template of a given kind and literal text. *)
Definition template_of (kind : tpl_kind) (suffix : string) : string :=
  match kind with
  | KInt => "{:d}" ++ suffix
  | KFixed 2 => "{:.2f}" ++ suffix
  | KFixed 3 => "{:.3f}" ++ suffix
  | KFixed _ => "{:.4f}" ++ suffix
  | KAny => "{}"
  end.

Definition brace_free (s : string) : bool :=
  str_forallb (fun c => negb (Ascii.eqb c "{") && negb (Ascii.eqb c "}")) s.

(** A rendered value as [read_text] needs it: one token, and [get_val]
    of it is a value with the same text under the same template. *)
Definition token_ok (tok : string) : bool :=
  negb (String.eqb tok "") && no_space tok.

Definition fixed_ok (n : nat) (f : pyfloat) : bool :=
  let tok := format_fixed n f in
  token_ok tok
  && match get_val tok with
     | PFloat f' => String.eqb (format_fixed n f') tok
     | _ => false
     end.

Definition text_ok (v : pyval) : bool :=
  match py_str v with
  | Ok tok =>
      token_ok tok
      && match py_str (get_val tok) with
         | Ok tok' => String.eqb tok' tok
         | Raise _ => false
         end
  | Raise _ => false
  end.

(** A value well typed for the template of its field: an integer for
    [{:d}] (for [am], an index into [AXIS_MODE]); for [{:.Nf}] a float,
    or an integer that converts to one, whose rendering reads back as a
    float with the same rendering; for [{}] a value whose text is one
    token that reads back as a value with the same text. *)
Definition value_ok (key : string) (kind : tpl_kind) (v : pyval) : bool :=
  if String.eqb key "am" then
    match kind, v with
    | KInt, PInt z => (-4 <=? z) && (z <? 4)
    | _, _ => false
    end
  else
    match kind, v with
    | KInt, PInt _ => true
    | KFixed n, PFloat f => fixed_ok n f
    | KFixed n, PInt z =>
        match float_of_int z with
        | Ok f => fixed_ok n f
        | Raise _ => false
        end
    | KAny, _ => text_ok v
    | _, _ => false
    end.

(** The least number of characters of the label column that a line
    must keep: the bracketed key; for [id], whose value is looked for
    in the fourth field, also the start of the two words after it. *)
Definition min_kept (prefix key : string) : nat :=
  if String.eqb key "id" then 13%nat else String.length (fmt_key_of prefix key).

(** A field of a store that is printed and read back as printed. *)
Definition field_ok (prefix mapPrefix : string) (strEntry : str_entry) (v : pyval) : bool :=
  match classify (entry_units strEntry), field_right strEntry v with
  | Some (kind, _), Ok rendered =>
      value_ok (entry_key strEntry) kind v
      && (Z.of_nat (min_kept prefix (entry_key strEntry)) <=? kept_of rendered)
  | _, _ => false
  end.

Definition displayable (config : pydict) : bool :=
  groups_are_dicts config
  && forallb (fun fv => field_ok (fst (fst (fst fv))) (snd (fst (fst fv)))
                                 (snd (fst fv)) (snd fv))
             (displayed config).

(** A value well typed for the template of its field: an integer for
    [{:d}] (for [am], an index into [AXIS_MODE]); for [{:.Nf}] a float,
    or an integer that converts to one; for [{}] a float, an integer,
    None, a boolean, or a string whose text is one token that reads
    back as a value with the same text.  A float is a float of the
    format, as every float of Python is. *)
Definition value_typed (key : string) (kind : tpl_kind) (v : pyval) : bool :=
  if String.eqb key "am" then
    match kind, v with
    | KInt, PInt z => (-4 <=? z) && (z <? 4)
    | _, _ => false
    end
  else
    match kind, v with
    | KInt, PInt _ => true
    | KFixed _, PFloat f => is_float64 f
    | KFixed _, PInt z =>
        match float_of_int z with
        | Ok _ => true
        | Raise _ => false
        end
    | KAny, PFloat f => is_float64 f
    | KAny, (PInt _ | PNone | PBool _) => true
    | KAny, PStr _ => text_ok v
    | _, _ => false
    end.

(** A field of a store with a well-typed value, which [dump_formatted]
    renders, short enough for the label to keep its bracketed key. *)
Definition field_typed (prefix mapPrefix : string) (strEntry : str_entry) (v : pyval) : bool :=
  match classify (entry_units strEntry), field_right strEntry v with
  | Some (kind, _), Ok rendered =>
      value_typed (entry_key strEntry) kind v
      && (Z.of_nat (min_kept prefix (entry_key strEntry)) <=? kept_of rendered)
  | _, _ => false
  end.

Definition well_typed (config : pydict) : bool :=
  groups_are_dicts config
  && forallb (fun fv => field_typed (fst (fst (fst fv))) (snd (fst (fst fv)))
                                    (snd (fst fv)) (snd fv))
             (displayed config).

(** What [read_text] needs of the label column cut down to [kept]
    characters: it starts with the bracket, its first field holds the
    flat key, and what is left of the description has no field that
    looks like a number (for [id]: has two fields). *)
Definition left_check (prefix mapPrefix : string) (strEntry : str_entry) (kept : nat) : bool :=
  match label_column prefix mapPrefix strEntry with
  | Ok column =>
      let kept_left := str_take kept column in
      match kept_left with
      | String c _ => Ascii.eqb c "["
      | EmptyString => false
      end
      && match split kept_left with
         | f0 :: dtoks =>
             match re_search_bracket f0 with
             | Some k => String.eqb k (flat_key prefix (entry_key strEntry))
             | None => false
             end
             && (if String.eqb (flat_key prefix (entry_key strEntry)) "id"
                 then (List.length dtoks =? 2)%nat
                 else forallb (fun t => negb (is_number t)) dtoks)
         | [] => false
         end
  | Raise _ => false
  end.

(** What is fixed for a field, whatever its value: its template is of a
    known kind and followed by a text without braces that is empty or
    starts with a space; [am] has an integer template; its flat key
    resolves to it; and its label column passes [left_check] wherever
    it may be cut. *)
Definition field_static_ok (field : string * string * str_entry) : bool :=
  let '(prefix, mapPrefix, strEntry) := field in
  let key := entry_key strEntry in
  match classify (entry_units strEntry) with
  | Some (kind, suffix) =>
      brace_free suffix && starts_with_space suffix
      && (if String.eqb key "am"
          then match kind with KInt => true | _ => false end
          else true)
      && (if String.eqb key "id"
          then String.eqb prefix "sys" && match kind with KAny => true | _ => false end
          else match kind with KAny => false | _ => true end)
  | None => false
  end
  && resolves (prefix, key)
  && forallb (left_check prefix mapPrefix strEntry)
             (seq (min_kept prefix key) (35 - min_kept prefix key)).

(** The value that [read_text] stores for a field rendered as [right]. *)
Definition reread (right : string) : pyval := get_val (hd "" (split right)).

(** The value that [read_text] stores for a field of value [v]. *)
Definition reread_value (strEntry : str_entry) (v : pyval) : pyval :=
  match field_right strEntry v with
  | Ok rendered => reread rendered
  | Raise _ => v
  end.

Definition reread_field (fv : string * string * str_entry * pyval)
    : string * string * str_entry * pyval :=
  (fst fv, reread_value (snd (fst fv)) (snd fv)).

(** [config[group][key] = v], the group being created when missing:
    what [add_group] does with a single field. *)
Definition insert2 (config : pydict) (group key : string) (v : pyval) : pydict :=
  match assoc group config with
  | Some (PDict g) => dict_set group (PDict (dict_set key v g)) config
  | _ => dict_set group (PDict [(key, v)]) config
  end.

Definition insert_field (config : pydict) (fv : string * string * str_entry * pyval)
    : pydict :=
  insert2 config (fst (fst (fst fv))) (entry_key (snd (fst fv))) (snd fv).

Definition is_dict (v : pyval) : bool :=
  match v with
  | PDict _ => true
  | _ => false
  end.

Definition all_dicts (config : pydict) : bool :=
  forallb (fun kv => is_dict (snd kv)) config.

(** The group and key of a field. *)
Definition field_id (field : string * string * str_entry) : string * string :=
  (fst (fst field), entry_key (snd field)).

Definition pair_eqb (a b : string * string) : bool :=
  String.eqb (fst a) (fst b) && String.eqb (snd a) (snd b).

Fixpoint distinct_ids (ids : list (string * string)) : bool :=
  match ids with
  | [] => true
  | a :: rest => negb (existsb (pair_eqb a) rest) && distinct_ids rest
  end.

(** Every schema named by the group mapping exists. *)
Definition schemas_known (entries : list (string * string)) : bool :=
  forallb (fun mapEntry =>
             match assoc (snd mapEntry) CONFIG_STR with
             | Some _ => true
             | None => false
             end) entries.

(** A store that shows a field of every kind, and the store with an
    [id] that looks like a number. *)
Definition show_config : pydict :=
  [ ("sys", PDict [("fb", PFloat (S754_finite false 7744224513798963 (-44)));
                   ("id", PStr "9H3583-PXN");
                   ("ja", PInt 2000000);
                   ("mt", PInt 2)]);
    ("1", PDict [("mi", PInt 8)]);
    ("x", PDict [("am", PInt 1); ("vm", PInt 16000);
                 ("jd", PFloat (S754_finite false 7378697629483821 (-66)))]);
    ("g54", PDict [("x", PFloat (S754_zero false))]) ].

Definition id_007_config : pydict := [("sys", PDict [("id", PStr "007")])].

(** A store with a value of 32 digits. *)
Definition long_config : pydict := [("sys", PDict [("ja", PInt (10 ^ 31))])].

(** ** Further helper definitions *)

(** Does a line start with the bracket that [read_text] looks for? *)
Definition starts_with_bracket (line : string) : bool :=
  match line with
  | String c _ => Ascii.eqb c "["
  | EmptyString => false
  end.

(** The fields of a line as [read_text] takes them. *)
Definition fields_of (line : string) : list string := split (strip line).

(** A few lines of a text dump, with a heading and a blank line. *)
Definition text_lines : list string :=
  with_newlines
    [ "TinyG configuration";
      "[fb]  firmware build            440.20";
      "";
      "[1mi] m1 microsteps                 8 [1,2,4,8]" ].

(** The consecutive slices of ten items of a dictionary: the chunks in
    which [write_config] sends a group.  The number of rounds is bounded
    by the number of items. *)
Fixpoint slices (rounds : nat) (d : pydict) : list pydict :=
  match d, rounds with
  | [], _ => []
  | _, O => []
  | _, S rounds' => firstn 10 d :: slices rounds' (skipn 10 d)
  end.

Definition slices_of_ten (d : pydict) : list pydict := slices (List.length d) d.

(** A received line that acknowledges a command: a reply whose payload
    is truthy. *)
Definition acknowledgement (line : string) : Prop :=
  exists r, reply_line line r /\ truthy r = true.

(** A group of [sys] that holds read-only fields only. *)
Definition read_only_config : pydict :=
  [("sys", PDict [("fb", PFloat (S754_finite false 7744224513798963 (-44)));
                  ("id", PStr "9H3583-PXN")])].

(** Successive calls of [add_group], one per payload. *)
Fixpoint add_groups (config : pydict) (payloads : list pyval) : res pydict :=
  match payloads with
  | [] => Ok config
  | r :: rest => config' <- add_group config r ;; add_groups config' rest
  end.

(** A received line that answers a query: a reply with a truthy
    payload. *)
Definition answers (line : string) (r : pyval) : Prop :=
  reply_line line r /\ truthy r = true.

(** A device that answers each query of [read_config] with the same
    short reply. *)
Definition x_payload : pyval := PDict [("x", PDict [("vm", PInt 500)])].
Definition all_answers : list string := repeat r_line (List.length CONFIG_MAP).
Definition all_payloads : list pyval := repeat x_payload (List.length CONFIG_MAP).

(** A value of the wrong type for a template: a float or a string where
    an integer is formatted, a string where a float is. *)
Definition ill_typed (kind : tpl_kind) (v : pyval) : bool :=
  match kind, v with
  | KInt, (PFloat _ | PStr _) => true
  | KFixed _, PStr _ => true
  | _, _ => false
  end.

(** A JSON file with a space before the opening brace. *)
Definition indented_json : string :=
  with_double_quotes " {'sys': {'ja': 5}}" ++ String newline "".

(** A printable ASCII character, and a text made of them. *)
Definition printable (c : ascii) : bool := (32 <=? ord c)%nat && (ord c <=? 126)%nat.

Definition printable_text (s : string) : bool := str_forallb printable s.

(** The text of a file that holds the given lines, each followed by a
    newline: what [print] writes for them. *)
Fixpoint file_of_lines (lines : list string) : string :=
  match lines with
  | [] => ""
  | line :: rest => (line ++ String newline "") ++ file_of_lines rest
  end.

(** The label column and the literal text of the template of a field
    hold no newline. *)
Definition field_on_one_line (field : string * string * str_entry) : bool :=
  let '(prefix, mapPrefix, strEntry) := field in
  match label_column prefix mapPrefix strEntry, classify (entry_units strEntry) with
  | Ok column, Some (_, suffix) => no_newline column && no_newline suffix
  | _, _ => false
  end.

(** The lines that [dump_formatted] prints for [show_config]. *)
Definition show_lines : list string :=
  [ "[fb]  firmware build            440.21";
      "[id]  TinyG ID                    9H3583-PXN";
      "[ja]  junction acceleration 2000000 mm";
      "[mt]  motor idle timeout          2.00 Sec";
      "[1mi] m1 microsteps               8 [1,2,4,8]";
      "[xam] x axis mode                 1 [standard]";
      "[xvm] x velocity maximum      16000 mm/min";
      "[xjd] x junction deviation        0.0001 mm (larger is faster)";
      "[g54x] g54 x offset               0.000 mm" ].

(** A dictionary whose values are dictionaries with distinct keys: what
    [add_group] is given. *)
Definition is_group (v : pyval) : bool :=
  match v with
  | PDict d => unique_keys d
  | _ => false
  end.

Definition groups_ok (groups : pydict) : bool :=
  unique_keys groups && forallb (fun kv => is_group (snd kv)) groups.

(** ** [Config.dump]

    [json.dumps(self.config, indent=2, sort_keys=True)]: the items of
    every dictionary are written in the order of their keys, one per
    line, indented by two spaces per level. *)

(** [sorted(d.items())]: an insertion sort on the keys, compared as
    Python compares strings (by code point); items with equal keys keep
    their order. *)
Fixpoint insert_item (kv : string * pyval) (sorted : pydict) : pydict :=
  match sorted with
  | [] => [kv]
  | kv' :: rest =>
      if String.leb (fst kv) (fst kv') then kv :: sorted
      else kv' :: insert_item kv rest
  end.

Fixpoint sort_items (d : pydict) : pydict :=
  match d with
  | [] => []
  | kv :: rest => insert_item kv (sort_items rest)
  end.

(** The value with the items of every dictionary in it sorted. *)
Fixpoint sort_keys (v : pyval) : pyval :=
  match v with
  | PDict d =>
      PDict (sort_items
               ((fix values (d : pydict) : pydict :=
                   match d with
                   | [] => []
                   | (k, x) :: r => (k, sort_keys x) :: values r
                   end) d))
  | PList l =>
      PList ((fix elems (l : list pyval) : list pyval :=
                match l with
                | [] => []
                | x :: r => sort_keys x :: elems r
                end) l)
  | _ => v
  end.

(** A newline and the indentation of a level. *)
Definition newline_indent (level : nat) : string :=
  String newline (str_repeat " " (2 * level)).

(** [json.dumps(v, indent=2)], at a nesting level. *)
Fixpoint json_indented (level : nat) (v : pyval) : string :=
  match v with
  | PList [] => "[]"
  | PList l =>
      "[" ++ newline_indent (S level) ++
      (fix elems (l : list pyval) : string :=
         match l with
         | [] => ""
         | x :: r =>
             match r with
             | [] => json_indented (S level) x
             | _ => json_indented (S level) x ++ "," ++ newline_indent (S level) ++ elems r
             end
         end) l ++ newline_indent level ++ "]"
  | PDict [] => "{}"
  | PDict d =>
      "{" ++ newline_indent (S level) ++
      (fix members (d : pydict) : string :=
         match d with
         | [] => ""
         | (k, x) :: r =>
             match r with
             | [] => json_string k ++ ": " ++ json_indented (S level) x
             | _ => json_string k ++ ": " ++ json_indented (S level) x
                    ++ "," ++ newline_indent (S level) ++ members r
             end
         end) d ++ newline_indent level ++ "}"
  | _ => json_dumps v
  end.

(** [Config.dump]: the text it prints. *)
Definition dump (config : pydict) : string :=
  json_indented 0 (sort_keys (PDict config)).

(** Strictly before, in the order of the keys. *)
Definition str_lt (a b : string) : bool := String.leb a b && negb (String.eqb a b).

(** Keys strictly increasing: each key before all the keys after it. *)
Fixpoint strictly_sorted (d : pydict) : bool :=
  match d with
  | [] => true
  | kv :: rest => forallb (fun kv' => str_lt (fst kv) (fst kv')) rest && strictly_sorted rest
  end.

(** A value that holds no other values. *)
Definition is_scalar (v : pyval) : bool :=
  match v with
  | PDict _ | PList _ => false
  | _ => true
  end.

(** A store as [Config] keeps it: groups with distinct ids, each a
    dictionary of scalars with distinct keys. *)
Definition plain_group (v : pyval) : bool :=
  match v with
  | PDict g => unique_keys g && forallb (fun kv => is_scalar (snd kv)) g
  | _ => false
  end.

Definition plain_store (config : pydict) : bool :=
  unique_keys config && forallb (fun kv => plain_group (snd kv)) config.

(** The same store, filled in two different orders. *)
Definition store_one_way : pydict :=
  [ ("x", PDict [("vm", PInt 16000); ("am", PInt 1)]);
    ("sys", PDict [("ja", PInt 2000000); ("id", PStr "9H3583-PXN")]) ].

Definition store_other_way : pydict :=
  [ ("sys", PDict [("id", PStr "9H3583-PXN"); ("ja", PInt 2000000)]);
    ("x", PDict [("am", PInt 1); ("vm", PInt 16000)]) ].

(** ** Strings of digits as numbers *)

(** The number written by a string of decimal digits (leading zeros
    allowed); [0] for a string that is not one. *)
Definition digits_value (s : string) : Z :=
  match NilEmpty.uint_of_string s with
  | Some u => Z.of_uint u
  | None => 0
  end.

(** ** Floats as numbers *)

(** The float with its sign replaced. *)
Definition with_sign (neg : bool) (f : pyfloat) : pyfloat :=
  match f with
  | S754_zero _ => S754_zero neg
  | S754_infinity _ => S754_infinity neg
  | S754_nan => S754_nan
  | S754_finite _ m e => S754_finite neg m e
  end.

(** The magnitude of a zero or finite float, counted in units of the
    least positive float [2^emin]. *)
Definition float_units (f : pyfloat) : Z :=
  match f with
  | S754_finite _ m e => Zpos m * 2 ^ (e - emin)
  | _ => 0
  end.

Definition float_sign (f : pyfloat) : bool :=
  match f with
  | S754_zero s | S754_infinity s | S754_finite s _ _ => s
  | S754_nan => false
  end.

(** A text that starts with a digit. *)
Definition head_digit (s : string) : Prop :=
  exists c rest, s = String c rest /\ is_digit c = true.

(** A text that [float()] reads as [f] and [int()] refuses, made of the
    characters of a JSON number, which [json.loads] reads as [f] too. *)
Definition reads_as_float (tok : string) (f : pyfloat) : Prop :=
  py_float tok = Some f /\ py_int tok = None
  /\ json_number tok = Ok (PFloat f)
  /\ str_forallb is_number_char tok = true.

(** A magnitude of [u] units of [2^emin], counted in units of [10^-n]
    and rounded to the nearest integer, ties to even: the digits that
    [{:.nf}] prints. *)
Definition fixed_scaled (n : nat) (u : Z) : Z :=
  div_round_even (u * 10 ^ Z.of_nat n) (2 ^ (- emin)).

Definition is_finite_or_zero (f : pyfloat) : bool :=
  match f with
  | S754_zero _ | S754_finite _ _ _ => true
  | _ => false
  end.

(* ================================================================== *)
(** * Part II: lemmas and theorems                                     *)
(* ================================================================== *)


(** ** Flat-key resolution *)

Lemma resolves_sound p :
  resolves p = true -> id_to_group_key (flat_key (fst p) (snd p)) = Ok (Some p).
Proof.
  unfold resolves. destruct p as [g k]; simpl.
  destruct (id_to_group_key (flat_key g k)) as [[[g' k']|]|]; try discriminate.
  rewrite andb_true_iff, !String.eqb_eq. intros [-> ->]. reflexivity.
Qed.

Lemma reachable_pairs_spec group_id schema_id strs key :
  In (group_id, schema_id) CONFIG_MAP ->
  assoc schema_id CONFIG_STR = Some strs ->
  In key (map entry_key strs) ->
  In (group_id, key) reachable_pairs.
Proof.
  intros Hmap Hstr Hkey. unfold reachable_pairs.
  apply in_flat_map. exists (group_id, schema_id). split; [exact Hmap|].
  cbn [fst snd]. rewrite Hstr. apply in_map_iff in Hkey. destruct Hkey as [e [<- He]].
  apply in_map_iff. exists e. split; [reflexivity | exact He].
Qed.

Lemma all_reachable_resolve : forallb resolves reachable_pairs = true.
Proof. vm_compute. reflexivity. Qed.

(** C1: every (group id, key) pair reachable through CONFIG_MAP resolves
    back from its flat key (the bare key for [sys], group id followed by
    key otherwise) to exactly that pair; in particular the result is
    never [None]. *)
Theorem id_to_group_key_roundtrip group_id schema_id strs key :
  In (group_id, schema_id) CONFIG_MAP ->
  assoc schema_id CONFIG_STR = Some strs ->
  In key (map entry_key strs) ->
  id_to_group_key (flat_key group_id key) = Ok (Some (group_id, key)).
Proof.
  intros Hmap Hstr Hkey.
  pose proof (reachable_pairs_spec _ _ _ _ Hmap Hstr Hkey) as Hin.
  pose proof all_reachable_resolve as Hall.
  rewrite forallb_forall in Hall.
  apply (resolves_sound (group_id, key)). apply Hall. exact Hin.
Qed.

Lemma id_to_group_key_roundtrip_witness :
  id_to_group_key (flat_key "g54" "x") = Ok (Some ("g54", "x")).
Proof.
  apply (id_to_group_key_roundtrip "g54" "g"
           [ ("x", "x offset", "{:.3f} mm"); ("y", "y offset", "{:.3f} mm");
             ("z", "z offset", "{:.3f} mm"); ("a", "a offset", "{:.3f} deg");
             ("b", "b offset", "{:.3f} deg"); ("c", "c offset", "{:.3f} deg") ] "x").
  - simpl. do 12 right. left. reflexivity.
  - reflexivity.
  - simpl. left. reflexivity.
Defined.

(** ** Dictionaries *)

Lemma assoc_In {A : Type} (d : list (string * A)) k v :
  NoDup (map fst d) -> In (k, v) d -> assoc k d = Some v.
Proof.
  induction d as [|[k' v'] d IH]; intros Hnd Hin; [contradiction|].
  cbn [map fst] in Hnd. inversion Hnd as [|? ? Hnotin Hnd']; subst.
  cbn [assoc]. destruct Hin as [Heq | Hin].
  - injection Heq as -> ->. rewrite String.eqb_refl. reflexivity.
  - destruct (String.eqb_spec k' k) as [-> | Hne].
    + exfalso. apply Hnotin. apply in_map_iff. exists (k, v). split; [reflexivity | exact Hin].
    + apply IH; assumption.
Qed.

Lemma assoc_None {A : Type} (d : list (string * A)) k :
  ~ In k (map fst d) -> assoc k d = None.
Proof.
  induction d as [|[k' v'] d IH]; intros Hnotin; [reflexivity|].
  cbn [assoc]. cbn [map fst] in Hnotin.
  destruct (String.eqb_spec k' k) as [-> | Hne].
  - exfalso. apply Hnotin. left. reflexivity.
  - apply IH. intros Hin. apply Hnotin. right. exact Hin.
Qed.

Lemma assoc_Some_In {A : Type} (d : list (string * A)) k v :
  assoc k d = Some v -> In (k, v) d.
Proof.
  induction d as [|[k' v'] d IH]; intros H; [discriminate|].
  cbn [assoc] in H. destruct (String.eqb_spec k' k) as [-> | Hne].
  - injection H as ->. left. reflexivity.
  - right. apply IH. exact H.
Qed.

Lemma dict_set_fresh {A : Type} (d : list (string * A)) k v :
  ~ In k (map fst d) -> dict_set k v d = (d ++ [(k, v)])%list.
Proof.
  induction d as [|[k' v'] d IH]; intros Hnotin; [reflexivity|].
  cbn [dict_set]. cbn [map fst] in Hnotin.
  destruct (String.eqb_spec k' k) as [-> | Hne].
  - exfalso. apply Hnotin. left. reflexivity.
  - cbn [List.app]. f_equal. apply IH. intros Hin. apply Hnotin. right. exact Hin.
Qed.

Lemma filter_key_absent {A : Type} (d : list (string * A)) k :
  ~ In k (map fst d) ->
  filter (fun kv => negb (String.eqb (fst kv) k)) d = d.
Proof.
  induction d as [|[k' v'] d IH]; intros Hnotin; [reflexivity|].
  cbn [filter fst]. cbn [map fst] in Hnotin.
  destruct (String.eqb_spec k' k) as [-> | Hne].
  - exfalso. apply Hnotin. left. reflexivity.
  - cbn [negb]. f_equal. apply IH. intros Hin. apply Hnotin. right. exact Hin.
Qed.

(** Under unique keys, deleting a key filters it out. *)
Lemma dict_del_filter {A : Type} (d : list (string * A)) k :
  NoDup (map fst d) ->
  (if dict_mem k d then dict_del k d else d)
  = filter (fun kv => negb (String.eqb (fst kv) k)) d.
Proof.
  unfold dict_mem. induction d as [|[k' v'] d IH]; intros Hnd; [reflexivity|].
  cbn [map fst] in Hnd. inversion Hnd as [|? ? Hnotin Hnd']; subst.
  cbn [assoc dict_del filter fst].
  destruct (String.eqb_spec k' k) as [-> | Hne]; cbn [negb].
  - symmetry. apply filter_key_absent. exact Hnotin.
  - specialize (IH Hnd'). destruct (assoc k d); rewrite <- IH; reflexivity.
Qed.

Lemma NoDup_keys_filter {A : Type} (p : string * A -> bool) (d : list (string * A)) :
  NoDup (map fst d) -> NoDup (map fst (filter p d)).
Proof.
  induction d as [|kv d IH]; intros Hnd; [exact Hnd|].
  cbn [map] in Hnd. inversion Hnd as [|? ? Hnotin Hnd']; subst.
  cbn [filter]. destruct (p kv); [|apply IH; exact Hnd'].
  cbn [map]. constructor; [|apply IH; exact Hnd'].
  intros Hin. apply Hnotin. apply in_map_iff in Hin. destruct Hin as [x [Hx Hin]].
  apply filter_In in Hin. apply in_map_iff. exists x. split; [exact Hx | apply Hin].
Qed.

Lemma remove_keys_filter (ro_keys : list string) :
  forall d : pydict,
    NoDup (map fst d) ->
    fold_left (fun filtered ro_key =>
                 if dict_mem ro_key filtered then dict_del ro_key filtered else filtered)
              ro_keys d
    = filter (fun kv => negb (existsb (String.eqb (fst kv)) ro_keys)) d.
Proof.
  induction ro_keys as [|k ks IH]; intros d Hnd.
  - cbn [fold_left existsb negb]. induction d as [|kv d IHd]; [reflexivity|].
    cbn [filter]. f_equal. apply IHd. cbn [map] in Hnd. inversion Hnd; assumption.
  - cbn [fold_left]. rewrite (dict_del_filter d k Hnd).
    rewrite IH by (apply NoDup_keys_filter; exact Hnd).
    clear. induction d as [|kv d IHd]; [reflexivity|].
    cbn [filter existsb].
    destruct (String.eqb (fst kv) k); cbn [negb orb filter]; [exact IHd|].
    destruct (existsb (String.eqb (fst kv)) ks); cbn [negb]; [exact IHd|].
    f_equal. exact IHd.
Qed.

(** [write_config] sends the fields of the group that are not in its
    read-only set, in the order of the stored dictionary. *)
Lemma remove_read_only_filter group_id (d : pydict) :
  NoDup (dict_keys d) ->
  remove_read_only group_id d
  = filter (fun kv => negb (is_read_only group_id (fst kv))) d.
Proof.
  intros Hnd. unfold remove_read_only, is_read_only.
  destruct (assoc group_id CONFIG_READ_ONLY) as [ro_keys|].
  - apply remove_keys_filter. exact Hnd.
  - induction d as [|kv d IHd]; [reflexivity|].
    cbn [filter negb]. f_equal. apply IHd. cbn in Hnd. inversion Hnd; assumption.
Qed.

Lemma chunk_dict_from_items (d : pydict) (items : pydict) :
  forall acc : pydict,
    (forall k v, In (k, v) items -> assoc k d = Some v) ->
    NoDup (map fst (acc ++ items)%list) ->
    chunk_dict_from acc d (map fst items) = Ok (acc ++ items)%list.
Proof.
  induction items as [|[k v] items IH]; intros acc Hin Hnd.
  - cbn. rewrite app_nil_r. reflexivity.
  - cbn [map fst chunk_dict_from]. rewrite (Hin k v) by (left; reflexivity).
    assert (Hfresh : ~ In k (map fst acc)).
    { rewrite map_app in Hnd. cbn [map fst] in Hnd.
      apply NoDup_remove_2 in Hnd. intros Hk. apply Hnd. apply in_or_app. left. exact Hk. }
    rewrite (dict_set_fresh acc k v Hfresh).
    rewrite IH.
    + rewrite <- app_assoc. reflexivity.
    + intros k' v' H'. apply Hin. right. exact H'.
    + rewrite <- app_assoc. exact Hnd.
Qed.

Lemma In_firstn {A : Type} (x : A) n (l : list A) : In x (firstn n l) -> In x l.
Proof.
  intros H. rewrite <- (firstn_skipn n l). apply in_or_app. left. exact H.
Qed.

Lemma In_skipn {A : Type} (x : A) n (l : list A) : In x (skipn n l) -> In x l.
Proof.
  intros H. rewrite <- (firstn_skipn n l). apply in_or_app. right. exact H.
Qed.

(** The dictionary built for a slice of the keys is that slice of the
    dictionary. *)
Lemma chunk_dict_slice (d : pydict) (n m : nat) :
  NoDup (dict_keys d) ->
  chunk_dict d (firstn n (skipn m (dict_keys d))) = Ok (firstn n (skipn m d)).
Proof.
  intros Hnd. unfold chunk_dict, dict_keys. rewrite skipn_map, firstn_map.
  rewrite chunk_dict_from_items; [reflexivity| |].
  - intros k v Hin. apply assoc_In; [exact Hnd|].
    apply In_firstn in Hin. apply In_skipn in Hin. exact Hin.
  - cbn [List.app].
    assert (H1 : NoDup (map fst (skipn m d))).
    { unfold dict_keys in Hnd. rewrite <- (firstn_skipn m d), map_app in Hnd.
      apply NoDup_app_remove_l in Hnd. exact Hnd. }
    rewrite <- (firstn_skipn n (skipn m d)), map_app in H1.
    apply NoDup_app_remove_r in H1. exact H1.
Qed.

(** ** The request/response driver *)

Arguments json_loads : simpl never.
Arguments json_dumps : simpl never.

Lemma port_eta st : st = mk_port (incoming st) (sent st) (printed st).
Proof. destruct st; reflexivity. Qed.

Lemma recv_json_timeout lines snt prt :
  times_out lines ->
  recv_json (mk_port lines snt prt)
  = (Ok PNone, mk_port (after_timeout lines) snt (prt ++ ["Timed out"])).
Proof.
  intros [-> | [rest ->]]; reflexivity.
Qed.

Lemma recv_json_line line rest snt prt :
  line <> "" -> ascii_line line = true ->
  recv_json (mk_port (line :: rest) snt prt) = (json_loads line, mk_port rest snt prt).
Proof.
  intros Hne Hascii. unfold recv_json, dbind, readline, mk_port. cbn [incoming sent printed].
  rewrite Hascii. destruct line as [|c line']; [contradiction|].
  unfold lift. reflexivity.
Qed.

(** The loop of [read_response] never runs out of rounds: any number of
    rounds at least the number of lines to come gives the same result. *)
Lemma read_response_loop_enough lines :
  forall fuel snt prt,
    (List.length lines <= fuel)%nat ->
    read_response_loop fuel (mk_port lines snt prt)
    = read_response_loop (List.length lines) (mk_port lines snt prt).
Proof.
  induction lines as [|line rest IH]; intros fuel snt prt Hfuel.
  - destruct fuel; reflexivity.
  - destruct fuel as [|fuel]; [simpl in Hfuel; lia|].
    simpl in Hfuel. apply Nat.succ_le_mono in Hfuel.
    cbn [List.length read_response_loop]. unfold dbind at 1 3.
    destruct (recv_json (mk_port (line :: rest) snt prt)) as [[response|e] st'] eqn:Hrecv;
      [|reflexivity].
    assert (Hst' : incoming st' = rest).
    { unfold recv_json, dbind, readline, mk_port in Hrecv. cbn [incoming sent printed] in Hrecv.
      destruct (ascii_line line); [|discriminate].
      destruct line; cbn in Hrecv.
      - injection Hrecv as _ <-. reflexivity.
      - unfold lift in Hrecv. injection Hrecv as _ <-. reflexivity. }
    unfold dbind, lift. destruct (response_step response) as [[r|[]]|e]; try reflexivity.
    rewrite (port_eta st'), Hst'. apply IH. exact Hfuel.
Qed.

(** The loop equation of [read_response]: receive a value; a falsy one
    ends the wait with [None]; one holding [r] ends it with the payload;
    any other is dropped and the wait goes on. *)
Lemma read_response_unfold st :
  read_response st
  = (response <<- recv_json ;;;
     step <<- lift (response_step response) ;;;
     match step with
     | inl r => ret r
     | inr _ => read_response
     end)%drv st.
Proof.
  rewrite (port_eta st). generalize (incoming st) (sent st) (printed st).
  intros lines snt prt. unfold read_response at 1. cbn [incoming mk_port].
  fold (mk_port lines snt prt).
  destruct lines as [|line rest].
  - reflexivity.
  - cbn [List.length read_response_loop]. unfold dbind.
    destruct (recv_json (mk_port (line :: rest) snt prt)) as [[response|e] st'] eqn:Hrecv;
      [|reflexivity].
    assert (Hst' : incoming st' = rest).
    { unfold recv_json, dbind, readline, mk_port in Hrecv. cbn [incoming sent printed] in Hrecv.
      destruct (ascii_line line); [|discriminate].
      destruct line; cbn in Hrecv.
      - injection Hrecv as _ <-. reflexivity.
      - unfold lift in Hrecv. injection Hrecv as _ <-. reflexivity. }
    unfold lift. destruct (response_step response) as [[r|[]]|e]; try reflexivity.
    unfold read_response. rewrite Hst'. rewrite (port_eta st'), Hst'. reflexivity.
Qed.

Lemma read_response_timeout lines snt prt :
  times_out lines ->
  read_response (mk_port lines snt prt)
  = (Ok PNone, mk_port (after_timeout lines) snt (prt ++ ["Timed out"])).
Proof.
  intros Hto. rewrite read_response_unfold. unfold dbind.
  rewrite (recv_json_timeout _ _ _ Hto). reflexivity.
Qed.

Lemma read_response_falsy line v rest snt prt :
  line <> "" -> ascii_line line = true ->
  json_loads line = Ok v -> truthy v = false ->
  read_response (mk_port (line :: rest) snt prt) = (Ok PNone, mk_port rest snt prt).
Proof.
  intros Hne Hascii Hloads Hfalsy. rewrite read_response_unfold. unfold dbind.
  rewrite (recv_json_line _ _ _ _ Hne Hascii), Hloads.
  unfold lift, response_step. rewrite Hfalsy. reflexivity.
Qed.

Lemma read_response_status line rest snt prt :
  status_line line ->
  read_response (mk_port (line :: rest) snt prt) = read_response (mk_port rest snt prt).
Proof.
  intros (Hne & Hascii & d & Hloads & Hd & Hr). rewrite read_response_unfold. unfold dbind.
  rewrite (recv_json_line _ _ _ _ Hne Hascii), Hloads.
  unfold lift, response_step.
  assert (Ht : truthy (PDict d) = true) by (destruct d; [contradiction|reflexivity]).
  rewrite Ht. cbn. unfold dict_mem. rewrite Hr. reflexivity.
Qed.

Lemma read_response_skip skipped :
  forall rest snt prt,
    Forall status_line skipped ->
    read_response (mk_port (skipped ++ rest)%list snt prt) = read_response (mk_port rest snt prt).
Proof.
  induction skipped as [|line more IH]; intros rest snt prt Hall.
  - reflexivity.
  - inversion Hall as [|? ? Hline Hmore]; subst.
    change ((line :: more) ++ rest)%list with (line :: (more ++ rest))%list.
    rewrite (read_response_status _ _ _ _ Hline). apply IH. exact Hmore.
Qed.

Lemma read_response_reply line r rest snt prt :
  reply_line line r ->
  read_response (mk_port (line :: rest) snt prt) = (Ok r, mk_port rest snt prt).
Proof.
  intros (Hne & Hascii & d & Hloads & Hr). rewrite read_response_unfold. unfold dbind.
  rewrite (recv_json_line _ _ _ _ Hne Hascii), Hloads.
  unfold lift, response_step.
  assert (Ht : truthy (PDict d) = true) by (destruct d; [discriminate|reflexivity]).
  rewrite Ht. cbn. unfold dict_mem. rewrite Hr. reflexivity.
Qed.

(** ** Reading the configuration from the device *)

Lemma send_json_port cmd lines snt prt :
  send_json cmd (mk_port lines snt prt)
  = (Ok tt, mk_port lines (snt ++ [json_dumps cmd]) prt).
Proof. reflexivity. Qed.

Lemma read_config_group_unfold group config lines snt prt :
  read_config_group group config (mk_port lines snt prt)
  = match read_response (mk_port lines (snt ++ [query_line group]) prt) with
    | (Ok response, st') =>
        if truthy response then (add_group config response, st') else (Ok config, st')
    | (Raise e, st') => (Raise e, st')
    end.
Proof.
  unfold read_config_group, dbind. rewrite send_json_port.
  fold (query_line group).
  destruct (read_response (mk_port lines (snt ++ [query_line group]) prt)) as [[response|e] st'];
    [|reflexivity].
  destruct (truthy response); reflexivity.
Qed.

Lemma sr_line_status : status_line sr_line.
Proof.
  split; [discriminate|]. split; [reflexivity|].
  eexists. split; [vm_compute; reflexivity|]. split; [discriminate | reflexivity].
Qed.

Lemma r_line_reply : reply_line r_line (PDict [("x", PDict [("vm", PInt 500)])]).
Proof.
  split; [discriminate|]. split; [reflexivity|].
  eexists. split; [vm_compute; reflexivity | reflexivity].
Qed.




(** ** Writing the configuration to the device *)

Lemma recv_json_sent st : sent (snd (recv_json st)) = sent st.
Proof.
  unfold recv_json, dbind, readline. destruct (incoming st) as [|line rest].
  - reflexivity.
  - destruct (ascii_line line); [|reflexivity].
    destruct line; reflexivity.
Qed.

Lemma read_response_loop_sent fuel :
  forall st, sent (snd (read_response_loop fuel st)) = sent st.
Proof.
  induction fuel as [|fuel IH]; intros st; cbn [read_response_loop]; unfold dbind;
    pose proof (recv_json_sent st) as Hrecv;
    destruct (recv_json st) as [[response|e] st']; cbn [snd] in Hrecv; try exact Hrecv;
    unfold lift; destruct (response_step response) as [[r|[]]|e]; cbn [snd]; try exact Hrecv.
  rewrite IH. exact Hrecv.
Qed.

(** Waiting for a response sends nothing. *)
Lemma read_response_sent st : sent (snd (read_response st)) = sent st.
Proof. apply read_response_loop_sent. Qed.

(** One round of the loop of [write_config], in terms of the response
    that comes back. *)
Lemma write_chunks_unfold fuel group_id filtered_config key keys chunk lines snt prt :
  chunk_dict filtered_config (firstn 10 (key :: keys)) = Ok chunk ->
  write_chunks (S fuel) group_id filtered_config (key :: keys) (mk_port lines snt prt)
  = match read_response (mk_port lines (snt ++ [set_line group_id chunk]) prt) with
    | (Ok response, st') =>
        if truthy response
        then write_chunks fuel group_id filtered_config (skipn 10 (key :: keys)) st'
        else (Raise NameError, st')
    | (Raise e, st') => (Raise e, st')
    end.
Proof.
  intros Hchunk. cbn [write_chunks]. unfold dbind at 1. unfold lift at 1.
  rewrite Hchunk. unfold dbind at 1. rewrite send_json_port. fold (set_line group_id chunk).
  unfold dbind.
  destruct (read_response (mk_port lines (snt ++ [set_line group_id chunk]) prt))
    as [[response|e] st']; [|reflexivity].
  destruct (truthy response); reflexivity.
Qed.

(** A chunk that is acknowledged: the loop goes on with the next keys. *)
Lemma write_chunks_acknowledged fuel group_id filtered_config key keys chunk
      line r rest snt prt :
  chunk_dict filtered_config (firstn 10 (key :: keys)) = Ok chunk ->
  reply_line line r -> truthy r = true ->
  write_chunks (S fuel) group_id filtered_config (key :: keys)
               (mk_port (line :: rest) snt prt)
  = write_chunks fuel group_id filtered_config (skipn 10 (key :: keys))
                 (mk_port rest (snt ++ [set_line group_id chunk]) prt).
Proof.
  intros Hchunk Hreply Htruthy. rewrite (write_chunks_unfold _ _ _ _ _ _ _ _ _ Hchunk).
  rewrite (read_response_reply _ _ _ _ _ Hreply), Htruthy. reflexivity.
Qed.

(** A chunk that is not answered: NameError, nothing printed but the
    timeout message of [recv_json], nothing more sent. *)
Lemma write_chunks_timeout fuel group_id filtered_config key keys chunk lines snt prt :
  chunk_dict filtered_config (firstn 10 (key :: keys)) = Ok chunk ->
  times_out lines ->
  write_chunks (S fuel) group_id filtered_config (key :: keys) (mk_port lines snt prt)
  = (Raise NameError,
     mk_port (after_timeout lines) (snt ++ [set_line group_id chunk]) (prt ++ ["Timed out"])).
Proof.
  intros Hchunk Hlines. rewrite (write_chunks_unfold _ _ _ _ _ _ _ _ _ Hchunk).
  rewrite (read_response_timeout _ _ _ Hlines). reflexivity.
Qed.

(** A chunk answered by a reply with a falsy payload: the same. *)
Lemma write_chunks_falsy_reply fuel group_id filtered_config key keys chunk
      line r rest snt prt :
  chunk_dict filtered_config (firstn 10 (key :: keys)) = Ok chunk ->
  reply_line line r -> truthy r = false ->
  write_chunks (S fuel) group_id filtered_config (key :: keys)
               (mk_port (line :: rest) snt prt)
  = (Raise NameError, mk_port rest (snt ++ [set_line group_id chunk]) prt).
Proof.
  intros Hchunk Hreply Hfalsy. rewrite (write_chunks_unfold _ _ _ _ _ _ _ _ _ Hchunk).
  rewrite (read_response_reply _ _ _ _ _ Hreply), Hfalsy. reflexivity.
Qed.

Lemma write_group_unfold group_id config group_config st :
  get_group config group_id = Ok (Some group_config) ->
  group_config <> [] ->
  write_group group_id config st
  = write_chunks (List.length (dict_keys (remove_read_only group_id group_config)))
                 group_id (remove_read_only group_id group_config)
                 (dict_keys (remove_read_only group_id group_config)) st.
Proof.
  intros Hget Hne. unfold write_group, dbind, lift. rewrite Hget.
  destruct group_config; [contradiction | reflexivity].
Qed.

Lemma write_group_absent group_id config st :
  assoc group_id config = None -> write_group group_id config st = (Ok tt, st).
Proof.
  intros Habs. unfold write_group, dbind, lift, get_group. rewrite Habs. reflexivity.
Qed.

Lemma write_config_from_absent entries config st :
  (forall e, In e entries -> assoc (fst e) config = None) ->
  write_config_from entries config st = (Ok tt, st).
Proof.
  induction entries as [|e rest IH]; intros Habs; [reflexivity|].
  cbn [write_config_from]. unfold dbind.
  rewrite write_group_absent by (apply Habs; left; reflexivity).
  apply IH. intros e' He'. apply Habs. right. exact He'.
Qed.

Lemma NoDup_remove_read_only group_id (d : pydict) :
  NoDup (dict_keys d) -> NoDup (dict_keys (remove_read_only group_id d)).
Proof.
  intros Hnd. rewrite (remove_read_only_filter _ _ Hnd).
  apply NoDup_keys_filter. exact Hnd.
Qed.

(** *** Chunks of ten keys *)

(** C4: a group whose fields, the read-only ones removed, number 23 is
    written in three set commands that carry the first ten, the next ten
    and the last three of the fields, in the order of the key list; and
    when the second command is not answered, the third is never sent. *)
Theorem write_group_23_keys group_id config group_config snt prt :
  get_group config group_id = Ok (Some group_config) ->
  NoDup (dict_keys group_config) ->
  List.length (remove_read_only group_id group_config) = 23%nat ->
  let filtered := remove_read_only group_id group_config in
  let c1 := firstn 10 filtered in
  let c2 := firstn 10 (skipn 10 filtered) in
  let c3 := skipn 20 filtered in
  (List.length c1 = 10%nat /\ List.length c2 = 10%nat /\ List.length c3 = 3%nat
   /\ filtered = (c1 ++ c2 ++ c3)%list)
  /\ (forall a1 r1 a2 r2 a3 r3 rest,
         reply_line a1 r1 -> truthy r1 = true ->
         reply_line a2 r2 -> truthy r2 = true ->
         reply_line a3 r3 -> truthy r3 = true ->
         write_group group_id config (mk_port (a1 :: a2 :: a3 :: rest) snt prt)
         = (Ok tt,
            mk_port rest
                    (snt ++ [set_line group_id c1; set_line group_id c2;
                             set_line group_id c3])
                    prt))
  /\ (forall a1 r1 lines,
         reply_line a1 r1 -> truthy r1 = true ->
         times_out lines ->
         write_group group_id config (mk_port (a1 :: lines) snt prt)
         = (Raise NameError,
            mk_port (after_timeout lines)
                    (snt ++ [set_line group_id c1; set_line group_id c2])
                    (prt ++ ["Timed out"]))).
Proof.
  intros Hget Hnd Hlen filtered c1 c2 c3.
  assert (Hne : group_config <> []).
  { intros ->. unfold remove_read_only in Hlen.
    destruct (assoc group_id CONFIG_READ_ONLY) as [ro|]; [|discriminate].
    clear -Hlen. induction ro as [|k ks IH]; [discriminate | exact (IH Hlen)]. }
  assert (Hndf : NoDup (dict_keys filtered)) by (apply NoDup_remove_read_only; exact Hnd).
  assert (Hkeys : List.length (dict_keys filtered) = 23%nat).
  { unfold dict_keys. rewrite length_map. exact Hlen. }
  assert (Hc1 : chunk_dict filtered (firstn 10 (dict_keys filtered)) = Ok c1).
  { apply (chunk_dict_slice filtered 10 0 Hndf). }
  assert (Hc2 : chunk_dict filtered (firstn 10 (skipn 10 (dict_keys filtered))) = Ok c2).
  { apply (chunk_dict_slice filtered 10 10 Hndf). }
  assert (Hc3 : chunk_dict filtered (firstn 10 (skipn 20 (dict_keys filtered))) = Ok c3).
  { rewrite (chunk_dict_slice filtered 10 20 Hndf). unfold c3.
    rewrite firstn_all2; [reflexivity|]. rewrite length_skipn. fold filtered in Hlen. lia. }
  assert (Hs1 : exists k ks, dict_keys filtered = k :: ks).
  { destruct (dict_keys filtered) as [|k ks]; [discriminate | eauto]. }
  assert (Hs2 : exists k ks, skipn 10 (dict_keys filtered) = k :: ks).
  { pose proof (length_skipn 10 (dict_keys filtered)) as Hl. rewrite Hkeys in Hl.
    destruct (skipn 10 (dict_keys filtered)) as [|k ks]; [discriminate | eauto]. }
  assert (Hs3 : exists k ks, skipn 20 (dict_keys filtered) = k :: ks).
  { pose proof (length_skipn 20 (dict_keys filtered)) as Hl. rewrite Hkeys in Hl.
    destruct (skipn 20 (dict_keys filtered)) as [|k ks]; [discriminate | eauto]. }
  assert (Hs4 : skipn 30 (dict_keys filtered) = []).
  { apply skipn_all2. lia. }
  destruct Hs1 as (k1 & ks1 & Hk1), Hs2 as (k2 & ks2 & Hk2), Hs3 as (k3 & ks3 & Hk3).
  refine (conj _ (conj _ _)).
  - unfold c1, c2, c3. fold filtered in Hlen.
    rewrite !length_firstn, !length_skipn, Hlen.
    refine (conj _ (conj _ (conj _ _))); try reflexivity.
    rewrite <- (firstn_skipn 10 filtered) at 1. f_equal.
    rewrite <- (firstn_skipn 10 (skipn 10 filtered)) at 1. f_equal.
    rewrite skipn_skipn. reflexivity.
  - intros a1 r1 a2 r2 a3 r3 rest Ha1 Ht1 Ha2 Ht2 Ha3 Ht3.
    rewrite (write_group_unfold _ _ _ _ Hget Hne). fold filtered. rewrite Hkeys.
    rewrite Hk1 in *.
    rewrite (write_chunks_acknowledged _ _ _ _ _ _ _ _ _ _ _ Hc1 Ha1 Ht1).
    rewrite Hk2 in *.
    rewrite (write_chunks_acknowledged _ _ _ _ _ _ _ _ _ _ _ Hc2 Ha2 Ht2).
    rewrite <- Hk2, skipn_skipn. cbn [Nat.add]. rewrite Hk3 in *.
    rewrite (write_chunks_acknowledged _ _ _ _ _ _ _ _ _ _ _ Hc3 Ha3 Ht3).
    rewrite <- Hk3, skipn_skipn. cbn [Nat.add]. rewrite Hs4.
    cbn [write_chunks]. unfold ret. rewrite <- !app_assoc. reflexivity.
  - intros a1 r1 lines Ha1 Ht1 Hlines.
    rewrite (write_group_unfold _ _ _ _ Hget Hne). fold filtered. rewrite Hkeys.
    rewrite Hk1 in *.
    rewrite (write_chunks_acknowledged _ _ _ _ _ _ _ _ _ _ _ Hc1 Ha1 Ht1).
    rewrite Hk2 in *.
    rewrite (write_chunks_timeout _ _ _ _ _ _ _ _ _ Hc2 Hlines).
    rewrite <- !app_assoc. reflexivity.
Qed.

Lemma ack_line_reply : reply_line ack_line ack_payload.
Proof.
  split; [discriminate|]. split; [reflexivity|].
  eexists. split; [vm_compute; reflexivity | reflexivity].
Qed.

Lemma empty_reply_line_reply : reply_line empty_reply_line (PDict []).
Proof.
  split; [discriminate|]. split; [reflexivity|].
  eexists. split; [vm_compute; reflexivity | reflexivity].
Qed.

Lemma group23_NoDup : NoDup (dict_keys group23).
Proof.
  unfold dict_keys, group23. cbn [map fst].
  repeat (constructor; [cbn [In]; intuition discriminate|]). constructor.
Qed.

Lemma write_group_23_keys_witness :
  write_group "x" config23 (mk_port [ack_line; ack_line; ack_line] [] [])
  = (Ok tt,
     mk_port []
       ([] ++ [set_line "x" (firstn 10 (remove_read_only "x" group23));
               set_line "x" (firstn 10 (skipn 10 (remove_read_only "x" group23)));
               set_line "x" (skipn 20 (remove_read_only "x" group23))])
       []).
Proof.
  apply (proj1 (proj2 (write_group_23_keys "x" config23 group23 [] []
                         eq_refl group23_NoDup eq_refl))
           ack_line ack_payload ack_line ack_payload ack_line ack_payload []);
    first [exact ack_line_reply | reflexivity].
Defined.

(** *** Read-only fields *)

Lemma filter_key_single (d : pydict) k v :
  NoDup (dict_keys d) -> assoc k d = Some v ->
  filter (fun kv => String.eqb (fst kv) k) d = [(k, v)].
Proof.
  unfold dict_keys. induction d as [|[k' v'] d IH]; intros Hnd Hget; [discriminate|].
  cbn [map fst] in Hnd. inversion Hnd as [|? ? Hnotin Hnd']; subst.
  cbn [assoc] in Hget. cbn [filter fst].
  destruct (String.eqb_spec k' k) as [-> | Hne].
  - injection Hget as ->. f_equal.
    clear -Hnotin. induction d as [|[k2 v2] d IH]; [reflexivity|].
    cbn [filter fst]. cbn [map fst] in Hnotin.
    destruct (String.eqb_spec k2 k) as [-> | Hne2].
    + exfalso. apply Hnotin. left. reflexivity.
    + apply IH. intros Hin. apply Hnotin. right. exact Hin.
  - apply IH; assumption.
Qed.

Lemma sys_writable_only_ja (group : pydict) v :
  NoDup (dict_keys group) ->
  (forall k, In k (dict_keys group) <-> In k ["fb"; "fv"; "id"; "ja"]) ->
  assoc "ja" group = Some v ->
  remove_read_only "sys" group = [("ja", v)].
Proof.
  intros Hnd Hkeys Hja. rewrite (remove_read_only_filter _ _ Hnd).
  rewrite <- (filter_key_single group "ja" v Hnd Hja).
  apply filter_ext_in. intros [k x] Hin. cbn [fst].
  assert (Hk : In k ["fb"; "fv"; "id"; "ja"]).
  { apply Hkeys. unfold dict_keys. apply in_map_iff. exists (k, x). split; [reflexivity | exact Hin]. }
  cbn [In] in Hk. destruct Hk as [<- | [<- | [<- | [<- | []]]]]; reflexivity.
Qed.

(** C6: when the stored group [sys] holds exactly the keys [fb], [fv],
    [id] and [ja], writing it sends one set command, and that command
    carries only [ja]: whatever the device answers, for the round of
    [write_config] that writes [sys], and for the whole of
    [write_config] when no other group is stored. *)
Theorem write_config_sys_sends_only_ja config group v st :
  assoc "sys" config = Some (PDict group) ->
  NoDup (dict_keys group) ->
  (forall k, In k (dict_keys group) <-> In k ["fb"; "fv"; "id"; "ja"]) ->
  assoc "ja" group = Some v ->
  sent (snd (write_group "sys" config st))
  = (sent st ++ [set_line "sys" [("ja", v)]])%list
  /\ ((forall g, In g (map fst CONFIG_MAP) -> g <> "sys" -> assoc g config = None) ->
      sent (snd (write_config config st))
      = (sent st ++ [set_line "sys" [("ja", v)]])%list).
Proof.
  intros Hsys Hnd Hkeys Hja.
  assert (Hne : group <> []) by (intros ->; discriminate).
  assert (Hget : get_group config "sys" = Ok (Some group)).
  { unfold get_group. rewrite Hsys. reflexivity. }
  assert (Hgroup : sent (snd (write_group "sys" config st))
                   = (sent st ++ [set_line "sys" [("ja", v)]])%list).
  { rewrite (write_group_unfold _ _ _ _ Hget Hne).
    rewrite (sys_writable_only_ja _ _ Hnd Hkeys Hja).
    cbn [dict_keys map fst List.length].
    rewrite (port_eta st) at 1.
    rewrite (write_chunks_unfold 0 "sys" [("ja", v)] "ja" [] [("ja", v)]);
      [|reflexivity].
    pose proof (read_response_sent
                  (mk_port (incoming st) (sent st ++ [set_line "sys" [("ja", v)]]) (printed st)))
      as Hsent.
    destruct (read_response
                (mk_port (incoming st) (sent st ++ [set_line "sys" [("ja", v)]]) (printed st)))
      as [[response|e] st']; cbn [snd] in Hsent; [|exact Hsent].
    destruct (truthy response); exact Hsent. }
  split; [exact Hgroup|].
  intros Hothers. unfold write_config. cbn [CONFIG_MAP write_config_from fst].
  unfold dbind at 1.
  destruct (write_group "sys" config st) as [[[]|e] st'] eqn:Hw; cbn [snd] in Hgroup;
    [|exact Hgroup].
  match goal with
  | |- sent (snd (?f st')) = _ =>
      change (f st') with (write_config_from (tl CONFIG_MAP) config st')
  end.
  rewrite write_config_from_absent; [exact Hgroup|].
  intros e He. apply Hothers.
  - apply in_map. right. exact He.
  - cbn in He. intuition (subst; discriminate).
Qed.

Lemma write_config_sys_sends_only_ja_witness :
  sent (snd (write_group "sys"
               [("sys", PDict [("fb", PFloat (S754_finite false 440 0));
                               ("fv", PFloat (S754_finite false 97 (-7)));
                               ("id", PStr "9H3583-PXN");
                               ("ja", PInt 2000000)])]
               (fresh_port [])))
  = ([] ++ [set_line "sys" [("ja", PInt 2000000)]])%list.
Proof.
  apply (proj1 (write_config_sys_sends_only_ja
                  [("sys", PDict [("fb", PFloat (S754_finite false 440 0));
                                  ("fv", PFloat (S754_finite false 97 (-7)));
                                  ("id", PStr "9H3583-PXN");
                                  ("ja", PInt 2000000)])]
                  [("fb", PFloat (S754_finite false 440 0));
                   ("fv", PFloat (S754_finite false 97 (-7)));
                   ("id", PStr "9H3583-PXN");
                   ("ja", PInt 2000000)]
                  (PInt 2000000) (fresh_port [])
                  eq_refl
                  ltac:(cbn; repeat (constructor; [cbn [In]; intuition discriminate|]); constructor)
                  ltac:(intros k; cbn; tauto)
                  eq_refl)).
Defined.

(** *** A chunk that is not acknowledged *)

(** When the first chunk of a group is not answered, [write_config]
    stops with NameError: the groups after it are not written. *)
Lemma write_config_from_unanswered group_id schema entries config group_config
      key keys lines snt prt :
  get_group config group_id = Ok (Some group_config) ->
  NoDup (dict_keys group_config) ->
  dict_keys (remove_read_only group_id group_config) = key :: keys ->
  times_out lines ->
  write_config_from ((group_id, schema) :: entries) config (mk_port lines snt prt)
  = (Raise NameError,
     mk_port (after_timeout lines)
             (snt ++ [set_line group_id (firstn 10 (remove_read_only group_id group_config))])
             (prt ++ ["Timed out"])).
Proof.
  intros Hget Hnd Hkeys Hlines.
  assert (Hne : group_config <> []).
  { intros ->. unfold remove_read_only in Hkeys.
    destruct (assoc group_id CONFIG_READ_ONLY) as [ro|]; [|discriminate].
    clear -Hkeys. induction ro as [|k ks IH]; [discriminate | exact (IH Hkeys)]. }
  cbn [write_config_from fst]. unfold dbind.
  rewrite (write_group_unfold _ _ _ _ Hget Hne).
  pose proof (chunk_dict_slice _ 10 0 (NoDup_remove_read_only group_id _ Hnd)) as Hchunk.
  cbn [skipn] in Hchunk. rewrite Hkeys in *. cbn [List.length].
  rewrite (write_chunks_timeout _ _ _ _ _ _ _ _ _ Hchunk Hlines). reflexivity.
Qed.

(** C5, on the code: with the groups [sys] and [x] stored and a device
    that answers nothing, [write_config] sends the command for [sys],
    the read times out, and the attempt to report it raises NameError
    (the message names the unbound [group]): nothing is printed but the
    timeout, and the command for [x] is never sent.  With a device that
    acknowledges, both groups are written. *)
Theorem write_config_timeout_aborts :
  write_config config_sys_x (fresh_port [])
  = (Raise NameError, mk_port [] [set_line "sys" [("ja", PInt 5)]] ["Timed out"])
  /\ write_config config_sys_x (fresh_port [ack_line; ack_line])
     = (Ok tt,
        mk_port [] [set_line "sys" [("ja", PInt 5)]; set_line "x" [("vm", PInt 1)]] []).
Proof.
  split; vm_compute; reflexivity.
Qed.

(** C10, on the code: a reply whose [r] payload is falsy is returned as
    it is by [read_response]; [read_config] merges nothing for it; and
    [write_config] takes the branch of the unanswered chunk, where the
    attempt to report the failure raises NameError before anything is
    printed, so the remaining chunks are not sent and no report is
    made. *)
Theorem falsy_reply_is_taken_for_a_timeout group config filtered_config key keys chunk
        fuel line r rest snt prt :
  reply_line line r -> truthy r = false ->
  chunk_dict filtered_config (firstn 10 (key :: keys)) = Ok chunk ->
  read_response (mk_port (line :: rest) snt prt) = (Ok r, mk_port rest snt prt)
  /\ read_config_group group config (mk_port (line :: rest) snt prt)
     = (Ok config, mk_port rest (snt ++ [query_line group]) prt)
  /\ write_chunks (S fuel) group filtered_config (key :: keys)
                  (mk_port (line :: rest) snt prt)
     = (Raise NameError, mk_port rest (snt ++ [set_line group chunk]) prt).
Proof.
  intros Hreply Hfalsy Hchunk. refine (conj _ (conj _ _)).
  - apply read_response_reply. exact Hreply.
  - rewrite read_config_group_unfold.
    rewrite (read_response_reply _ _ _ _ _ Hreply), Hfalsy. reflexivity.
  - apply (write_chunks_falsy_reply _ _ _ _ _ _ _ _ _ _ _ Hchunk Hreply Hfalsy).
Qed.

Lemma falsy_reply_is_taken_for_a_timeout_witness :
  write_chunks 1 "sys" [("ja", PInt 5)] ["ja"] (mk_port [empty_reply_line] [] [])
  = (Raise NameError, mk_port [] ([] ++ [set_line "sys" [("ja", PInt 5)]]) []).
Proof.
  apply (proj2 (proj2 (falsy_reply_is_taken_for_a_timeout
                         "sys" [] [("ja", PInt 5)] "ja" [] [("ja", PInt 5)] 0
                         empty_reply_line (PDict []) [] [] []
                         empty_reply_line_reply eq_refl eq_refl))).
Defined.

(** ** The text format *)

Lemma bind_inv {A B : Type} (m : res A) (k : A -> res B) (b : B) :
  bind m k = Ok b -> exists a, m = Ok a /\ k a = Ok b.
Proof.
  destruct m as [a|e]; cbn; [|discriminate]. intros H. exists a. split; [reflexivity | exact H].
Qed.

Lemma Ok_inj {A : Type} (a b : A) : Ok a = Ok b -> a = b.
Proof. intros H. injection H as ->. reflexivity. Qed.

(** *** The example line *)

(** C7, as the code has it: the line of the example gives the flat key
    [1mi], which resolves to group [1] and key [mi]; the value is the
    first field after the label that looks like a number, and that is
    the [1] of "motor 1", so the integer stored is 1, not 8. *)
Theorem read_text_motor_line :
  re_search_bracket (hd "" (split (strip motor_line))) = Some "1mi"
  /\ id_to_group_key "1mi" = Ok (Some ("1", "mi"))
  /\ tl (split (strip motor_line)) = ["motor"; "1"; "microsteps"; "8"; "[1,2,4,8]"]
  /\ is_number "motor" = false
  /\ first_number (tl (split (strip motor_line))) = Some "1"
  /\ get_val "1" = PInt 1
  /\ read_text [] [motor_line] = Ok [("1", PDict [("mi", PInt 1)])]
  /\ read_text [] (with_newlines [motor_line]) = Ok [("1", PDict [("mi", PInt 1)])].
Proof.
  repeat split; vm_compute; reflexivity.
Qed.

(** C7 as stated fails: after reading the line, the value stored for
    group [1], key [mi] is not the integer 8. *)
Lemma motor_line_does_not_store_8 :
  ~ (exists config group,
        read_text [] [motor_line] = Ok config
        /\ assoc "1" config = Some (PDict group)
        /\ assoc "mi" group = Some (PInt 8)).
Proof.
  intros (config & group & Hread & Hgroup & Hmi).
  assert (H : read_text [] [motor_line] = Ok [("1", PDict [("mi", PInt 1)])])
    by (vm_compute; reflexivity).
  rewrite H in Hread. injection Hread as <-.
  cbn in Hgroup. injection Hgroup as <-. cbn in Hmi. discriminate.
Qed.

(** *** Lengths *)

Lemma length_append (s t : string) :
  String.length (s ++ t) = (String.length s + String.length t)%nat.
Proof. induction s as [|c s IH]; cbn; [reflexivity | rewrite IH; reflexivity]. Qed.

Lemma length_str_repeat c n : String.length (str_repeat c n) = n.
Proof. induction n as [|n IH]; cbn; [reflexivity | rewrite IH; reflexivity]. Qed.

Lemma length_str_take n (s : string) :
  String.length (str_take n s) = Nat.min n (String.length s).
Proof.
  revert s. induction n as [|n IH]; intros [|c s]; cbn; try reflexivity.
  rewrite IH. reflexivity.
Qed.

Lemma length_ljust w (s : string) :
  String.length (ljust w s) = Nat.max w (String.length s).
Proof. unfold ljust. rewrite length_append, length_str_repeat. lia. Qed.

(** The label column before it is cut: always 35 characters. *)
Lemma label_column_length (fmt_key descr : string) :
  exists padded,
    py_format "{:5s} {:29s}" [PStr fmt_key; PStr descr] = Ok padded
    /\ String.length (str_take 35 padded) = 35%nat.
Proof.
  exists (ljust 5 fmt_key ++ String " " (ljust 29 descr ++ "")). split; [reflexivity|].
  rewrite length_str_take, length_append. cbn [String.length].
  rewrite length_append, !length_ljust. cbn [String.length]. lia.
Qed.

Lemma slice_to_neg (n : nat) (s : string) :
  slice_to (- Z.of_nat (S n)) s = str_take (String.length s - S n) s.
Proof.
  unfold slice_to. destruct (Z.leb_spec 0 (- Z.of_nat (S n))) as [H|H]; [lia|].
  f_equal. lia.
Qed.

Lemma str_find_lower c s : -1 <= str_find c s.
Proof.
  induction s as [|a s IH]; cbn [str_find]; [lia|].
  destruct (Ascii.eqb a c); [lia|]. destruct (Z.ltb_spec (str_find c s) 0); lia.
Qed.

(** The column where the label is cut, case by case. *)
Lemma align_of_cases (right : string) :
  let space := str_find " " right in
  let period := str_find "." right in
  0 <= align_of right
  /\ (0 < period -> 0 <= space -> align_of right = Z.min space period)
  /\ (0 < period -> space < 0 -> align_of right = period)
  /\ (period <= 0 -> 0 <= space -> align_of right = space)
  /\ (period <= 0 -> space < 0 -> align_of right = 1).
Proof.
  intros space period. unfold align_of. fold space period.
  pose proof (str_find_lower " " right) as Hs. fold space in Hs.
  destruct (Z.ltb_spec 0 period), (Z.ltb_spec space 0), (Z.ltb_spec 0 space),
           (Z.ltb_spec period space); cbn [andb orb];
    repeat match goal with
           | |- context [?a <? ?b] => destruct (Z.ltb_spec a b)
           end; lia.
Qed.

(** C9, as the code has it: every line printed for a field is the label
    column of 35 characters with [align + 1] trailing characters cut
    off, a space, and the rendered value; [align] is the index of the
    first space or of the first decimal point of the rendered value,
    whichever comes first, a decimal point at index 0 counting as
    absent; and when neither is found [align] is 1, so that two
    characters are cut. *)
Theorem format_line_cuts_label prefix mapPrefix strEntry val line :
  format_line prefix mapPrefix strEntry val = Ok line ->
  exists left units right,
    String.length left = 35%nat
    /\ (entry_key strEntry <> "am" -> units = entry_units strEntry)
    /\ py_format units [val] = Ok right
    /\ line = str_take (35 - Z.to_nat (align_of right + 1)) left ++ " " ++ right
    /\ (let space := str_find " " right in
        let period := str_find "." right in
        (0 < period -> 0 <= space -> align_of right = Z.min space period)
        /\ (0 < period -> space < 0 -> align_of right = period)
        /\ (period <= 0 -> 0 <= space -> align_of right = space)
        /\ (period <= 0 -> space < 0 ->
            align_of right = 1
            /\ line = str_take 33 left ++ " " ++ right)).
Proof.
  unfold format_line. intros H.
  apply bind_inv in H. destruct H as (descr & _ & H). cbv beta in H.
  apply bind_inv in H. destruct H as (units & Hunits & H). cbv beta in H.
  apply bind_inv in H. destruct H as (padded0 & Hpad0 & H). cbv beta in H.
  apply bind_inv in H. destruct H as (right & Hright & H). cbv beta zeta in H.
  apply Ok_inj in H. subst line.
  match type of Hpad0 with
  | py_format _ [PStr ?k; _] = _ =>
      destruct (label_column_length k descr) as (padded & Hpad & Hlen)
  end.
  rewrite Hpad in Hpad0. apply Ok_inj in Hpad0. subst padded0.
  pose proof (align_of_cases right) as (Hpos & H1 & H2 & H3 & H4).
  assert (Hcut : slice_to (- (align_of right + 1)) (str_take 35 padded)
                 = str_take (35 - Z.to_nat (align_of right + 1)) (str_take 35 padded)).
  { replace (align_of right + 1) with (Z.of_nat (S (Z.to_nat (align_of right)))) by lia.
    rewrite slice_to_neg, Hlen. f_equal. lia. }
  exists (str_take 35 padded), units, right.
  split; [exact Hlen|]. split.
  { intros Hkey. apply String.eqb_neq in Hkey. rewrite Hkey in Hunits.
    injection Hunits as <-. reflexivity. }
  split; [exact Hright|]. split.
  { rewrite Hcut. reflexivity. }
  cbn zeta. refine (conj H1 (conj H2 (conj H3 _))).
  intros Hp Hs. specialize (H4 Hp Hs). split; [exact H4|].
  rewrite Hcut, H4. reflexivity.
Qed.

Lemma format_line_cuts_label_witness :
  exists left units right,
    String.length left = 35%nat
    /\ (entry_key sl_entry <> "am" -> units = entry_units sl_entry)
    /\ py_format units [PInt 5] = Ok right
    /\ str_take 33 sl_left ++ " 5"
       = str_take (35 - Z.to_nat (align_of right + 1)) left ++ " " ++ right
    /\ (let space := str_find " " right in
        let period := str_find "." right in
        (0 < period -> 0 <= space -> align_of right = Z.min space period)
        /\ (0 < period -> space < 0 -> align_of right = period)
        /\ (period <= 0 -> 0 <= space -> align_of right = space)
        /\ (period <= 0 -> space < 0 ->
            align_of right = 1
            /\ str_take 33 sl_left ++ " 5" = str_take 33 left ++ " " ++ right)).
Proof.
  apply (format_line_cuts_label "sys" "sys" sl_entry (PInt 5)
           (str_take 33 sl_left ++ " 5")).
  reflexivity.
Defined.

(** C9 as stated fails: the value of [sl] renders as [5], with neither
    a space nor a decimal point, and the line printed has lost the last
    two characters of the label column, not one. *)
Lemma plain_value_cuts_two_characters :
  py_format (entry_units sl_entry) [PInt 5] = Ok "5"
  /\ str_find " " "5" = -1
  /\ str_find "." "5" = -1
  /\ str_take 35 (ljust 5 "[sl]" ++ " " ++ ljust 29 "soft limit enable") = sl_left
  /\ format_line "sys" "sys" sl_entry (PInt 5) = Ok (str_take (35 - 2) sl_left ++ " 5")
  /\ format_line "sys" "sys" sl_entry (PInt 5) <> Ok (str_take (35 - 1) sl_left ++ " 5").
Proof.
  refine (conj _ (conj _ (conj _ (conj _ (conj _ _))))); try (vm_compute; reflexivity).
  vm_compute. discriminate.
Qed.

(** ** Strings and digits *)

Lemma append_assoc (a b c : string) : (a ++ b) ++ c = a ++ (b ++ c).
Proof. induction a as [|x a IH]; cbn; [reflexivity | rewrite IH; reflexivity]. Qed.

Lemma append_nil_r (s : string) : s ++ "" = s.
Proof. induction s as [|x s IH]; cbn; [reflexivity | rewrite IH; reflexivity]. Qed.

Lemma str_forallb_cons p c s : str_forallb p (String c s) = p c && str_forallb p s.
Proof. reflexivity. Qed.

Lemma str_forallb_app p s t :
  str_forallb p (s ++ t) = str_forallb p s && str_forallb p t.
Proof.
  induction s as [|c s IH]; [reflexivity|].
  cbn [append]. rewrite !str_forallb_cons, IH, andb_assoc. reflexivity.
Qed.

Lemma str_forallb_impl (p q : ascii -> bool) s :
  (forall c, p c = true -> q c = true) ->
  str_forallb p s = true -> str_forallb q s = true.
Proof.
  intros Hpq. induction s as [|c s IH]; [reflexivity|].
  rewrite !str_forallb_cons, !andb_true_iff. intros [Hc Hs]. auto.
Qed.

(** A decimal digit, as a property of the eight bits of a character. *)
Lemma is_digit_cases c :
  is_digit c = true ->
  c = "0"%char \/ c = "1"%char \/ c = "2"%char \/ c = "3"%char \/ c = "4"%char
  \/ c = "5"%char \/ c = "6"%char \/ c = "7"%char \/ c = "8"%char \/ c = "9"%char.
Proof.
  destruct c as [[] [] [] [] [] [] [] []]; cbn; intros H; try discriminate; tauto.
Qed.

Lemma digit_not_space c : is_digit c = true -> is_space c = false.
Proof. intros H. destruct (is_digit_cases c H) as [->|[->|[->|[->|[->|[->|[->|[->|[->| ->]]]]]]]]]; reflexivity. Qed.

Lemma digit_is_number_char c : is_digit c = true -> is_number_char c = true.
Proof. intros H. unfold is_number_char. rewrite H. reflexivity. Qed.

Lemma number_char_not_space c : is_number_char c = true -> is_space c = false.
Proof.
  destruct c as [[] [] [] [] [] [] [] []]; cbn; intros H; try discriminate; reflexivity.
Qed.

Lemma number_char_not_json_ws c : is_number_char c = true -> is_json_ws c = false.
Proof.
  destruct c as [[] [] [] [] [] [] [] []]; cbn; intros H; try discriminate; reflexivity.
Qed.

(** *** Stripping and splitting a text without whitespace *)

Lemma no_space_cons c s : no_space (String c s) = negb (is_space c) && no_space s.
Proof. reflexivity. Qed.

Lemma lstrip_no_space s : no_space s = true -> lstrip s = s.
Proof.
  destruct s as [|c s]; [reflexivity|]. rewrite no_space_cons, andb_true_iff.
  intros [Hc _]. cbn [lstrip]. apply negb_true_iff in Hc. rewrite Hc. reflexivity.
Qed.

Lemma rstrip_no_space s : no_space s = true -> rstrip s = s.
Proof.
  induction s as [|c s IH]; [reflexivity|]. rewrite no_space_cons, andb_true_iff.
  intros [Hc Hs]. cbn [rstrip]. rewrite (IH Hs). apply negb_true_iff in Hc. rewrite Hc.
  destruct s; reflexivity.
Qed.

Lemma strip_no_space s : no_space s = true -> strip s = s.
Proof.
  intros H. unfold strip. rewrite (lstrip_no_space s H). apply rstrip_no_space. exact H.
Qed.

Lemma is_num_space_is_space c : is_num_space c = true -> is_space c = true.
Proof.
  unfold is_num_space, is_space. cbv zeta.
  destruct (9 <=? ord c)%nat, (ord c <=? 13)%nat, (ord c =? 32)%nat eqn:H32,
    (ord c =? 133)%nat, (ord c =? 160)%nat; cbn [andb orb]; try discriminate;
    try (intros _; rewrite ?orb_true_r; reflexivity).
  all: intros _; apply Nat.eqb_eq in H32; rewrite H32; reflexivity.
Qed.

Lemma num_strip_no_space s : no_space s = true -> num_strip s = s.
Proof.
  intros H. unfold num_strip.
  assert (Hl : forall t, no_space t = true -> num_lstrip t = t).
  { intros [|c t]; [reflexivity|]. rewrite no_space_cons, andb_true_iff.
    intros [Hc _]. cbn [num_lstrip]. apply negb_true_iff in Hc.
    destruct (is_num_space c) eqn:Hn; [|reflexivity].
    rewrite (is_num_space_is_space c Hn) in Hc. discriminate Hc. }
  rewrite (Hl s H). clear Hl. induction s as [|c s IH]; [reflexivity|].
  rewrite no_space_cons, andb_true_iff in H. destruct H as [Hc Hs].
  cbn [num_rstrip]. rewrite (IH Hs). apply negb_true_iff in Hc.
  destruct (is_num_space c) eqn:Hn.
  - rewrite (is_num_space_is_space c Hn) in Hc. discriminate Hc.
  - destruct s; reflexivity.
Qed.

(** *** Digit strings *)

Lemma string_of_uint_digits u : str_forallb is_digit (NilEmpty.string_of_uint u) = true.
Proof.
  induction u; cbn [NilEmpty.string_of_uint]; try reflexivity;
    rewrite str_forallb_cons, IHu; reflexivity.
Qed.

Lemma string_of_uint_nonempty u : u <> Nil -> NilEmpty.string_of_uint u <> "".
Proof. destruct u; cbn; intros H; try discriminate. contradiction. Qed.

Lemma digits_no_underscore s : str_forallb is_digit s = true -> remove_underscores s = s.
Proof.
  induction s as [|c s IH]; [reflexivity|]. rewrite str_forallb_cons, andb_true_iff.
  intros [Hc Hs]. cbn [remove_underscores].
  destruct (is_digit_cases c Hc) as [->|[->|[->|[->|[->|[->|[->|[->|[->| ->]]]]]]]]];
    cbn; rewrite (IH Hs); reflexivity.
Qed.

Lemma digits_underscores_ok s :
  str_forallb is_digit s = true -> underscores_ok false s = true.
Proof.
  induction s as [|c s IH]; [reflexivity|]. rewrite str_forallb_cons, andb_true_iff.
  intros [Hc Hs]. cbn [underscores_ok].
  destruct (is_digit_cases c Hc) as [->|[->|[->|[->|[->|[->|[->|[->|[->| ->]]]]]]]]];
    cbn; exact (IH Hs).
Qed.

Lemma digit_group_digits u :
  u <> Nil -> digit_group (NilEmpty.string_of_uint u) = Some u.
Proof.
  intros Hu. pose proof (string_of_uint_digits u) as Hd.
  pose proof (string_of_uint_nonempty u Hu) as Hne.
  pose proof (NilEmpty.usu u) as Husu.
  remember (NilEmpty.string_of_uint u) as tok eqn:Htok. clear Htok.
  assert (Hdu : str_forallb is_digit_or_us tok = true).
  { apply (str_forallb_impl is_digit); [|exact Hd].
    intros x Hx. unfold is_digit_or_us. rewrite Hx. reflexivity. }
  assert (Hus : underscores_ok true tok = true).
  { destruct tok as [|c s]; [contradiction|].
    rewrite str_forallb_cons, andb_true_iff in Hd. destruct Hd as [Hc Hrest].
    cbn [underscores_ok].
    destruct (is_digit_cases c Hc) as [->|[->|[->|[->|[->|[->|[->|[->|[->| ->]]]]]]]]];
      cbn; apply digits_underscores_ok; exact Hrest. }
  unfold digit_group. rewrite Hdu, Hus, (digits_no_underscore _ Hd), Husu.
  destruct tok; [contradiction | reflexivity].
Qed.


Lemma unorm_head (d : uint) :
  unorm d = zero \/ match unorm d with Nil | D0 _ => False | _ => True end.
Proof.
  induction d; try (right; exact I).
  - left. reflexivity.
  - rewrite DecimalFacts.unorm_D0. exact IHd.
Qed.

Lemma to_uint_head (p : positive) :
  match Pos.to_uint p with Nil | D0 _ => False | _ => True end.
Proof.
  assert (Hn : Pos.to_uint p = unorm (Pos.to_uint p)).
  { rewrite <- (DecimalPos.Unsigned.to_of (Pos.to_uint p)).
    rewrite DecimalPos.Unsigned.of_to. reflexivity. }
  destruct (unorm_head (Pos.to_uint p)) as [H | H].
  - exfalso. apply (DecimalPos.Unsigned.to_uint_nonzero p). rewrite Hn. exact H.
  - rewrite Hn. exact H.
Qed.

Lemma digits_of_pos_head p :
  exists c rest,
    digits_of_pos p = String c rest /\ is_digit c = true /\ c <> "0"%char
    /\ str_forallb is_digit rest = true.
Proof.
  unfold digits_of_pos. pose proof (to_uint_head p) as Hh.
  pose proof (string_of_uint_digits (Pos.to_uint p)) as Hd.
  destruct (Pos.to_uint p) as [|u|u|u|u|u|u|u|u|u|u]; try contradiction;
    cbn [NilEmpty.string_of_uint] in *;
    rewrite str_forallb_cons in Hd; cbn in Hd;
    (eexists; eexists; split; [reflexivity|]; split; [reflexivity|]; split;
     [discriminate | exact Hd]).
Qed.

Lemma digits_of_pos_value p : digit_group (digits_of_pos p) = Some (Pos.to_uint p).
Proof. apply digit_group_digits. apply DecimalPos.Unsigned.to_uint_nonnil. Qed.

Lemma of_uint_to_uint p : Z.of_uint (Pos.to_uint p) = Zpos p.
Proof. unfold Z.of_uint. rewrite DecimalPos.Unsigned.of_to. reflexivity. Qed.

(** The three shapes of [str(z)]. *)
Lemma str_of_int_cases z :
  (z = 0 /\ str_of_int z = "0")
  \/ (exists p, z = Zpos p /\ str_of_int z = digits_of_pos p)
  \/ (exists p, z = Zneg p /\ str_of_int z = String "-" (digits_of_pos p)).
Proof.
  destruct z as [|p|p].
  - left. split; reflexivity.
  - right. left. exists p. split; [reflexivity|].
    unfold str_of_int, digits_of_pos. cbn [Z.to_int NilZero.string_of_int NilZero.string_of_uint].
    pose proof (DecimalPos.Unsigned.to_uint_nonnil p). destruct (Pos.to_uint p); try reflexivity. contradiction.
  - right. right. exists p. split; [reflexivity|].
    unfold str_of_int, digits_of_pos. cbn [Z.to_int NilZero.string_of_int NilZero.string_of_uint].
    pose proof (DecimalPos.Unsigned.to_uint_nonnil p). destruct (Pos.to_uint p); try reflexivity. contradiction.
Qed.

Lemma str_of_int_number_chars z : str_forallb is_number_char (str_of_int z) = true.
Proof.
  destruct (str_of_int_cases z) as [[_ ->] | [(p & _ & ->) | (p & _ & ->)]].
  - reflexivity.
  - apply (str_forallb_impl is_digit); [exact digit_is_number_char|].
    apply string_of_uint_digits.
  - rewrite str_forallb_cons. cbn [andb is_number_char].
    apply (str_forallb_impl is_digit); [exact digit_is_number_char|].
    apply string_of_uint_digits.
Qed.

Lemma str_of_int_nonempty z : str_of_int z <> "".
Proof.
  destruct (str_of_int_cases z) as [[_ ->] | [(p & _ & ->) | (p & _ & ->)]]; try discriminate.
  destruct (digits_of_pos_head p) as (c & rest & -> & _). discriminate.
Qed.

Lemma number_chars_no_space s : str_forallb is_number_char s = true -> no_space s = true.
Proof.
  apply str_forallb_impl. intros c Hc. rewrite (number_char_not_space c Hc). reflexivity.
Qed.


(** *** The value of a string of digits *)

Lemma usize_nb_digits u : Z.of_N (DecimalPos.Unsigned.usize u) = Z.of_nat (nb_digits u).
Proof.
  rewrite DecimalFacts.nb_digits_spec.
  induction u; cbn [DecimalPos.Unsigned.usize DecimalFacts.to_list List.length];
    rewrite ?N2Z.inj_succ, ?Nat2Z.inj_succ, ?IHu; reflexivity.
Qed.

Lemma uint_rev_app u v : Decimal.rev (Decimal.app u v) = Decimal.app (Decimal.rev v) (Decimal.rev u).
Proof.
  apply DecimalFacts.to_list_inj.
  rewrite DecimalFacts.rev_spec, !DecimalFacts.app_spec, !DecimalFacts.rev_spec.
  apply rev_app_distr.
Qed.

Lemma of_uint_app u v :
  Z.of_uint (Decimal.app u v)
  = Z.of_uint u * 10 ^ Z.of_nat (nb_digits v) + Z.of_uint v.
Proof.
  unfold Z.of_uint. rewrite !DecimalPos.Unsigned.of_uint_alt, uint_rev_app.
  unfold Decimal.app at 1. rewrite DecimalPos.Unsigned.of_lu_revapp, DecimalFacts.rev_rev.
  rewrite N2Z.inj_add, N2Z.inj_mul, N2Z.inj_pow, usize_nb_digits.
  change (Z.of_N 10) with 10. rewrite !DecimalFacts.rev_rev. lia.
Qed.

Lemma uint_app_digit (d : uint -> uint) a u v :
  (forall x, DecimalFacts.to_list (d x) = a :: DecimalFacts.to_list x) ->
  Decimal.app (d u) v = d (Decimal.app u v).
Proof.
  intros Hd. apply DecimalFacts.to_list_inj.
  rewrite DecimalFacts.app_spec, !Hd, DecimalFacts.app_spec. reflexivity.
Qed.

Lemma uint_of_string_app s t u v :
  NilEmpty.uint_of_string s = Some u ->
  NilEmpty.uint_of_string t = Some v ->
  NilEmpty.uint_of_string (s ++ t) = Some (Decimal.app u v).
Proof.
  revert u. induction s as [|c s IH]; intros u Hs Ht.
  - injection Hs as <-. rewrite DecimalFacts.app_nil_l. exact Ht.
  - cbn [append NilEmpty.uint_of_string] in *.
    destruct (NilEmpty.uint_of_string s) as [u'|] eqn:Hu'.
    + rewrite (IH u' eq_refl Ht).
      destruct c as [[] [] [] [] [] [] [] []]; cbn in Hs |- *; try discriminate Hs;
        injection Hs as <-; f_equal; symmetry; eapply uint_app_digit; reflexivity.
    + destruct c as [[] [] [] [] [] [] [] []]; discriminate Hs.
Qed.

Lemma digits_read s :
  str_forallb is_digit s = true ->
  exists u, NilEmpty.uint_of_string s = Some u /\ nb_digits u = String.length s.
Proof.
  induction s as [|c s IH]; [intros _; exists Nil; split; reflexivity|].
  rewrite str_forallb_cons, andb_true_iff. intros [Hc Hs].
  destruct (IH Hs) as (u & Hu & Hn). cbn [NilEmpty.uint_of_string]. rewrite Hu.
  destruct (is_digit_cases c Hc) as [->|[->|[->|[->|[->|[->|[->|[->|[->| ->]]]]]]]]];
    eexists; (split; [reflexivity|]); cbn [nb_digits String.length]; rewrite Hn; reflexivity.
Qed.

Lemma digits_value_app s t :
  str_forallb is_digit s = true -> str_forallb is_digit t = true ->
  digits_value (s ++ t) = digits_value s * 10 ^ Z.of_nat (String.length t) + digits_value t.
Proof.
  intros Hs Ht. destruct (digits_read s Hs) as (u & Hu & _).
  destruct (digits_read t Ht) as (v & Hv & Hn).
  unfold digits_value. rewrite (uint_of_string_app s t u v Hu Hv), Hu, Hv, of_uint_app, Hn.
  reflexivity.
Qed.

Lemma digits_value_cons c s :
  is_digit c = true -> str_forallb is_digit s = true ->
  digits_value (String c s)
  = digits_value (String c "") * 10 ^ Z.of_nat (String.length s) + digits_value s.
Proof.
  intros Hc Hs. change (String c s) with (String c "" ++ s).
  apply digits_value_app; [|exact Hs]. rewrite str_forallb_cons, Hc. reflexivity.
Qed.

Lemma digit_value_range c :
  is_digit c = true -> 0 <= digits_value (String c "") <= 9.
Proof.
  intros Hc. destruct (is_digit_cases c Hc) as [->|[->|[->|[->|[->|[->|[->|[->|[->| ->]]]]]]]]];
    vm_compute; split; discriminate.
Qed.

Lemma digit_value_nonzero c :
  is_digit c = true -> c <> "0"%char -> 1 <= digits_value (String c "").
Proof.
  intros Hc Hz. destruct (is_digit_cases c Hc) as [->|[->|[->|[->|[->|[->|[->|[->|[->| ->]]]]]]]]];
    try (vm_compute; discriminate). contradiction.
Qed.

Lemma digits_value_range s :
  str_forallb is_digit s = true ->
  0 <= digits_value s < 10 ^ Z.of_nat (String.length s).
Proof.
  induction s as [|c s IH]; [intros _; vm_compute; split; [discriminate | reflexivity]|].
  rewrite str_forallb_cons, andb_true_iff. intros [Hc Hs].
  rewrite (digits_value_cons c s Hc Hs). specialize (IH Hs).
  pose proof (digit_value_range c Hc) as Hd.
  cbn [String.length]. rewrite Nat2Z.inj_succ, Z.pow_succ_r by lia. nia.
Qed.

Lemma digits_value_head c s :
  is_digit c = true -> c <> "0"%char -> str_forallb is_digit s = true ->
  10 ^ Z.of_nat (String.length s) <= digits_value (String c s).
Proof.
  intros Hc Hz Hs. rewrite (digits_value_cons c s Hc Hs).
  pose proof (digit_value_nonzero c Hc Hz). pose proof (digits_value_range s Hs).
  assert (0 < 10 ^ Z.of_nat (String.length s)) by (apply Z.pow_pos_nonneg; lia). nia.
Qed.

Lemma digits_repeat_zero n : str_forallb is_digit (str_repeat "0" n) = true.
Proof. induction n as [|n IH]; [reflexivity|]. cbn [str_repeat]. rewrite str_forallb_cons, IH. reflexivity. Qed.

Lemma digits_value_zeros n : digits_value (str_repeat "0" n) = 0.
Proof.
  pose proof (digits_value_range _ (digits_repeat_zero n)) as H.
  induction n as [|n IH]; [reflexivity|]. cbn [str_repeat].
  rewrite (digits_value_cons "0" _ eq_refl (digits_repeat_zero n)).
  pose proof (digits_value_range _ (digits_repeat_zero n)) as Hn.
  rewrite IH; [reflexivity | exact Hn].
Qed.

Lemma digits_value_digits_of_pos p : digits_value (digits_of_pos p) = Zpos p.
Proof.
  unfold digits_value, digits_of_pos. rewrite NilEmpty.usu. apply of_uint_to_uint.
Qed.

Lemma digits_of_pos_digits p : str_forallb is_digit (digits_of_pos p) = true.
Proof. apply string_of_uint_digits. Qed.

(** A digit group without underscores is read as its value. *)
Lemma digit_group_value s :
  s <> "" -> str_forallb is_digit s = true ->
  exists u, digit_group s = Some u /\ Z.of_uint u = digits_value s
            /\ nb_digits u = String.length s.
Proof.
  intros Hne Hd. destruct (digits_read s Hd) as (u & Hu & Hn).
  exists u. unfold digits_value. rewrite Hu. refine (conj _ (conj eq_refl Hn)).
  assert (Hdu : str_forallb is_digit_or_us s = true).
  { apply (str_forallb_impl is_digit); [|exact Hd].
    intros x Hx. unfold is_digit_or_us. rewrite Hx. reflexivity. }
  assert (Hus : underscores_ok true s = true).
  { destruct s as [|c s]; [contradiction|].
    rewrite str_forallb_cons, andb_true_iff in Hd. destruct Hd as [Hc Hrest].
    cbn [underscores_ok].
    destruct (is_digit_cases c Hc) as [->|[->|[->|[->|[->|[->|[->|[->|[->| ->]]]]]]]]];
      cbn; apply digits_underscores_ok; exact Hrest. }
  unfold digit_group. rewrite Hdu, Hus, (digits_no_underscore _ Hd), Hu.
  destruct s; [contradiction | reflexivity].
Qed.

(** The digits of a positive number are as many as its size needs. *)
Lemma digits_of_pos_length p n :
  Zpos p < 10 ^ Z.of_nat n -> (String.length (digits_of_pos p) <= n)%nat.
Proof.
  intros Hlt. destruct (digits_of_pos_head p) as (c & rest & Hs & Hc & Hc0 & Hrest).
  pose proof (digits_value_head c rest Hc Hc0 Hrest) as Hlow.
  rewrite <- Hs, digits_value_digits_of_pos in Hlow. rewrite Hs. cbn [String.length].
  destruct (Nat.le_gt_cases (S (String.length rest)) n) as [Hle | Hgt]; [exact Hle|].
  exfalso. assert (Hpow : 10 ^ Z.of_nat n <= 10 ^ Z.of_nat (String.length rest)).
  { apply Z.pow_le_mono_r; lia. }
  lia.
Qed.

Lemma nb_digits_to_uint p : nb_digits (Pos.to_uint p) = String.length (digits_of_pos p).
Proof.
  destruct (digits_read _ (digits_of_pos_digits p)) as (u & Hu & Hn).
  unfold digits_of_pos in Hu. rewrite NilEmpty.usu in Hu. injection Hu as <-. exact Hn.
Qed.

(** [int()] reads the digits of a positive number that are not too
    many. *)
Lemma py_int_digits_of_pos p :
  (Z.of_nat (String.length (digits_of_pos p)) <= max_str_digits) ->
  py_int (digits_of_pos p) = Some (Zpos p)
  /\ py_int (String "-" (digits_of_pos p)) = Some (Zneg p).
Proof.
  intros Hlen. apply Z.leb_le in Hlen. unfold py_int.
  assert (Hns : no_space (digits_of_pos p) = true).
  { apply number_chars_no_space. apply (str_forallb_impl is_digit); [exact digit_is_number_char|].
    apply digits_of_pos_digits. }
  rewrite (num_strip_no_space _ Hns).
  assert (Hns' : no_space (String "-" (digits_of_pos p)) = true).
  { unfold no_space. rewrite str_forallb_cons. exact Hns. }
  rewrite (num_strip_no_space _ Hns').
  destruct (digits_of_pos_head p) as (c & rest & Hs & Hc & Hc0 & Hrest).
  assert (Hsign : split_sign (digits_of_pos p) = (false, digits_of_pos p)).
  { rewrite Hs. unfold split_sign.
    destruct (is_digit_cases c Hc) as [->|[->|[->|[->|[->|[->|[->|[->|[->| ->]]]]]]]]];
      reflexivity. }
  rewrite Hsign. cbn [split_sign Ascii.eqb Bool.eqb].
  rewrite digits_of_pos_value, of_uint_to_uint, nb_digits_to_uint, Hlen. split; reflexivity.
Qed.

(** [int(str(z)) == z], for an integer within the limit of digits. *)
Lemma py_int_str_of_int z : int_in_limit z = true -> py_int (str_of_int z) = Some z.
Proof.
  unfold int_in_limit. intros Hlim. apply Z.ltb_lt in Hlim.
  assert (Hpos : forall p, Zpos p < 10 ^ max_str_digits ->
                           Z.of_nat (String.length (digits_of_pos p)) <= max_str_digits).
  { intros p Hp. pose proof (digits_of_pos_length p (Z.to_nat max_str_digits)) as Hlen.
    rewrite Z2Nat.id in Hlen by (unfold max_str_digits; lia). specialize (Hlen Hp).
    apply Nat2Z.inj_le in Hlen. rewrite Z2Nat.id in Hlen by (unfold max_str_digits; lia).
    exact Hlen. }
  destruct (str_of_int_cases z) as [[-> ->] | [(p & -> & ->) | (p & -> & ->)]].
  - reflexivity.
  - apply py_int_digits_of_pos. apply Hpos. exact Hlim.
  - apply py_int_digits_of_pos. apply Hpos. exact Hlim.
Qed.

(** [int(str(z)) == z] as well when the text of [z] is known to be
    short. *)
Lemma py_int_str_of_int_short z :
  Z.of_nat (String.length (str_of_int z)) <= max_str_digits ->
  py_int (str_of_int z) = Some z.
Proof.
  destruct (str_of_int_cases z) as [[-> ->] | [(p & -> & ->) | (p & -> & ->)]]; intros Hlen.
  - reflexivity.
  - apply py_int_digits_of_pos. exact Hlen.
  - apply py_int_digits_of_pos. cbn [String.length] in Hlen. lia.
Qed.

(** *** Rounding to the nearest float *)

Lemma pow2_pos k : 0 < 2 ^ k \/ k < 0.
Proof. destruct (Z.le_gt_cases 0 k); [left; apply Z.pow_pos_nonneg; lia | right; lia]. Qed.

Lemma pow2_add a b : 0 <= a -> 0 <= b -> 2 ^ (a + b) = 2 ^ a * 2 ^ b.
Proof. intros. apply Z.pow_add_r; assumption. Qed.

(** [pow2_le k a b] with both sides scaled by any [2^t] that makes the
    exponents non-negative. *)
Lemma pow2_le_shift k a b t :
  0 <= t -> 0 <= k + t ->
  (pow2_le k a b = true <-> b * 2 ^ (k + t) <= a * 2 ^ t).
Proof.
  intros Ht Hkt. unfold pow2_le. rewrite Z.leb_le.
  destruct (Z.le_gt_cases 0 k) as [Hk | Hk].
  - rewrite (Z.max_l k 0), (Z.max_r (- k) 0) by lia.
    rewrite (pow2_add k t) by lia. change (2 ^ 0) with 1.
    assert (0 < 2 ^ t) by (apply Z.pow_pos_nonneg; lia). nia.
  - rewrite (Z.max_r k 0), (Z.max_l (- k) 0) by lia. change (2 ^ 0) with 1.
    replace t with (- k + (k + t)) at 2 by lia. rewrite (pow2_add (- k) (k + t)) by lia.
    assert (0 < 2 ^ (k + t)) by (apply Z.pow_pos_nonneg; lia). nia.
Qed.

Lemma pow2_le_mono j k a b :
  0 <= a -> 0 < b -> j <= k -> pow2_le k a b = true -> pow2_le j a b = true.
Proof.
  intros Ha Hb Hjk Hk.
  set (t := Z.max (- j) 0).
  apply (pow2_le_shift k a b t) in Hk; [|lia|lia].
  apply (pow2_le_shift j a b t); [lia|lia|].
  assert (2 ^ (j + t) <= 2 ^ (k + t)) by (apply Z.pow_le_mono_r; lia).
  nia.
Qed.

Lemma pow2_le_scale k a b c : 0 < c -> pow2_le k (a * c) (b * c) = pow2_le k a b.
Proof.
  intros Hc. unfold pow2_le.
  destruct (Z.leb_spec (b * 2 ^ Z.max k 0) (a * 2 ^ Z.max (- k) 0));
    [apply Z.leb_le | apply Z.leb_gt]; nia.
Qed.

(** The binary exponent of a ratio is the one exponent [k] with
    [2^k <= a / b < 2^(k+1)]. *)
Lemma ratio_exp_spec a b :
  0 < a -> 0 < b ->
  pow2_le (ratio_exp a b) a b = true /\ pow2_le (ratio_exp a b + 1) a b = false.
Proof.
  intros Ha Hb. unfold ratio_exp.
  destruct (Z.log2_spec a Ha) as [Ha1 Ha2]. destruct (Z.log2_spec b Hb) as [Hb1 Hb2].
  pose proof (Z.log2_nonneg a) as Hla. pose proof (Z.log2_nonneg b) as Hlb.
  set (la := Z.log2 a) in *. set (lb := Z.log2 b) in *.
  assert (Hlow : pow2_le (la - lb - 1) a b = true).
  { apply (pow2_le_shift _ a b (lb + 1)); [lia|lia|].
    replace (la - lb - 1 + (lb + 1)) with la by lia.
    replace (lb + 1) with (Z.succ lb) by lia.
    assert (0 < 2 ^ la) by (apply Z.pow_pos_nonneg; lia). nia. }
  assert (Hhigh : pow2_le (la - lb + 1) a b = false).
  { destruct (pow2_le (la - lb + 1) a b) eqn:Hp; [|reflexivity]. exfalso.
    apply (pow2_le_shift _ a b lb) in Hp; [|lia|lia].
    replace (la - lb + 1 + lb) with (Z.succ la) in Hp by lia.
    assert (0 < 2 ^ lb) by (apply Z.pow_pos_nonneg; lia). nia. }
  destruct (pow2_le (la - lb) a b) eqn:Hd.
  - split; [exact Hd | exact Hhigh].
  - split; [exact Hlow|]. replace (la - lb - 1 + 1) with (la - lb) by lia. exact Hd.
Qed.

Lemma ratio_exp_unique a b k :
  0 < a -> 0 < b ->
  pow2_le k a b = true -> pow2_le (k + 1) a b = false -> ratio_exp a b = k.
Proof.
  intros Ha Hb Hk Hk1. destruct (ratio_exp_spec a b Ha Hb) as [Hr Hr1].
  destruct (Z.lt_trichotomy (ratio_exp a b) k) as [Hlt | [Heq | Hgt]]; [|exact Heq|].
  - rewrite (pow2_le_mono (ratio_exp a b + 1) k a b) in Hr1; [discriminate|lia|lia|lia|exact Hk].
  - rewrite (pow2_le_mono (k + 1) (ratio_exp a b) a b) in Hk1; [discriminate|lia|lia|lia|exact Hr].
Qed.

Lemma ratio_exp_scale a b c :
  0 < a -> 0 < b -> 0 < c -> ratio_exp (a * c) (b * c) = ratio_exp a b.
Proof.
  intros Ha Hb Hc. destruct (ratio_exp_spec a b Ha Hb) as [Hr Hr1].
  apply ratio_exp_unique; [nia | nia | |]; rewrite pow2_le_scale by exact Hc; assumption.
Qed.

(** The exponent of a number given by its bits. *)
Lemma ratio_exp_pow2 m x y :
  0 < m -> 0 <= x -> 0 <= y -> ratio_exp (m * 2 ^ x) (2 ^ y) = Z.log2 m + x - y.
Proof.
  intros Hm Hx Hy. destruct (Z.log2_spec m Hm) as [Hm1 Hm2].
  pose proof (Z.log2_nonneg m) as Hl.
  assert (0 < 2 ^ x) by (apply Z.pow_pos_nonneg; lia).
  assert (0 < 2 ^ y) by (apply Z.pow_pos_nonneg; lia).
  apply ratio_exp_unique; [nia | lia | |].
  - apply (pow2_le_shift _ _ _ y); [lia|lia|].
    replace (Z.log2 m + x - y + y) with (Z.log2 m + x) by lia.
    rewrite (pow2_add (Z.log2 m) x) by lia. nia.
  - destruct (pow2_le (Z.log2 m + x - y + 1) (m * 2 ^ x) (2 ^ y)) eqn:Hp; [|reflexivity].
    exfalso. apply (pow2_le_shift _ _ _ y) in Hp; [|lia|lia].
    replace (Z.log2 m + x - y + 1 + y) with (Z.succ (Z.log2 m) + x) in Hp by lia.
    rewrite (pow2_add (Z.succ (Z.log2 m)) x) in Hp by lia. nia.
Qed.

(** *** Division rounded to even *)

Lemma div_round_even_scale a b c :
  0 < b -> 0 < c -> div_round_even (a * c) (b * c) = div_round_even a b.
Proof.
  intros Hb Hc. unfold div_round_even.
  rewrite Z.div_mul_cancel_r by lia. rewrite Z.mul_mod_distr_r by lia.
  assert (Hcmp : (2 * (a mod b * c) ?= b * c) = (2 * (a mod b) ?= b)).
  { destruct (Z.compare_spec (2 * (a mod b)) b);
      [apply Z.compare_eq_iff | apply Z.compare_lt_iff | apply Z.compare_gt_iff]; nia. }
  rewrite Hcmp. reflexivity.
Qed.

Lemma div_round_even_exact m d : 0 < d -> div_round_even (m * d) d = m.
Proof.
  intros Hd. unfold div_round_even. rewrite Z.div_mul, Z.mod_mul by lia.
  change (2 * 0) with 0. destruct (Z.compare_spec 0 d); [lia | reflexivity | lia].
Qed.

(** The rounded quotient is the integer nearest to the quotient, and
    the even one of two that are as near. *)
Lemma div_round_even_spec x d r :
  0 < d ->
  (div_round_even x d = r
   <-> 2 * Z.abs (x - r * d) < d \/ (2 * Z.abs (x - r * d) = d /\ Z.even r = true)).
Proof.
  intros Hd. unfold div_round_even.
  pose proof (Z.div_mod x d ltac:(lia)) as Hdm. pose proof (Z.mod_pos_bound x d Hd) as Hr.
  set (q := x / d) in *. set (m := x mod d) in *.
  assert (Hodd : forall z, Z.even (z + 1) = negb (Z.even z)).
  { intros z. rewrite Z.add_1_r, Z.even_succ, <- Z.negb_even. reflexivity. }
  destruct (Z.compare_spec (2 * m) d) as [Heq | Hlt | Hgt].
  - destruct (Z.even q) eqn:Hev.
    + split.
      * intros <-. right. split; [lia | exact Hev].
      * intros [H | [H He]]; [nia|].
        assert (Hc : r = q \/ r = q + 1) by nia. destruct Hc as [-> | ->]; [reflexivity|].
        rewrite Hodd, Hev in He. discriminate.
    + split.
      * intros <-. right. split; [nia | rewrite Hodd, Hev; reflexivity].
      * intros [H | [H He]]; [nia|].
        assert (Hc : r = q \/ r = q + 1) by nia. destruct Hc as [-> | ->]; [|reflexivity].
        rewrite Hev in He. discriminate.
  - split.
    + intros <-. left. nia.
    + intros [H | [H He]]; nia.
  - split.
    + intros <-. left. nia.
    + intros [H | [H He]]; nia.
Qed.

Lemma div_round_even_near x d : 0 < d -> 2 * Z.abs (x - div_round_even x d * d) <= d.
Proof.
  intros Hd. destruct (proj1 (div_round_even_spec x d _ Hd) eq_refl) as [H | [H _]]; lia.
Qed.

Lemma div_round_even_bounds x d lo hi :
  0 < d -> lo * d <= x -> x < hi * d -> lo <= div_round_even x d <= hi.
Proof.
  intros Hd Hlo Hhi. pose proof (div_round_even_near x d Hd) as H. nia.
Qed.

(** *** The float of a ratio *)

Lemma float_of_ratio_pos neg a b :
  0 < a -> 0 < b ->
  float_of_ratio neg a b
  = make_float neg (round_mantissa a b (float_exp a b)) (float_exp a b).
Proof. intros Ha Hb. destruct a, b; try lia. reflexivity. Qed.

Lemma float_of_ratio_zero neg b : float_of_ratio neg 0 b = S754_zero neg.
Proof. reflexivity. Qed.

Lemma round_mantissa_scale a b c e :
  0 < b -> 0 < c -> round_mantissa (a * c) (b * c) e = round_mantissa a b e.
Proof.
  intros Hb Hc. unfold round_mantissa.
  assert (0 < 2 ^ Z.max e 0) by (apply Z.pow_pos_nonneg; lia).
  replace (a * c * 2 ^ Z.max (- e) 0) with (a * 2 ^ Z.max (- e) 0 * c) by ring.
  replace (b * c * 2 ^ Z.max e 0) with (b * 2 ^ Z.max e 0 * c) by ring.
  apply div_round_even_scale; nia.
Qed.

(** The float of a ratio depends on the ratio only. *)
Lemma float_of_ratio_scale neg a b c :
  0 < a -> 0 < b -> 0 < c -> float_of_ratio neg (a * c) (b * c) = float_of_ratio neg a b.
Proof.
  intros Ha Hb Hc. rewrite !float_of_ratio_pos by nia.
  unfold float_exp. rewrite (ratio_exp_scale a b c Ha Hb Hc).
  rewrite round_mantissa_scale by lia. reflexivity.
Qed.

Lemma float_of_ratio_cross neg a b a' b' :
  0 <= a -> 0 < b -> 0 <= a' -> 0 < b' -> a * b' = a' * b ->
  float_of_ratio neg a b = float_of_ratio neg a' b'.
Proof.
  intros Ha Hb Ha' Hb' Heq.
  destruct (Z.eq_dec a 0) as [-> | Hne].
  - assert (a' = 0) by nia. subst a'. reflexivity.
  - assert (0 < a) by lia. assert (0 < a') by nia.
    rewrite <- (float_of_ratio_scale neg a b b') by lia.
    rewrite <- (float_of_ratio_scale neg a' b' b) by lia.
    rewrite Heq. f_equal. ring.
Qed.

Lemma make_float_sign neg m e : make_float neg m e = with_sign neg (make_float false m e).
Proof.
  unfold make_float. destruct m as [|p|p]; try reflexivity.
  destruct (Z.pos p =? 2 ^ prec); cbv zeta beta iota;
    match goal with |- context [if ?c then _ else _] => destruct c end; reflexivity.
Qed.

Lemma float_of_ratio_sign neg a b :
  float_of_ratio neg a b = with_sign neg (float_of_ratio false a b).
Proof.
  unfold float_of_ratio. destruct a, b; try reflexivity. apply make_float_sign.
Qed.

(** Around [a / b] the mantissa stays below [2^53], and has 53 bits
    above the least exponent. *)
Lemma mantissa_bounds a b :
  0 < a -> 0 < b ->
  let e := float_exp a b in
  let n := a * 2 ^ Z.max (- e) 0 in
  let d := b * 2 ^ Z.max e 0 in
  emin <= e /\ 0 < d /\ 0 < n /\ n < 2 ^ prec * d
  /\ (e = emin \/ 2 ^ (prec - 1) * d <= n).
Proof.
  intros Ha Hb e n d. destruct (ratio_exp_spec a b Ha Hb) as [Hk Hk1].
  assert (He : e = Z.max (ratio_exp a b - (prec - 1)) emin) by reflexivity.
  assert (Hemin : emin = -1074) by reflexivity. assert (Hprec : prec = 53) by reflexivity.
  assert (Hne : 0 < 2 ^ Z.max (- e) 0) by (apply Z.pow_pos_nonneg; lia).
  assert (Hpe : 0 < 2 ^ Z.max e 0) by (apply Z.pow_pos_nonneg; lia).
  assert (Het : e + Z.max (- e) 0 = Z.max e 0) by lia.
  assert (Ht0 : 0 <= Z.max (- e) 0) by lia.
  assert (Hn : n = a * 2 ^ Z.max (- e) 0) by reflexivity.
  assert (Hd : d = b * 2 ^ Z.max e 0) by reflexivity.
  clearbody e n d.
  remember (Z.max (- e) 0) as t eqn:Ht. clear Ht.
  split; [lia|]. split; [nia|]. split; [nia|]. split.
  - destruct (pow2_le (e + prec) a b) eqn:Hp.
    + rewrite (pow2_le_mono (ratio_exp a b + 1) (e + prec) a b) in Hk1;
        [discriminate | lia | lia | lia | exact Hp].
    + destruct (Z.lt_ge_cases n (2 ^ prec * d)) as [Hlt | Hge]; [exact Hlt|]. exfalso.
      assert (Hp' : pow2_le (e + prec) a b = true).
      { apply (pow2_le_shift _ a b t); [lia | lia |].
        replace (e + prec + t) with (prec + Z.max e 0) by lia.
        rewrite (pow2_add prec (Z.max e 0)) by lia. nia. }
      rewrite Hp' in Hp. discriminate.
  - destruct (Z.eq_dec e emin) as [Heq | Hneq]; [left; exact Heq | right].
    assert (Hek : ratio_exp a b = e + (prec - 1)) by lia.
    rewrite Hek in Hk. apply (pow2_le_shift _ a b t) in Hk; [|lia|lia].
    replace (e + (prec - 1) + t) with ((prec - 1) + Z.max e 0) in Hk by lia.
    rewrite (pow2_add (prec - 1) (Z.max e 0)) in Hk by lia. nia.
Qed.

Lemma round_mantissa_bounds a b :
  0 < a -> 0 < b ->
  let e := float_exp a b in
  let m := round_mantissa a b e in
  emin <= e /\ 0 <= m <= 2 ^ prec /\ (e = emin \/ 2 ^ (prec - 1) <= m).
Proof.
  intros Ha Hb e m. destruct (mantissa_bounds a b Ha Hb) as (He & Hd & Hn & Hhi & Hlo).
  fold e in He, Hd, Hn, Hhi, Hlo.
  assert (Hm : m = div_round_even (a * 2 ^ Z.max (- e) 0) (b * 2 ^ Z.max e 0)) by reflexivity.
  split; [exact He|]. split.
  - rewrite Hm. apply (div_round_even_bounds _ _ 0 (2 ^ prec) Hd); [lia | exact Hhi].
  - destruct Hlo as [Hlo | Hlo]; [left; exact Hlo | right].
    rewrite Hm.
    apply (div_round_even_bounds _ _ (2 ^ (prec - 1)) (2 ^ prec) Hd Hlo Hhi).
Qed.

(** Every float made from a ratio is a float of the format. *)
Lemma make_float_valid neg m e :
  emin <= e -> 0 <= m <= 2 ^ prec -> (e = emin \/ 2 ^ (prec - 1) <= m) ->
  is_float64 (make_float neg m e) = true.
Proof.
  intros He Hm Hnorm. unfold make_float. destruct m as [|p|p]; [reflexivity| |lia].
  destruct (Z.eqb_spec (Z.pos p) (2 ^ prec)) as [Heq | Hne]; cbv zeta beta iota.
  - destruct (Z.ltb_spec (emax - prec) (e + 1)); [reflexivity|].
    unfold is_float64. rewrite !andb_true_iff, orb_true_iff, !Z.leb_le, Z.ltb_lt, Z.eqb_eq.
    repeat split; try lia; try reflexivity; try (right; reflexivity).
  - destruct (Z.ltb_spec (emax - prec) e); [reflexivity|].
    unfold is_float64. rewrite !andb_true_iff, orb_true_iff, !Z.leb_le, Z.ltb_lt, Z.eqb_eq.
    repeat split; try lia.
Qed.

Lemma float_of_ratio_valid neg a b : is_float64 (float_of_ratio neg a b) = true.
Proof.
  destruct (Z.lt_ge_cases 0 a) as [Ha | Ha]; [|destruct a; try lia; reflexivity].
  destruct (Z.lt_ge_cases 0 b) as [Hb | Hb]; [|destruct a, b; try lia; reflexivity].
  rewrite float_of_ratio_pos by assumption.
  destruct (round_mantissa_bounds a b Ha Hb) as (He & Hm & Hn).
  apply make_float_valid; assumption.
Qed.

(** A float of the format is the float of its own value. *)
Lemma float_of_ratio_exact s m e :
  is_float64 (S754_finite s m e) = true ->
  float_of_ratio s (Zpos m * 2 ^ Z.max e 0) (2 ^ Z.max (- e) 0) = S754_finite s m e.
Proof.
  unfold is_float64. rewrite !andb_true_iff, orb_true_iff, !Z.leb_le, Z.ltb_lt, Z.eqb_eq.
  intros [[[Hm He] He'] Hnorm].
  assert (Hemin : emin = -1074) by reflexivity. assert (Hprec : prec = 53) by reflexivity.
  assert (Hemax : emax = 1024) by reflexivity.
  assert (Hx : 0 < 2 ^ Z.max e 0) by (apply Z.pow_pos_nonneg; lia).
  assert (Hy : 0 < 2 ^ Z.max (- e) 0) by (apply Z.pow_pos_nonneg; lia).
  rewrite float_of_ratio_pos by nia.
  assert (Hlog : Z.log2 (Z.pos m) < prec).
  { apply Z.log2_lt_pow2; lia. }
  assert (Hexp : float_exp (Z.pos m * 2 ^ Z.max e 0) (2 ^ Z.max (- e) 0) = e).
  { unfold float_exp. rewrite ratio_exp_pow2 by lia.
    destruct Hnorm as [Hmin | Hbig].
    - lia.
    - assert (prec - 1 <= Z.log2 (Z.pos m)) by (apply Z.log2_le_pow2; lia). lia. }
  rewrite Hexp. unfold round_mantissa.
  assert (Hm' : div_round_even (Z.pos m * 2 ^ Z.max e 0 * 2 ^ Z.max (- e) 0)
                               (2 ^ Z.max (- e) 0 * 2 ^ Z.max e 0) = Z.pos m).
  { replace (Z.pos m * 2 ^ Z.max e 0 * 2 ^ Z.max (- e) 0)
      with (Z.pos m * (2 ^ Z.max (- e) 0 * 2 ^ Z.max e 0)) by ring.
    apply div_round_even_exact. nia. }
  rewrite Hm'. unfold make_float.
  destruct (Z.eqb_spec (Z.pos m) (2 ^ prec)) as [Heq | _]; [lia|].
  destruct (Z.ltb_spec (emax - prec) e); [lia | reflexivity].
Qed.

(** ** JSON: what is written is read back *)

(** *** Strings *)

Lemma scan_escape_char c s :
  scan_string (json_escape_char c ++ s)
  = (' (str, after) <- scan_string s ;; Ok (String c str, after)).
Proof.
  destruct c as [[] [] [] [] [] [] [] []]; reflexivity.
Qed.

Lemma scan_json_escape s rest :
  scan_string (json_escape s ++ String dquote rest) = Ok (s, rest).
Proof.
  induction s as [|c s IH]; [reflexivity|].
  cbn [json_escape]. rewrite append_assoc, scan_escape_char, IH. reflexivity.
Qed.

Lemma json_string_unfold s rest :
  json_string s ++ rest = String dquote (json_escape s ++ String dquote rest).
Proof. unfold json_string. cbn [append]. rewrite append_assoc. reflexivity. Qed.

Lemma escape_char_no_newline c : no_newline (json_escape_char c) = true.
Proof. destruct c as [[] [] [] [] [] [] [] []]; reflexivity. Qed.

Lemma no_newline_app s t : no_newline (s ++ t) = no_newline s && no_newline t.
Proof. apply str_forallb_app. Qed.

Lemma json_escape_no_newline s : no_newline (json_escape s) = true.
Proof.
  induction s as [|c s IH]; [reflexivity|].
  cbn [json_escape]. rewrite no_newline_app, escape_char_no_newline, IH. reflexivity.
Qed.

Lemma json_string_no_newline s : no_newline (json_string s) = true.
Proof.
  unfold json_string, no_newline. rewrite str_forallb_cons. cbn [negb Ascii.eqb andb].
  fold (no_newline (json_escape s ++ String dquote "")).
  rewrite no_newline_app, json_escape_no_newline. reflexivity.
Qed.

(** *** Numbers *)

Lemma delim_not_number c rest :
  json_delim (String c rest) = true -> is_number_char c = false.
Proof.
  destruct c as [[] [] [] [] [] [] [] []]; cbn; intros H; try discriminate; reflexivity.
Qed.

Lemma take_number_app tok rest :
  str_forallb is_number_char tok = true -> json_delim rest = true ->
  take_number (tok ++ rest) = (tok, rest).
Proof.
  intros Htok Hrest. induction tok as [|c tok IH].
  - destruct rest as [|d rest]; [reflexivity|].
    cbn [append take_number]. rewrite (delim_not_number d rest Hrest). reflexivity.
  - rewrite str_forallb_cons, andb_true_iff in Htok. destruct Htok as [Hc Htok].
    cbn [append take_number]. rewrite Hc, (IH Htok). reflexivity.
Qed.

Lemma prefix_head_neq a s c t :
  a <> c -> String.prefix (String a s) (String c t) = false.
Proof.
  intros Hne. cbn [String.prefix]. destruct (ascii_dec a c); [contradiction | reflexivity].
Qed.

(** A number token followed by a delimiter is read as that token. *)
Lemma parse_atom_number tok rest :
  tok <> "" ->
  str_forallb is_number_char tok = true -> json_delim rest = true ->
  parse_atom (tok ++ rest) = (v <- json_number tok ;; Ok (v, rest)).
Proof.
  intros Hne Htok Hrest. destruct tok as [|c tok]; [contradiction|].
  pose proof Htok as Hall.
  rewrite str_forallb_cons, andb_true_iff in Htok. destruct Htok as [Hc Htok].
  unfold parse_atom. cbn [append].
  rewrite !prefix_head_neq by (intros <-; discriminate Hc).
  assert (Hinf : String.prefix "-Infinity" (String c (tok ++ rest)) = false).
  { cbn [String.prefix]. destruct (ascii_dec "-" c); [|reflexivity].
    destruct tok as [|c2 tok].
    - cbn [append]. destruct rest as [|d rest]; [reflexivity|].
      apply prefix_head_neq. intros <-. discriminate Hrest.
    - cbn [append]. apply prefix_head_neq. intros <-.
      rewrite str_forallb_cons in Htok. discriminate Htok. }
  rewrite Hinf.
  change (String c (tok ++ rest)) with (String c tok ++ rest).
  rewrite (take_number_app _ _ Hall Hrest). reflexivity.
Qed.

Lemma split_at_none p s :
  str_forallb (fun c => negb (p c)) s = true -> split_at p s = (s, None).
Proof.
  induction s as [|c s IH]; [reflexivity|].
  rewrite str_forallb_cons, andb_true_iff. intros [Hc Hs].
  cbn [split_at]. apply negb_true_iff in Hc. rewrite Hc, (IH Hs). reflexivity.
Qed.

Lemma digits_no_marker s :
  str_forallb is_digit s = true ->
  str_forallb (fun c => negb (is_exp_marker c)) s = true
  /\ str_forallb (fun c => negb (is_point c)) s = true.
Proof.
  intros H. split; apply (str_forallb_impl is_digit); try exact H;
    intros c Hc;
    destruct (is_digit_cases c Hc) as [->|[->|[->|[->|[->|[->|[->|[->|[->| ->]]]]]]]]];
    reflexivity.
Qed.

Lemma all_digits_digits s : s <> "" -> str_forallb is_digit s = true -> all_digits s = true.
Proof. intros Hne H. destruct s; [contradiction | exact H]. Qed.

(** [json.loads(str(z)) == z], for the token. *)
Lemma json_number_int z :
  int_in_limit z = true -> json_number (str_of_int z) = Ok (PInt z).
Proof.
  intros Hlim.
  assert (Hbody : exists body,
             drop_minus (str_of_int z) = body /\ str_forallb is_digit body = true
             /\ json_int_part body = true).
  { destruct (str_of_int_cases z) as [[_ ->] | [(p & _ & ->) | (p & _ & ->)]].
    - exists "0". repeat split.
    - destruct (digits_of_pos_head p) as (c & rest & Hs & Hc & Hc0 & Hrest).
      exists (digits_of_pos p). rewrite Hs. unfold drop_minus, json_int_part.
      assert (Hall : str_forallb is_digit (String c rest) = true)
        by (rewrite str_forallb_cons, Hc, Hrest; reflexivity).
      destruct (is_digit_cases c Hc) as [->|[->|[->|[->|[->|[->|[->|[->|[->| ->]]]]]]]]];
        try contradiction; repeat split; exact Hall.
    - destruct (digits_of_pos_head p) as (c & rest & Hs & Hc & Hc0 & Hrest).
      exists (digits_of_pos p). cbn [drop_minus Ascii.eqb]. cbn. rewrite Hs.
      unfold json_int_part.
      assert (Hall : str_forallb is_digit (String c rest) = true)
        by (rewrite str_forallb_cons, Hc, Hrest; reflexivity).
      destruct (is_digit_cases c Hc) as [->|[->|[->|[->|[->|[->|[->|[->|[->| ->]]]]]]]]];
        try contradiction; repeat split; exact Hall. }
  destruct Hbody as (body & Hdrop & Hdigits & Hint).
  unfold json_number. rewrite Hdrop.
  destruct (digits_no_marker body Hdigits) as [Hexp Hpoint].
  rewrite (split_at_none _ _ Hexp), (split_at_none _ _ Hpoint), Hint.
  cbn [andb]. rewrite (py_int_str_of_int z Hlim). reflexivity.
Qed.

Lemma float_same_eq a b : float_same a b = true -> a = b.
Proof.
  destruct a, b; cbn; try discriminate.
  - intros H. apply Bool.eqb_prop in H. subst. reflexivity.
  - intros H. apply Bool.eqb_prop in H. subst. reflexivity.
  - reflexivity.
  - rewrite !andb_true_iff. intros [[Hs Hm] He].
    apply Bool.eqb_prop in Hs. apply Pos.eqb_eq in Hm. apply Z.eqb_eq in He.
    subst. reflexivity.
Qed.

(** ** Decimals read as floats *)

Lemma pow10_pos k : 0 <= k -> 0 < 10 ^ k.
Proof. intros. apply Z.pow_pos_nonneg; lia. Qed.

Lemma float_of_decimal_ratio neg D e :
  float_of_decimal neg D e
  = float_of_ratio neg (D * 10 ^ Z.max e 0) (10 ^ Z.max (- e) 0).
Proof.
  unfold float_of_decimal. destruct (Z.leb_spec 0 e).
  - rewrite (Z.max_l e 0), (Z.max_r (- e) 0) by lia. reflexivity.
  - rewrite (Z.max_r e 0), (Z.max_l (- e) 0) by lia. change (10 ^ 0) with 1.
    rewrite Z.mul_1_r. reflexivity.
Qed.

(** Zeros moved between the digits and the exponent do not change the
    float. *)
Lemma float_of_decimal_shift neg D e k :
  0 <= D -> 0 <= k ->
  float_of_decimal neg (D * 10 ^ k) (e - k) = float_of_decimal neg D e.
Proof.
  intros HD Hk. rewrite !float_of_decimal_ratio.
  pose proof (pow10_pos k Hk).
  pose proof (pow10_pos (Z.max (e - k) 0) ltac:(lia)).
  pose proof (pow10_pos (Z.max (- (e - k)) 0) ltac:(lia)).
  pose proof (pow10_pos (Z.max e 0) ltac:(lia)).
  pose proof (pow10_pos (Z.max (- e) 0) ltac:(lia)).
  apply float_of_ratio_cross; try nia.
  rewrite <- !Z.mul_assoc. f_equal.
  rewrite <- !Z.pow_add_r by lia. f_equal. lia.
Qed.

Lemma float_of_decimal_sign neg D e :
  float_of_decimal neg D e = with_sign neg (float_of_decimal false D e).
Proof. rewrite !float_of_decimal_ratio. apply float_of_ratio_sign. Qed.

Lemma float_of_decimal_zero neg e : float_of_decimal neg 0 e = S754_zero neg.
Proof. rewrite float_of_decimal_ratio. reflexivity. Qed.

Lemma float_of_decimal_valid neg D e : is_float64 (float_of_decimal neg D e) = true.
Proof. rewrite float_of_decimal_ratio. apply float_of_ratio_valid. Qed.

(** The exact decimal of a float reads back as the float. *)
Lemma float_of_decimal_exact s m e :
  is_float64 (S754_finite s m e) = true ->
  float_of_decimal s (fst (exact_decimal m e)) (snd (exact_decimal m e)) = S754_finite s m e.
Proof.
  intros Hv. rewrite <- (float_of_ratio_exact s m e Hv).
  rewrite float_of_decimal_ratio. unfold exact_decimal.
  destruct (Z.leb_spec 0 e) as [He | He]; cbn [fst snd].
  - rewrite (Z.max_l e 0), (Z.max_r (- e) 0) by lia.
    change (Z.max 0 0) with 0. change (Z.max (- 0) 0) with 0.
    change (2 ^ 0) with 1. change (10 ^ 0) with 1. rewrite !Z.mul_1_r. reflexivity.
  - rewrite !(Z.max_r e 0), !(Z.max_l (- e) 0) by lia.
    change (2 ^ 0) with 1. change (10 ^ 0) with 1. rewrite !Z.mul_1_r.
    pose proof (pow10_pos (- e) ltac:(lia)).
    assert (0 < 5 ^ (- e)) by (apply Z.pow_pos_nonneg; lia).
    assert (0 < 2 ^ (- e)) by (apply Z.pow_pos_nonneg; lia).
    apply float_of_ratio_cross; try nia.
    change 10 with (5 * 2). rewrite Z.pow_mul_l. ring.
Qed.

(** *** The digits that [repr] chooses *)

Lemma short_candidate_sound f num den x k D e10 :
  short_candidate f num den x k = Some (D, e10) ->
  float_of_decimal false D e10 = f.
Proof.
  unfold short_candidate. cbv zeta.
  set (t := k - 1 - x).
  set (n' := if 0 <=? t then num * 10 ^ t else num).
  set (d' := if 0 <=? t then den else den * 10 ^ (- t)).
  destruct (float_same (float_of_decimal false (n' / d') (- t)) f) eqn:Hlo;
    destruct (negb (n' mod d' =? 0)
              && float_same (float_of_decimal false (n' / d' + 1) (- t)) f) eqn:Hhi;
    try discriminate.
  - apply andb_true_iff in Hhi. destruct Hhi as [_ Hhi].
    apply float_same_eq in Hlo, Hhi.
    destruct (2 * (n' mod d') ?= d'); [destruct (Z.even (n' / d'))| |];
      intros H; injection H as <- <-; assumption.
  - apply float_same_eq in Hlo. intros H; injection H as <- <-; assumption.
  - apply andb_true_iff in Hhi. destruct Hhi as [_ Hhi]. apply float_same_eq in Hhi.
    intros H; injection H as <- <-; assumption.
Qed.

Lemma shortest_from_sound fuel f num den x k last :
  float_of_decimal false (fst last) (snd last) = f ->
  float_of_decimal false (fst (shortest_from fuel f num den x k last))
                   (snd (shortest_from fuel f num den x k last)) = f.
Proof.
  intros Hlast. revert k. induction fuel as [|fuel IH]; intros k; [exact Hlast|].
  cbn [shortest_from]. destruct (short_candidate f num den x k) as [[D e10]|] eqn:Hc.
  - exact (short_candidate_sound _ _ _ _ _ _ _ Hc).
  - apply IH.
Qed.

(** *** Reading a number written with a point or an exponent *)

Lemma split_at_app p s c t :
  str_forallb (fun c => negb (p c)) s = true -> p c = true ->
  split_at p (s ++ String c t) = (s, Some t).
Proof.
  intros Hs Hc. induction s as [|a s IH]; cbn [append split_at].
  - rewrite Hc. reflexivity.
  - rewrite str_forallb_cons, andb_true_iff in Hs. destruct Hs as [Ha Hs].
    apply negb_true_iff in Ha. rewrite Ha, (IH Hs). reflexivity.
Qed.

Lemma head_digit_app s t : head_digit s -> head_digit (s ++ t).
Proof. intros (c & rest & -> & Hc). exists c, (rest ++ t). split; [reflexivity | exact Hc]. Qed.

Lemma head_digit_digits s : s <> "" -> str_forallb is_digit s = true -> head_digit s.
Proof.
  intros Hne Hd. destruct s as [|c rest]; [contradiction|].
  rewrite str_forallb_cons, andb_true_iff in Hd. exists c, rest. split; [reflexivity | apply Hd].
Qed.

Lemma split_sign_head_digit neg body :
  head_digit body -> split_sign (sign_str neg ++ body) = (neg, body).
Proof.
  intros (c & rest & -> & Hc). destruct neg; [reflexivity|].
  cbn [sign_str append]. unfold split_sign.
  destruct (is_digit_cases c Hc) as [->|[->|[->|[->|[->|[->|[->|[->|[->| ->]]]]]]]]];
    reflexivity.
Qed.

Lemma head_digit_not_name body :
  head_digit body ->
  String.eqb (str_lower body) "inf" || String.eqb (str_lower body) "infinity" = false
  /\ String.eqb (str_lower body) "nan" = false.
Proof.
  intros (c & rest & -> & Hc).
  destruct (is_digit_cases c Hc) as [->|[->|[->|[->|[->|[->|[->|[->|[->| ->]]]]]]]]];
    split; reflexivity.
Qed.

Lemma parse_mantissa_plain ip :
  ip <> "" -> str_forallb is_digit ip = true ->
  parse_mantissa ip = Some (digits_value ip, 0).
Proof.
  intros Hne Hd. unfold parse_mantissa.
  rewrite (split_at_none _ _ (proj2 (digits_no_marker ip Hd))).
  destruct (digit_group_value ip Hne Hd) as (u & -> & -> & _). reflexivity.
Qed.

Lemma parse_mantissa_point ip fp :
  ip <> "" -> fp <> "" ->
  str_forallb is_digit ip = true -> str_forallb is_digit fp = true ->
  parse_mantissa (ip ++ String "." fp)
  = Some (digits_value (ip ++ fp), Z.of_nat (String.length fp)).
Proof.
  intros Hip Hfp Hdi Hdf. unfold parse_mantissa.
  rewrite (split_at_app is_point ip "." fp (proj2 (digits_no_marker ip Hdi)) eq_refl).
  destruct (digit_group_value ip Hip Hdi) as (ui & Hui & Hvi & _).
  destruct (digit_group_value fp Hfp Hdf) as (uf & Huf & Hvf & Hnf).
  rewrite Hui, Huf, of_uint_app, Hvi, Hvf, Hnf, (digits_value_app ip fp Hdi Hdf).
  destruct ip; [contradiction|]. destruct fp; [contradiction|]. reflexivity.
Qed.

Lemma parse_exponent_digits (neg : bool) ex :
  ex <> "" -> str_forallb is_digit ex = true ->
  parse_exponent (String (if neg then "-"%char else "+"%char) ex)
  = Some (if neg then - digits_value ex else digits_value ex).
Proof.
  intros Hne Hd. unfold parse_exponent.
  destruct (digit_group_value ex Hne Hd) as (u & Hu & Hv & _).
  destruct neg; cbn [split_sign Ascii.eqb Bool.eqb]; cbn; rewrite Hu, Hv; reflexivity.
Qed.

(** [float()] of a literal without exponent. *)
Lemma py_float_plain neg mant d nfrac :
  no_space (sign_str neg ++ mant) = true ->
  head_digit mant ->
  str_forallb (fun c => negb (is_exp_marker c)) mant = true ->
  parse_mantissa mant = Some (d, nfrac) ->
  py_float (sign_str neg ++ mant) = Some (float_of_decimal neg d (- nfrac)).
Proof.
  intros Hns Hhead Hexp Hm. unfold py_float.
  rewrite (num_strip_no_space _ Hns), (split_sign_head_digit neg mant Hhead).
  destruct (head_digit_not_name mant Hhead) as [-> ->].
  rewrite (split_at_none _ _ Hexp), Hm. reflexivity.
Qed.

(** [float()] of a literal with an exponent. *)
Lemma py_float_exponent neg mant ex d nfrac e :
  no_space (sign_str neg ++ mant ++ String "e" ex) = true ->
  head_digit mant ->
  str_forallb (fun c => negb (is_exp_marker c)) mant = true ->
  parse_mantissa mant = Some (d, nfrac) ->
  parse_exponent ex = Some e ->
  py_float (sign_str neg ++ mant ++ String "e" ex) = Some (float_of_decimal neg d (e - nfrac)).
Proof.
  intros Hns Hhead Hexp Hm He. unfold py_float.
  rewrite (num_strip_no_space _ Hns), (split_sign_head_digit neg _ (head_digit_app _ _ Hhead)).
  destruct (head_digit_not_name _ (head_digit_app mant (String "e" ex) Hhead)) as [-> ->].
  rewrite (split_at_app is_exp_marker mant "e" ex Hexp eq_refl), Hm, He. reflexivity.
Qed.

(** [int()] refuses a literal with a character that is neither a digit
    nor an underscore. *)
Lemma py_int_not_digits neg body :
  no_space (sign_str neg ++ body) = true ->
  head_digit body ->
  str_forallb is_digit_or_us body = false ->
  py_int (sign_str neg ++ body) = None.
Proof.
  intros Hns Hhead Hbody. unfold py_int.
  rewrite (num_strip_no_space _ Hns), (split_sign_head_digit neg body Hhead).
  unfold digit_group. rewrite Hbody. destruct body; reflexivity.
Qed.

Lemma not_digits_app s c t :
  is_digit_or_us c = false -> str_forallb is_digit_or_us (s ++ String c t) = false.
Proof.
  intros Hc. rewrite str_forallb_app, str_forallb_cons, Hc. apply andb_false_r.
Qed.

(** *** The layout of [repr] *)

Lemma str_forallb_take p n s : str_forallb p s = true -> str_forallb p (str_take n s) = true.
Proof.
  revert s. induction n as [|n IH]; intros [|c s] H; try reflexivity.
  rewrite str_forallb_cons in H. apply andb_true_iff in H. destruct H as [Hc Hs].
  cbn [str_take]. rewrite str_forallb_cons, Hc, (IH s Hs). reflexivity.
Qed.

Lemma str_forallb_drop p n s : str_forallb p s = true -> str_forallb p (str_drop n s) = true.
Proof.
  revert s. induction n as [|n IH]; intros [|c s] H; try reflexivity; try exact H.
  rewrite str_forallb_cons in H. apply andb_true_iff in H. destruct H as [_ Hs].
  cbn [str_drop]. exact (IH s Hs).
Qed.

Lemma str_take_drop n s : str_take n s ++ str_drop n s = s.
Proof.
  revert s. induction n as [|n IH]; intros [|c s]; try reflexivity.
  cbn [str_take str_drop append]. rewrite IH. reflexivity.
Qed.

Lemma length_str_drop n s : String.length (str_drop n s) = (String.length s - n)%nat.
Proof.
  revert s. induction n as [|n IH]; intros [|c s]; try reflexivity.
  cbn [str_drop String.length]. rewrite IH. reflexivity.
Qed.

Lemma strip_zeros_digits s :
  str_forallb is_digit s = true -> str_forallb is_digit (strip_trailing_zeros s) = true.
Proof.
  induction s as [|c s IH]; intros H; [reflexivity|].
  rewrite str_forallb_cons in H. apply andb_true_iff in H. destruct H as [Hc Hs].
  cbn [strip_trailing_zeros]. specialize (IH Hs).
  destruct (strip_trailing_zeros s) as [|c2 r].
  - destruct (Ascii.eqb c "0"); [reflexivity|]. rewrite str_forallb_cons, Hc. reflexivity.
  - rewrite str_forallb_cons, Hc. exact IH.
Qed.

Lemma strip_zeros_length s :
  (String.length (strip_trailing_zeros s) <= String.length s)%nat.
Proof.
  induction s as [|c s IH]; [apply Nat.le_refl|]. cbn [strip_trailing_zeros].
  destruct (strip_trailing_zeros s) as [|c2 r].
  - destruct (Ascii.eqb c "0"); cbn [String.length]; lia.
  - cbn [String.length] in *. lia.
Qed.

(** What [strip_trailing_zeros] removes is zeros. *)
Lemma strip_zeros_split s :
  s = strip_trailing_zeros s
      ++ str_repeat "0" (String.length s - String.length (strip_trailing_zeros s)).
Proof.
  induction s as [|c s IH]; [reflexivity|]. cbn [strip_trailing_zeros].
  pose proof (strip_zeros_length s) as Hlen.
  destruct (strip_trailing_zeros s) as [|c2 r].
  - cbn [append String.length] in IH. rewrite Nat.sub_0_r in IH.
    destruct (Ascii.eqb_spec c "0") as [-> | Hc].
    + cbn [append String.length]. rewrite Nat.sub_0_r. cbn [str_repeat]. rewrite <- IH. reflexivity.
    + cbn [append String.length Nat.sub]. rewrite Nat.sub_0_r. rewrite <- IH. reflexivity.
  - cbn [append String.length Nat.sub] in *. rewrite <- IH. reflexivity.
Qed.

Lemma strip_zeros_head c s :
  c <> "0"%char -> exists r, strip_trailing_zeros (String c s) = String c r.
Proof.
  intros Hc. cbn [strip_trailing_zeros]. destruct (strip_trailing_zeros s) as [|c2 r].
  - destruct (Ascii.eqb_spec c "0") as [H | _]; [contradiction|]. exists "". reflexivity.
  - exists (String c2 r). reflexivity.
Qed.

(** The digits that [repr] lays out, for a positive number. *)
Lemma repr_digits D :
  1 <= D ->
  exists c r,
    strip_trailing_zeros (str_of_int D) = String c r
    /\ is_digit c = true /\ c <> "0"%char /\ str_forallb is_digit r = true
    /\ D = digits_value (String c r)
           * 10 ^ (Z.of_nat (String.length (str_of_int D))
                   - Z.of_nat (String.length (String c r))).
Proof.
  intros HD. destruct (str_of_int_cases D) as [[-> _] | [(p & -> & Hs) | (p & -> & _)]]; try lia.
  rewrite Hs. destruct (digits_of_pos_head p) as (c & rest & Hall & Hc & Hc0 & Hrest).
  pose proof (digits_of_pos_digits p) as Hd.
  pose proof (strip_zeros_digits _ Hd) as Hsd.
  pose proof (strip_zeros_split (digits_of_pos p)) as Hsplit.
  pose proof (strip_zeros_length (digits_of_pos p)) as Hlen.
  pose proof (digits_value_digits_of_pos p) as Hval.
  rewrite Hall in Hsd, Hsplit, Hlen, Hval |- *.
  destruct (strip_zeros_head c rest Hc0) as (r & Hr). rewrite Hr in *.
  exists c, r. rewrite str_forallb_cons, andb_true_iff in Hsd.
  refine (conj eq_refl (conj Hc (conj Hc0 (conj (proj2 Hsd) _)))).
  rewrite Hsplit in Hval at 1.
  rewrite digits_value_app in Hval;
    [| rewrite str_forallb_cons, Hc; apply Hsd | apply digits_repeat_zero].
  rewrite digits_value_zeros, length_str_repeat, Z.add_0_r in Hval.
  rewrite <- Hval. f_equal. f_equal. lia.
Qed.

Lemma digits_number_chars s :
  str_forallb is_digit s = true -> str_forallb is_number_char s = true.
Proof. apply str_forallb_impl. exact digit_is_number_char. Qed.

Lemma sign_number_chars neg s :
  str_forallb is_number_char s = true ->
  str_forallb is_number_char (sign_str neg ++ s) = true.
Proof. intros H. destruct neg; [|exact H]. cbn [sign_str append]. rewrite str_forallb_cons, H. reflexivity. Qed.

Lemma drop_minus_head_digit neg body :
  head_digit body -> drop_minus (sign_str neg ++ body) = body.
Proof.
  intros (c & rest & -> & Hc). destruct neg; [reflexivity|].
  cbn [sign_str append]. unfold drop_minus.
  destruct (is_digit_cases c Hc) as [->|[->|[->|[->|[->|[->|[->|[->|[->| ->]]]]]]]]];
    reflexivity.
Qed.

Lemma json_int_part_digits c r :
  is_digit c = true -> c <> "0"%char -> str_forallb is_digit r = true ->
  json_int_part (String c r) = true.
Proof.
  intros Hc Hc0 Hr. unfold json_int_part.
  destruct (Ascii.eqb_spec c "0") as [H | _]; [contradiction|].
  cbn [all_digits]. rewrite str_forallb_cons, Hc, Hr. reflexivity.
Qed.

(** [json.loads] on a number with a fraction or an exponent gives what
    [float()] gives. *)
Lemma json_number_float neg mant ip fp ex f :
  head_digit mant ->
  str_forallb (fun c => negb (is_exp_marker c)) mant = true ->
  split_at is_point mant = (ip, fp) ->
  json_int_part ip = true ->
  match fp with Some d => all_digits d | None => true end = true ->
  match ex with Some e => json_exp_part e | None => true end = true ->
  (fp <> None \/ ex <> None) ->
  let tok := sign_str neg ++ mant ++ match ex with Some e => String "e" e | None => "" end in
  py_float tok = Some f ->
  json_number tok = Ok (PFloat f).
Proof.
  intros Hhead Hexp Hpoint Hip Hfp Hex Hsome tok Hfloat. unfold json_number.
  unfold tok at 1. rewrite (drop_minus_head_digit neg _ (head_digit_app _ _ Hhead)).
  assert (Hsplit : split_at is_exp_marker
                     (mant ++ match ex with Some e => String "e" e | None => "" end)
                   = (mant, ex)).
  { destruct ex as [e|].
    - apply split_at_app; [exact Hexp | reflexivity].
    - rewrite append_nil_r. apply split_at_none. exact Hexp. }
  rewrite Hsplit, Hpoint, Hip, Hfp, Hex. cbn [andb]. rewrite Hfloat.
  destruct fp, ex; try reflexivity. destruct Hsome; contradiction.
Qed.

Lemma point_no_marker ip fp :
  str_forallb is_digit ip = true -> str_forallb is_digit fp = true ->
  str_forallb (fun c => negb (is_exp_marker c)) (ip ++ String "." fp) = true.
Proof.
  intros Hi Hf. rewrite str_forallb_app, str_forallb_cons.
  rewrite (proj1 (digits_no_marker ip Hi)), (proj1 (digits_no_marker fp Hf)). reflexivity.
Qed.

Lemma point_number_chars ip fp :
  str_forallb is_digit ip = true -> str_forallb is_digit fp = true ->
  str_forallb is_number_char (ip ++ String "." fp) = true.
Proof.
  intros Hi Hf. rewrite str_forallb_app, str_forallb_cons.
  rewrite (digits_number_chars ip Hi), (digits_number_chars fp Hf). reflexivity.
Qed.

(** A literal [ip.fp] is read by [float()] as the float of its digits,
    and refused by [int()]. *)
Lemma point_reads neg ip fp :
  ip <> "" -> fp <> "" ->
  str_forallb is_digit ip = true -> str_forallb is_digit fp = true ->
  py_float (sign_str neg ++ ip ++ String "." fp)
  = Some (float_of_decimal neg (digits_value (ip ++ fp)) (- Z.of_nat (String.length fp)))
  /\ py_int (sign_str neg ++ ip ++ String "." fp) = None
  /\ str_forallb is_number_char (sign_str neg ++ ip ++ String "." fp) = true.
Proof.
  intros Hip Hfp Hdi Hdf.
  pose proof (point_number_chars ip fp Hdi Hdf) as Hchars.
  pose proof (sign_number_chars neg _ Hchars) as Hchars'.
  pose proof (number_chars_no_space _ Hchars') as Hns.
  pose proof (head_digit_app _ (String "." fp) (head_digit_digits ip Hip Hdi)) as Hhead.
  refine (conj _ (conj _ Hchars')).
  - apply py_float_plain; [exact Hns | exact Hhead | apply point_no_marker; assumption |].
    apply parse_mantissa_point; assumption.
  - apply py_int_not_digits; [exact Hns | exact Hhead |]. apply not_digits_app. reflexivity.
Qed.

(** With an integer part as JSON writes it, [json.loads] reads the
    same float. *)
Lemma point_reads_as_float neg ip fp :
  json_int_part ip = true ->
  ip <> "" -> fp <> "" ->
  str_forallb is_digit ip = true -> str_forallb is_digit fp = true ->
  reads_as_float (sign_str neg ++ ip ++ String "." fp)
                 (float_of_decimal neg (digits_value (ip ++ fp))
                                   (- Z.of_nat (String.length fp))).
Proof.
  intros Hjson Hip Hfp Hdi Hdf.
  destruct (point_reads neg ip fp Hip Hfp Hdi Hdf) as (Hfloat & Hint & Hchars).
  pose proof (head_digit_app _ (String "." fp) (head_digit_digits ip Hip Hdi)) as Hhead.
  refine (conj Hfloat (conj Hint (conj _ Hchars))).
  pose proof (json_number_float neg (ip ++ String "." fp) ip (Some fp) None
                (float_of_decimal neg (digits_value (ip ++ fp))
                                  (- Z.of_nat (String.length fp)))
                Hhead (point_no_marker ip fp Hdi Hdf)
                (split_at_app is_point ip "." fp (proj2 (digits_no_marker ip Hdi)) eq_refl)
                Hjson) as H.
  cbv zeta in H. rewrite append_nil_r in H. apply H.
  - apply all_digits_digits; assumption.
  - reflexivity.
  - left. discriminate.
  - exact Hfloat.
Qed.

Lemma str_of_int_nonneg_digits z :
  0 <= z ->
  str_forallb is_digit (str_of_int z) = true /\ digits_value (str_of_int z) = z.
Proof.
  intros Hz. destruct (str_of_int_cases z) as [[-> ->] | [(p & -> & ->) | (p & -> & _)]];
    [split; reflexivity | | lia].
  split; [apply digits_of_pos_digits | apply digits_value_digits_of_pos].
Qed.

Lemma zfill_digits w z :
  0 <= z ->
  str_forallb is_digit (zfill w (str_of_int z)) = true
  /\ digits_value (zfill w (str_of_int z)) = z
  /\ zfill w (str_of_int z) <> "".
Proof.
  intros Hz. destruct (str_of_int_nonneg_digits z Hz) as [Hd Hv]. unfold zfill.
  refine (conj _ (conj _ _)).
  - rewrite str_forallb_app, digits_repeat_zero, Hd. reflexivity.
  - rewrite digits_value_app, digits_value_zeros, Hv by (apply digits_repeat_zero || exact Hd).
    lia.
  - pose proof (str_of_int_nonempty z) as Hne.
    destruct (str_repeat "0" (w - String.length (str_of_int z))); [exact Hne | discriminate].
Qed.

(** A literal in exponent notation, as [repr] writes it, is read as the
    float of its digits. *)
Lemma exp_reads_as_float neg c r e :
  is_digit c = true -> c <> "0"%char -> str_forallb is_digit r = true ->
  reads_as_float
    (sign_str neg
     ++ match r with
        | EmptyString => String c r
        | _ => String c ("." ++ r)
        end
     ++ "e" ++ (if e <? 0 then "-" else "+") ++ zfill 2 (str_of_int (Z.abs e)))
    (float_of_decimal neg (digits_value (String c r)) (e - Z.of_nat (String.length r))).
Proof.
  intros Hc Hc0 Hr.
  destruct (zfill_digits 2 (Z.abs e) (Z.abs_nonneg e)) as (Hzd & Hzv & Hzne).
  set (exd := zfill 2 (str_of_int (Z.abs e))) in *.
  set (sgn := if e <? 0 then "-"%char else "+"%char).
  assert (Hexs : ("e" ++ (if e <? 0 then "-" else "+") ++ exd) = String "e" (String sgn exd)).
  { unfold sgn. destruct (e <? 0); reflexivity. }
  rewrite Hexs.
  assert (Hpe : parse_exponent (String sgn exd) = Some e).
  { unfold sgn. rewrite (parse_exponent_digits (e <? 0) exd Hzne Hzd), Hzv.
    destruct (Z.ltb_spec e 0); f_equal; lia. }
  assert (Hje : json_exp_part (String sgn exd) = true).
  { unfold sgn. destruct (e <? 0);
      [change (all_digits exd = true) | change (all_digits exd = true)];
      apply all_digits_digits; assumption. }
  assert (Hsc : is_number_char sgn = true) by (unfold sgn; destruct (e <? 0); reflexivity).
  assert (Hcd : str_forallb is_digit (String c "") = true)
    by (rewrite str_forallb_cons, Hc; reflexivity).
  assert (Hone : String c "" <> "") by discriminate.
  set (mant := match r with EmptyString => String c r | _ => String c ("." ++ r) end).
  assert (Hmant : mant = String c "" /\ r = ""
                  \/ mant = String c "" ++ String "." r /\ r <> "").
  { unfold mant. destruct r; [left; split; reflexivity | right; split; [reflexivity | discriminate]]. }
  assert (Hhead : head_digit mant).
  { destruct Hmant as [[-> _] | [-> _]]; exists c; eexists; (split; [reflexivity | exact Hc]). }
  assert (Hnomark : str_forallb (fun c => negb (is_exp_marker c)) mant = true).
  { destruct Hmant as [[-> _] | [-> _]].
    - apply (digits_no_marker _ Hcd).
    - apply point_no_marker; assumption. }
  assert (Hpm : parse_mantissa mant
                = Some (digits_value (String c r), Z.of_nat (String.length r))).
  { destruct Hmant as [[-> ->] | [-> Hne]].
    - apply parse_mantissa_plain; assumption.
    - apply (parse_mantissa_point (String c "") r); assumption. }
  assert (Hchars : str_forallb is_number_char (sign_str neg ++ mant ++ String "e" (String sgn exd))
                   = true).
  { apply sign_number_chars. rewrite str_forallb_app, !str_forallb_cons, Hsc.
    rewrite (digits_number_chars exd Hzd).
    destruct Hmant as [[-> _] | [-> _]].
    - rewrite (digits_number_chars _ Hcd). reflexivity.
    - rewrite (point_number_chars _ _ Hcd Hr). reflexivity. }
  pose proof (number_chars_no_space _ Hchars) as Hns.
  assert (Hfloat : py_float (sign_str neg ++ mant ++ String "e" (String sgn exd))
                   = Some (float_of_decimal neg (digits_value (String c r))
                                            (e - Z.of_nat (String.length r)))).
  { apply py_float_exponent; assumption. }
  refine (conj Hfloat (conj _ (conj _ Hchars))).
  - apply py_int_not_digits; [exact Hns | apply head_digit_app; exact Hhead |].
    apply not_digits_app. reflexivity.
  - assert (Hsplit : exists ip fp,
               split_at is_point mant = (ip, fp) /\ json_int_part ip = true
               /\ match fp with Some d => all_digits d | None => true end = true).
    { destruct Hmant as [[-> _] | [-> Hne]].
      - exists (String c ""), None.
        rewrite (split_at_none _ _ (proj2 (digits_no_marker _ Hcd))).
        refine (conj eq_refl (conj _ eq_refl)). apply json_int_part_digits; [assumption..|reflexivity].
      - exists (String c ""), (Some r).
        rewrite (split_at_app is_point (String c "") "." r
                   (proj2 (digits_no_marker _ Hcd)) eq_refl).
        refine (conj eq_refl (conj _ _)).
        + apply json_int_part_digits; [assumption..|reflexivity].
        + apply all_digits_digits; assumption. }
    destruct Hsplit as (ip & fp & Hsp & Hip & Hfp).
    apply (json_number_float neg mant ip fp (Some (String sgn exd)) _ Hhead Hnomark Hsp Hip Hfp Hje).
    + right. discriminate.
    + exact Hfloat.
Qed.

Lemma reads_as_float_eq tok f g : f = g -> reads_as_float tok f -> reads_as_float tok g.
Proof. intros <-. exact (fun H => H). Qed.

(** What [repr] lays out is read as the float of the digits laid
    out. *)
Lemma repr_layout_reads neg c r decpt :
  is_digit c = true -> c <> "0"%char -> str_forallb is_digit r = true ->
  reads_as_float
    (sign_str neg ++ repr_layout (String c r) decpt)
    (float_of_decimal neg (digits_value (String c r))
                      (decpt - Z.of_nat (String.length (String c r)))).
Proof.
  intros Hc Hc0 Hr.
  assert (Hds : str_forallb is_digit (String c r) = true)
    by (rewrite str_forallb_cons, Hc, Hr; reflexivity).
  pose proof (digits_value_range _ Hds) as Hrange.
  unfold repr_layout. cbv zeta.
  destruct ((-4 <? decpt) && (decpt <=? 16)) eqn:Hplain.
  - destruct (Z.leb_spec decpt 0) as [Hneg | Hpos].
    + (* 0.000ddd *)
      set (zs := str_repeat "0" (Z.to_nat (- decpt))).
      change ("0." ++ zs ++ String c r) with ("0" ++ String "." (zs ++ String c r)).
      assert (Hfd : str_forallb is_digit (zs ++ String c r) = true).
      { rewrite str_forallb_app. unfold zs. rewrite digits_repeat_zero. exact Hds. }
      assert (Hfne : zs ++ String c r <> "") by (destruct zs; discriminate).
      apply (reads_as_float_eq _
               (float_of_decimal neg (digits_value ("0" ++ (zs ++ String c r)))
                                 (- Z.of_nat (String.length (zs ++ String c r))))).
      * assert (Hz : digits_value zs = 0) by apply digits_value_zeros.
        assert (Hl : String.length zs = Z.to_nat (- decpt)) by apply length_str_repeat.
        rewrite (digits_value_app "0" _ eq_refl Hfd).
        rewrite (digits_value_app zs _ (digits_repeat_zero _) Hds), Hz.
        change (digits_value "0") with 0. rewrite !Z.mul_0_l, !Z.add_0_l.
        f_equal. rewrite length_append, Hl. lia.
      * apply point_reads_as_float; try assumption; try reflexivity. discriminate.
    + destruct (Z.leb_spec (Z.of_nat (String.length (String c r))) decpt) as [Hlong | Hshort].
      * (* ddd000.0 *)
        set (j := decpt - Z.of_nat (String.length (String c r))).
        set (zs := str_repeat "0" (Z.to_nat j)).
        replace (String c r ++ zs ++ ".0") with ((String c r ++ zs) ++ String "." "0")
          by (rewrite append_assoc; reflexivity).
        assert (Hid : str_forallb is_digit (String c r ++ zs) = true).
        { rewrite str_forallb_app, Hds. unfold zs. rewrite digits_repeat_zero. reflexivity. }
        apply (reads_as_float_eq _
                 (float_of_decimal neg (digits_value ((String c r ++ zs) ++ "0"))
                                   (- Z.of_nat (String.length "0")))).
        -- assert (Hz : digits_value zs = 0) by apply digits_value_zeros.
           assert (Hl : String.length zs = Z.to_nat j) by apply length_str_repeat.
           rewrite (digits_value_app _ "0" Hid eq_refl).
           rewrite (digits_value_app _ zs Hds (digits_repeat_zero _)), Hz, Hl.
           change (digits_value "0") with 0. change (Z.of_nat (String.length "0")) with 1.
           rewrite !Z.add_0_r, Z2Nat.id by (unfold j; lia).
           rewrite <- Z.mul_assoc. change (10 ^ 1) with 10.
           replace (10 ^ j * 10) with (10 ^ (j + 1)) by (rewrite Z.pow_add_r by (unfold j; lia); reflexivity).
           replace (Z.opp 1) with (j - (j + 1)) by lia.
           apply float_of_decimal_shift; unfold j; lia.
        -- apply point_reads_as_float; try assumption; try reflexivity; try discriminate.
           change (String c r ++ zs) with (String c (r ++ zs)).
           apply json_int_part_digits; try assumption.
           rewrite str_forallb_app, Hr. unfold zs. apply digits_repeat_zero.
      * (* dd.ddd *)
        set (k := Z.to_nat decpt).
        assert (Hk : (0 < k < String.length (String c r))%nat) by (unfold k; lia).
        assert (Htake : exists t, str_take k (String c r) = String c t
                                  /\ str_forallb is_digit t = true).
        { destruct k as [|k']; [lia|]. exists (str_take k' r).
          split; [reflexivity | apply str_forallb_take; exact Hr]. }
        destruct Htake as (t & Htake & Ht).
        assert (Hdrop : str_drop k (String c r) <> "").
        { intros H. pose proof (length_str_drop k (String c r)) as Hl. rewrite H in Hl.
          cbn [String.length] in Hl, Hk. lia. }
        apply (reads_as_float_eq _
                 (float_of_decimal neg
                    (digits_value (str_take k (String c r) ++ str_drop k (String c r)))
                    (- Z.of_nat (String.length (str_drop k (String c r)))))).
        -- rewrite str_take_drop, length_str_drop. f_equal. unfold k. lia.
        -- apply point_reads_as_float.
           ++ rewrite Htake. apply json_int_part_digits; assumption.
           ++ rewrite Htake. discriminate.
           ++ exact Hdrop.
           ++ apply str_forallb_take. exact Hds.
           ++ apply str_forallb_drop. exact Hds.
  - (* d.ddde+xx *)
    apply (reads_as_float_eq _
             (float_of_decimal neg (digits_value (String c r))
                               (decpt - 1 - Z.of_nat (String.length r)))).
    + f_equal. cbn [String.length]. lia.
    + pose proof (exp_reads_as_float neg c r (decpt - 1) Hc Hc0 Hr) as H.
      destruct r; exact H.
Qed.

Lemma float_of_decimal_positive D e10 m e :
  float_of_decimal false D e10 = S754_finite false m e -> 1 <= D.
Proof.
  intros H. destruct (Z.lt_ge_cases D 1) as [Hlt | Hge]; [|exact Hge]. exfalso.
  rewrite float_of_decimal_ratio in H.
  assert (Hp : 0 < 10 ^ Z.max e10 0) by (apply pow10_pos; lia).
  assert (Hz : D * 10 ^ Z.max e10 0 <= 0) by nia.
  destruct (D * 10 ^ Z.max e10 0); try lia; discriminate H.
Qed.

(** [float(repr(f)) == f], and [int(repr(f))] is refused, for a zero or
    finite float [f]. *)
Lemma float_repr_reads f :
  is_float64 f = true ->
  match f with
  | S754_zero _ | S754_finite _ _ _ => reads_as_float (float_repr f) f
  | _ => True
  end.
Proof.
  intros Hv. destruct f as [s|s| |s m e]; try exact I.
  - destruct s; repeat split; vm_compute; reflexivity.
  - unfold float_repr.
    set (num := if 0 <=? e then Z.pos m * 2 ^ e else Z.pos m).
    set (den := if 0 <=? e then 1 else 2 ^ (- e)).
    pose proof (shortest_from_sound 17 (S754_finite false m e) num den (exp10_of num den) 1
                  (exact_decimal m e) (float_of_decimal_exact false m e Hv)) as Hsound.
    destruct (shortest_from 17 (S754_finite false m e) num den (exp10_of num den) 1
                (exact_decimal m e)) as [D e10].
    cbn [fst snd] in Hsound.
    pose proof (float_of_decimal_positive D e10 m e Hsound) as HD.
    destruct (repr_digits D HD) as (c & r & Hstrip & Hc & Hc0 & Hr & Hval).
    rewrite Hstrip.
    assert (Hds : str_forallb is_digit (String c r) = true)
      by (rewrite str_forallb_cons, Hc, Hr; reflexivity).
    pose proof (digits_value_range _ Hds) as Hrange.
    pose proof (strip_zeros_length (str_of_int D)) as Hlen. rewrite Hstrip in Hlen.
    apply (reads_as_float_eq _
             (float_of_decimal s (digits_value (String c r))
                (Z.of_nat (String.length (str_of_int D)) + e10
                 - Z.of_nat (String.length (String c r))))).
    + set (k := Z.of_nat (String.length (str_of_int D))
                - Z.of_nat (String.length (String c r))) in *.
      replace (Z.of_nat (String.length (str_of_int D)) + e10
               - Z.of_nat (String.length (String c r))) with (e10 + k) by (unfold k; lia).
      rewrite <- (float_of_decimal_shift s (digits_value (String c r)) (e10 + k) k)
        by (unfold k; lia).
      rewrite <- Hval. replace (e10 + k - k) with e10 by lia.
      rewrite float_of_decimal_sign, Hsound. reflexivity.
    + apply repr_layout_reads; assumption.
Qed.

(** *** Values *)

Lemma parse_value_S fuel c s :
  parse_value (S fuel) (String c s)
  = if Ascii.eqb c dquote then
      ' (str, rest) <- scan_string s ;; Ok (PStr str, rest)
    else if Ascii.eqb c "{" then
      match skip_ws s with
      | String c2 rest =>
          if Ascii.eqb c2 "}" then Ok (PDict [], rest)
          else if Ascii.eqb c2 dquote then parse_members fuel rest []
          else Raise ValueError
      | EmptyString => Raise ValueError
      end
    else if Ascii.eqb c "[" then
      match skip_ws s with
      | String c2 rest =>
          if Ascii.eqb c2 "]" then Ok (PList [], rest)
          else parse_elements fuel (String c2 rest) []
      | EmptyString => Raise ValueError
      end
    else parse_atom (String c s).
Proof. reflexivity. Qed.

Lemma parse_members_S fuel s pairs :
  parse_members (S fuel) s pairs
  = (' (key, after_key) <- scan_string s ;;
     match skip_ws after_key with
     | String c after_colon =>
         if Ascii.eqb c ":" then
           ' (v, after_value) <- parse_value fuel (skip_ws after_colon) ;;
           let pairs' := (pairs ++ [(key, v)])%list in
           match skip_ws after_value with
           | String c2 rest =>
               if Ascii.eqb c2 "}" then Ok (PDict (dict_of_pairs pairs'), rest)
               else if Ascii.eqb c2 "," then
                 match skip_ws rest with
                 | String c3 rest' =>
                     if Ascii.eqb c3 dquote then parse_members fuel rest' pairs'
                     else Raise ValueError
                 | EmptyString => Raise ValueError
                 end
               else Raise ValueError
           | EmptyString => Raise ValueError
           end
         else Raise ValueError
     | EmptyString => Raise ValueError
     end).
Proof. reflexivity. Qed.

Lemma number_char_not_struct c :
  is_number_char c = true ->
  Ascii.eqb c dquote = false /\ Ascii.eqb c "{" = false /\ Ascii.eqb c "[" = false
  /\ Ascii.eqb c newline = false.
Proof.
  destruct c as [[] [] [] [] [] [] [] []]; cbn; intros H; try discriminate; repeat split.
Qed.

Lemma number_chars_no_newline s :
  str_forallb is_number_char s = true -> no_newline s = true.
Proof.
  apply str_forallb_impl. intros c Hc.
  destruct (number_char_not_struct c Hc) as (_ & _ & _ & ->). reflexivity.
Qed.

(** A number token is read back as the value it converts to. *)
Lemma number_token_reads_back tok v :
  str_forallb is_number_char tok = true ->
  json_number tok = Ok v ->
  json_dumps v = tok ->
  reads_back v.
Proof.
  intros Hchars Hnum Hdumps.
  assert (Hne : tok <> "") by (intros ->; discriminate Hnum).
  unfold reads_back. rewrite Hdumps.
  destruct tok as [|c s] eqn:Htok; [contradiction|]. rewrite <- Htok in *.
  assert (Hc : is_number_char c = true).
  { rewrite Htok, str_forallb_cons, andb_true_iff in Hchars. apply Hchars. }
  refine (conj _ (conj _ _)).
  - exists c, s. split; [exact Htok | apply number_char_not_json_ws; exact Hc].
  - apply number_chars_no_newline. exact Hchars.
  - intros fuel rest Hfuel Hrest.
    destruct fuel as [|fuel]; [rewrite Htok in Hfuel; cbn in Hfuel; lia|].
    pose proof (parse_atom_number tok rest Hne Hchars Hrest) as Hatom.
    rewrite Htok in *. cbn [append]. rewrite parse_value_S.
    destruct (number_char_not_struct c Hc) as (-> & -> & -> & _).
    cbn [append] in Hatom. rewrite Hatom, Hnum. reflexivity.
Qed.

Lemma prefix_app p rest : String.prefix p (p ++ rest) = true.
Proof.
  induction p as [|a p IH]; [destruct rest; reflexivity|].
  cbn [append String.prefix]. destruct (ascii_dec a a); [exact IH | contradiction].
Qed.

Lemma parse_infinity fuel s rest :
  parse_value (S fuel) (json_float (S754_infinity s) ++ rest)
  = Ok (PFloat (S754_infinity s), rest).
Proof.
  destruct s; cbn [json_float].
  - change ("-Infinity" ++ rest) with (String "-" ("Infinity" ++ rest)).
    rewrite parse_value_S. cbn [Ascii.eqb dquote Bool.eqb]. unfold parse_atom.
    rewrite !prefix_head_neq by discriminate.
    change (String "-" ("Infinity" ++ rest)) with ("-Infinity" ++ rest).
    rewrite prefix_app. reflexivity.
  - change ("Infinity" ++ rest) with (String "I" ("nfinity" ++ rest)).
    rewrite parse_value_S. cbn [Ascii.eqb dquote Bool.eqb]. unfold parse_atom.
    rewrite !prefix_head_neq by discriminate.
    change (String "I" ("nfinity" ++ rest)) with ("Infinity" ++ rest).
    rewrite prefix_app. reflexivity.
Qed.

Lemma int_reads_back z : int_in_limit z = true -> reads_back (PInt z).
Proof.
  intros Hlim. apply (number_token_reads_back (str_of_int z)).
  - apply str_of_int_number_chars.
  - apply json_number_int. exact Hlim.
  - reflexivity.
Qed.

Lemma str_reads_back s : reads_back (PStr s).
Proof.
  unfold reads_back. change (json_dumps (PStr s)) with (json_string s).
  refine (conj _ (conj _ _)).
  - unfold json_string. eexists. eexists. split; reflexivity.
  - apply json_string_no_newline.
  - intros fuel rest Hfuel _.
    destruct fuel as [|fuel]; [unfold json_string in Hfuel; cbn in Hfuel; lia|].
    rewrite json_string_unfold, parse_value_S. cbn [Ascii.eqb dquote Bool.eqb].
    rewrite scan_json_escape. reflexivity.
Qed.

(** The literal names of JSON. *)
Lemma name_reads_back v name :
  json_dumps v = name ->
  no_newline name = true ->
  (exists c s, name = String c s /\ is_json_ws c = false
               /\ Ascii.eqb c dquote = false /\ Ascii.eqb c "{" = false
               /\ Ascii.eqb c "[" = false) ->
  (forall rest, parse_atom (name ++ rest) = Ok (v, rest)) ->
  reads_back v.
Proof.
  intros Hdumps Hnl (c & s & Hname & Hws & Hq & Hb & Hk) Hatom.
  unfold reads_back. rewrite Hdumps. refine (conj _ (conj Hnl _)).
  - exists c, s. split; assumption.
  - intros [|fuel] rest Hfuel _; [rewrite Hname in Hfuel; cbn in Hfuel; lia|].
    specialize (Hatom rest). rewrite Hname in *. cbn [append] in *.
    rewrite parse_value_S, Hq, Hb, Hk. exact Hatom.
Qed.

Lemma none_reads_back : reads_back PNone.
Proof.
  apply (name_reads_back PNone "null"); try reflexivity.
  - eexists. eexists. repeat split.
  - intros rest. unfold parse_atom. change ("null" ++ rest) with ("null" ++ rest).
    rewrite prefix_app. reflexivity.
Qed.

Lemma bool_reads_back b : reads_back (PBool b).
Proof.
  destruct b.
  - apply (name_reads_back (PBool true) "true"); try reflexivity.
    + eexists. eexists. repeat split.
    + intros rest. unfold parse_atom.
      change ("true" ++ rest) with (String "t" ("rue" ++ rest)).
      rewrite !prefix_head_neq by discriminate.
      change (String "t" ("rue" ++ rest)) with ("true" ++ rest).
      rewrite prefix_app. reflexivity.
  - apply (name_reads_back (PBool false) "false"); try reflexivity.
    + eexists. eexists. repeat split.
    + intros rest. unfold parse_atom.
      change ("false" ++ rest) with (String "f" ("alse" ++ rest)).
      rewrite !prefix_head_neq by discriminate.
      change (String "f" ("alse" ++ rest)) with ("false" ++ rest).
      rewrite prefix_app. reflexivity.
Qed.

Lemma nan_reads_back : reads_back (PFloat S754_nan).
Proof.
  apply (name_reads_back (PFloat S754_nan) "NaN"); try reflexivity.
  - eexists. eexists. repeat split.
  - intros rest. unfold parse_atom.
    change ("NaN" ++ rest) with (String "N" ("aN" ++ rest)).
    rewrite !prefix_head_neq by discriminate.
    change (String "N" ("aN" ++ rest)) with ("NaN" ++ rest).
    rewrite prefix_app. reflexivity.
Qed.

(** Every float of the format is written by [json.dumps] as a text that
    [json.loads] reads as the same float. *)
Lemma float64_reads_back f : is_float64 f = true -> reads_back (PFloat f).
Proof.
  intros Hv. pose proof (float_repr_reads f Hv) as Hrepr.
  destruct f as [s|s| |s m e].
  - destruct Hrepr as (_ & _ & Hnum & Hchars).
    apply (number_token_reads_back (float_repr (S754_zero s))); [exact Hchars | exact Hnum|].
    reflexivity.
  - unfold reads_back. change (json_dumps (PFloat (S754_infinity s)))
      with (json_float (S754_infinity s)).
    refine (conj _ (conj _ _)).
    + destruct s; eexists; eexists; split; reflexivity.
    + destruct s; reflexivity.
    + intros [|fuel] rest Hfuel _; [destruct s; cbn in Hfuel; lia|].
      apply parse_infinity.
  - exact nan_reads_back.
  - destruct Hrepr as (_ & _ & Hnum & Hchars).
    apply (number_token_reads_back (float_repr (S754_finite s m e)));
      [exact Hchars | exact Hnum|].
    reflexivity.
Qed.

Lemma scalar_reads_back v : json_scalar v = true -> reads_back v.
Proof.
  destruct v; cbn [json_scalar]; try discriminate; intros H.
  - exact none_reads_back.
  - apply bool_reads_back.
  - apply int_reads_back. exact H.
  - apply float64_reads_back. exact H.
  - apply str_reads_back.
Qed.

(** *** Objects *)

Lemma dict_mem_In {A : Type} k (d : list (string * A)) :
  dict_mem k d = false -> ~ In k (map fst d).
Proof.
  unfold dict_mem. induction d as [|[k' v'] d IH]; intros H Hin; [contradiction|].
  cbn [assoc] in H. cbn [map fst In] in Hin.
  destruct (String.eqb_spec k' k) as [Heq | Hne]; [discriminate|].
  destruct Hin as [Heq | Hin]; [contradiction | exact (IH H Hin)].
Qed.

Lemma unique_keys_NoDup {A : Type} (d : list (string * A)) :
  unique_keys d = true -> NoDup (map fst d).
Proof.
  induction d as [|[k v] d IH]; intros H; [constructor|].
  cbn [unique_keys] in H. apply andb_true_iff in H. destruct H as [Hk Hd].
  cbn [map fst]. constructor; [|exact (IH Hd)].
  apply dict_mem_In. apply negb_true_iff. exact Hk.
Qed.

Lemma NoDup_unique_keys {A : Type} (d : list (string * A)) :
  NoDup (map fst d) -> unique_keys d = true.
Proof.
  induction d as [|[k v] d IH]; intros H; [reflexivity|].
  cbn [map fst] in H. inversion H as [|? ? Hnotin Hnd]; subst.
  cbn [unique_keys]. rewrite (IH Hnd), andb_true_r. apply negb_true_iff.
  unfold dict_mem. rewrite (assoc_None d k Hnotin). reflexivity.
Qed.

Lemma dict_update_fresh {A : Type} (items : list (string * A)) :
  forall acc,
    NoDup (map fst (acc ++ items)%list) -> dict_update acc items = (acc ++ items)%list.
Proof.
  unfold dict_update. induction items as [|[k v] items IH]; intros acc Hnd.
  - cbn. rewrite app_nil_r. reflexivity.
  - cbn [fold_left fst snd].
    assert (Hfresh : ~ In k (map fst acc)).
    { rewrite map_app in Hnd. cbn [map fst] in Hnd.
      apply NoDup_remove_2 in Hnd. intros Hk. apply Hnd. apply in_or_app. left. exact Hk. }
    rewrite (dict_set_fresh acc k v Hfresh), IH.
    + rewrite <- app_assoc. reflexivity.
    + rewrite <- app_assoc. exact Hnd.
Qed.

(** [dict(pairs)] of pairs with distinct keys is the list of the pairs. *)
Lemma dict_of_pairs_unique {A : Type} (d : list (string * A)) :
  unique_keys d = true -> dict_of_pairs d = d.
Proof.
  intros H. unfold dict_of_pairs. rewrite dict_update_fresh; [reflexivity|].
  apply unique_keys_NoDup. exact H.
Qed.

Lemma json_dumps_dict d : json_dumps (PDict d) = String "{" (json_items d ++ "}").
Proof.
  reflexivity.
Qed.

Lemma json_items_cons k v items :
  json_items ((k, v) :: items) = String dquote (members_text k v items).
Proof.
  unfold members_text. cbn [json_items].
  destruct items as [|kv items]; rewrite json_string_unfold;
    [rewrite (append_nil_r (json_dumps v))|]; reflexivity.
Qed.

Lemma length_members_text k v items :
  String.length (members_text k v items)
  = (String.length (json_escape k) + 3 + String.length (json_dumps v)
     + match items with
       | [] => 0
       | _ => 2 + String.length (json_items items)
       end)%nat.
Proof.
  unfold members_text. rewrite length_append. cbn [String.length append].
  rewrite length_append. destruct items; cbn [String.length append]; lia.
Qed.

Lemma no_newline_cons c s :
  no_newline (String c s) = negb (Ascii.eqb c newline) && no_newline s.
Proof. reflexivity. Qed.

Lemma json_items_no_newline d :
  Forall (fun kv => reads_back (snd kv)) d -> no_newline (json_items d) = true.
Proof.
  induction d as [|[k v] d IH]; intros Hall; [reflexivity|].
  inversion Hall as [|? ? Hv Hd]; subst. cbn [snd] in Hv.
  destruct Hv as (_ & Hnl & _). specialize (IH Hd).
  cbn [json_items]. destruct d as [|kv d].
  - rewrite !no_newline_app, json_string_no_newline, Hnl. reflexivity.
  - rewrite !no_newline_app, json_string_no_newline, Hnl, IH. reflexivity.
Qed.

Lemma skip_ws_head c s : is_json_ws c = false -> skip_ws (String c s) = String c s.
Proof. intros H. cbn [skip_ws]. rewrite H. reflexivity. Qed.

Lemma skip_ws_space s : skip_ws (String " " s) = skip_ws s.
Proof. reflexivity. Qed.

(** One member: the key, the colon, the value. *)
Lemma parse_member k v tail fuel pairs :
  reads_back v ->
  (String.length (json_dumps v) <= fuel)%nat ->
  json_delim tail = true ->
  parse_members (S fuel)
    (json_escape k ++ String dquote (String ":" (String " " (json_dumps v ++ tail)))) pairs
  = match skip_ws tail with
    | String c2 rest =>
        if Ascii.eqb c2 "}" then Ok (PDict (dict_of_pairs (pairs ++ [(k, v)])%list), rest)
        else if Ascii.eqb c2 "," then
          match skip_ws rest with
          | String c3 rest' =>
              if Ascii.eqb c3 dquote
              then parse_members fuel rest' (pairs ++ [(k, v)])%list
              else Raise ValueError
          | EmptyString => Raise ValueError
          end
        else Raise ValueError
    | EmptyString => Raise ValueError
    end.
Proof.
  intros ((c & s & Hhead & Hws) & _ & Hparse) Hfuel Htail.
  rewrite parse_members_S, scan_json_escape. cbn [bind].
  rewrite (skip_ws_head ":") by reflexivity. cbn [Ascii.eqb Bool.eqb].
  assert (Hskip : skip_ws (String " " (json_dumps v ++ tail)) = json_dumps v ++ tail).
  { rewrite skip_ws_space, Hhead. cbn [append]. apply skip_ws_head. exact Hws. }
  rewrite Hskip, (Hparse fuel tail Hfuel Htail). reflexivity.
Qed.

(** The members of an object are read back, in order. *)
Lemma parse_members_items items :
  forall k v pairs fuel rest,
    Forall (fun kv => reads_back (snd kv)) ((k, v) :: items) ->
    (String.length (members_text k v items) <= fuel)%nat ->
    parse_members fuel (members_text k v items ++ String "}" rest) pairs
    = Ok (PDict (dict_of_pairs (pairs ++ (k, v) :: items)%list), rest).
Proof.
  induction items as [|[k2 v2] items IH]; intros k v pairs fuel rest Hall Hfuel;
    inversion Hall as [|? ? Hv Hitems]; subst; cbn [snd] in Hv;
    rewrite length_members_text in Hfuel;
    (destruct fuel as [|fuel]; [lia|]);
    unfold members_text; rewrite append_assoc; cbn [append]; rewrite append_assoc.
  - cbn [append]. rewrite (parse_member k v (String "}" rest) fuel pairs Hv)
      by (first [lia | reflexivity]).
    rewrite (skip_ws_head "}") by reflexivity. reflexivity.
  - rewrite json_items_cons. cbn [append].
    rewrite (parse_member k v _ fuel pairs Hv) by (first [lia | reflexivity]).
    rewrite (skip_ws_head ",") by reflexivity. cbn [Ascii.eqb Bool.eqb].
    rewrite skip_ws_space, (skip_ws_head dquote) by reflexivity.
    change (Ascii.eqb dquote dquote) with true. cbv iota.
    rewrite IH.
    + rewrite <- app_assoc. reflexivity.
    + exact Hitems.
    + rewrite json_items_cons in Hfuel. cbn [String.length] in Hfuel. lia.
Qed.

(** An object whose keys are distinct and whose values are read back is
    read back. *)
Lemma dict_reads_back d :
  unique_keys d = true ->
  Forall (fun kv => reads_back (snd kv)) d ->
  reads_back (PDict d).
Proof.
  intros Hkeys Hall. unfold reads_back. rewrite json_dumps_dict.
  refine (conj _ (conj _ _)).
  - eexists. eexists. split; reflexivity.
  - rewrite no_newline_cons, no_newline_app, (json_items_no_newline d Hall). reflexivity.
  - intros fuel rest Hfuel _. cbn [String.length] in Hfuel. rewrite length_append in Hfuel.
    destruct fuel as [|fuel]; [lia|].
    cbn [append]. rewrite parse_value_S.
    change (Ascii.eqb "{" dquote) with false. change (Ascii.eqb "{" "{") with true.
    cbv iota. rewrite append_assoc. destruct d as [|[k v] items].
    + cbn [json_items append]. rewrite (skip_ws_head "}") by reflexivity.
      cbn [Ascii.eqb Bool.eqb]. reflexivity.
    + rewrite json_items_cons. cbn [append].
      rewrite (skip_ws_head dquote) by reflexivity.
      change (Ascii.eqb dquote "}") with false. change (Ascii.eqb dquote dquote) with true.
      cbv iota.
      rewrite (parse_members_items items k v [] fuel rest Hall).
      * cbn [List.app]. rewrite (dict_of_pairs_unique _ Hkeys). reflexivity.
      * rewrite json_items_cons in Hfuel. cbn [String.length] in Hfuel. lia.
Qed.

(** ** Writing a store and reading it back *)

Lemma forallb_Forall_reads_back (q : pyval -> bool) (d : pydict) :
  (forall v, q v = true -> reads_back v) ->
  forallb (fun kv => q (snd kv)) d = true ->
  Forall (fun kv => reads_back (snd kv)) d.
Proof.
  intros Hq H. apply Forall_forall. intros kv Hin.
  rewrite forallb_forall in H. apply Hq. apply H. exact Hin.
Qed.

Lemma group_reads_back v : group_of json_scalar v = true -> reads_back v.
Proof.
  destruct v as [| | | | | |g]; cbn [group_of]; try discriminate.
  rewrite andb_true_iff. intros [Hkeys Hvals].
  apply dict_reads_back; [exact Hkeys|].
  apply (forallb_Forall_reads_back json_scalar); [exact scalar_reads_back | exact Hvals].
Qed.

Lemma store_reads_back config :
  store_of json_scalar config = true -> reads_back (PDict config).
Proof.
  unfold store_of. rewrite andb_true_iff. intros [Hkeys Hvals].
  apply dict_reads_back; [exact Hkeys|].
  apply (forallb_Forall_reads_back (group_of json_scalar));
    [exact group_reads_back | exact Hvals].
Qed.

(** [json.loads(json.dumps(config) + newline)] is [config]. *)
Lemma json_loads_dumps config :
  store_of json_scalar config = true ->
  json_loads (json_dumps (PDict config) ++ String newline "") = Ok (PDict config).
Proof.
  intros Hok. destruct (store_reads_back config Hok) as (_ & _ & Hparse).
  unfold json_loads.
  assert (Hskip : skip_ws (json_dumps (PDict config) ++ String newline "")
                  = json_dumps (PDict config) ++ String newline "").
  { rewrite json_dumps_dict. cbn [append]. apply skip_ws_head. reflexivity. }
  rewrite Hskip, Hparse; [reflexivity | | reflexivity].
  rewrite length_append. lia.
Qed.

Lemma readlines_single s :
  s <> "" -> no_newline s = true ->
  readlines (s ++ String newline "") = [s ++ String newline ""].
Proof.
  induction s as [|c s IH]; intros Hne Hnl; [contradiction|].
  rewrite no_newline_cons, andb_true_iff in Hnl. destruct Hnl as [Hc Hs].
  apply negb_true_iff in Hc. cbn [append readlines].
  change "010"%char with newline. rewrite Hc.
  destruct s as [|c2 s].
  - reflexivity.
  - rewrite IH by (first [discriminate | exact Hs]). reflexivity.
Qed.

Lemma read_json_items_fresh items :
  forall acc,
    NoDup (map fst (acc ++ items)%list) ->
    read_json_items acc items = Ok (acc ++ items)%list.
Proof.
  induction items as [|[k v] items IH]; intros acc Hnd.
  - cbn. rewrite app_nil_r. reflexivity.
  - cbn [read_json_items add_group add_group_items].
    assert (Hfresh : ~ In k (map fst acc)).
    { rewrite map_app in Hnd. cbn [map fst] in Hnd.
      apply NoDup_remove_2 in Hnd. intros Hk. apply Hnd. apply in_or_app. left. exact Hk. }
    unfold add_group_item. rewrite (assoc_None acc k Hfresh). cbn [bind].
    rewrite (dict_set_fresh acc k v Hfresh), IH.
    + rewrite <- app_assoc. reflexivity.
    + rewrite <- app_assoc. exact Hnd.
Qed.

(** The file written for a store is one line, is taken for JSON and is
    read back as the store. *)
Lemma read_write config :
  store_of json_scalar config = true -> read [] (write config) = Ok config.
Proof.
  intros Hok. pose proof (json_loads_dumps config Hok) as Hloads.
  destruct (store_reads_back config Hok) as ((c & s & Hhead & _) & Hnl & _).
  unfold read, write. change (chr 10) with newline.
  rewrite readlines_single by (first [exact Hnl | rewrite Hhead; discriminate]).
  assert (Hc : c = "{"%char).
  { rewrite json_dumps_dict in Hhead. injection Hhead as <- _. reflexivity. }
  subst c. rewrite Hhead at 1. cbn [append]. change (Ascii.eqb "{" "{") with true.
  cbn [negb]. cbv iota. cbn [str_join]. rewrite Hloads. cbn [bind].
  apply (read_json_items_fresh config []). cbn [List.app].
  apply unique_keys_NoDup. unfold store_of in Hok. apply andb_true_iff in Hok. apply Hok.
Qed.

(** The scalars of the round trip are scalars that JSON carries. *)
Lemma round_trip_scalar_json v : round_trip_scalar v = true -> json_scalar v = true.
Proof.
  destruct v; cbn [round_trip_scalar json_scalar]; try discriminate; try (intros H; exact H).
  rewrite andb_true_iff. intros [H _]. exact H.
Qed.

Lemma forallb_impl {A : Type} (p q : A -> bool) l :
  (forall x, p x = true -> q x = true) -> forallb p l = true -> forallb q l = true.
Proof.
  intros Hpq. rewrite !forallb_forall. intros H x Hin. apply Hpq. apply H. exact Hin.
Qed.

Lemma group_of_impl (p q : pyval -> bool) v :
  (forall x, p x = true -> q x = true) -> group_of p v = true -> group_of q v = true.
Proof.
  intros Hpq. destruct v as [| | | | | |g]; cbn [group_of]; try discriminate.
  rewrite !andb_true_iff. intros [Hk Hv]. split; [exact Hk|].
  apply (forallb_impl (fun kv => p (snd kv))); [|exact Hv]. intros kv. apply Hpq.
Qed.

Lemma store_of_impl (p q : pyval -> bool) config :
  (forall x, p x = true -> q x = true) -> store_of p config = true -> store_of q config = true.
Proof.
  intros Hpq. unfold store_of. rewrite !andb_true_iff. intros [Hk Hv]. split; [exact Hk|].
  apply (forallb_impl (fun kv => group_of p (snd kv))); [|exact Hv].
  intros kv. apply group_of_impl. exact Hpq.
Qed.

(** *** Python equality of a store with itself *)

Lemma float_eq_refl f : is_nan f = false -> float_eq f f = true.
Proof.
  unfold float_eq, SFeqb, SFcompare. destruct f as [s|s| |s m e]; try discriminate; intros _.
  - reflexivity.
  - destruct s; reflexivity.
  - destruct s; rewrite Z.compare_refl, Pos.compare_cont_refl; reflexivity.
Qed.

Lemma scalar_eq_refl v : round_trip_scalar v = true -> py_eq v v = true.
Proof.
  destruct v; cbn [round_trip_scalar py_eq]; try discriminate; intros H.
  - apply Z.eqb_refl.
  - apply float_eq_refl. apply andb_true_iff in H. destruct H as [_ H].
    apply negb_true_iff in H. exact H.
  - apply String.eqb_refl.
Qed.

Lemma dict_eq_refl (q : pyval -> bool) (d : pydict) :
  (forall v, q v = true -> py_eq v v = true) ->
  unique_keys d = true ->
  forallb (fun kv => q (snd kv)) d = true ->
  py_eq (PDict d) (PDict d) = true.
Proof.
  intros Hq Hkeys Hvals. cbn [py_eq]. rewrite Nat.eqb_refl. cbn [andb].
  apply unique_keys_NoDup in Hkeys.
  assert (Hgo : forall items,
             (forall kv, In kv items -> In kv d) ->
             (fix go (d0 : list (string * pyval)) : bool :=
                match d0 with
                | [] => true
                | (k, v) :: r =>
                    match assoc k d with
                    | Some v' => py_eq v v'
                    | None => false
                    end && go r
                end) items = true).
  { induction items as [|[k v] items IH]; intros Hsub; [reflexivity|].
    rewrite (assoc_In d k v Hkeys (Hsub _ (or_introl eq_refl))).
    rewrite Hq.
    - apply IH. intros kv Hin. apply Hsub. right. exact Hin.
    - rewrite forallb_forall in Hvals.
      apply (Hvals (k, v)). apply Hsub. left. reflexivity. }
  apply Hgo. auto.
Qed.

Lemma group_eq_refl v : group_of round_trip_scalar v = true -> py_eq v v = true.
Proof.
  destruct v as [| | | | | |g]; cbn [group_of]; try discriminate.
  rewrite andb_true_iff. intros [Hkeys Hvals].
  apply (dict_eq_refl round_trip_scalar); [exact scalar_eq_refl | exact Hkeys | exact Hvals].
Qed.

Lemma store_eq_refl config :
  store_of round_trip_scalar config = true -> py_eq (PDict config) (PDict config) = true.
Proof.
  unfold store_of. rewrite andb_true_iff. intros [Hkeys Hvals].
  apply (dict_eq_refl (group_of round_trip_scalar));
    [exact group_eq_refl | exact Hkeys | exact Hvals].
Qed.




(** C2 as stated fails as well for an integer of more than 4300
    digits: [int()] does not read it, so the file is not read back. *)
Lemma long_int_store_is_not_read_back :
  read [] (write long_int_config) = Raise ValueError.
Proof. vm_compute. reflexivity. Qed.

(** *** Stores built by [add_group] *)

Lemma assoc_dict_set {A : Type} k k' (v : A) d :
  assoc k' (dict_set k v d) = if String.eqb k k' then Some v else assoc k' d.
Proof.
  induction d as [|[k2 v2] d IH]; cbn [dict_set assoc].
  - reflexivity.
  - destruct (String.eqb_spec k2 k) as [-> | Hne]; cbn [assoc].
    + destruct (String.eqb k k'); reflexivity.
    + rewrite IH. destruct (String.eqb_spec k2 k') as [-> | Hne2]; [|reflexivity].
      destruct (String.eqb_spec k k') as [-> | _]; [contradiction | reflexivity].
Qed.

Lemma dict_mem_dict_set {A : Type} k k' (v : A) d :
  dict_mem k' (dict_set k v d) = String.eqb k k' || dict_mem k' d.
Proof.
  unfold dict_mem. rewrite assoc_dict_set. destruct (String.eqb k k'); reflexivity.
Qed.

Lemma unique_keys_dict_set {A : Type} k (v : A) d :
  unique_keys d = true -> unique_keys (dict_set k v d) = true.
Proof.
  induction d as [|[k2 v2] d IH]; intros H; [reflexivity|].
  cbn [unique_keys] in H. apply andb_true_iff in H. destruct H as [Hk Hd].
  cbn [dict_set]. destruct (String.eqb_spec k2 k) as [-> | Hne]; cbn [unique_keys].
  - rewrite Hk, Hd. reflexivity.
  - rewrite (IH Hd), dict_mem_dict_set, andb_true_r.
    apply negb_true_iff in Hk. rewrite Hk, orb_false_r.
    apply negb_true_iff. apply String.eqb_neq. intros ->. contradiction.
Qed.

Lemma forallb_dict_set (q : pyval -> bool) k v (d : pydict) :
  q v = true ->
  forallb (fun kv => q (snd kv)) d = true ->
  forallb (fun kv => q (snd kv)) (dict_set k v d) = true.
Proof.
  intros Hv. induction d as [|[k2 v2] d IH]; intros H.
  - cbn. rewrite Hv. reflexivity.
  - cbn [forallb snd] in H. apply andb_true_iff in H. destruct H as [H2 Hd].
    cbn [dict_set]. destruct (String.eqb k2 k); cbn [forallb snd].
    + rewrite Hv, Hd. reflexivity.
    + rewrite H2, (IH Hd). reflexivity.
Qed.

Lemma dict_update_ok (q : pyval -> bool) (items : pydict) :
  forall d : pydict,
    unique_keys d = true -> forallb (fun kv => q (snd kv)) d = true ->
    forallb (fun kv => q (snd kv)) items = true ->
    unique_keys (dict_update d items) = true
    /\ forallb (fun kv => q (snd kv)) (dict_update d items) = true.
Proof.
  unfold dict_update. induction items as [|[k v] items IH]; intros d Hkeys Hd Hitems.
  - split; assumption.
  - cbn [forallb snd] in Hitems. apply andb_true_iff in Hitems. destruct Hitems as [Hv Hitems].
    cbn [fold_left fst snd]. apply IH.
    + apply unique_keys_dict_set. exact Hkeys.
    + apply forallb_dict_set; assumption.
    + exact Hitems.
Qed.

Lemma assoc_forallb (q : pyval -> bool) k v (d : pydict) :
  forallb (fun kv => q (snd kv)) d = true -> assoc k d = Some v -> q v = true.
Proof.
  intros H Hget. rewrite forallb_forall in H.
  apply (H (k, v)). apply assoc_Some_In. exact Hget.
Qed.

Lemma add_group_items_ok (q : pyval -> bool) items :
  forall config,
    store_of q config = true ->
    forallb (fun kv => group_of q (snd kv)) items = true ->
    exists config', add_group_items config items = Ok config' /\ store_of q config' = true.
Proof.
  induction items as [|[k v] items IH]; intros config Hok Hitems.
  - exists config. split; [reflexivity | exact Hok].
  - cbn [forallb snd] in Hitems. apply andb_true_iff in Hitems. destruct Hitems as [Hv Hitems].
    unfold store_of in Hok. apply andb_true_iff in Hok. destruct Hok as [Hkeys Hvals].
    assert (Hstep : exists config1,
               add_group_item config k v = Ok config1 /\ store_of q config1 = true).
    { unfold add_group_item. destruct (assoc k config) as [cur|] eqn:Hcur.
      - pose proof (assoc_forallb (group_of q) k cur config Hvals Hcur) as Hcur_ok.
        destruct cur as [| | | | | |group]; try discriminate Hcur_ok.
        destruct v as [| | | | | |g2]; try discriminate Hv.
        cbn [py_dict_update bind]. eexists. split; [reflexivity|].
        cbn [group_of] in Hcur_ok, Hv.
        apply andb_true_iff in Hcur_ok. destruct Hcur_ok as [Hgk Hgv].
        apply andb_true_iff in Hv. destruct Hv as [_ Hg2v].
        destruct (dict_update_ok q g2 group Hgk Hgv Hg2v) as [Huk Huv].
        unfold store_of. rewrite (unique_keys_dict_set _ _ _ Hkeys). cbn [andb].
        apply (forallb_dict_set (group_of q)); [|exact Hvals].
        cbn [group_of]. rewrite Huk, Huv. reflexivity.
      - eexists. split; [reflexivity|].
        unfold store_of. rewrite (unique_keys_dict_set _ _ _ Hkeys). cbn [andb].
        apply (forallb_dict_set (group_of q)); assumption. }
    destruct Hstep as (config1 & Hstep & Hok1).
    destruct (IH config1 Hok1 Hitems) as (config' & Hrest & Hok').
    exists config'. split; [|exact Hok'].
    cbn [add_group_items]. rewrite Hstep. cbn [bind]. exact Hrest.
Qed.

(** [add_group] keeps a store in the shape of the round trip: merging
    groups of scalars into such a store succeeds and gives such a
    store, whatever keys repeat. *)
Lemma add_group_store_of (q : pyval -> bool) config groups :
  store_of q config = true ->
  forallb (fun kv => group_of q (snd kv)) groups = true ->
  exists config', add_group config (PDict groups) = Ok config' /\ store_of q config' = true.
Proof.
  intros Hok Hgroups. cbn [add_group]. apply add_group_items_ok; assumption.
Qed.

Lemma add_group_store_ok config groups :
  store_ok config = true ->
  forallb (fun kv => group_ok (snd kv)) groups = true ->
  exists config', add_group config (PDict groups) = Ok config' /\ store_ok config' = true.
Proof. exact (add_group_store_of scalar_ok config groups). Qed.

(** ** Splitting a line into fields *)

Lemma split_cons c s :
  split (String c s)
  = if is_space c then split s
    else if starts_with_space s then String c "" :: split s
    else match split s with
         | t :: ts => String c t :: ts
         | [] => [String c ""]
         end.
Proof. reflexivity. Qed.

Lemma split_nonempty s : starts_with_space s = false -> split s <> [].
Proof.
  destruct s as [|c s]; cbn [starts_with_space]; [discriminate|].
  intros Hc. cbn [split]. rewrite Hc.
  destruct (starts_with_space s); [discriminate|].
  destruct (split s); discriminate.
Qed.

(** A token followed by whitespace, or by nothing, is a field. *)
Lemma split_token tok rest :
  tok <> "" -> no_space tok = true -> starts_with_space rest = true ->
  split (tok ++ rest) = tok :: split rest.
Proof.
  intros Hne Htok Hrest. induction tok as [|c tok IH]; [contradiction|].
  rewrite no_space_cons, andb_true_iff in Htok. destruct Htok as [Hc Htok].
  apply negb_true_iff in Hc. cbn [append split]. rewrite Hc.
  destruct tok as [|c2 tok].
  - cbn [append]. rewrite Hrest. reflexivity.
  - assert (Hhead : starts_with_space (String c2 tok ++ rest) = false).
    { rewrite no_space_cons, andb_true_iff in Htok. destruct Htok as [Hc2 _].
      apply negb_true_iff in Hc2. exact Hc2. }
    rewrite Hhead, IH by (first [discriminate | exact Htok]). reflexivity.
Qed.

(** Whitespace separates the fields before it from those after it. *)
Lemma split_space_app a c b :
  is_space c = true -> split (a ++ String c b) = (split a ++ split b)%list.
Proof.
  intros Hc. induction a as [|x a IH].
  - cbn [append split]. rewrite Hc. reflexivity.
  - cbn [append split]. destruct (is_space x) eqn:Hx; [exact IH|].
    destruct a as [|y a].
    + cbn [append starts_with_space split]. rewrite Hc. reflexivity.
    + change (starts_with_space (String y a ++ String c b)) with (is_space y).
      change (starts_with_space (String y a)) with (is_space y).
      destruct (is_space y) eqn:Hy.
      * rewrite IH. reflexivity.
      * rewrite IH.
        pose proof (split_nonempty (String y a) Hy) as Hsplit.
        destruct (split (String y a)); [contradiction | reflexivity].
Qed.

Lemma split_lstrip s : split (lstrip s) = split s.
Proof.
  induction s as [|c s IH]; [reflexivity|].
  cbn [lstrip]. destruct (is_space c) eqn:Hc; [|reflexivity].
  rewrite IH. cbn [split]. rewrite Hc. reflexivity.
Qed.

Lemma rstrip_head c s r : rstrip s = String c r -> exists s', s = String c s'.
Proof.
  destruct s as [|x s]; cbn [rstrip]; [discriminate|].
  destruct (rstrip s); [destruct (is_space x); [discriminate|]|];
    intros H; injection H as -> _; eauto.
Qed.

Lemma split_rstrip s : split (rstrip s) = split s.
Proof.
  induction s as [|c s IH]; [reflexivity|].
  cbn [rstrip]. destruct (rstrip s) as [|a r] eqn:Hr.
  - cbn [split] in IH. destruct (is_space c) eqn:Hc.
    + cbn [split]. rewrite Hc. exact IH.
    + cbn [split starts_with_space]. rewrite Hc.
      destruct (starts_with_space s) eqn:Hs.
      * rewrite <- IH. reflexivity.
      * exfalso. apply (split_nonempty s Hs). symmetry. exact IH.
  - destruct (rstrip_head a s r Hr) as [s' ->].
    rewrite (split_cons c (String a r)), (split_cons c (String a s')).
    cbn [starts_with_space]. rewrite IH. reflexivity.
Qed.

(** [line.strip().split()] gives the fields of [line]. *)
Lemma split_strip s : split (strip s) = split s.
Proof. unfold strip. rewrite split_rstrip. apply split_lstrip. Qed.

Lemma split_newline : split (String newline "") = [].
Proof. reflexivity. Qed.

(** ** Templates *)

Lemma format_go_literal s args : brace_free s = true -> format_go FLit s args = Ok s.
Proof.
  unfold brace_free. induction s as [|c s IH]; [reflexivity|].
  rewrite str_forallb_cons, !andb_true_iff. intros [[Ho Hc] Hs].
  apply negb_true_iff in Ho. apply negb_true_iff in Hc.
  cbn [format_go]. rewrite Ho, Hc, (IH Hs). reflexivity.
Qed.

Lemma py_format_d_raw suffix z args :
  brace_free suffix = true ->
  py_format ("{:d}" ++ suffix) (PInt z :: args) = (s <- int_str z ;; Ok (s ++ suffix)).
Proof.
  intros Hs.
  assert (H : py_format ("{:d}" ++ suffix) (PInt z :: args)
              = (s <- int_str z ;; r <- format_go FLit suffix args ;; Ok (s ++ r))).
  { unfold py_format. cbn [append format_go Ascii.eqb Bool.eqb]. unfold render_field.
    cbn [parse_field str_rev_append].
    change (parse_spec "d")
      with (Ok {| fs_width := None; fs_prec := None; fs_type := Some "d"%char |}).
    cbn [bind]. unfold format_value. cbn [fs_type fs_prec fs_width rjust].
    destruct (int_str z); reflexivity. }
  rewrite H, (format_go_literal _ _ Hs). destruct (int_str z); reflexivity.
Qed.

Lemma py_format_d suffix z args :
  brace_free suffix = true -> int_in_limit z = true ->
  py_format ("{:d}" ++ suffix) (PInt z :: args) = Ok (str_of_int z ++ suffix).
Proof.
  intros Hs Hlim. rewrite (py_format_d_raw _ _ _ Hs). unfold int_str. rewrite Hlim. reflexivity.
Qed.

(** An integer that [{:d}] renders is within the limit of digits. *)
Lemma py_format_d_limit suffix z args out :
  brace_free suffix = true ->
  py_format ("{:d}" ++ suffix) (PInt z :: args) = Ok out -> int_in_limit z = true.
Proof.
  intros Hs. rewrite (py_format_d_raw _ _ _ Hs). unfold int_str.
  destruct (int_in_limit z); [reflexivity | discriminate].
Qed.

Lemma small_int_in_limit z : Z.abs z < 10 -> int_in_limit z = true.
Proof.
  intros Hz. unfold int_in_limit. apply Z.ltb_lt.
  assert (10 ^ 1 <= 10 ^ max_str_digits) by (apply Z.pow_le_mono_r; unfold max_str_digits; lia).
  change (10 ^ 1) with 10 in *. lia.
Qed.

Lemma py_format_f2 suffix f args :
  brace_free suffix = true ->
  py_format ("{:.2f}" ++ suffix) (PFloat f :: args) = Ok (format_fixed 2 f ++ suffix).
Proof.
  intros Hs.
  assert (H : py_format ("{:.2f}" ++ suffix) (PFloat f :: args)
              = (r <- format_go FLit suffix args ;; Ok (format_fixed 2 f ++ r)))
    by reflexivity.
  rewrite H, (format_go_literal _ _ Hs). reflexivity.
Qed.

Lemma py_format_f3 suffix f args :
  brace_free suffix = true ->
  py_format ("{:.3f}" ++ suffix) (PFloat f :: args) = Ok (format_fixed 3 f ++ suffix).
Proof.
  intros Hs.
  assert (H : py_format ("{:.3f}" ++ suffix) (PFloat f :: args)
              = (r <- format_go FLit suffix args ;; Ok (format_fixed 3 f ++ r)))
    by reflexivity.
  rewrite H, (format_go_literal _ _ Hs). reflexivity.
Qed.

Lemma py_format_f4 suffix f args :
  brace_free suffix = true ->
  py_format ("{:.4f}" ++ suffix) (PFloat f :: args) = Ok (format_fixed 4 f ++ suffix).
Proof.
  intros Hs.
  assert (H : py_format ("{:.4f}" ++ suffix) (PFloat f :: args)
              = (r <- format_go FLit suffix args ;; Ok (format_fixed 4 f ++ r)))
    by reflexivity.
  rewrite H, (format_go_literal _ _ Hs). reflexivity.
Qed.

Lemma py_format_any v :
  py_format "{}" [v] = (tok <- py_str v ;; Ok (tok ++ "")).
Proof.
  unfold py_format. cbn [format_go Ascii.eqb Bool.eqb]. unfold render_field.
  cbn [parse_field str_rev_append bind]. unfold format_value. cbn [fs_type fs_width fs_prec].
  destruct (py_str v); reflexivity.
Qed.

Lemma prefix_drop p s :
  String.prefix p s = true -> s = p ++ str_drop (String.length p) s.
Proof.
  revert s. induction p as [|a p IH]; intros s H; [reflexivity|].
  destruct s as [|b s]; [discriminate|]. cbn [String.prefix] in H.
  destruct (ascii_dec a b) as [<- |]; [|discriminate].
  cbn [String.length str_drop append]. f_equal. apply IH. exact H.
Qed.

Lemma classify_template units kind suffix :
  classify units = Some (kind, suffix) ->
  units = template_of kind suffix
  /\ match kind with
     | KFixed n => n = 2%nat \/ n = 3%nat \/ n = 4%nat
     | KAny => suffix = ""
     | KInt => True
     end.
Proof.
  unfold classify.
  destruct (String.prefix "{:d}" units) eqn:Hd.
  { intros H. injection H as <- <-. split; [|exact I]. apply (prefix_drop _ _ Hd). }
  destruct (String.prefix "{:.2f}" units) eqn:H2.
  { intros H. injection H as <- <-. split; [|tauto]. apply (prefix_drop _ _ H2). }
  destruct (String.prefix "{:.3f}" units) eqn:H3.
  { intros H. injection H as <- <-. split; [|tauto]. apply (prefix_drop _ _ H3). }
  destruct (String.prefix "{:.4f}" units) eqn:H4.
  { intros H. injection H as <- <-. split; [|tauto]. apply (prefix_drop _ _ H4). }
  destruct (String.eqb_spec units "{}") as [-> |]; [|discriminate].
  intros H. injection H as <- <-. split; reflexivity.
Qed.

(** A float in a template with decimals. *)
Lemma py_format_fixed n suffix f :
  n = 2%nat \/ n = 3%nat \/ n = 4%nat ->
  brace_free suffix = true ->
  py_format (template_of (KFixed n) suffix) [PFloat f] = Ok (format_fixed n f ++ suffix).
Proof.
  intros [-> | [-> | ->]] Hs; cbn [template_of].
  - apply py_format_f2. exact Hs.
  - apply py_format_f3. exact Hs.
  - apply py_format_f4. exact Hs.
Qed.

(** An integer in a template with decimals is rendered as the float it
    converts to. *)
Lemma py_format_fixed_int n suffix z f :
  n = 2%nat \/ n = 3%nat \/ n = 4%nat ->
  float_of_int z = Ok f ->
  py_format (template_of (KFixed n) suffix) [PInt z]
  = py_format (template_of (KFixed n) suffix) [PFloat f].
Proof.
  intros [-> | [-> | ->]] Hf; cbn [template_of];
    unfold py_format; cbn [append format_go Ascii.eqb Bool.eqb];
    unfold render_field; cbn [str_rev_append];
    match goal with
    | |- context [parse_field ?s] =>
        let r := eval vm_compute in (parse_field s) in
        change (parse_field s) with r
    end;
    cbn [bind]; unfold format_value; cbn [fs_type fs_prec fs_width];
    rewrite Hf; reflexivity.
Qed.

(** ** A float printed with a fixed number of decimals, and read back *)

Lemma pow2_emin : 2 ^ (- emin) = 2 ^ 1074.
Proof. reflexivity. Qed.

Lemma nearest_multiple x y m t :
  0 < y -> 2 * Z.abs (x - m * y) <= y -> Z.abs (m * y - x) <= Z.abs (t * y - x).
Proof.
  intros Hy Hm. destruct (Z.lt_trichotomy t m) as [Hlt | [-> | Hgt]]; [|lia|].
  - assert (H : 1 * y <= (m - t) * y) by (apply Z.mul_le_mono_nonneg_r; lia). lia.
  - assert (H : 1 * y <= (t - m) * y) by (apply Z.mul_le_mono_nonneg_r; lia). lia.
Qed.

(** The mantissa rounded for [a / b] is the nearest float: no float is
    nearer to [a / b]. *)
Lemma round_nearest a b g :
  0 < a -> 0 < b -> is_float64 g = true ->
  let e := float_exp a b in
  let m := round_mantissa a b e in
  Z.abs (m * 2 ^ (e - emin) * b - a * 2 ^ (- emin))
  <= Z.abs (float_units g * b - a * 2 ^ (- emin)).
Proof.
  intros Ha Hb Hg e m.
  destruct (mantissa_bounds a b Ha Hb) as (He & Hd & Hn & Hhi & Hlo).
  fold e in He, Hd, Hn, Hhi, Hlo.
  assert (Hm : m = div_round_even (a * 2 ^ Z.max (- e) 0) (b * 2 ^ Z.max e 0)) by reflexivity.
  assert (Hemin : emin = -1074) by reflexivity. assert (Hprec : prec = 53) by reflexivity.
  clearbody m e.
  set (c := 2 ^ (- emin + Z.min e 0)).
  assert (Hc : 0 < c) by (apply Z.pow_pos_nonneg; lia).
  assert (Hnc : a * 2 ^ Z.max (- e) 0 * c = a * 2 ^ (- emin)).
  { unfold c. rewrite <- Z.mul_assoc, <- Z.pow_add_r by lia. f_equal. f_equal. lia. }
  assert (Hdc : b * 2 ^ Z.max e 0 * c = b * 2 ^ (e - emin)).
  { unfold c. rewrite <- Z.mul_assoc, <- Z.pow_add_r by lia. f_equal. f_equal. lia. }
  assert (HG : 0 < 2 ^ (e - emin)) by (apply Z.pow_pos_nonneg; lia).
  rewrite <- (div_round_even_scale _ _ c Hd Hc), Hnc, Hdc in Hm.
  assert (HbG : 0 < b * 2 ^ (e - emin)) by (apply Z.mul_pos_pos; assumption).
  pose proof (div_round_even_near (a * 2 ^ (- emin)) (b * 2 ^ (e - emin)) HbG) as Hnear.
  rewrite <- Hm in Hnear.
  set (X := a * 2 ^ (- emin)) in *. set (G := 2 ^ (e - emin)) in *.
  assert (Hmult : forall t, Z.abs (m * G * b - X) <= Z.abs (t * G * b - X)).
  { intros t. replace (m * G * b) with (m * (b * G)) by ring.
    replace (t * G * b) with (t * (b * G)) by ring.
    apply nearest_multiple; [exact HbG | exact Hnear]. }
  destruct g as [s|s| |s mg eg]; cbn [float_units];
    try (specialize (Hmult 0); rewrite !Z.mul_0_l in Hmult; rewrite Z.mul_0_l; exact Hmult).
  unfold is_float64 in Hg.
  rewrite !andb_true_iff, orb_true_iff, !Z.leb_le, Z.ltb_lt, Z.eqb_eq in Hg.
  destruct Hg as [[[Hmg Heg] Heg'] Hnorm].
  destruct (Z.le_gt_cases e eg) as [Hle | Hgt].
  - replace (2 ^ (eg - emin)) with (2 ^ (eg - e) * G)
      by (unfold G; rewrite <- Z.pow_add_r by lia; f_equal; lia).
    rewrite Z.mul_assoc. apply Hmult.
  - destruct Hlo as [Hlo | Hlo]; [lia|].
    assert (Hlow : 2 ^ (prec - 1) * (b * G) <= X).
    { rewrite <- Hnc, <- Hdc, Z.mul_assoc.
      apply Z.mul_le_mono_nonneg_r; [lia | exact Hlo]. }
    set (P := 2 ^ (eg - emin)).
    assert (HP : 0 < P) by (apply Z.pow_pos_nonneg; lia).
    assert (Hp : P * 2 <= G).
    { unfold G, P. replace (e - emin) with (eg - emin + (e - eg)) by lia.
      rewrite Z.pow_add_r by lia. apply Z.mul_le_mono_nonneg_l; [lia|].
      change 2 with (2 ^ 1) at 1. apply Z.pow_le_mono_r; lia. }
    assert (Hp2 : 2 ^ prec = 2 ^ (prec - 1) * 2) by (rewrite Hprec; reflexivity).
    assert (H52 : 0 < 2 ^ (prec - 1)) by (apply Z.pow_pos_nonneg; lia).
    assert (Hug : Z.pos mg * P < 2 ^ (prec - 1) * G).
    { apply (Z.lt_le_trans _ (2 ^ (prec - 1) * (P * 2))).
      - rewrite (Z.mul_comm P 2), Z.mul_assoc, <- Hp2.
        apply Z.mul_lt_mono_pos_r; [exact HP | exact Hmg].
      - apply Z.mul_le_mono_nonneg_l; [lia | exact Hp]. }
    assert (Hub : Z.pos mg * P * b < 2 ^ (prec - 1) * G * b)
      by (apply Z.mul_lt_mono_pos_r; [exact Hb | exact Hug]).
    specialize (Hmult (2 ^ (prec - 1))).
    replace (2 ^ (prec - 1) * (b * G)) with (2 ^ (prec - 1) * G * b) in Hlow by ring.
    lia.
Qed.

(** [{:.nf}] prints the magnitude of the float in units of [10^-n]. *)
Lemma format_fixed_units n f :
  is_float64 f = true -> is_finite_or_zero f = true ->
  format_fixed n f
  = sign_str (float_sign f) ++ fixed_digits n (fixed_scaled n (float_units f)).
Proof.
  intros Hv Hfin. destruct f as [s|s| |s m e]; try discriminate Hfin.
  - reflexivity.
  - unfold is_float64 in Hv.
    rewrite !andb_true_iff, orb_true_iff, !Z.leb_le, Z.ltb_lt, Z.eqb_eq in Hv.
    destruct Hv as [[[Hm He] He'] Hnorm].
    assert (Hemin : emin = -1074) by reflexivity.
    cbn [format_fixed float_sign float_units]. f_equal. f_equal. unfold fixed_scaled.
    assert (HU : 0 < 2 ^ (- emin)) by (apply Z.pow_pos_nonneg; lia).
    destruct (Z.leb_spec 0 e) as [Hpos | Hneg].
    + replace (Z.pos m * 2 ^ (e - emin) * 10 ^ Z.of_nat n)
        with (Z.pos m * 2 ^ e * 10 ^ Z.of_nat n * 2 ^ (- emin)).
      * symmetry. apply div_round_even_exact. exact HU.
      * replace (e - emin) with (e + - emin) by lia. rewrite Z.pow_add_r by lia. ring.
    + assert (Hc : 0 < 2 ^ (e - emin)) by (apply Z.pow_pos_nonneg; lia).
      assert (Hd : 0 < 2 ^ (- e)) by (apply Z.pow_pos_nonneg; lia).
      rewrite <- (div_round_even_scale (Z.pos m * 10 ^ Z.of_nat n) (2 ^ (- e))
                    (2 ^ (e - emin)) Hd Hc).
      f_equal; [ring|]. rewrite <- Z.pow_add_r by lia. f_equal. lia.
Qed.

Lemma fixed_scaled_nonneg n u : 0 <= u -> 0 <= fixed_scaled n u.
Proof.
  intros Hu. unfold fixed_scaled.
  assert (HU : 0 < 2 ^ (- emin)) by (apply Z.pow_pos_nonneg; unfold emin, emax, prec; lia).
  assert (Hp : 0 < 10 ^ Z.of_nat n) by (apply Z.pow_pos_nonneg; lia).
  pose proof (div_round_even_near (u * 10 ^ Z.of_nat n) (2 ^ (- emin)) HU) as Hnear.
  assert (0 <= u * 10 ^ Z.of_nat n) by (apply Z.mul_nonneg_nonneg; lia).
  destruct (Z.le_gt_cases 0 (div_round_even (u * 10 ^ Z.of_nat n) (2 ^ (- emin))))
    as [H0 | H0]; [exact H0|].
  exfalso.
  assert (div_round_even (u * 10 ^ Z.of_nat n) (2 ^ (- emin)) * 2 ^ (- emin)
          <= -1 * 2 ^ (- emin)) by (apply Z.mul_le_mono_nonneg_r; lia).
  lia.
Qed.

Lemma float_units_nonneg f : 0 <= float_units f.
Proof.
  destruct f as [s|s| |s m e]; cbn [float_units]; try lia.
Qed.

(** What [make_float] makes: infinity, or a float of the mantissa and
    exponent given. *)
Lemma make_float_units neg m e :
  emin <= e -> 0 <= m ->
  (exists s, make_float neg m e = S754_infinity s)
  \/ (is_finite_or_zero (make_float neg m e) = true
      /\ float_sign (make_float neg m e) = neg
      /\ float_units (make_float neg m e) = m * 2 ^ (e - emin)).
Proof.
  intros He Hm. unfold make_float. destruct m as [|p|p]; [right; repeat split | | lia].
  destruct (Z.eqb_spec (Z.pos p) (2 ^ prec)) as [Heq | Hne]; cbv zeta beta iota.
  - destruct (emax - prec <? e + 1); [left; eexists; reflexivity | right].
    repeat split. cbn [float_units]. rewrite Heq.
    change (Z.pos (Z.to_pos (2 ^ (prec - 1)))) with (2 ^ (prec - 1)).
    replace (e + 1 - emin) with (1 + (e - emin)) by lia.
    rewrite Z.pow_add_r by lia. change (2 ^ prec) with (2 ^ (prec - 1) * 2 ^ 1). ring.
  - destruct (emax - prec <? e); [left; eexists; reflexivity | right].
    repeat split.
Qed.

(** Infinity is made only of a magnitude of [2^emax] or more. *)
Lemma make_float_overflow neg m e s :
  emin <= e -> 0 <= m <= 2 ^ prec -> (e = emin \/ 2 ^ (prec - 1) <= m) ->
  make_float neg m e = S754_infinity s ->
  2 ^ (emax - emin) <= m * 2 ^ (e - emin).
Proof.
  intros He Hm Hnorm. unfold make_float. destruct m as [|p|p]; [discriminate | | lia].
  assert (Hemin : emin = -1074) by reflexivity. assert (Hprec : prec = 53) by reflexivity.
  assert (Hemax : emax = 1024) by reflexivity.
  destruct (Z.eqb_spec (Z.pos p) (2 ^ prec)) as [Heq | Hne]; cbv zeta beta iota.
  - destruct (Z.ltb_spec (emax - prec) (e + 1)) as [Hov | _]; [|discriminate]. intros _.
    rewrite Heq, <- Z.pow_add_r by lia. apply Z.pow_le_mono_r; lia.
  - destruct (Z.ltb_spec (emax - prec) e) as [Hov | _]; [|discriminate]. intros _.
    destruct Hnorm as [Hmin | Hbig]; [lia|].
    apply (Z.le_trans _ (2 ^ (prec - 1) * 2 ^ (e - emin))).
    + rewrite <- Z.pow_add_r by lia. apply Z.pow_le_mono_r; lia.
    + apply Z.mul_le_mono_nonneg_r; [apply Z.pow_nonneg; lia | exact Hbig].
Qed.

(** A float of the format is below [2^emax]. *)
Lemma float_units_bound f :
  is_float64 f = true -> float_units f + 2 ^ (emax - prec - emin) <= 2 ^ (emax - emin).
Proof.
  intros Hv.
  assert (Hemin : emin = -1074) by reflexivity. assert (Hprec : prec = 53) by reflexivity.
  assert (Hemax : emax = 1024) by reflexivity.
  assert (Hsplit : 2 ^ (emax - emin) = 2 ^ prec * 2 ^ (emax - prec - emin)).
  { rewrite <- Z.pow_add_r by lia. f_equal; lia. }
  assert (Hq : 0 < 2 ^ (emax - prec - emin)) by (apply Z.pow_pos_nonneg; lia).
  assert (Hp : 0 < 2 ^ prec) by (apply Z.pow_pos_nonneg; lia).
  destruct f as [s|s| |s m e]; cbn [float_units];
    try (rewrite Hsplit; assert (1 * 2 ^ (emax - prec - emin)
                                 <= 2 ^ prec * 2 ^ (emax - prec - emin))
           by (apply Z.mul_le_mono_nonneg_r; lia); lia).
  unfold is_float64 in Hv.
  rewrite !andb_true_iff, orb_true_iff, !Z.leb_le, Z.ltb_lt, Z.eqb_eq in Hv.
  destruct Hv as [[[Hm He] He'] Hnorm].
  assert (Hle : 2 ^ (e - emin) <= 2 ^ (emax - prec - emin)) by (apply Z.pow_le_mono_r; lia).
  assert (Hpe : 0 < 2 ^ (e - emin)) by (apply Z.pow_pos_nonneg; lia).
  rewrite Hsplit.
  assert (H1 : Z.pos m * 2 ^ (e - emin) <= (2 ^ prec - 1) * 2 ^ (e - emin))
    by (apply Z.mul_le_mono_nonneg_r; lia).
  assert (H2 : (2 ^ prec - 1) * 2 ^ (e - emin) <= (2 ^ prec - 1) * 2 ^ (emax - prec - emin))
    by (apply Z.mul_le_mono_nonneg_l; lia).
  lia.
Qed.

(** The float read from what [{:.nf}] printed is printed the same. *)
Lemma fixed_reread n f :
  is_float64 f = true -> is_finite_or_zero f = true ->
  format_fixed n (float_of_decimal (float_sign f) (fixed_scaled n (float_units f))
                                   (- Z.of_nat n))
  = format_fixed n f.
Proof.
  intros Hv Hfin. rewrite (format_fixed_units n f Hv Hfin).
  pose proof (float_units_nonneg f) as Hu.
  pose proof (fixed_scaled_nonneg n _ Hu) as HS.
  pose proof (float_units_bound f Hv) as Hbound.
  set (s := float_sign f) in *. set (u := float_units f) in *.
  assert (Hspec : 2 * Z.abs (u * 10 ^ Z.of_nat n - fixed_scaled n u * 2 ^ (- emin))
                  < 2 ^ (- emin)
                  \/ (2 * Z.abs (u * 10 ^ Z.of_nat n - fixed_scaled n u * 2 ^ (- emin))
                      = 2 ^ (- emin) /\ Z.even (fixed_scaled n u) = true)).
  { apply div_round_even_spec; [apply Z.pow_pos_nonneg; unfold emin, emax, prec; lia|].
    reflexivity. }
  set (S := fixed_scaled n u) in *.
  assert (Hemin : emin = -1074) by reflexivity. assert (Hprec : prec = 53) by reflexivity.
  assert (Hemax : emax = 1024) by reflexivity.
  assert (HU : 0 < 2 ^ (- emin)) by (apply Z.pow_pos_nonneg; lia).
  assert (Hb : 0 < 10 ^ Z.of_nat n) by (apply Z.pow_pos_nonneg; lia).
  rewrite float_of_decimal_ratio.
  rewrite (Z.max_r (- Z.of_nat n) 0), (Z.max_l (- - Z.of_nat n) 0) by lia.
  change (10 ^ 0) with 1. rewrite Z.mul_1_r, Z.opp_involutive.
  destruct (Z.eq_dec S 0) as [HS0 | HS0].
  - rewrite HS0. reflexivity.
  - assert (HSpos : 0 < S) by lia.
    rewrite (float_of_ratio_pos s S _ HSpos Hb).
    destruct (round_mantissa_bounds S _ HSpos Hb) as (He & Hm & Hnorm).
    pose proof (round_nearest S _ f HSpos Hb Hv) as Hnear. cbv zeta in Hnear.
    fold u in Hnear.
    set (e := float_exp S (10 ^ Z.of_nat n)) in *.
    set (m := round_mantissa S (10 ^ Z.of_nat n) e) in *.
    pose proof (make_float_valid s m e He Hm Hnorm) as Hvalid.
    destruct (make_float_units s m e He (proj1 Hm)) as [[s' Hinf] | (Hfz & Hsign & Hunits)].
    + exfalso.
      pose proof (make_float_overflow s m e s' He Hm Hnorm Hinf) as Hover.
      assert (HQ : 2 ^ (- emin) < 2 ^ (emax - prec - emin))
        by (apply Z.pow_lt_mono_r; lia).
      assert (Hdiff : 2 ^ (emax - prec - emin) <= m * 2 ^ (e - emin) - u) by lia.
      assert (Hprod : 2 ^ (emax - prec - emin) * 1
                      <= (m * 2 ^ (e - emin) - u) * 10 ^ Z.of_nat n).
      { apply Z.mul_le_mono_nonneg; lia. }
      lia.
    + rewrite (format_fixed_units n _ Hvalid Hfz), Hsign, Hunits. f_equal. f_equal.
      apply div_round_even_spec; [exact HU|].
      destruct Hspec as [Hlt | [Heq Hev]]; [left; lia|].
      destruct (Z.eq_dec (2 * Z.abs (m * 2 ^ (e - emin) * 10 ^ Z.of_nat n - S * 2 ^ (- emin)))
                         (2 ^ (- emin))) as [Htie | Hno].
      * right. split; [exact Htie | exact Hev].
      * left. lia.
Qed.

(** ** A field, printed and read back *)

(** Digits, with or without a sign, are read as a float. *)
Lemma py_float_uint neg u s :
  u <> Nil -> no_space s = true ->
  split_sign s = (neg, NilEmpty.string_of_uint u) ->
  py_float s <> None.
Proof.
  intros Hu Hs Hsplit. unfold py_float. rewrite (num_strip_no_space _ Hs), Hsplit.
  pose proof (string_of_uint_digits u) as Hd.
  pose proof (string_of_uint_nonempty u Hu) as Hne.
  pose proof (digit_group_digits u Hu) as Hgroup.
  remember (NilEmpty.string_of_uint u) as body eqn:Hbody. clear Hbody.
  destruct (digits_no_marker body Hd) as [Hexp Hpoint].
  assert (Hlow : String.eqb (str_lower body) "inf" || String.eqb (str_lower body) "infinity"
                 = false /\ String.eqb (str_lower body) "nan" = false).
  { destruct body as [|c rest]; [contradiction|].
    rewrite str_forallb_cons, andb_true_iff in Hd. destruct Hd as [Hc _].
    destruct (is_digit_cases c Hc) as [->|[->|[->|[->|[->|[->|[->|[->|[->| ->]]]]]]]]];
      split; reflexivity. }
  destruct Hlow as [-> ->].
  rewrite (split_at_none _ _ Hexp). unfold parse_mantissa.
  rewrite (split_at_none _ _ Hpoint), Hgroup. discriminate.
Qed.

Lemma is_number_int z : is_number (str_of_int z) = true.
Proof.
  assert (H : py_float (str_of_int z) <> None).
  { pose proof (number_chars_no_space _ (str_of_int_number_chars z)) as Hs.
    destruct (str_of_int_cases z) as [[_ Hz] | [(p & _ & Hz) | (p & _ & Hz)]];
      rewrite Hz in *.
    - discriminate.
    - apply (py_float_uint false (Pos.to_uint p)); [|exact Hs|].
      + apply DecimalPos.Unsigned.to_uint_nonnil.
      + destruct (digits_of_pos_head p) as (c & rest & Hhead & Hc & _).
        fold (digits_of_pos p). rewrite Hhead. unfold split_sign.
        destruct (is_digit_cases c Hc) as [->|[->|[->|[->|[->|[->|[->|[->|[->| ->]]]]]]]]];
          reflexivity.
    - apply (py_float_uint true (Pos.to_uint p)); [|exact Hs|].
      + apply DecimalPos.Unsigned.to_uint_nonnil.
      + reflexivity. }
  unfold is_number. destruct (py_float (str_of_int z)); [reflexivity | contradiction].
Qed.

Lemma get_val_int z : int_in_limit z = true -> get_val (str_of_int z) = PInt z.
Proof. intros Hlim. unfold get_val. rewrite (py_int_str_of_int z Hlim). reflexivity. Qed.

Lemma get_val_float_is_number tok f : get_val tok = PFloat f -> is_number tok = true.
Proof.
  unfold get_val, is_number. destruct (py_int tok); [discriminate|].
  destruct (py_float tok); [reflexivity | discriminate].
Qed.

Lemma token_ok_int z : token_ok (str_of_int z) = true.
Proof.
  unfold token_ok. rewrite (number_chars_no_space _ (str_of_int_number_chars z)).
  destruct (String.eqb_spec (str_of_int z) "") as [H|_]; [|reflexivity].
  destruct (str_of_int_nonempty z H).
Qed.

(** The template of an axis mode. *)
Lemma axis_mode_units z :
  -4 <= z < 4 ->
  exists mode,
    axis_mode_at (PInt z) = Ok mode
    /\ py_format "{{:d}} {:s}" [PStr mode] = Ok ("{:d}" ++ String " " mode)
    /\ brace_free mode = true.
Proof.
  intros Hz.
  assert (H : z = -4 \/ z = -3 \/ z = -2 \/ z = -1 \/ z = 0 \/ z = 1 \/ z = 2 \/ z = 3) by lia.
  destruct H as [->|[->|[->|[->|[->|[->|[->| ->]]]]]]];
    eexists; (split; [reflexivity | split; vm_compute; reflexivity]).
Qed.

(** The rendered value of a well-typed field is one token followed by a
    literal text; [get_val] of the token is rendered the same. *)
Lemma field_right_reads_back p m e v kind suffix rendered :
  field_static_ok (p, m, e) = true ->
  classify (entry_units e) = Some (kind, suffix) ->
  value_ok (entry_key e) kind v = true ->
  field_right e v = Ok rendered ->
  exists tok sfx,
    field_right e v = Ok (tok ++ sfx)
    /\ token_ok tok = true
    /\ starts_with_space sfx = true
    /\ (entry_key e <> "id" -> is_number tok = true)
    /\ field_right e (get_val tok) = Ok (tok ++ sfx).
Proof.
  intros Hstatic Hclass Hval Hrendered. revert Hrendered.
  unfold field_static_ok in Hstatic. rewrite Hclass in Hstatic.
  rewrite !andb_true_iff in Hstatic.
  destruct Hstatic as [[[[[Hbrace Hspace] Ham] Hid] _] _].
  destruct (classify_template _ _ _ Hclass) as [Hunits Hkind].
  unfold value_ok in Hval. unfold field_right, field_units.
  destruct (String.eqb (entry_key e) "am") eqn:Hkey.
  - (* an axis mode *)
    destruct kind; try discriminate. destruct v as [| |z| | | |]; try discriminate.
    rewrite andb_true_iff in Hval. destruct Hval as [Hlo Hhi].
    apply Z.leb_le in Hlo. apply Z.ltb_lt in Hhi.
    destruct (axis_mode_units z (conj Hlo Hhi)) as (mode & Hmode & Hfmt & Hfree).
    assert (Hlim : int_in_limit z = true) by (apply small_int_in_limit; lia).
    intros _. exists (str_of_int z), (String " " mode).
    rewrite (get_val_int z Hlim), Hmode. cbn [bind]. rewrite Hfmt. cbn [bind].
    assert (Hfree' : brace_free (String " " mode) = true).
    { unfold brace_free. rewrite str_forallb_cons. exact Hfree. }
    rewrite (py_format_d _ _ _ Hfree' Hlim).
    refine (conj eq_refl (conj (token_ok_int z) (conj eq_refl (conj _ eq_refl)))).
    intros _. apply is_number_int.
  - cbn [bind]. rewrite Hunits.
    destruct kind as [|n|].
    + (* an integer *)
      destruct v as [| |z| | | |]; try discriminate.
      cbn [template_of]. intros Hrendered.
      pose proof (py_format_d_limit _ _ _ _ Hbrace Hrendered) as Hlim.
      exists (str_of_int z), suffix. rewrite (get_val_int z Hlim).
      rewrite (py_format_d _ _ _ Hbrace Hlim).
      refine (conj eq_refl (conj (token_ok_int z) (conj Hspace (conj _ eq_refl)))).
      intros _. apply is_number_int.
    + (* a fixed number of decimals *)
      assert (Hfixed : forall f, fixed_ok n f = true ->
                exists tok sfx,
                  py_format (template_of (KFixed n) suffix) [PFloat f] = Ok (tok ++ sfx)
                  /\ token_ok tok = true /\ starts_with_space sfx = true
                  /\ (entry_key e <> "id" -> is_number tok = true)
                  /\ py_format (template_of (KFixed n) suffix) [get_val tok] = Ok (tok ++ sfx)).
      { intros f Hf. unfold fixed_ok in Hf. cbv zeta in Hf.
        rewrite andb_true_iff in Hf. destruct Hf as [Htok Hback].
        destruct (get_val (format_fixed n f)) as [| | |f'| | |] eqn:Hget; try discriminate.
        apply String.eqb_eq in Hback.
        exists (format_fixed n f), suffix.
        rewrite Hget, !(py_format_fixed _ _ _ Hkind Hbrace), Hback.
        refine (conj eq_refl (conj Htok (conj Hspace (conj _ eq_refl)))).
        intros _. apply (get_val_float_is_number _ _ Hget). }
      intros _. destruct v as [| |z|f| | |]; try discriminate.
      * destruct (float_of_int z) as [f|] eqn:Hconv; [|discriminate].
        rewrite (py_format_fixed_int _ _ _ _ Hkind Hconv). apply Hfixed. exact Hval.
      * apply Hfixed. exact Hval.
    + (* plain text *)
      intros _. subst suffix. cbn [template_of].
      unfold text_ok in Hval. destruct (py_str v) as [tok|] eqn:Hstr; [|discriminate].
      rewrite andb_true_iff in Hval. destruct Hval as [Htok Hback].
      destruct (py_str (get_val tok)) as [tok'|] eqn:Hstr'; [|discriminate].
      apply String.eqb_eq in Hback. subst tok'.
      exists tok, "". rewrite !py_format_any, Hstr, Hstr'. cbn [bind].
      refine (conj eq_refl (conj Htok (conj eq_refl (conj _ eq_refl)))).
      intros Hnot. destruct (String.eqb (entry_key e) "id") eqn:Hidkey.
      * apply String.eqb_eq in Hidkey. contradiction.
      * discriminate Hid.
Qed.


(** *** The text of [{:.nf}] *)

Lemma zfill_length w s : (w <= String.length (zfill w s))%nat.
Proof. unfold zfill. rewrite length_append, length_str_repeat. lia. Qed.

(** For [n >= 1], [{:.nf}] writes digits, a point and [n] digits, and
    [float()] reads the number written. *)
Lemma fixed_digits_reads neg n S :
  (1 <= n)%nat -> 0 <= S ->
  py_float (sign_str neg ++ fixed_digits n S)
  = Some (float_of_decimal neg S (- Z.of_nat n))
  /\ py_int (sign_str neg ++ fixed_digits n S) = None
  /\ str_forallb is_number_char (sign_str neg ++ fixed_digits n S) = true.
Proof.
  intros Hn HS. unfold fixed_digits. cbv zeta.
  destruct (zfill_digits (Datatypes.S n) S HS) as (Hd & Hv & _).
  pose proof (zfill_length (Datatypes.S n) (str_of_int S)) as Hlen.
  set (ds := zfill (Datatypes.S n) (str_of_int S)) in *.
  set (k := (String.length ds - n)%nat).
  destruct n as [|n']; [lia|].
  change (str_take k ds ++ "." ++ str_drop k ds)
    with (str_take k ds ++ String "." (str_drop k ds)).
  assert (Hk : (1 <= k)%nat) by (unfold k; lia).
  assert (Hdrop : String.length (str_drop k ds) = Datatypes.S n').
  { rewrite length_str_drop. unfold k. lia. }
  assert (Htake : str_take k ds <> "").
  { destruct k as [|k']; [lia|]. destruct ds; [cbn in Hlen; lia | discriminate]. }
  assert (Hdne : str_drop k ds <> "").
  { intros H. rewrite H in Hdrop. discriminate Hdrop. }
  destruct (point_reads neg (str_take k ds) (str_drop k ds) Htake Hdne
              (str_forallb_take _ _ _ Hd) (str_forallb_drop _ _ _ Hd))
    as (Hfloat & Hint & Hchars).
  rewrite str_take_drop, Hv, Hdrop in Hfloat.
  refine (conj Hfloat (conj Hint Hchars)).
Qed.

Lemma number_chars_token tok :
  tok <> "" -> str_forallb is_number_char tok = true -> token_ok tok = true.
Proof.
  intros Hne Hchars. unfold token_ok. rewrite (number_chars_no_space _ Hchars).
  destruct (String.eqb_spec tok "") as [H | _]; [contradiction | reflexivity].
Qed.

Lemma py_float_nonempty tok f : py_float tok = Some f -> tok <> "".
Proof. intros H ->. discriminate H. Qed.

(** Every float is printed by [{:.nf}], [n >= 1], as one token that
    [get_val] reads as a float printed the same. *)
Lemma fixed_ok_float n f : (1 <= n)%nat -> is_float64 f = true -> fixed_ok n f = true.
Proof.
  intros Hn Hv. unfold fixed_ok. cbv zeta.
  destruct (is_finite_or_zero f) eqn:Hfin.
  - pose proof (fixed_reread n f Hv Hfin) as Hre.
    rewrite (format_fixed_units n f Hv Hfin) in Hre |- *.
    pose proof (fixed_scaled_nonneg n _ (float_units_nonneg f)) as HS.
    destruct (fixed_digits_reads (float_sign f) n _ Hn HS) as (Hfloat & Hint & Hchars).
    rewrite (number_chars_token _ (py_float_nonempty _ _ Hfloat) Hchars).
    unfold get_val. rewrite Hint, Hfloat, Hre. cbn [andb]. apply String.eqb_refl.
  - destruct f as [s|s| |s m e]; try discriminate Hfin.
    + destruct s; reflexivity.
    + reflexivity.
Qed.

(** A float, or an integer within the limit of digits, is printed by
    [{}] as one token that [get_val] reads as the same value. *)
Lemma text_ok_float f : is_float64 f = true -> text_ok (PFloat f) = true.
Proof.
  intros Hv. pose proof (float_repr_reads f Hv) as Hrepr. unfold text_ok. cbn [py_str].
  destruct f as [s|s| |s m e]; try (destruct s; reflexivity); try reflexivity;
    destruct Hrepr as (Hfloat & Hint & _ & Hchars);
    rewrite (number_chars_token _ (py_float_nonempty _ _ Hfloat) Hchars);
    unfold get_val; rewrite Hint, Hfloat; cbn [py_str andb]; apply String.eqb_refl.
Qed.

Lemma text_ok_int z : int_in_limit z = true -> text_ok (PInt z) = true.
Proof.
  intros Hlim. unfold text_ok. cbn [py_str]. unfold int_str. rewrite Hlim.
  rewrite token_ok_int, (get_val_int z Hlim). cbn [py_str andb]. unfold int_str.
  rewrite Hlim. apply String.eqb_refl.
Qed.

(** ** A line of the dump, read by [read_text] *)

Lemma all_fields_static : forallb field_static_ok all_fields = true.
Proof. vm_compute. reflexivity. Qed.

Lemma field_static p m e : In (p, m, e) all_fields -> field_static_ok (p, m, e) = true.
Proof.
  intros Hin. pose proof all_fields_static as H. rewrite forallb_forall in H.
  apply (H _ Hin).
Qed.

(** The line in terms of its two halves. *)
Lemma format_line_parts p m e v column :
  label_column p m e = Ok column ->
  format_line p m e v
  = (rendered <- field_right e v ;;
     Ok (slice_to (- (align_of rendered + 1)) column ++ " " ++ rendered)).
Proof.
  unfold label_column, format_line, field_right, field_units, fmt_key_of.
  destruct (if String.eqb m "1"
            then py_format "m{:s} {:s}" [PStr p; PStr (entry_descr e)]
            else if str_contains "xagh" m
                 then py_format "{:s} {:s}" [PStr p; PStr (entry_descr e)]
                 else Ok (entry_descr e)) as [descr|]; [|discriminate].
  cbn [bind].
  destruct (label_column_length
              (if String.eqb p "sys" then "[" ++ entry_key e ++ "]"
               else "[" ++ p ++ entry_key e ++ "]") descr) as (padded & -> & _).
  cbn [bind]. intros H. apply Ok_inj in H. subst column.
  destruct (if String.eqb (entry_key e) "am"
            then mode <- axis_mode_at v ;; py_format "{{:d}} {:s}" [PStr mode]
            else Ok (entry_units e)) as [units|]; reflexivity.
Qed.

Lemma label_column_35 p m e column :
  label_column p m e = Ok column -> String.length column = 35%nat.
Proof.
  unfold label_column.
  destruct (if String.eqb m "1"
            then py_format "m{:s} {:s}" [PStr p; PStr (entry_descr e)]
            else if str_contains "xagh" m
                 then py_format "{:s} {:s}" [PStr p; PStr (entry_descr e)]
                 else Ok (entry_descr e)) as [descr|]; [|discriminate].
  cbn [bind].
  destruct (label_column_length (fmt_key_of p (entry_key e)) descr) as (padded & -> & Hlen).
  cbn [bind]. intros H. apply Ok_inj in H. subst column. exact Hlen.
Qed.

(** The label column with [align + 1] characters cut keeps [kept_of]. *)
Lemma slice_kept rendered column :
  String.length column = 35%nat ->
  slice_to (- (align_of rendered + 1)) column
  = str_take (Z.to_nat (kept_of rendered)) column.
Proof.
  intros Hlen. destruct (align_of_cases rendered) as [Hpos _].
  replace (- (align_of rendered + 1)) with (- Z.of_nat (S (Z.to_nat (align_of rendered)))) by lia.
  rewrite slice_to_neg, Hlen. unfold kept_of. f_equal. lia.
Qed.

(** A line that starts with a bracket, by its fields. *)
Lemma read_text_line_fields config rest f0 dtoks tok more flat p k :
  split (String "[" rest) = (f0 :: dtoks ++ tok :: more)%list ->
  re_search_bracket f0 = Some flat ->
  id_to_group_key flat = Ok (Some (p, k)) ->
  (if String.eqb flat "id" then (List.length dtoks =? 2)%nat
   else forallb (fun t => negb (is_number t)) dtoks) = true ->
  (flat <> "id" -> is_number tok = true) ->
  read_text_line config (String "[" rest)
  = add_group config (PDict [(p, PDict [(k, get_val tok)])]).
Proof.
  intros Hsplit Hkey Hres Hdescr Hnum.
  unfold read_text_line. change (Ascii.eqb "[" "[") with true. cbn [negb].
  rewrite split_strip, Hsplit. cbn [hd tl]. rewrite Hkey, Hres.
  destruct (String.eqb_spec flat "id") as [Hid | Hid].
  - apply Nat.eqb_eq in Hdescr.
    destruct dtoks as [|d1 [|d2 [|d3 dtoks]]]; try discriminate Hdescr.
    reflexivity.
  - assert (Hfirst : first_number (dtoks ++ tok :: more)%list = Some tok).
    { clear Hsplit. induction dtoks as [|d dtoks IH].
      - cbn [List.app first_number]. rewrite (Hnum Hid). reflexivity.
      - cbn [forallb] in Hdescr. apply andb_true_iff in Hdescr.
        destruct Hdescr as [Hd Hrest]. apply negb_true_iff in Hd.
        cbn [List.app first_number]. rewrite Hd. apply IH. exact Hrest. }
    rewrite Hfirst. reflexivity.
Qed.

(** The suffix of a template, followed by the end of the line, holds no
    field when it is empty, and starts with whitespace. *)
Lemma suffix_newline_space sfx :
  starts_with_space sfx = true -> starts_with_space (sfx ++ String newline "") = true.
Proof. destruct sfx; [reflexivity | exact (fun H => H)]. Qed.

(** A printed line of a displayable field is read as that field, with
    the value [get_val] makes of the rendered token; and that value is
    printed as the same line. *)
Lemma field_line p m e v :
  In (p, m, e) all_fields ->
  field_ok p m e v = true ->
  exists line,
    format_line p m e v = Ok line
    /\ format_line p m e (reread_value e v) = Ok line
    /\ forall config,
        read_text_line config (line ++ String (chr 10) "")
        = add_group config (PDict [(p, PDict [(entry_key e, reread_value e v)])]).
Proof.
  intros Hin Hok. pose proof (field_static p m e Hin) as Hstatic.
  unfold field_ok in Hok.
  destruct (classify (entry_units e)) as [[kind suffix]|] eqn:Hclass; [|discriminate].
  destruct (field_right e v) as [rendered|] eqn:Hright; [|discriminate].
  apply andb_true_iff in Hok. destruct Hok as [Hval Hkept]. apply Z.leb_le in Hkept.
  destruct (field_right_reads_back p m e v kind suffix rendered Hstatic Hclass Hval Hright)
    as (tok & sfx & Hright' & Htok & Hsfx & Hnum & Hback).
  rewrite Hright in Hright'. apply Ok_inj in Hright'. subst rendered.
  unfold token_ok in Htok. apply andb_true_iff in Htok. destruct Htok as [Hne Hns].
  apply negb_true_iff, String.eqb_neq in Hne.
  assert (Hreread : reread_value e v = get_val tok).
  { unfold reread_value, reread. rewrite Hright.
    rewrite (split_token tok sfx Hne Hns Hsfx). reflexivity. }
  (* the cut label column passes the check *)
  pose proof Hstatic as Hs. unfold field_static_ok in Hs. rewrite Hclass in Hs.
  rewrite !andb_true_iff in Hs. destruct Hs as [[[[_ _] Hidsys] Hres] Hleft].
  destruct (align_of_cases (tok ++ sfx)) as [Halign _].
  set (kept := Z.to_nat (kept_of (tok ++ sfx))).
  assert (Hcheck : left_check p m e kept = true).
  { rewrite forallb_forall in Hleft. apply Hleft. apply in_seq.
    unfold kept, kept_of in *. lia. }
  unfold left_check in Hcheck.
  destruct (label_column p m e) as [column|] eqn:Hcolumn; [|discriminate].
  cbv zeta in Hcheck. apply andb_true_iff in Hcheck. destruct Hcheck as [Hhead Hfields].
  pose proof (label_column_35 _ _ _ _ Hcolumn) as Hlen.
  exists (str_take kept column ++ " " ++ tok ++ sfx).
  rewrite Hreread, !(format_line_parts _ _ _ _ _ Hcolumn), Hright, Hback. cbn [bind].
  rewrite (slice_kept _ _ Hlen). fold kept.
  refine (conj eq_refl (conj eq_refl _)). intros config.
  destruct (str_take kept column) as [|c cut] eqn:Hcut; [discriminate|].
  apply Ascii.eqb_eq in Hhead. subst c.
  destruct (split (String "[" cut)) as [|f0 dtoks] eqn:Hsplit; [discriminate|].
  destruct (re_search_bracket f0) as [flat|] eqn:Hflat; [|discriminate].
  apply andb_true_iff in Hfields. destruct Hfields as [Hflatkey Hdescr].
  apply String.eqb_eq in Hflatkey. subst flat.
  change (String (chr 10) "") with (String newline "").
  change (String "[" cut ++ " " ++ tok ++ sfx) with (String "[" cut ++ String " " (tok ++ sfx)).
  rewrite append_assoc.
  change (String " " (tok ++ sfx) ++ String newline "")
    with (String " " ((tok ++ sfx) ++ String newline "")).
  rewrite append_assoc.
  change (String "[" cut ++ String " " (tok ++ sfx ++ String newline ""))
    with (String "[" (cut ++ String " " (tok ++ sfx ++ String newline ""))).
  apply (read_text_line_fields config _ f0 dtoks tok (split (sfx ++ String newline ""))
           (flat_key p (entry_key e)) p (entry_key e)).
  - change (String "[" (cut ++ String " " (tok ++ sfx ++ String newline "")))
      with (String "[" cut ++ String " " (tok ++ sfx ++ String newline "")).
    rewrite (split_space_app _ " " _ eq_refl), Hsplit.
    rewrite (split_token tok _ Hne Hns (suffix_newline_space _ Hsfx)). reflexivity.
  - exact Hflat.
  - apply (resolves_sound (p, entry_key e)). exact Hres.
  - exact Hdescr.
  - intros Hflatid. apply Hnum. intros Hkey. apply Hflatid.
    rewrite Hkey in Hidsys. cbn [String.eqb Ascii.eqb Bool.eqb] in Hidsys.
    apply andb_true_iff in Hidsys. destruct Hidsys as [Hsys _].
    apply String.eqb_eq in Hsys. subst p. rewrite Hkey. reflexivity.
Qed.

(** ** The store that [read_text] builds from a dump *)

Lemma all_dicts_assoc config p v :
  all_dicts config = true -> assoc p config = Some v -> exists g, v = PDict g.
Proof.
  intros Hall Hget. pose proof (assoc_forallb is_dict p v config Hall Hget) as H.
  destruct v; try discriminate. eauto.
Qed.

(** [add_group] with a single field. *)
Lemma add_group_insert2 config p k v :
  all_dicts config = true ->
  add_group config (PDict [(p, PDict [(k, v)])]) = Ok (insert2 config p k v).
Proof.
  intros Hall. unfold add_group, add_group_items, add_group_item, insert2.
  destruct (assoc p config) as [val|] eqn:Hget; [|reflexivity].
  destruct (all_dicts_assoc _ _ _ Hall Hget) as [g ->]. reflexivity.
Qed.

Lemma all_dicts_insert2 config p k v :
  all_dicts config = true -> all_dicts (insert2 config p k v) = true.
Proof.
  intros Hall. unfold insert2, all_dicts.
  destruct (assoc p config) as [[| | | | | |g]|];
    apply (forallb_dict_set is_dict); first [reflexivity | exact Hall].
Qed.

Lemma pair_eqb_sym a b : pair_eqb a b = pair_eqb b a.
Proof. unfold pair_eqb. rewrite (String.eqb_sym (fst a)), (String.eqb_sym (snd a)). reflexivity. Qed.

Lemma lookup2_insert2 config p k v p' k' :
  all_dicts config = true ->
  lookup2 (insert2 config p k v) p' k'
  = if pair_eqb (p, k) (p', k') then Some v else lookup2 config p' k'.
Proof.
  intros Hall. unfold lookup2, insert2, pair_eqb. cbn [fst snd].
  destruct (assoc p config) as [val|] eqn:Hget.
  - destruct (all_dicts_assoc _ _ _ Hall Hget) as [g ->].
    rewrite assoc_dict_set. destruct (String.eqb_spec p p') as [<- | Hp]; cbn [andb].
    + rewrite assoc_dict_set, Hget. reflexivity.
    + reflexivity.
  - rewrite assoc_dict_set. destruct (String.eqb_spec p p') as [<- | Hp]; cbn [andb].
    + cbn [assoc]. rewrite Hget. destruct (String.eqb k k'); reflexivity.
    + reflexivity.
Qed.

Lemma all_dicts_fold fields :
  forall config, all_dicts config = true ->
                 all_dicts (fold_left insert_field fields config) = true.
Proof.
  induction fields as [|fv fields IH]; intros config Hall; [exact Hall|].
  cbn [fold_left]. apply IH. apply all_dicts_insert2. exact Hall.
Qed.

Lemma all_dicts_groups config : all_dicts config = true -> groups_are_dicts config = true.
Proof.
  intros Hall. unfold groups_are_dicts. apply forallb_forall. intros mapEntry _.
  destruct (assoc (fst mapEntry) config) as [v|] eqn:Hget; [|reflexivity].
  destruct (all_dicts_assoc _ _ _ Hall Hget) as [g ->]. reflexivity.
Qed.

(** *** The dump as a list of fields *)

Lemma mapM_app {A B : Type} (f : A -> res B) (l1 l2 : list A) :
  mapM f (l1 ++ l2)%list
  = (a <- mapM f l1 ;; b <- mapM f l2 ;; Ok (a ++ b)%list).
Proof.
  induction l1 as [|x l1 IH]; cbn [List.app mapM bind].
  - destruct (mapM f l2); reflexivity.
  - destruct (f x) as [y|]; cbn [bind]; [|reflexivity].
    rewrite IH. destruct (mapM f l1) as [a|]; cbn [bind]; [|reflexivity].
    destruct (mapM f l2); reflexivity.
Qed.

Lemma dump_group_fields config p m d strs :
  assoc p config = Some (PDict d) ->
  dump_group p m (PDict d) strs
  = mapM format_field (flat_map (shown config) (map (fun e => (p, m, e)) strs)).
Proof.
  intros Hget. induction strs as [|e strs IH]; [reflexivity|].
  cbn [dump_group py_contains bind map flat_map].
  unfold shown at 1, lookup2. cbn [fst snd]. rewrite Hget. unfold dict_mem, py_getitem.
  destruct (assoc (entry_key e) d) as [v|].
  - cbn [bind List.app mapM]. unfold format_field at 1. cbn [fst snd].
    rewrite IH. reflexivity.
  - exact IH.
Qed.

Lemma shown_absent config p m strs :
  assoc p config = None ->
  flat_map (shown config) (map (fun e => (p, m, e)) strs) = [].
Proof.
  intros Hget. induction strs as [|e strs IH]; [reflexivity|].
  cbn [map flat_map]. unfold shown at 1, lookup2. cbn [fst snd]. rewrite Hget. exact IH.
Qed.

Lemma dump_formatted_from_fields entries config :
  schemas_known entries = true ->
  forallb (fun mapEntry =>
             match assoc (fst mapEntry) config with
             | None | Some (PDict _) => true
             | Some _ => false
             end) entries = true ->
  dump_formatted_from entries config
  = mapM format_field (flat_map (shown config) (flat_map schema_fields entries)).
Proof.
  induction entries as [|[p m] entries IH]; intros Hknown Hdicts; [reflexivity|].
  cbn [schemas_known forallb fst snd] in Hknown, Hdicts.
  apply andb_true_iff in Hknown. destruct Hknown as [Hschema Hknown].
  apply andb_true_iff in Hdicts. destruct Hdicts as [Hgroup Hdicts].
  cbn [dump_formatted_from flat_map fst snd].
  rewrite flat_map_app, mapM_app, <- (IH Hknown Hdicts).
  unfold schema_fields, CONFIG_STR_get. cbn [fst snd].
  destruct (assoc m CONFIG_STR) as [strs|]; [|discriminate].
  destruct (assoc p config) as [val|] eqn:Hget.
  - destruct val; try discriminate. cbn [bind].
    rewrite (dump_group_fields config p m _ strs Hget). reflexivity.
  - rewrite (shown_absent config p m strs Hget). cbn [mapM bind].
    destruct (dump_formatted_from entries config); reflexivity.
Qed.

Lemma CONFIG_MAP_schemas_known : schemas_known CONFIG_MAP = true.
Proof. vm_compute. reflexivity. Qed.

Lemma dump_formatted_fields config :
  groups_are_dicts config = true ->
  dump_formatted config = mapM format_field (displayed config).
Proof.
  intros H. apply dump_formatted_from_fields; [exact CONFIG_MAP_schemas_known | exact H].
Qed.

Lemma shown_In config fields fv :
  In fv (flat_map (shown config) fields) -> In (fst fv) fields.
Proof.
  induction fields as [|f fields IH]; [intros []|].
  cbn [flat_map]. rewrite in_app_iff. intros [H | H].
  - left. unfold shown in H. destruct (lookup2 _ _ _); [|destruct H].
    destruct H as [<- | []]. reflexivity.
  - right. apply IH. exact H.
Qed.

(** *** Reading the lines of a dump *)

Lemma read_text_fields fields :
  Forall (fun fv => In (fst fv) all_fields
                    /\ field_ok (fst (fst (fst fv))) (snd (fst (fst fv)))
                                (snd (fst fv)) (snd fv) = true) fields ->
  exists lines,
    mapM format_field fields = Ok lines
    /\ mapM format_field (map reread_field fields) = Ok lines
    /\ forall config,
        all_dicts config = true ->
        read_text config (with_newlines lines)
        = Ok (fold_left insert_field (map reread_field fields) config).
Proof.
  induction 1 as [|[[[p m] e] v] fields [Hin Hok] _ (lines & Hdump & Hredump & Hread)].
  - exists []. repeat split.
  - cbn [fst snd] in Hin, Hok.
    destruct (field_line p m e v Hin Hok) as (line & Hline & Hline' & Hfield).
    exists (line :: lines). cbn [map mapM].
    change (format_field (p, m, e, v)) with (format_line p m e v).
    change (format_field (reread_field (p, m, e, v)))
      with (format_line p m e (reread_value e v)).
    rewrite Hline, Hline', Hdump, Hredump.
    refine (conj eq_refl (conj eq_refl _)). intros config Hall.
    cbn [with_newlines map read_text fold_left]. rewrite Hfield.
    rewrite (add_group_insert2 _ _ _ _ Hall). cbn [bind].
    apply Hread. apply all_dicts_insert2. exact Hall.
Qed.

(** *** The fields of the store read *)

Lemma lookup2_fold_other config fields p k :
  existsb (pair_eqb (p, k)) (map field_id fields) = false ->
  forall config0,
    all_dicts config0 = true ->
    lookup2 (fold_left insert_field
               (map reread_field (flat_map (shown config) fields)) config0) p k
    = lookup2 config0 p k.
Proof.
  induction fields as [|f fields IH]; intros Hother config0 Hall; [reflexivity|].
  cbn [map existsb] in Hother. apply orb_false_iff in Hother. destruct Hother as [Hf Hother].
  cbn [flat_map]. unfold shown at 1.
  destruct (lookup2 config (fst (fst f)) (entry_key (snd f))) as [v|].
  - cbn [List.app map fold_left]. rewrite (IH Hother) by (apply all_dicts_insert2; exact Hall).
    unfold insert_field, reread_field. cbn [fst snd].
    rewrite (lookup2_insert2 _ _ _ _ _ _ Hall).
    rewrite pair_eqb_sym. unfold field_id in Hf. rewrite Hf. reflexivity.
  - cbn [List.app]. apply (IH Hother). exact Hall.
Qed.

Lemma lookup2_fold config fields :
  distinct_ids (map field_id fields) = true ->
  forall config0,
    all_dicts config0 = true ->
    (forall f, In f fields -> lookup2 config0 (fst (fst f)) (entry_key (snd f)) = None) ->
    forall f, In f fields ->
      lookup2 (fold_left insert_field
                 (map reread_field (flat_map (shown config) fields)) config0)
              (fst (fst f)) (entry_key (snd f))
      = option_map (reread_value (snd f))
                   (lookup2 config (fst (fst f)) (entry_key (snd f))).
Proof.
  induction fields as [|f fields IH]; intros Hdistinct config0 Hall Hfresh g Hg; [destruct Hg|].
  cbn [map distinct_ids] in Hdistinct. apply andb_true_iff in Hdistinct.
  destruct Hdistinct as [Hf Hdistinct]. apply negb_true_iff in Hf.
  assert (Hothers : forall f', In f' fields -> pair_eqb (field_id f) (field_id f') = false).
  { intros f' Hin. destruct (pair_eqb (field_id f) (field_id f')) eqn:Heq; [|reflexivity].
    rewrite <- Hf. symmetry. apply existsb_exists. exists (field_id f'). split; [|exact Heq].
    apply in_map. exact Hin. }
  cbn [flat_map]. unfold shown at 1.
  destruct (lookup2 config (fst (fst f)) (entry_key (snd f))) as [v|] eqn:Hv.
  - cbn [List.app map fold_left].
    set (config1 := insert_field config0 (reread_field (f, v))).
    assert (Hall1 : all_dicts config1 = true) by (apply all_dicts_insert2; exact Hall).
    destruct Hg as [<- | Hg].
    + rewrite (lookup2_fold_other config fields _ _ Hf config1 Hall1), Hv.
      unfold config1, insert_field, reread_field. cbn [fst snd].
      rewrite (lookup2_insert2 _ _ _ _ _ _ Hall).
      unfold pair_eqb. cbn [fst snd]. rewrite !String.eqb_refl. reflexivity.
    + apply (IH Hdistinct config1 Hall1); [|exact Hg].
      intros f' Hin. unfold config1, insert_field, reread_field. cbn [fst snd].
      rewrite (lookup2_insert2 _ _ _ _ _ _ Hall).
      pose proof (Hothers f' Hin) as Hne. unfold field_id in Hne. rewrite Hne.
      apply Hfresh. right. exact Hin.
  - cbn [List.app]. destruct Hg as [<- | Hg].
    + rewrite (lookup2_fold_other config fields _ _ Hf config0 Hall), Hv.
      apply Hfresh. left. reflexivity.
    + apply (IH Hdistinct config0 Hall); [|exact Hg].
      intros f' Hin. apply Hfresh. right. exact Hin.
Qed.

Lemma shown_reread config config' fields :
  (forall f, In f fields ->
     lookup2 config' (fst (fst f)) (entry_key (snd f))
     = option_map (reread_value (snd f))
                  (lookup2 config (fst (fst f)) (entry_key (snd f)))) ->
  flat_map (shown config') fields = map reread_field (flat_map (shown config) fields).
Proof.
  induction fields as [|f fields IH]; intros H; [reflexivity|].
  cbn [flat_map]. rewrite map_app, <- IH by (intros f' Hin; apply H; right; exact Hin).
  f_equal. unfold shown. rewrite (H f (or_introl eq_refl)).
  destruct (lookup2 config (fst (fst f)) (entry_key (snd f))); reflexivity.
Qed.

Lemma all_fields_distinct : distinct_ids (map field_id all_fields) = true.
Proof. vm_compute. reflexivity. Qed.


(** *** Well-typed values are displayable *)

Lemma float_of_int_valid z f : float_of_int z = Ok f -> is_float64 f = true.
Proof.
  unfold float_of_int. pose proof (float_of_ratio_valid (z <? 0) (Z.abs z) 1) as Hv.
  destruct (float_of_ratio (z <? 0) (Z.abs z) 1); try discriminate;
    intros H; injection H as <-; exact Hv.
Qed.

Lemma value_typed_ok p m e v kind suffix rendered :
  field_static_ok (p, m, e) = true ->
  classify (entry_units e) = Some (kind, suffix) ->
  field_right e v = Ok rendered ->
  value_typed (entry_key e) kind v = true ->
  value_ok (entry_key e) kind v = true.
Proof.
  intros Hstatic Hclass Hright Htyped.
  destruct (classify_template _ _ _ Hclass) as [Hunits Hkind].
  unfold value_typed in Htyped. unfold value_ok.
  destruct (String.eqb (entry_key e) "am") eqn:Hkey; [exact Htyped|].
  destruct kind as [|n|].
  - exact Htyped.
  - assert (Hn : (1 <= n)%nat) by (destruct Hkind as [-> | [-> | ->]]; lia).
    destruct v as [| |z|f| | |]; try discriminate Htyped.
    + destruct (float_of_int z) as [f|] eqn:Hconv; [|discriminate Htyped].
      apply fixed_ok_float; [exact Hn | exact (float_of_int_valid z f Hconv)].
    + apply fixed_ok_float; assumption.
  - destruct v as [|b|z|f|s| |]; try discriminate Htyped.
    + reflexivity.
    + destruct b; reflexivity.
    + apply text_ok_int.
      unfold field_right, field_units in Hright. rewrite Hkey in Hright. cbn [bind] in Hright.
      rewrite Hunits in Hright. subst suffix. cbn [template_of] in Hright.
      rewrite py_format_any in Hright. cbn [py_str] in Hright. unfold int_str in Hright.
      destruct (int_in_limit z); [reflexivity | discriminate Hright].
    + apply text_ok_float. exact Htyped.
    + exact Htyped.
Qed.

Lemma field_typed_ok p m e v :
  In (p, m, e) all_fields -> field_typed p m e v = true -> field_ok p m e v = true.
Proof.
  intros Hin. pose proof (field_static p m e Hin) as Hstatic.
  unfold field_typed, field_ok.
  destruct (classify (entry_units e)) as [[kind suffix]|] eqn:Hclass; [|discriminate].
  destruct (field_right e v) as [rendered|] eqn:Hright; [|discriminate].
  rewrite !andb_true_iff. intros [Htyped Hkept]. split; [|exact Hkept].
  exact (value_typed_ok p m e v kind suffix rendered Hstatic Hclass Hright Htyped).
Qed.

Lemma well_typed_displayable config : well_typed config = true -> displayable config = true.
Proof.
  unfold well_typed, displayable. rewrite !andb_true_iff. intros [Hgroups Hfields].
  split; [exact Hgroups|]. rewrite forallb_forall in *. intros fv Hin.
  destruct fv as [[[p m] e] v]. cbn [fst snd].
  apply field_typed_ok; [apply (shown_In config all_fields _ Hin) | exact (Hfields _ Hin)].
Qed.

(** ** Dumping, reading the dump, dumping again *)

(** A displayable store is dumped, read back and dumped the same. *)
Lemma displayable_store_redumps config :
  displayable config = true ->
  exists lines config',
    dump_formatted config = Ok lines
    /\ read_text [] (with_newlines lines) = Ok config'
    /\ displayed config' = map reread_field (displayed config)
    /\ dump_formatted config' = Ok lines.
Proof.
  unfold displayable. rewrite andb_true_iff. intros [Hgroups Hfields].
  assert (Hall : Forall (fun fv => In (fst fv) all_fields
                                   /\ field_ok (fst (fst (fst fv))) (snd (fst (fst fv)))
                                               (snd (fst fv)) (snd fv) = true)
                        (displayed config)).
  { apply Forall_forall. intros fv Hin. split.
    - apply (shown_In config). exact Hin.
    - rewrite forallb_forall in Hfields. apply Hfields. exact Hin. }
  destruct (read_text_fields _ Hall) as (lines & Hdump & Hredump & Hread).
  set (config' := fold_left insert_field (map reread_field (displayed config)) []).
  assert (Hdicts : all_dicts config' = true) by (apply all_dicts_fold; reflexivity).
  assert (Hshown : displayed config' = map reread_field (displayed config)).
  { apply shown_reread. intros f Hin.
    apply (lookup2_fold config all_fields all_fields_distinct [] eq_refl); [|exact Hin].
    intros f' _. reflexivity. }
  exists lines, config'. split; [|split; [|split]].
  - rewrite (dump_formatted_fields _ Hgroups). exact Hdump.
  - apply Hread. reflexivity.
  - exact Hshown.
  - rewrite (dump_formatted_fields _ (all_dicts_groups _ Hdicts)), Hshown. exact Hredump.
Qed.

(** C8, as the code has it: when every group of a store is a
    dictionary and every field it displays has a value well typed for
    its template (an integer for [{:d}], a float or an integer that
    converts to one for [{:.Nf}], and for [{}] a number, None, a
    boolean, or a string that is one token which [get_val] reads back
    as a value with the same text), is rendered by [dump_formatted],
    and is rendered short enough to leave the bracketed key of the
    label in place, then [dump_formatted] prints its lines,
    [read_text] reads them into a fresh store, that store displays the
    same fields with the values read, and [dump_formatted] of it
    prints exactly the same lines. *)
Theorem dump_read_text_dump config :
  well_typed config = true ->
  exists lines config',
    dump_formatted config = Ok lines
    /\ read_text [] (with_newlines lines) = Ok config'
    /\ displayed config' = map reread_field (displayed config)
    /\ dump_formatted config' = Ok lines.
Proof.
  intros Htyped. apply displayable_store_redumps. apply well_typed_displayable. exact Htyped.
Qed.

Lemma dump_read_text_dump_witness :
  well_typed show_config = true
  /\ exists lines config',
       dump_formatted show_config = Ok lines
       /\ read_text [] (with_newlines lines) = Ok config'
       /\ displayed config' = map reread_field (displayed show_config)
       /\ dump_formatted config' = Ok lines.
Proof.
  split; [vm_compute; reflexivity|].
  apply (dump_read_text_dump show_config). vm_compute. reflexivity.
Defined.

(** C8, a store it fails on: the [id] ["007"] is a string, which the
    template [{}] of [id] accepts; it is printed as [007], read back as
    the integer 7, and printed again as [7]. *)
Lemma id_007_is_printed_as_7 :
  dump_formatted id_007_config = Ok ["[id]  TinyG ID                    007"]
  /\ read_text [] (with_newlines ["[id]  TinyG ID                    007"])
     = Ok [("sys", PDict [("id", PInt 7)])]
  /\ dump_formatted [("sys", PDict [("id", PInt 7)])]
     = Ok ["[id]  TinyG ID                    7"]
  /\ displayed id_007_config
     = [("sys", "sys", ("id", "TinyG ID", "{}"), PStr "007")]
  /\ displayed [("sys", PDict [("id", PInt 7)])]
     = [("sys", "sys", ("id", "TinyG ID", "{}"), PInt 7)].
Proof. vm_compute. repeat split. Qed.

(** A value rendered so long that the label is cut inside the bracketed
    key gives a line that [read_text] cannot read: the search for the
    key finds nothing, and [.group] is called on [None]. *)
Lemma long_value_cuts_the_key :
  dump_formatted long_config = Ok ["[j 10000000000000000000000000000000 mm"]
  /\ read_text [] (with_newlines ["[j 10000000000000000000000000000000 mm"])
     = Raise AttributeError.
Proof. vm_compute. split; reflexivity. Qed.

(** * Further properties of the code *)

(** ** Scalars read from text *)

Lemma digit_or_us_no_marker s :
  str_forallb is_digit_or_us s = true ->
  str_forallb (fun c => negb (is_exp_marker c)) s = true
  /\ str_forallb (fun c => negb (is_point c)) s = true.
Proof.
  intros H. split; apply (str_forallb_impl is_digit_or_us); try exact H;
    intros c Hc; unfold is_digit_or_us in Hc; apply orb_true_iff in Hc;
    (destruct Hc as [Hc | Hc];
     [ destruct (is_digit_cases c Hc) as [->|[->|[->|[->|[->|[->|[->|[->|[->| ->]]]]]]]]];
       reflexivity
     | apply Ascii.eqb_eq in Hc; subst c; reflexivity ]).
Qed.

(** What [int()] reads, [float()] reads too. *)
Lemma py_int_py_float s z : py_int s = Some z -> py_float s <> None.
Proof.
  unfold py_int, py_float. destruct (split_sign (num_strip s)) as [neg body].
  destruct (digit_group body) as [u|] eqn:Hgroup; [|discriminate]. intros _.
  assert (Hbody : exists c rest, body = String c rest /\ is_digit c = true
                                 /\ str_forallb is_digit_or_us body = true).
  { unfold digit_group in Hgroup. destruct body as [|c rest]; [discriminate|].
    destruct (str_forallb is_digit_or_us (String c rest)) eqn:Hall; [|discriminate].
    cbn [andb] in Hgroup.
    destruct (underscores_ok true (String c rest)) eqn:Hus; [|discriminate].
    exists c, rest. refine (conj eq_refl (conj _ eq_refl)).
    rewrite str_forallb_cons in Hall. apply andb_true_iff in Hall. destruct Hall as [Hc _].
    unfold is_digit_or_us in Hc. apply orb_true_iff in Hc. destruct Hc as [Hc | Hc]; [exact Hc|].
    cbn [underscores_ok] in Hus. rewrite Hc in Hus. discriminate Hus. }
  destruct Hbody as (c & rest & -> & Hc & Hall).
  destruct (digit_or_us_no_marker _ Hall) as [Hexp Hpoint].
  assert (Hlow : String.eqb (str_lower (String c rest)) "inf"
                 || String.eqb (str_lower (String c rest)) "infinity" = false
                 /\ String.eqb (str_lower (String c rest)) "nan" = false).
  { destruct (is_digit_cases c Hc) as [->|[->|[->|[->|[->|[->|[->|[->|[->| ->]]]]]]]]];
      split; reflexivity. }
  destruct Hlow as [-> ->].
  rewrite (split_at_none _ _ Hexp). unfold parse_mantissa.
  rewrite (split_at_none _ _ Hpoint), Hgroup. discriminate.
Qed.

(** X1: [get_val] hands back the text itself exactly when [is_number]
    rejects it: a text that [float()] accepts never stays a string. *)
Theorem get_val_keeps_text_iff_not_number s :
  is_number s = false <-> get_val s = PStr s.
Proof.
  unfold is_number, get_val. split.
  - destruct (py_float s) eqn:Hf; [discriminate|]. intros _.
    destruct (py_int s) as [z|] eqn:Hi; [|reflexivity].
    destruct (py_int_py_float s z Hi Hf).
  - destruct (py_int s); [discriminate|]. destruct (py_float s); [discriminate | reflexivity].
Qed.

(** X2: The decimal text of an integer, as [str()] writes it, looks like a
    number and is read by [get_val] as that integer.  (The bound is the
    number of digits up to which every Python converts between [int]
    and [str].) *)
Theorem get_val_reads_integers z :
  Z.abs z < 10 ^ 4300 ->
  is_number (str_of_int z) = true /\ get_val (str_of_int z) = PInt z.
Proof.
  intros Hz. split; [apply is_number_int | apply get_val_int].
  unfold int_in_limit. apply Z.ltb_lt. exact Hz.
Qed.

Lemma get_val_reads_integers_witness :
  is_number (str_of_int (-16000)) = true /\ get_val (str_of_int (-16000)) = PInt (-16000).
Proof. apply (get_val_reads_integers (-16000)). vm_compute. reflexivity. Defined.

(** ** The schema tables *)

Lemma get_group_strs_from_unknown entries g :
  ~ In g (map fst entries) -> get_group_strs_from entries g = Ok None.
Proof.
  induction entries as [|[g' s] entries IH]; intros Hnot; [reflexivity|].
  cbn [get_group_strs_from fst]. cbn [map fst In] in Hnot.
  destruct (String.eqb_spec g' g) as [-> | _]; [tauto|]. apply IH. tauto.
Qed.

Lemma get_group_strs_from_some entries g strs :
  get_group_strs_from entries g = Ok (Some strs) ->
  exists schema, In (g, schema) entries /\ assoc schema CONFIG_STR = Some strs.
Proof.
  induction entries as [|[g' s] entries IH]; [discriminate|].
  cbn [get_group_strs_from fst snd]. destruct (String.eqb_spec g' g) as [-> | _].
  - unfold CONFIG_STR_get. destruct (assoc s CONFIG_STR) as [strs'|] eqn:Hs; [|discriminate].
    cbn [bind]. intros H. injection H as <-. exists s. split; [left; reflexivity | exact Hs].
  - intros H. destruct (IH H) as (schema & Hin & Hs). exists schema. split; [right|]; assumption.
Qed.

Lemma id_in_strs_In id strs : id_in_strs id strs = true <-> In id (map entry_key strs).
Proof.
  induction strs as [|e strs IH]; cbn [id_in_strs map In]; [split; [discriminate | tauto]|].
  destruct (String.eqb_spec (entry_key e) id) as [-> | Hne]; [tauto|].
  rewrite IH. split; [tauto|]. intros [H | H]; [contradiction | exact H].
Qed.

Lemma is_id_in_group_true id g :
  is_id_in_group id g = Ok true ->
  exists schema strs,
    In (g, schema) CONFIG_MAP /\ assoc schema CONFIG_STR = Some strs
    /\ In id (map entry_key strs).
Proof.
  unfold is_id_in_group, get_group_strs.
  destruct (get_group_strs_from CONFIG_MAP g) as [[strs|]|] eqn:Hg; try discriminate.
  cbn [bind]. intros H. apply Ok_inj in H.
  destruct (get_group_strs_from_some _ _ _ Hg) as (schema & Hin & Hs).
  exists schema, strs. refine (conj Hin (conj Hs _)). apply id_in_strs_In. exact H.
Qed.

Lemma mapped_groups_have_schemas :
  forallb (fun g => match get_group_strs g with
                    | Ok (Some _) => true
                    | _ => false
                    end) (map fst CONFIG_MAP) = true.
Proof. vm_compute. reflexivity. Qed.

Lemma is_id_in_group_mapped id g :
  In g (map fst CONFIG_MAP) -> exists b, is_id_in_group id g = Ok b.
Proof.
  intros Hin. pose proof mapped_groups_have_schemas as H. rewrite forallb_forall in H.
  specialize (H g Hin). unfold is_id_in_group.
  destruct (get_group_strs g) as [[strs|]|]; try discriminate. cbn [bind]. eauto.
Qed.

Lemma id_to_group_key_from_total entries id :
  incl (map fst entries) (map fst CONFIG_MAP) ->
  exists r, id_to_group_key_from entries id = Ok r.
Proof.
  induction entries as [|[g s] entries IH]; intros Hincl; [eexists; reflexivity|].
  assert (Hrest : incl (map fst entries) (map fst CONFIG_MAP)).
  { intros x Hx. apply Hincl. right. exact Hx. }
  cbn [id_to_group_key_from fst]. destruct (startswith id g); [|exact (IH Hrest)].
  destruct (is_id_in_group_mapped (str_drop (String.length g) id) g) as [b ->].
  { apply Hincl. left. reflexivity. }
  cbn [bind]. destruct b; [eexists; reflexivity | exact (IH Hrest)].
Qed.

Lemma id_to_group_key_total id : exists r, id_to_group_key id = Ok r.
Proof.
  unfold id_to_group_key.
  destruct (is_id_in_group_mapped id "sys") as [b ->]; [left; reflexivity|].
  cbn [bind]. destruct b; [eexists; reflexivity|].
  apply id_to_group_key_from_total. apply incl_refl.
Qed.

Lemma id_to_group_key_from_sound entries id g k :
  id_to_group_key_from entries id = Ok (Some (g, k)) ->
  In g (map fst entries) /\ is_id_in_group k g = Ok true /\ id = g ++ k.
Proof.
  induction entries as [|[g' s] entries IH]; [discriminate|].
  cbn [id_to_group_key_from fst map In].
  destruct (startswith id g') eqn:Hstart.
  - destruct (is_id_in_group (str_drop (String.length g') id) g') as [[|]|] eqn:Hfound;
      cbn [bind]; try discriminate.
    + intros H. injection H as <- <-. refine (conj (or_introl eq_refl) (conj Hfound _)).
      apply prefix_drop. exact Hstart.
    + intros H. destruct (IH H) as (Hin & Hk & Hid). tauto.
  - intros H. destruct (IH H) as (Hin & Hk & Hid). tauto.
Qed.

(** X3: Whatever pair [id_to_group_key] returns is a field of the schemas:
    the group is in the Group Mapping, the key is a key of the schema
    the group maps to, and the id is the key alone (for [sys]) or the
    group id followed by the key. *)
Theorem id_to_group_key_sound id g k :
  id_to_group_key id = Ok (Some (g, k)) ->
  (exists schema strs,
      In (g, schema) CONFIG_MAP /\ assoc schema CONFIG_STR = Some strs
      /\ In k (map entry_key strs))
  /\ ((g = "sys" /\ id = k) \/ id = g ++ k).
Proof.
  unfold id_to_group_key.
  destruct (is_id_in_group id "sys") as [[|]|] eqn:Hsys; cbn [bind]; try discriminate.
  - intros H. injection H as <- <-. split; [|left; split; reflexivity].
    apply is_id_in_group_true. exact Hsys.
  - intros H. destruct (id_to_group_key_from_sound _ _ _ _ H) as (_ & Hk & Hid).
    split; [|right; exact Hid]. apply is_id_in_group_true. exact Hk.
Qed.

Lemma id_to_group_key_sound_witness :
  (exists schema strs,
      In ("1", schema) CONFIG_MAP /\ assoc schema CONFIG_STR = Some strs
      /\ In "mi" (map entry_key strs))
  /\ (("1" = "sys" /\ "1mi" = "mi") \/ "1mi" = "1" ++ "mi").
Proof. apply (id_to_group_key_sound "1mi" "1" "mi"). vm_compute. reflexivity. Defined.

(** X4: [id_to_group_key] never raises: for every text it returns a pair or
    [None], since every group of the Group Mapping has its schema. *)
Theorem id_to_group_key_never_raises id :
  exists r, id_to_group_key id = Ok r.
Proof. apply id_to_group_key_total. Qed.

(** X5: [is_id_in_group] with a group id that is not in the Group Mapping
    raises TypeError: [get_group_strs] returns [None], and the loop
    iterates over it. *)
Theorem is_id_in_group_unknown_group id g :
  ~ In g (map fst CONFIG_MAP) ->
  get_group_strs g = Ok None /\ is_id_in_group id g = Raise TypeError.
Proof.
  intros Hnot. unfold is_id_in_group, get_group_strs.
  rewrite (get_group_strs_from_unknown _ _ Hnot). split; reflexivity.
Qed.

Lemma is_id_in_group_unknown_group_witness :
  get_group_strs "q" = Ok None /\ is_id_in_group "fb" "q" = Raise TypeError.
Proof.
  apply (is_id_in_group_unknown_group "fb" "q").
  cbn [CONFIG_MAP map fst In]. intros H.
  repeat (destruct H as [H | H]; [discriminate H|]). exact H.
Defined.

(** ** Reading a text dump *)

Lemma read_text_line_other config line :
  line <> "" -> starts_with_bracket line = false -> read_text_line config line = Ok config.
Proof.
  destruct line as [|c rest]; [contradiction|]. intros _ H.
  cbn [starts_with_bracket] in H. unfold read_text_line. rewrite H. reflexivity.
Qed.

(** X6: [read_text] looks only at the lines that start with a bracket: the
    other lines of a file (none of which is empty, each ending in its
    newline) change nothing, wherever they stand. *)
Theorem read_text_skips_other_lines lines :
  Forall (fun line => line <> "") lines ->
  forall config,
    read_text config lines = read_text config (filter starts_with_bracket lines).
Proof.
  induction 1 as [|line lines Hne _ IH]; intros config; [reflexivity|].
  cbn [read_text filter]. destruct (starts_with_bracket line) eqn:Hb.
  - cbn [read_text]. destruct (read_text_line config line) as [config'|e]; cbn [bind];
      [apply IH | reflexivity].
  - rewrite (read_text_line_other _ _ Hne Hb). cbn [bind]. apply IH.
Qed.

Lemma read_text_skips_other_lines_witness :
  read_text [] text_lines = read_text [] (filter starts_with_bracket text_lines).
Proof.
  apply (read_text_skips_other_lines text_lines).
  repeat constructor; discriminate.
Defined.

Lemma read_text_line_bracket config rest :
  read_text_line config (String "[" rest)
  = match re_search_bracket (hd "" (fields_of (String "[" rest))) with
    | None => Raise AttributeError
    | Some key =>
        val_str <-
          (if String.eqb key "id" then
             match nth_error (fields_of (String "[" rest)) 3 with
             | Some field => Ok (Some field)
             | None => Raise IndexError
             end
           else Ok (first_number (tl (fields_of (String "[" rest))))) ;;
        resolved <- id_to_group_key key ;;
        match resolved, val_str with
        | None, _ => Raise TypeError
        | Some _, None => Raise TypeError
        | Some (group_id, group_key), Some s =>
            add_group config (PDict [(group_id, PDict [(group_key, get_val s)])])
        end
    end.
Proof. reflexivity. Qed.

Lemma id_resolves : id_to_group_key "id" = Ok (Some ("sys", "id")).
Proof. vm_compute. reflexivity. Qed.

(** X7: A line whose bracketed key names no field of the schemas makes
    [read_text] raise TypeError: [id_to_group_key] returns [None], which
    cannot be unpacked into a pair. *)
Theorem read_text_unknown_key config rest key lines :
  re_search_bracket (hd "" (fields_of (String "[" rest))) = Some key ->
  id_to_group_key key = Ok None ->
  read_text config (String "[" rest :: lines) = Raise TypeError.
Proof.
  intros Hkey Hnone. cbn [read_text]. rewrite read_text_line_bracket, Hkey.
  destruct (String.eqb_spec key "id") as [-> | _].
  - rewrite id_resolves in Hnone. discriminate Hnone.
  - cbn [bind]. rewrite Hnone. reflexivity.
Qed.

Lemma read_text_unknown_key_witness :
  read_text [] ["[zz]  no such field             5" ++ String newline ""; "[fb] 1"]
  = Raise TypeError.
Proof.
  apply (read_text_unknown_key [] _ "zz"); vm_compute; reflexivity.
Defined.

Lemma first_number_none fields :
  forallb (fun field => negb (is_number field)) fields = true -> first_number fields = None.
Proof.
  induction fields as [|f fields IH]; [reflexivity|].
  cbn [forallb first_number]. rewrite andb_true_iff. intros [Hf Hrest].
  apply negb_true_iff in Hf. rewrite Hf. exact (IH Hrest).
Qed.

Lemma first_number_some fields tok :
  first_number fields = Some tok -> In tok fields /\ is_number tok = true.
Proof.
  induction fields as [|f fields IH]; [discriminate|].
  cbn [first_number]. destruct (is_number f) eqn:Hf.
  - intros H. injection H as <-. split; [left; reflexivity | exact Hf].
  - intros H. destruct (IH H) as [Hin Hnum]. split; [right|]; assumption.
Qed.

(** X8: A line for a key other than [id] in which no field after the first
    looks like a number makes [read_text] raise TypeError: the value
    string stays [None], and [get_val(None)] calls [int(None)]. *)
Theorem read_text_no_number config rest key lines :
  re_search_bracket (hd "" (fields_of (String "[" rest))) = Some key ->
  key <> "id" ->
  forallb (fun field => negb (is_number field)) (tl (fields_of (String "[" rest))) = true ->
  read_text config (String "[" rest :: lines) = Raise TypeError.
Proof.
  intros Hkey Hid Hnone. cbn [read_text]. rewrite read_text_line_bracket, Hkey.
  apply String.eqb_neq in Hid. rewrite Hid, (first_number_none _ Hnone). cbn [bind].
  destruct (id_to_group_key_total key) as [[[g k]|] ->]; reflexivity.
Qed.

Lemma read_text_no_number_witness :
  read_text [] ["[fb]  firmware build" ++ String newline ""] = Raise TypeError.
Proof.
  apply (read_text_no_number [] _ "fb"); [vm_compute; reflexivity | discriminate |].
  vm_compute. reflexivity.
Defined.

(** X9: A line for [id] with fewer than four fields makes [read_text] raise
    IndexError: the value of [id] is looked for in the fourth field. *)
Theorem read_text_id_too_short config rest lines :
  re_search_bracket (hd "" (fields_of (String "[" rest))) = Some "id" ->
  (List.length (fields_of (String "[" rest)) < 4)%nat ->
  read_text config (String "[" rest :: lines) = Raise IndexError.
Proof.
  intros Hkey Hlen. cbn [read_text]. rewrite read_text_line_bracket, Hkey.
  cbn [String.eqb Ascii.eqb Bool.eqb].
  destruct (nth_error (fields_of (String "[" rest)) 3) as [field|] eqn:Hnth; [|reflexivity].
  assert (Hsome : nth_error (fields_of (String "[" rest)) 3 <> None) by (rewrite Hnth; discriminate).
  apply nth_error_Some in Hsome. lia.
Qed.

Lemma read_text_id_too_short_witness :
  read_text [] ["[id]  ID 9H3583-PXN" ++ String newline ""] = Raise IndexError.
Proof.
  apply (read_text_id_too_short [] _ []); [vm_compute; reflexivity|].
  vm_compute. lia.
Defined.

(** X10: For a key other than [id], what [read_text] stores is never a
    string: it merges, for the field the key resolves to, the first
    field after the key that looks like a number, read by [get_val] as
    an integer or a float. *)
Theorem read_text_stores_a_number config rest key g k tok :
  re_search_bracket (hd "" (fields_of (String "[" rest))) = Some key ->
  key <> "id" ->
  id_to_group_key key = Ok (Some (g, k)) ->
  first_number (tl (fields_of (String "[" rest))) = Some tok ->
  read_text_line config (String "[" rest)
  = add_group config (PDict [(g, PDict [(k, get_val tok)])])
  /\ ((exists z, get_val tok = PInt z) \/ (exists f, get_val tok = PFloat f)).
Proof.
  intros Hkey Hid Hres Htok. split.
  - rewrite read_text_line_bracket, Hkey. apply String.eqb_neq in Hid.
    rewrite Hid, Htok. cbn [bind]. rewrite Hres. reflexivity.
  - destruct (first_number_some _ _ Htok) as [_ Hnum]. unfold is_number in Hnum.
    unfold get_val. destruct (py_int tok) as [z|]; [left; eauto|].
    destruct (py_float tok) as [f|]; [right; eauto | discriminate].
Qed.

Lemma read_text_stores_a_number_witness :
  read_text_line [] ("[xvm] x velocity maximum 16000 mm/min" ++ String newline "")
  = add_group [] (PDict [("x", PDict [("vm", get_val "16000")])])
  /\ ((exists z, get_val "16000" = PInt z) \/ (exists f, get_val "16000" = PFloat f)).
Proof.
  apply (read_text_stores_a_number [] _ "xvm" "x" "vm" "16000");
    [vm_compute; reflexivity | discriminate | vm_compute; reflexivity | vm_compute; reflexivity].
Defined.

(** ** Merging groups into the store *)

Lemma dict_keys_dict_set {A : Type} g (v : A) d :
  dict_keys (dict_set g v d) = if dict_mem g d then dict_keys d else (dict_keys d ++ [g])%list.
Proof.
  unfold dict_mem, dict_keys. induction d as [|[k w] d IH]; [reflexivity|].
  cbn [dict_set assoc]. destruct (String.eqb k g); [reflexivity|].
  cbn [map fst]. rewrite IH. destruct (assoc g d); reflexivity.
Qed.



(** X12: [add_group] keeps the store well formed: merging groups of scalars
    (integers, strings and floats that JSON reads back) into a store of
    such groups never raises, and gives a store of such groups with
    distinct keys. *)
Theorem add_group_keeps_store_well_formed config groups :
  store_ok config = true ->
  forallb (fun kv => group_ok (snd kv)) groups = true ->
  exists config', add_group config (PDict groups) = Ok config' /\ store_ok config' = true.
Proof. apply add_group_store_ok. Qed.

Lemma add_group_keeps_store_well_formed_witness :
  exists config',
    add_group sample_config (PDict [("y", PDict [("vm", PInt 3)]); ("x", PDict [("vm", PInt 4)])])
    = Ok config'
    /\ store_ok config' = true.
Proof.
  apply (add_group_keeps_store_well_formed sample_config); vm_compute; reflexivity.
Defined.

(** X13: [add_group] does not check what it stores: a payload that maps a
    new group to a scalar is stored as it is, and from then on
    [get_group] on that group raises AttributeError (a scalar has no
    [copy]), and merging into that group raises AttributeError too (it
    has no [update]). *)
Theorem add_group_stores_scalars_unchecked config g v d :
  assoc g config = None ->
  match v with PInt _ | PFloat _ | PStr _ | PBool _ | PNone => True | _ => False end ->
  exists config',
    add_group config (PDict [(g, v)]) = Ok config'
    /\ assoc g config' = Some v
    /\ get_group config' g = Raise AttributeError
    /\ add_group config' (PDict [(g, PDict d)]) = Raise AttributeError.
Proof.
  intros Hnone Hv. unfold add_group at 1, add_group_items, add_group_item. rewrite Hnone.
  cbn [bind]. eexists. refine (conj eq_refl _).
  assert (Hget : assoc g (dict_set g v config) = Some v).
  { rewrite assoc_dict_set, String.eqb_refl. reflexivity. }
  refine (conj Hget (conj _ _)).
  - unfold get_group. rewrite Hget. destruct v; try reflexivity; destruct Hv.
  - unfold add_group, add_group_items, add_group_item. rewrite Hget.
    destruct v; try reflexivity; destruct Hv.
Qed.

Lemma add_group_stores_scalars_unchecked_witness :
  exists config',
    add_group [] (PDict [("x", PInt 5)]) = Ok config'
    /\ assoc "x" config' = Some (PInt 5)
    /\ get_group config' "x" = Raise AttributeError
    /\ add_group config' (PDict [("x", PDict [("vm", PInt 1)])]) = Raise AttributeError.
Proof.
  apply (add_group_stores_scalars_unchecked [] "x" (PInt 5) [("vm", PInt 1)]);
    [reflexivity | exact I].
Defined.

(** ** Writing the configuration to the device *)

Lemma slices_spec rounds :
  forall d : pydict,
    (List.length d <= rounds)%nat ->
    List.concat (slices rounds d) = d
    /\ Forall (fun c : pydict => (1 <= List.length c <= 10)%nat) (slices rounds d).
Proof.
  induction rounds as [|rounds IH]; intros d Hlen.
  - destruct d; [split; [reflexivity | constructor] | cbn in Hlen; lia].
  - destruct d as [|kv d]; [split; [reflexivity | constructor]|].
    cbn [slices]. cbn [List.concat].
    destruct (IH (skipn 10 (kv :: d))) as [Hcat Hall].
    { rewrite length_skipn. cbn [List.length] in *. lia. }
    rewrite Hcat, firstn_skipn. split; [reflexivity|].
    constructor; [|exact Hall]. rewrite length_firstn. cbn [List.length]. lia.
Qed.

(** The loop over the chunks, when every chunk is acknowledged. *)
Lemma write_chunks_all_acknowledged group_id (filtered : pydict) :
  NoDup (dict_keys filtered) ->
  forall fuel m acks rest snt prt,
    (List.length (skipn m filtered) <= fuel)%nat ->
    Forall acknowledgement acks ->
    List.length acks = List.length (slices fuel (skipn m filtered)) ->
    write_chunks fuel group_id filtered (skipn m (dict_keys filtered))
                 (mk_port (acks ++ rest) snt prt)
    = (Ok tt,
       mk_port rest (snt ++ map (set_line group_id) (slices fuel (skipn m filtered))) prt).
Proof.
  intros Hnd. induction fuel as [|fuel IH]; intros m acks rest snt prt Hlen Hacks Hn.
  - assert (Hnil : skipn m filtered = []).
    { destruct (skipn m filtered); [reflexivity | cbn in Hlen; lia]. }
    unfold dict_keys. rewrite skipn_map, Hnil in *. cbn [map slices List.length] in *.
    destruct acks; [|discriminate]. cbn [write_chunks List.app]. rewrite app_nil_r. reflexivity.
  - pose proof (chunk_dict_slice filtered 10 m Hnd) as Hchunk.
    assert (Hkeys : skipn m (dict_keys filtered) = map fst (skipn m filtered)).
    { unfold dict_keys. apply skipn_map. }
    assert (Hnext : skipn 10 (skipn m (dict_keys filtered)) = skipn (10 + m) (dict_keys filtered)).
    { apply skipn_skipn. }
    assert (Hnext' : skipn 10 (skipn m filtered) = skipn (10 + m) filtered).
    { apply skipn_skipn. }
    specialize (IH (10 + m)%nat). rewrite <- Hnext, <- Hnext' in IH.
    revert Hchunk IH. rewrite Hkeys. clear Hkeys Hnext Hnext'.
    destruct (skipn m filtered) as [|[k v] items]; intros Hchunk IH.
    + cbn [map slices List.length] in *. destruct acks; [|discriminate].
      cbn [write_chunks List.app]. rewrite app_nil_r. reflexivity.
    + cbn [slices List.length] in Hn. destruct acks as [|line acks]; [discriminate|].
      cbn [List.length] in Hn. injection Hn as Hn.
      inversion Hacks as [|? ? (r & Hreply & Htruthy) Hacks']; subst.
      cbn [map fst] in Hchunk, IH |- *.
      change ((line :: acks) ++ rest)%list with (line :: (acks ++ rest))%list.
      rewrite (write_chunks_acknowledged _ _ _ _ _ _ _ _ _ _ _ Hchunk Hreply Htruthy).
      rewrite IH; [| | exact Hacks' | exact Hn].
      * cbn [slices map]. rewrite <- app_assoc. reflexivity.
      * rewrite length_skipn. cbn [List.length] in *. lia.
Qed.

(** X14: A group whose chunks are all acknowledged is written in consecutive
    slices of ten of its fields that are not read-only, in the order of
    the stored dictionary: one set command per slice, none with more
    than ten fields, and nothing else is sent or printed. *)
Theorem write_group_acknowledged group_id config group_config acks rest snt prt :
  get_group config group_id = Ok (Some group_config) ->
  NoDup (dict_keys group_config) ->
  Forall acknowledgement acks ->
  List.length acks
  = List.length (slices_of_ten (remove_read_only group_id group_config)) ->
  write_group group_id config (mk_port (acks ++ rest) snt prt)
  = (Ok tt,
     mk_port rest
             (snt ++ map (set_line group_id)
                         (slices_of_ten (remove_read_only group_id group_config)))
             prt)
  /\ List.concat (slices_of_ten (remove_read_only group_id group_config))
     = filter (fun kv => negb (is_read_only group_id (fst kv))) group_config
  /\ Forall (fun c : pydict => (1 <= List.length c <= 10)%nat)
            (slices_of_ten (remove_read_only group_id group_config)).
Proof.
  intros Hget Hnd Hacks Hn.
  destruct (slices_spec (List.length (remove_read_only group_id group_config))
                        (remove_read_only group_id group_config) (le_n _)) as [Hcat Hall].
  split; [|split; [|exact Hall]].
  - destruct group_config as [|kv group_config].
    + assert (Hempty : remove_read_only group_id [] = []).
      { unfold remove_read_only. destruct (assoc group_id CONFIG_READ_ONLY) as [ro|]; [|reflexivity].
        induction ro as [|k ro IH]; [reflexivity | exact IH]. }
      rewrite Hempty in *. cbn in Hn. destruct acks; [|discriminate].
      unfold write_group, dbind, lift. rewrite Hget. cbn [List.app map slices_of_ten slices].
      rewrite app_nil_r. reflexivity.
    + rewrite (write_group_unfold _ _ _ _ Hget) by discriminate.
      assert (Hkeys : List.length (dict_keys (remove_read_only group_id (kv :: group_config)))
                      = List.length (remove_read_only group_id (kv :: group_config))).
      { unfold dict_keys. apply length_map. }
      rewrite Hkeys.
      apply (write_chunks_all_acknowledged group_id
               (remove_read_only group_id (kv :: group_config))
               (NoDup_remove_read_only _ _ Hnd)
               (List.length (remove_read_only group_id (kv :: group_config)))
               0 acks rest snt prt); [apply le_n | exact Hacks | exact Hn].
  - unfold slices_of_ten. rewrite Hcat. apply remove_read_only_filter. exact Hnd.
Qed.

Lemma group23_keys_distinct : NoDup (dict_keys group23).
Proof. apply unique_keys_NoDup. vm_compute. reflexivity. Qed.

Lemma ack_line_acknowledges : acknowledgement ack_line.
Proof. exists ack_payload. split; [exact ack_line_reply | reflexivity]. Qed.

Lemma write_group_acknowledged_witness :
  write_group "x" config23 (mk_port ([ack_line; ack_line; ack_line] ++ []) [] [])
  = (Ok tt,
     mk_port [] ([] ++ map (set_line "x") (slices_of_ten (remove_read_only "x" group23))) [])
  /\ List.concat (slices_of_ten (remove_read_only "x" group23))
     = filter (fun kv => negb (is_read_only "x" (fst kv))) group23
  /\ Forall (fun c : pydict => (1 <= List.length c <= 10)%nat)
            (slices_of_ten (remove_read_only "x" group23)).
Proof.
  apply (write_group_acknowledged "x" config23 group23 [ack_line; ack_line; ack_line] [] [] []).
  - reflexivity.
  - exact group23_keys_distinct.
  - repeat constructor; exact ack_line_acknowledges.
  - vm_compute. reflexivity.
Defined.

(** X15: The read-only fields are removed and nothing else: the fields left
    are those of the group that are not read-only, in their order, with
    their values; and a group without a read-only set is left as it
    is. *)
Theorem remove_read_only_keeps_the_rest group_id (d : pydict) :
  NoDup (dict_keys d) ->
  remove_read_only group_id d = filter (fun kv => negb (is_read_only group_id (fst kv))) d
  /\ (forall k, dict_mem k (remove_read_only group_id d) = true ->
                is_read_only group_id k = false)
  /\ (assoc group_id CONFIG_READ_ONLY = None -> remove_read_only group_id d = d).
Proof.
  intros Hnd. pose proof (remove_read_only_filter group_id d Hnd) as Hfilter.
  refine (conj Hfilter (conj _ _)).
  - intros k Hmem. rewrite Hfilter in Hmem. unfold dict_mem in Hmem.
    destruct (assoc k (filter (fun kv => negb (is_read_only group_id (fst kv))) d))
      as [v|] eqn:Hget; [|discriminate].
    apply assoc_Some_In in Hget. apply filter_In in Hget. destruct Hget as [_ Hk].
    cbn [fst] in Hk. apply negb_true_iff in Hk. exact Hk.
  - intros Hnone. unfold remove_read_only. rewrite Hnone. reflexivity.
Qed.

Lemma remove_read_only_keeps_the_rest_witness :
  remove_read_only "sys" [("fb", PInt 1); ("ja", PInt 2); ("id", PStr "a"); ("st", PInt 0)]
  = filter (fun kv => negb (is_read_only "sys" (fst kv)))
           [("fb", PInt 1); ("ja", PInt 2); ("id", PStr "a"); ("st", PInt 0)]
  /\ (forall k,
         dict_mem k (remove_read_only "sys"
                       [("fb", PInt 1); ("ja", PInt 2); ("id", PStr "a"); ("st", PInt 0)]) = true ->
         is_read_only "sys" k = false)
  /\ (assoc "sys" CONFIG_READ_ONLY = None ->
      remove_read_only "sys" [("fb", PInt 1); ("ja", PInt 2); ("id", PStr "a"); ("st", PInt 0)]
      = [("fb", PInt 1); ("ja", PInt 2); ("id", PStr "a"); ("st", PInt 0)]).
Proof.
  apply (remove_read_only_keeps_the_rest "sys"
           [("fb", PInt 1); ("ja", PInt 2); ("id", PStr "a"); ("st", PInt 0)]).
  apply unique_keys_NoDup. vm_compute. reflexivity.
Defined.

Lemma write_group_nothing_left group_id config d st :
  assoc group_id config = Some (PDict d) ->
  NoDup (dict_keys d) ->
  forallb (fun kv => is_read_only group_id (fst kv)) d = true ->
  write_group group_id config st = (Ok tt, st).
Proof.
  intros Hget Hnd Hro. destruct d as [|kv d].
  - unfold write_group, dbind, lift, get_group. rewrite Hget. reflexivity.
  - assert (Hgg : get_group config group_id = Ok (Some (kv :: d))).
    { unfold get_group. rewrite Hget. reflexivity. }
    rewrite (write_group_unfold _ _ _ _ Hgg) by discriminate.
    rewrite (remove_read_only_filter _ _ Hnd).
    assert (Hnil : filter (fun kv0 => negb (is_read_only group_id (fst kv0))) (kv :: d) = []).
    { clear -Hro. induction (kv :: d) as [|x l IH]; [reflexivity|].
      cbn [forallb] in Hro. apply andb_true_iff in Hro. destruct Hro as [Hx Hl].
      cbn [filter]. rewrite Hx. cbn [negb]. exact (IH Hl). }
    rewrite Hnil. reflexivity.
Qed.

(** X16: [write_config] sends nothing, reads nothing and prints nothing when
    every group of the Group Mapping is absent from the store, or holds
    read-only fields only (an empty group among them). *)
Theorem write_config_nothing_to_write config st :
  (forall g, In g (map fst CONFIG_MAP) ->
             assoc g config = None
             \/ exists d, assoc g config = Some (PDict d) /\ NoDup (dict_keys d)
                          /\ forallb (fun kv => is_read_only g (fst kv)) d = true) ->
  write_config config st = (Ok tt, st).
Proof.
  unfold write_config. generalize CONFIG_MAP as entries.
  induction entries as [|[g s] entries IH]; intros H; [reflexivity|].
  cbn [write_config_from fst]. unfold dbind.
  assert (Hg : write_group g config st = (Ok tt, st)).
  { destruct (H g (or_introl eq_refl)) as [Hnone | (d & Hget & Hnd & Hro)].
    - apply write_group_absent. exact Hnone.
    - apply (write_group_nothing_left _ _ d); assumption. }
  rewrite Hg. apply IH. intros g' Hin. apply H. right. exact Hin.
Qed.

Lemma write_config_nothing_to_write_witness :
  write_config read_only_config (fresh_port []) = (Ok tt, fresh_port []).
Proof.
  apply (write_config_nothing_to_write read_only_config (fresh_port [])).
  intros g Hin. destruct (String.eqb_spec g "sys") as [-> | Hne].
  - right. eexists. split; [reflexivity|]. split; [|reflexivity].
    apply unique_keys_NoDup. reflexivity.
  - left. unfold read_only_config. cbn [assoc].
    apply String.eqb_neq in Hne. rewrite String.eqb_sym, Hne. reflexivity.
Defined.

(** ** Reading the configuration from the device, as a whole *)

Lemma read_config_from_silent entries :
  forall config snt prt,
    read_config_from entries config (mk_port [] snt prt)
    = (Ok config,
       mk_port [] (snt ++ map query_line (map fst entries))
               (prt ++ repeat "Timed out" (List.length entries))).
Proof.
  induction entries as [|[g s] entries IH]; intros config snt prt.
  - cbn. rewrite !app_nil_r. reflexivity.
  - cbn [read_config_from fst]. unfold dbind. rewrite read_config_group_unfold.
    rewrite (read_response_timeout [] _ _ (or_introl eq_refl)).
    cbn [truthy after_timeout tl]. rewrite IH.
    cbn [map fst List.length repeat]. rewrite <- !app_assoc. reflexivity.
Qed.

(** X17: With a device that sends nothing, [read_config] still queries every
    group of the Group Mapping, in its order, prints one [Timed out]
    per group, raises nothing and leaves the store as it was. *)
Theorem read_config_silent_device config snt prt :
  read_config config (mk_port [] snt prt)
  = (Ok config,
     mk_port [] (snt ++ map query_line (map fst CONFIG_MAP))
             (prt ++ repeat "Timed out" (List.length CONFIG_MAP))).
Proof. apply read_config_from_silent. Qed.

Lemma read_config_from_answers entries :
  forall config lines payloads rest snt prt config',
    Forall2 answers lines payloads ->
    List.length lines = List.length entries ->
    add_groups config payloads = Ok config' ->
    read_config_from entries config (mk_port (lines ++ rest) snt prt)
    = (Ok config', mk_port rest (snt ++ map query_line (map fst entries)) prt).
Proof.
  induction entries as [|[g s] entries IH];
    intros config lines payloads rest snt prt config' Hall Hlen Hadd.
  - destruct lines; [|discriminate]. inversion Hall; subst. cbn in Hadd. apply Ok_inj in Hadd.
    subst. cbn. rewrite app_nil_r. reflexivity.
  - destruct lines as [|line lines]; [discriminate|]. injection Hlen as Hlen.
    inversion Hall as [|? r ? payloads' [Hreply Htruthy] Hall']; subst.
    cbn [add_groups] in Hadd. apply bind_inv in Hadd. destruct Hadd as (config1 & Hadd1 & Hadd).
    cbn [read_config_from fst]. unfold dbind. rewrite read_config_group_unfold.
    change ((line :: lines) ++ rest)%list with (line :: (lines ++ rest))%list.
    rewrite (read_response_reply _ _ _ _ _ Hreply), Htruthy, Hadd1.
    rewrite (IH config1 lines payloads' rest _ prt config' Hall' Hlen Hadd).
    cbn [map fst]. rewrite <- app_assoc. reflexivity.
Qed.

(** X18: With a device that answers every query with one reply, [read_config]
    sends one query per group of the Group Mapping, in its order, takes
    one reply per query, and returns the store into which the payloads
    of the replies were merged one after the other. *)
Theorem read_config_merges_answers config lines payloads rest snt prt config' :
  Forall2 answers lines payloads ->
  List.length lines = List.length CONFIG_MAP ->
  add_groups config payloads = Ok config' ->
  read_config config (mk_port (lines ++ rest) snt prt)
  = (Ok config', mk_port rest (snt ++ map query_line (map fst CONFIG_MAP)) prt).
Proof. apply read_config_from_answers. Qed.

Lemma r_line_answers : answers r_line x_payload.
Proof. split; [exact r_line_reply | reflexivity]. Qed.

Lemma read_config_merges_answers_witness :
  read_config [] (mk_port (all_answers ++ []) [] [])
  = (Ok [("x", PDict [("vm", PInt 500)])],
     mk_port [] ([] ++ map query_line (map fst CONFIG_MAP)) []).
Proof.
  apply (read_config_merges_answers [] all_answers all_payloads [] [] []).
  - unfold all_answers, all_payloads. generalize (List.length CONFIG_MAP) as n.
    induction n as [|n IH]; constructor; [exact r_line_answers | exact IH].
  - unfold all_answers. apply repeat_length.
  - vm_compute. reflexivity.
Defined.

Lemma read_response_malformed line e rest snt prt :
  line <> "" -> ascii_line line = true -> json_loads line = Raise e ->
  read_response (mk_port (line :: rest) snt prt) = (Raise e, mk_port rest snt prt).
Proof.
  intros Hne Hascii Hloads. rewrite read_response_unfold. unfold dbind.
  rewrite (recv_json_line _ _ _ _ Hne Hascii), Hloads. reflexivity.
Qed.

(** X19: A received line that is not JSON ends [read_config] with the error
    of [json.loads]: the status reports before it are skipped, the line
    is consumed, nothing is merged, and the groups that follow in the
    Group Mapping are not queried. *)
Theorem read_config_malformed_line group schema entries config skipped line e rest snt prt :
  Forall status_line skipped ->
  line <> "" -> ascii_line line = true -> json_loads line = Raise e ->
  read_config_from ((group, schema) :: entries) config
                   (mk_port (skipped ++ line :: rest) snt prt)
  = (Raise e, mk_port rest (snt ++ [query_line group]) prt).
Proof.
  intros Hskipped Hne Hascii Hloads. cbn [read_config_from fst]. unfold dbind.
  rewrite read_config_group_unfold, (read_response_skip _ _ _ _ Hskipped).
  rewrite (read_response_malformed _ _ _ _ _ Hne Hascii Hloads). reflexivity.
Qed.

Lemma read_config_malformed_line_witness :
  read_config_from (("sys", "sys") :: [("1", "1")]) []
                   (mk_port ([sr_line] ++ "tinyg [mm] ok>" :: [r_line]) [] [])
  = (Raise ValueError, mk_port [r_line] ([] ++ [query_line "sys"]) []).
Proof.
  apply (read_config_malformed_line "sys" "sys" [("1", "1")] [] [sr_line] "tinyg [mm] ok>").
  - exact (Forall_cons _ sr_line_status (Forall_nil _)).
  - discriminate.
  - reflexivity.
  - vm_compute. reflexivity.
Defined.

(** A received line with a byte above 127 ends [read_config] with
    ValueError (the line does not decode as ASCII), in the same way. *)
Theorem read_config_undecodable_line group schema entries config line rest snt prt :
  ascii_line line = false ->
  read_config_from ((group, schema) :: entries) config (mk_port (line :: rest) snt prt)
  = (Raise ValueError, mk_port rest (snt ++ [query_line group]) prt).
Proof.
  intros Hascii. cbn [read_config_from fst]. unfold dbind.
  rewrite read_config_group_unfold, read_response_unfold. unfold dbind, recv_json, dbind, readline.
  cbn [incoming mk_port]. rewrite Hascii. reflexivity.
Qed.

Lemma read_config_undecodable_line_witness :
  read_config_from (("sys", "sys") :: []) []
                   (mk_port (String (chr 200) "" :: []) [] [])
  = (Raise ValueError, mk_port [] ([] ++ [query_line "sys"]) []).
Proof.
  apply (read_config_undecodable_line "sys" "sys" [] [] (String (chr 200) "")).
  reflexivity.
Defined.

(** ** The text dump, as a whole *)

Lemma mapM_length {A B : Type} (f : A -> res B) (l : list A) (ys : list B) :
  mapM f l = Ok ys -> List.length ys = List.length l.
Proof.
  revert ys. induction l as [|x l IH]; intros ys H.
  - apply Ok_inj in H. subst. reflexivity.
  - cbn [mapM] in H. apply bind_inv in H. destruct H as (y & _ & H).
    apply bind_inv in H. destruct H as (ys' & Hys & H). apply Ok_inj in H. subst.
    cbn [List.length]. f_equal. apply IH. exact Hys.
Qed.

(** X20: [dump_formatted] prints one line per field that the store holds and
    the schema of its group knows, in the order of the Group Mapping
    and, within a group, of its schema, whatever the order of the
    store: the lines are those of [format_line] for the displayed
    fields, and the first field whose line raises ends the dump. *)
Theorem dump_formatted_line_per_field config :
  groups_are_dicts config = true ->
  dump_formatted config = mapM format_field (displayed config)
  /\ forall lines, dump_formatted config = Ok lines ->
                   List.length lines = List.length (displayed config).
Proof.
  intros Hgroups. pose proof (dump_formatted_fields config Hgroups) as H.
  split; [exact H|]. intros lines Hlines. rewrite H in Hlines.
  apply (mapM_length _ _ _ Hlines).
Qed.

Lemma dump_formatted_line_per_field_witness :
  dump_formatted show_config = mapM format_field (displayed show_config)
  /\ forall lines, dump_formatted show_config = Ok lines ->
                   List.length lines = List.length (displayed show_config).
Proof. apply (dump_formatted_line_per_field show_config). vm_compute. reflexivity. Defined.

Lemma dump_formatted_from_ext entries config1 config2 :
  (forall p, In p (map fst entries) -> assoc p config1 = assoc p config2) ->
  dump_formatted_from entries config1 = dump_formatted_from entries config2.
Proof.
  induction entries as [|[p m] entries IH]; intros H; [reflexivity|].
  cbn [dump_formatted_from fst snd].
  rewrite (H p (or_introl eq_refl)), IH by (intros q Hq; apply H; right; exact Hq).
  reflexivity.
Qed.

(** X21: A group that is not in the Group Mapping is never printed: adding
    it to the store, or changing it, whatever its value, leaves the
    output of [dump_formatted] as it was. *)
Theorem dump_formatted_ignores_unknown_groups config g v :
  ~ In g (map fst CONFIG_MAP) ->
  dump_formatted (dict_set g v config) = dump_formatted config.
Proof.
  intros Hnot. apply dump_formatted_from_ext. intros p Hp.
  rewrite assoc_dict_set. destruct (String.eqb_spec g p) as [-> | _]; [contradiction | reflexivity].
Qed.

Lemma dump_formatted_ignores_unknown_groups_witness :
  dump_formatted (dict_set "q" (PInt 1) show_config) = dump_formatted show_config.
Proof.
  apply (dump_formatted_ignores_unknown_groups show_config "q" (PInt 1)).
  cbn [CONFIG_MAP map fst In]. intros H.
  repeat (destruct H as [H | H]; [discriminate H|]). exact H.
Defined.

Lemma dump_group_ignores_key p m k v d strs :
  ~ In k (map entry_key strs) ->
  dump_group p m (PDict (dict_set k v d)) strs = dump_group p m (PDict d) strs.
Proof.
  induction strs as [|e strs IH]; intros Hnot; [reflexivity|].
  cbn [map In] in Hnot. cbn [dump_group py_contains py_getitem bind].
  rewrite dict_mem_dict_set, assoc_dict_set.
  destruct (String.eqb_spec k (entry_key e)) as [Heq | _];
    [exfalso; apply Hnot; left; symmetry; exact Heq|].
  cbn [orb]. rewrite IH by tauto. reflexivity.
Qed.

Lemma dump_formatted_from_ignores_key entries g k v d config :
  assoc g config = Some (PDict d) ->
  (forall m strs, In (g, m) entries -> assoc m CONFIG_STR = Some strs ->
                  ~ In k (map entry_key strs)) ->
  dump_formatted_from entries (dict_set g (PDict (dict_set k v d)) config)
  = dump_formatted_from entries config.
Proof.
  intros Hget. induction entries as [|[p m] entries IH]; intros Hkeys; [reflexivity|].
  cbn [dump_formatted_from fst snd].
  rewrite IH by (intros m' strs Hin; apply Hkeys; right; exact Hin).
  rewrite assoc_dict_set. destruct (String.eqb_spec g p) as [<- | _]; [|reflexivity].
  rewrite Hget. unfold CONFIG_STR_get.
  destruct (assoc m CONFIG_STR) as [strs|] eqn:Hm; [|reflexivity].
  cbn [bind]. rewrite (dump_group_ignores_key g m k v d strs); [reflexivity|].
  apply (Hkeys m strs); [left; reflexivity | exact Hm].
Qed.

Lemma existsb_pair_false g k (fields : list (string * string * str_entry)) f :
  existsb (pair_eqb (g, k)) (map field_id fields) = false ->
  In f fields -> field_id f <> (g, k).
Proof.
  intros Hex Hin Heq.
  assert (Htrue : existsb (pair_eqb (g, k)) (map field_id fields) = true).
  { apply existsb_exists. exists (field_id f). split; [apply in_map; exact Hin|].
    rewrite Heq. unfold pair_eqb. cbn [fst snd]. rewrite !String.eqb_refl. reflexivity. }
  rewrite Htrue in Hex. discriminate Hex.
Qed.

(** X22: A key that the schema of its group does not know is never printed:
    setting it in a group of the store leaves the output of
    [dump_formatted] as it was. *)
Theorem dump_formatted_ignores_unknown_keys config g d k v :
  assoc g config = Some (PDict d) ->
  existsb (pair_eqb (g, k)) (map field_id all_fields) = false ->
  dump_formatted (dict_set g (PDict (dict_set k v d)) config) = dump_formatted config.
Proof.
  intros Hget Hunknown. apply dump_formatted_from_ignores_key; [exact Hget|].
  intros m strs Hin Hm Hk. apply in_map_iff in Hk. destruct Hk as (e & He & Hine).
  apply (existsb_pair_false g k all_fields (g, m, e) Hunknown).
  - unfold all_fields. apply in_flat_map. exists (g, m). split; [exact Hin|].
    unfold schema_fields. cbn [fst snd]. rewrite Hm.
    apply in_map_iff. exists e. split; [reflexivity | exact Hine].
  - unfold field_id. cbn [fst snd]. rewrite He. reflexivity.
Qed.

Lemma dump_formatted_ignores_unknown_keys_witness :
  dump_formatted
    (dict_set "1" (PDict (dict_set "zz" (PStr "?") [("mi", PInt 8)])) show_config)
  = dump_formatted show_config.
Proof.
  apply (dump_formatted_ignores_unknown_keys show_config "1" [("mi", PInt 8)] "zz" (PStr "?")).
  - reflexivity.
  - vm_compute. reflexivity.
Defined.

Lemma py_format_d_float suffix f args :
  py_format ("{:d}" ++ suffix) (PFloat f :: args) = Raise ValueError.
Proof. reflexivity. Qed.

Lemma py_format_d_str suffix s args :
  py_format ("{:d}" ++ suffix) (PStr s :: args) = Raise ValueError.
Proof. reflexivity. Qed.

Lemma py_format_fixed_str n suffix s :
  n = 2%nat \/ n = 3%nat \/ n = 4%nat ->
  py_format (template_of (KFixed n) suffix) [PStr s] = Raise ValueError.
Proof. intros [-> | [-> | ->]]; reflexivity. Qed.

(** X23: A value of the wrong type makes the dump raise ValueError at its
    line: a float or a string under an integer template, a string under
    a template with decimals.  (An integer under a template with
    decimals is printed as a float.) *)
Theorem format_line_ill_typed p m e kind suffix v :
  classify (entry_units e) = Some (kind, suffix) ->
  entry_key e <> "am" ->
  ill_typed kind v = true ->
  format_line p m e v = Raise ValueError.
Proof.
  intros Hclass Ham Hill.
  destruct (classify_template _ _ _ Hclass) as [Hunits Hkind].
  assert (Hright : field_right e v = Raise ValueError).
  { unfold field_right, field_units. apply String.eqb_neq in Ham. rewrite Ham.
    cbn [bind]. rewrite Hunits.
    destruct kind as [|n|]; destruct v; try discriminate Hill; cbn [template_of].
    - apply py_format_d_float.
    - apply py_format_d_str.
    - apply (py_format_fixed_str n suffix _ Hkind). }
  destruct (label_column p m e) as [column|e0] eqn:Hcol.
  - rewrite (format_line_parts _ _ _ _ _ Hcol), Hright. reflexivity.
  - exfalso. revert Hcol. unfold label_column.
    destruct (if String.eqb m "1"
              then py_format "m{:s} {:s}" [PStr p; PStr (entry_descr e)]
              else if str_contains "xagh" m
                   then py_format "{:s} {:s}" [PStr p; PStr (entry_descr e)]
                   else Ok (entry_descr e)) as [descr|] eqn:Hdescr.
    + cbn [bind].
      destruct (label_column_length (fmt_key_of p (entry_key e)) descr) as (padded & -> & _).
      discriminate.
    + exfalso. revert Hdescr. destruct (String.eqb m "1"); [discriminate|].
      destruct (str_contains "xagh" m); discriminate.
Qed.

Lemma format_line_ill_typed_witness :
  format_line "sys" "sys" ("ja", "junction acceleration", "{:d} mm")
              (PFloat (S754_finite false 7744224513798963 (-44)))
  = Raise ValueError.
Proof.
  apply (format_line_ill_typed "sys" "sys" ("ja", "junction acceleration", "{:d} mm")
           KInt " mm"); [reflexivity | discriminate | reflexivity].
Defined.

(** ** Reading a file *)

Lemma readlines_head c rest : exists l ls, readlines (String c rest) = String c l :: ls.
Proof.
  cbn [readlines]. destruct (Ascii.eqb c "010"); [eauto|].
  destruct rest as [|c2 rest]; [eauto|].
  destruct (readlines (String c2 rest)); eauto.
Qed.

Lemma readlines_nonempty text : Forall (fun line => line <> "") (readlines text).
Proof.
  induction text as [|c text IH]; [constructor|].
  cbn [readlines]. destruct (Ascii.eqb c "010").
  - constructor; [discriminate | exact IH].
  - destruct text as [|c2 text]; [repeat constructor; discriminate|].
    destruct (readlines (String c2 text)) as [|l ls].
    + repeat constructor. discriminate.
    + inversion IH; subst. constructor; [discriminate | assumption].
Qed.

Lemma read_text_no_bracket lines :
  Forall (fun line => line <> "") lines ->
  Forall (fun line => starts_with_bracket line = false) lines ->
  forall config, read_text config lines = Ok config.
Proof.
  induction 1 as [|line lines Hne _ IH]; intros Hb config; [reflexivity|].
  inversion Hb; subst. cbn [read_text].
  rewrite (read_text_line_other _ _ Hne) by assumption. cbn [bind]. apply IH. assumption.
Qed.

(** X24: [read] takes a file for JSON only when its very first character is
    an opening brace.  Any other non-empty file is read as a text dump,
    and when none of its lines starts with a bracket, nothing is stored
    and nothing is raised: so a JSON file with white space before the
    brace is silently read as an empty configuration. *)
Theorem read_file_without_fields config c rest :
  c <> "{"%char ->
  Forall (fun line => starts_with_bracket line = false) (readlines (String c rest)) ->
  read config (String c rest) = read_text config (readlines (String c rest))
  /\ read config (String c rest) = Ok config.
Proof.
  intros Hc Hlines.
  assert (Htext : read config (String c rest) = read_text config (readlines (String c rest))).
  { unfold read. destruct (readlines_head c rest) as (l & ls & ->).
    apply Ascii.eqb_neq in Hc. rewrite Hc. reflexivity. }
  split; [exact Htext|]. rewrite Htext.
  apply read_text_no_bracket; [apply readlines_nonempty | exact Hlines].
Qed.

Lemma read_file_without_fields_witness :
  read [] indented_json = read_text [] (readlines indented_json)
  /\ read [] indented_json = Ok [].
Proof.
  apply (read_file_without_fields [] " " _).
  - discriminate.
  - vm_compute. repeat constructor.
Defined.

(** An empty file is taken for JSON, and [json.loads] of the empty text
    raises ValueError, whatever the store holds. *)
Theorem read_empty_file config : read config "" = Raise ValueError.
Proof. reflexivity. Qed.

Lemma read_json_items_add_group items :
  forall config, read_json_items config items = add_group_items config items.
Proof.
  induction items as [|[k v] items IH]; intros config; [reflexivity|].
  cbn [read_json_items add_group add_group_items].
  destruct (add_group_item config k v) as [config'|e]; cbn [bind]; [apply IH | reflexivity].
Qed.



(** ** The JSON dump with sorted keys *)

Lemma ascii_compare_trans a b c :
  Ascii.compare a b <> Gt -> Ascii.compare b c <> Gt -> Ascii.compare a c <> Gt.
Proof.
  unfold Ascii.compare. intros H1 H2 H3.
  apply N.compare_gt_iff in H3.
  assert (Hab : (N_of_ascii a <= N_of_ascii b)%N) by exact H1.
  assert (Hbc : (N_of_ascii b <= N_of_ascii c)%N) by exact H2.
  lia.
Qed.

Lemma ascii_compare_eq a b : Ascii.compare a b = Eq -> a = b.
Proof. apply Ascii.compare_eq_iff. Qed.

Lemma ascii_compare_refl a : Ascii.compare a a = Eq.
Proof. unfold Ascii.compare. apply N.compare_refl. Qed.

Lemma string_compare_trans a :
  forall b c, String.compare a b <> Gt -> String.compare b c <> Gt -> String.compare a c <> Gt.
Proof.
  induction a as [|x a IH]; intros [|y b] [|z c]; cbn [String.compare]; try congruence.
  destruct (Ascii.compare x y) eqn:Hxy; [| |congruence].
  - apply ascii_compare_eq in Hxy. subst y.
    destruct (Ascii.compare x z) eqn:Hxz; [|congruence|congruence]. apply IH.
  - intros _. destruct (Ascii.compare y z) eqn:Hyz; [| |congruence]; intros _.
    + apply ascii_compare_eq in Hyz. subst z. rewrite Hxy. congruence.
    + assert (H : Ascii.compare x z <> Gt).
      { apply (ascii_compare_trans x y z); congruence. }
      destruct (Ascii.compare x z) eqn:Hxz; [|congruence|congruence].
      apply ascii_compare_eq in Hxz. subst z. exfalso.
      assert (H1 : (N_of_ascii x < N_of_ascii y)%N) by exact Hxy.
      assert (H2 : (N_of_ascii y < N_of_ascii x)%N) by exact Hyz.
      lia.
Qed.

Lemma leb_trans a b c :
  String.leb a b = true -> String.leb b c = true -> String.leb a c = true.
Proof.
  unfold String.leb. intros H1 H2.
  assert (Hab : String.compare a b <> Gt) by (destruct (String.compare a b); congruence).
  assert (Hbc : String.compare b c <> Gt) by (destruct (String.compare b c); congruence).
  pose proof (string_compare_trans a b c Hab Hbc) as H.
  destruct (String.compare a c); congruence.
Qed.

Lemma leb_refl a : String.leb a a = true.
Proof. destruct (String.leb_total a a); assumption. Qed.

Lemma forallb_insert_item (q : string * pyval -> bool) kv d :
  forallb q (insert_item kv d) = q kv && forallb q d.
Proof.
  induction d as [|kv' d IH]; cbn [insert_item forallb]; [reflexivity|].
  destruct (String.leb (fst kv) (fst kv')); cbn [forallb]; [reflexivity|].
  rewrite IH. destruct (q kv), (q kv'); reflexivity.
Qed.

Lemma assoc_insert_item k v d k' :
  assoc k' (insert_item (k, v) d) = if String.eqb k k' then Some v else assoc k' d.
Proof.
  induction d as [|[k2 v2] d IH]; cbn [insert_item assoc fst]; [reflexivity|].
  destruct (String.leb k k2) eqn:Hle; cbn [assoc]; [reflexivity|].
  rewrite IH. destruct (String.eqb_spec k2 k') as [-> | _]; [|reflexivity].
  destruct (String.eqb_spec k k') as [-> | _]; [|reflexivity].
  rewrite leb_refl in Hle. discriminate Hle.
Qed.

Lemma assoc_sort_items d k : assoc k (sort_items d) = assoc k d.
Proof.
  induction d as [|[k2 v2] d IH]; [reflexivity|].
  cbn [sort_items assoc]. rewrite assoc_insert_item, IH. reflexivity.
Qed.

Lemma not_mem_forallb k (d : pydict) :
  dict_mem k d = false -> forallb (fun kv => negb (String.eqb k (fst kv))) d = true.
Proof.
  unfold dict_mem. induction d as [|[k2 v2] d IH]; [reflexivity|].
  cbn [assoc forallb fst]. destruct (String.eqb_spec k2 k) as [-> | Hne]; [discriminate|].
  intros H. rewrite (IH H), andb_true_r. apply negb_true_iff, String.eqb_neq.
  intros ->. contradiction.
Qed.

Lemma insert_item_sorted k v d :
  dict_mem k d = false -> strictly_sorted d = true ->
  strictly_sorted (insert_item (k, v) d) = true.
Proof.
  induction d as [|[k2 v2] d IH]; intros Hmem Hs; [reflexivity|].
  pose proof (not_mem_forallb _ _ Hmem) as Hne.
  cbn [forallb fst] in Hne. apply andb_true_iff in Hne. destruct Hne as [Hk2 Hne].
  cbn [strictly_sorted fst] in Hs. apply andb_true_iff in Hs. destruct Hs as [Hhead Hrest].
  cbn [insert_item fst]. destruct (String.leb k k2) eqn:Hle.
  - cbn [strictly_sorted forallb fst]. rewrite Hhead, Hrest, !andb_true_r.
    apply andb_true_iff. split.
    + unfold str_lt. rewrite Hle, Hk2. reflexivity.
    + rewrite forallb_forall in Hhead, Hne |- *. intros kv Hin.
      specialize (Hhead kv Hin). specialize (Hne kv Hin). unfold str_lt in Hhead |- *.
      apply andb_true_iff in Hhead. destruct Hhead as [Hle2 _].
      rewrite (leb_trans _ _ _ Hle Hle2), Hne. reflexivity.
  - cbn [strictly_sorted fst]. rewrite forallb_insert_item. cbn [fst].
    assert (Hmem' : dict_mem k d = false).
    { unfold dict_mem in Hmem |- *. cbn [assoc] in Hmem.
      destruct (String.eqb k2 k); [discriminate | exact Hmem]. }
    rewrite Hhead, (IH Hmem' Hrest), !andb_true_r. unfold str_lt.
    destruct (String.leb_total k k2) as [H | H]; [rewrite H in Hle; discriminate|].
    rewrite H. cbn [andb]. rewrite String.eqb_sym. exact Hk2.
Qed.

Lemma sort_items_sorted d : unique_keys d = true -> strictly_sorted (sort_items d) = true.
Proof.
  induction d as [|[k v] d IH]; [reflexivity|].
  cbn [unique_keys]. rewrite andb_true_iff. intros [Hk Hd]. apply negb_true_iff in Hk.
  cbn [sort_items]. apply insert_item_sorted; [|exact (IH Hd)].
  unfold dict_mem in Hk |- *. rewrite assoc_sort_items. exact Hk.
Qed.

Lemma sorted_head_absent k (d : pydict) :
  forallb (fun kv => str_lt k (fst kv)) d = true -> assoc k d = None.
Proof.
  induction d as [|[k2 v2] d IH]; [reflexivity|].
  cbn [forallb fst assoc]. rewrite andb_true_iff. intros [Hlt Hrest].
  unfold str_lt in Hlt. apply andb_true_iff in Hlt. destruct Hlt as [_ Hne].
  apply negb_true_iff in Hne. rewrite String.eqb_sym, Hne. exact (IH Hrest).
Qed.

Lemma sorted_before k k2 v (d : pydict) :
  forallb (fun kv => str_lt k2 (fst kv)) d = true ->
  assoc k d = Some v -> str_lt k2 k = true.
Proof.
  intros Hall Hget. apply assoc_Some_In in Hget.
  rewrite forallb_forall in Hall. exact (Hall _ Hget).
Qed.

(** Two dictionaries with strictly increasing keys and the same
    contents are the same list. *)
Lemma strictly_sorted_unique d1 :
  forall d2,
    strictly_sorted d1 = true -> strictly_sorted d2 = true ->
    (forall k, assoc k d1 = assoc k d2) -> d1 = d2.
Proof.
  induction d1 as [|[k1 v1] d1 IH]; intros [|[k2 v2] d2] H1 H2 Hsame.
  - reflexivity.
  - specialize (Hsame k2). cbn [assoc] in Hsame. rewrite String.eqb_refl in Hsame. discriminate.
  - specialize (Hsame k1). cbn [assoc] in Hsame. rewrite String.eqb_refl in Hsame. discriminate.
  - cbn [strictly_sorted fst] in H1, H2.
    apply andb_true_iff in H1. destruct H1 as [Hh1 Hr1].
    apply andb_true_iff in H2. destruct H2 as [Hh2 Hr2].
    assert (Hk : k1 = k2).
    { pose proof (Hsame k1) as Ha. pose proof (Hsame k2) as Hb.
      cbn [assoc] in Ha, Hb. rewrite String.eqb_refl in Ha, Hb.
      destruct (String.eqb_spec k2 k1) as [-> | Hne]; [reflexivity|].
      destruct (String.eqb_spec k1 k2) as [-> | _]; [reflexivity|].
      symmetry in Ha.
      pose proof (sorted_before _ _ _ _ Hh2 Ha) as Hlt21.
      pose proof (sorted_before _ _ _ _ Hh1 Hb) as Hlt12.
      unfold str_lt in Hlt21, Hlt12.
      apply andb_true_iff in Hlt21. apply andb_true_iff in Hlt12.
      apply String.leb_antisym; tauto. }
    subst k2.
    assert (Hv : v1 = v2).
    { specialize (Hsame k1). cbn [assoc] in Hsame. rewrite String.eqb_refl in Hsame.
      injection Hsame as ->. reflexivity. }
    subst v2. f_equal. apply IH; [exact Hr1 | exact Hr2|].
    intros k. specialize (Hsame k). cbn [assoc] in Hsame.
    destruct (String.eqb_spec k1 k) as [Heq | _]; [|exact Hsame].
    rewrite <- Heq.
    rewrite (sorted_head_absent _ _ Hh1), (sorted_head_absent _ _ Hh2). reflexivity.
Qed.

Lemma sort_items_same d1 d2 :
  unique_keys d1 = true -> unique_keys d2 = true ->
  (forall k, assoc k d1 = assoc k d2) -> sort_items d1 = sort_items d2.
Proof.
  intros H1 H2 Hsame. apply strictly_sorted_unique.
  - apply sort_items_sorted. exact H1.
  - apply sort_items_sorted. exact H2.
  - intros k. rewrite !assoc_sort_items. apply Hsame.
Qed.

Lemma sort_keys_dict d :
  sort_keys (PDict d) = PDict (sort_items (map (fun kv => (fst kv, sort_keys (snd kv))) d)).
Proof.
  cbn [sort_keys]. do 2 f_equal.
  induction d as [|[k x] d IH]; [reflexivity|]. cbn [map fst snd]. rewrite IH. reflexivity.
Qed.

Lemma sort_keys_scalars (g : pydict) :
  forallb (fun kv => is_scalar (snd kv)) g = true ->
  map (fun kv => (fst kv, sort_keys (snd kv))) g = g.
Proof.
  induction g as [|[k x] g IH]; [reflexivity|].
  cbn [forallb snd]. rewrite andb_true_iff. intros [Hx Hg].
  cbn [map fst snd]. rewrite (IH Hg). destruct x; try discriminate Hx; reflexivity.
Qed.

Lemma assoc_map_values (f : pyval -> pyval) (d : pydict) k :
  assoc k (map (fun kv => (fst kv, f (snd kv))) d) = option_map f (assoc k d).
Proof.
  induction d as [|[k2 x] d IH]; [reflexivity|].
  cbn [map assoc fst snd]. destruct (String.eqb k2 k); [reflexivity | exact IH].
Qed.

Lemma unique_keys_map_values (f : pyval -> pyval) (d : pydict) :
  unique_keys (map (fun kv => (fst kv, f (snd kv))) d) = unique_keys d.
Proof.
  induction d as [|[k x] d IH]; [reflexivity|].
  cbn [map unique_keys fst snd]. rewrite IH. f_equal. f_equal.
  unfold dict_mem. rewrite assoc_map_values. destruct (assoc k d); reflexivity.
Qed.

(** X26: [dump] does not depend on the order in which the store was filled:
    two stores of groups of scalars that hold the same groups, and in
    each group the same fields with the same values, are dumped as the
    same text. *)
Theorem dump_ignores_order config1 config2 :
  plain_store config1 = true -> plain_store config2 = true ->
  (forall g, dict_mem g config1 = dict_mem g config2) ->
  (forall g k, lookup2 config1 g k = lookup2 config2 g k) ->
  dump config1 = dump config2.
Proof.
  unfold plain_store. rewrite !andb_true_iff. intros [Hu1 Hg1] [Hu2 Hg2] Hgroups Hfields.
  unfold dump. rewrite !sort_keys_dict. do 2 f_equal.
  apply sort_items_same.
  - rewrite unique_keys_map_values. exact Hu1.
  - rewrite unique_keys_map_values. exact Hu2.
  - intros g. rewrite !assoc_map_values.
    specialize (Hgroups g). specialize (Hfields g). unfold dict_mem in Hgroups.
    unfold lookup2 in Hfields.
    destruct (assoc g config1) as [v1|] eqn:H1, (assoc g config2) as [v2|] eqn:H2;
      try discriminate Hgroups; [|reflexivity].
    pose proof (assoc_forallb plain_group g v1 config1 Hg1 H1) as Hp1.
    pose proof (assoc_forallb plain_group g v2 config2 Hg2 H2) as Hp2.
    destruct v1 as [| | | | | |d1]; try discriminate Hp1.
    destruct v2 as [| | | | | |d2]; try discriminate Hp2.
    cbn [plain_group] in Hp1, Hp2.
    apply andb_true_iff in Hp1. destruct Hp1 as [Hk1 Hs1].
    apply andb_true_iff in Hp2. destruct Hp2 as [Hk2 Hs2].
    cbn [option_map]. rewrite !sort_keys_dict.
    rewrite (sort_keys_scalars _ Hs1), (sort_keys_scalars _ Hs2).
    do 2 f_equal. apply sort_items_same; assumption.
Qed.

Lemma dump_ignores_order_witness : dump store_one_way = dump store_other_way.
Proof.
  apply (dump_ignores_order store_one_way store_other_way).
  - reflexivity.
  - reflexivity.
  - intros g. unfold store_one_way, store_other_way, dict_mem. cbn [assoc].
    destruct (String.eqb "x" g), (String.eqb "sys" g); reflexivity.
  - intros g k. unfold store_one_way, store_other_way, lookup2. cbn [assoc].
    destruct (String.eqb_spec "x" g) as [Hx | Hx], (String.eqb_spec "sys" g) as [Hs | Hs];
      try reflexivity.
    + rewrite <- Hx in Hs. discriminate Hs.
    + cbn [assoc].
      destruct (String.eqb "vm" k) eqn:Hvm, (String.eqb "am" k) eqn:Ham; try reflexivity.
      apply String.eqb_eq in Hvm. apply String.eqb_eq in Ham. subst k. discriminate Ham.
    + cbn [assoc].
      destruct (String.eqb "ja" k) eqn:Hja, (String.eqb "id" k) eqn:Hid; try reflexivity.
      apply String.eqb_eq in Hja. apply String.eqb_eq in Hid. subst k. discriminate Hid.
Defined.

(** X27: The groups of a dump, and the fields of each group, come in the
    order of their keys: the dump of a store of groups of scalars is
    the indented text of a store whose keys are strictly increasing at
    both levels and that holds the same fields. *)
Theorem dump_is_sorted config :
  plain_store config = true ->
  exists sorted,
    dump config = json_indented 0 (PDict sorted)
    /\ strictly_sorted sorted = true
    /\ (forall g v, assoc g sorted = Some v ->
                    exists d, v = PDict d /\ strictly_sorted d = true)
    /\ (forall g k, lookup2 sorted g k = lookup2 config g k).
Proof.
  unfold plain_store. rewrite andb_true_iff. intros [Hu Hg].
  exists (sort_items (map (fun kv => (fst kv, sort_keys (snd kv))) config)).
  unfold dump. rewrite sort_keys_dict. refine (conj eq_refl (conj _ (conj _ _))).
  - apply sort_items_sorted. rewrite unique_keys_map_values. exact Hu.
  - intros g v. rewrite assoc_sort_items, assoc_map_values.
    destruct (assoc g config) as [x|] eqn:Hx; [|discriminate].
    pose proof (assoc_forallb plain_group g x config Hg Hx) as Hp.
    destruct x as [| | | | | |d]; try discriminate Hp.
    cbn [plain_group] in Hp. apply andb_true_iff in Hp. destruct Hp as [Hk Hs].
    cbn [option_map]. rewrite sort_keys_dict, (sort_keys_scalars _ Hs).
    intros H. injection H as <-. eexists. split; [reflexivity|].
    apply sort_items_sorted. exact Hk.
  - intros g k. unfold lookup2. rewrite assoc_sort_items, assoc_map_values.
    destruct (assoc g config) as [x|] eqn:Hx; [|reflexivity].
    pose proof (assoc_forallb plain_group g x config Hg Hx) as Hp.
    destruct x as [| | | | | |d]; try discriminate Hp.
    cbn [plain_group] in Hp. apply andb_true_iff in Hp. destruct Hp as [Hk Hs].
    cbn [option_map]. rewrite sort_keys_dict, (sort_keys_scalars _ Hs).
    apply assoc_sort_items.
Qed.

Lemma dump_is_sorted_witness :
  exists sorted,
    dump store_one_way = json_indented 0 (PDict sorted)
    /\ strictly_sorted sorted = true
    /\ (forall g v, assoc g sorted = Some v ->
                    exists d, v = PDict d /\ strictly_sorted d = true)
    /\ (forall g k, lookup2 sorted g k = lookup2 store_one_way g k).
Proof. apply (dump_is_sorted store_one_way). reflexivity. Defined.

(** ** The lines sent to the device *)

Lemma printable_app s t : printable_text (s ++ t) = printable_text s && printable_text t.
Proof. apply str_forallb_app. Qed.

Lemma printable_cons c s : printable_text (String c s) = printable c && printable_text s.
Proof. apply str_forallb_cons. Qed.

Lemma printable_take n s : printable_text s = true -> printable_text (str_take n s) = true.
Proof.
  revert s. induction n as [|n IH]; intros [|c s] H; try reflexivity.
  rewrite printable_cons in H. apply andb_true_iff in H. destruct H as [Hc Hs].
  cbn [str_take]. rewrite printable_cons, Hc, (IH s Hs). reflexivity.
Qed.

Lemma printable_drop n s : printable_text s = true -> printable_text (str_drop n s) = true.
Proof.
  revert s. induction n as [|n IH]; intros [|c s] H; try reflexivity; try exact H.
  rewrite printable_cons in H. apply andb_true_iff in H. destruct H as [_ Hs].
  cbn [str_drop]. exact (IH s Hs).
Qed.

Lemma printable_repeat_zero n : printable_text (str_repeat "0" n) = true.
Proof. induction n as [|n IH]; [reflexivity|]. cbn [str_repeat]. rewrite printable_cons, IH. reflexivity. Qed.

Lemma printable_strip_zeros s :
  printable_text s = true -> printable_text (strip_trailing_zeros s) = true.
Proof.
  induction s as [|c s IH]; intros H; [reflexivity|].
  rewrite printable_cons in H. apply andb_true_iff in H. destruct H as [Hc Hs].
  cbn [strip_trailing_zeros]. specialize (IH Hs).
  destruct (strip_trailing_zeros s) as [|c2 r].
  - destruct (Ascii.eqb c "0"); [reflexivity|]. rewrite printable_cons, Hc. reflexivity.
  - rewrite printable_cons, Hc. exact IH.
Qed.

Lemma number_char_printable c : is_number_char c = true -> printable c = true.
Proof.
  unfold is_number_char. rewrite !orb_true_iff.
  intros [[[[[Hd | H] | H] | H] | H] | H];
    try (apply Ascii.eqb_eq in H; subst c; reflexivity).
  destruct (is_digit_cases c Hd) as [->|[->|[->|[->|[->|[->|[->|[->|[->| ->]]]]]]]]];
    reflexivity.
Qed.

Lemma printable_int z : printable_text (str_of_int z) = true.
Proof.
  apply (str_forallb_impl is_number_char); [exact number_char_printable|].
  apply str_of_int_number_chars.
Qed.

Lemma printable_layout ds decpt :
  printable_text ds = true -> printable_text (repr_layout ds decpt) = true.
Proof.
  intros Hds. unfold repr_layout.
  destruct ((-4 <? decpt) && (decpt <=? 16)).
  - destruct (decpt <=? 0).
    + change ("0." ++ str_repeat "0" (Z.to_nat (- decpt)) ++ ds)
        with (String "0" (String "." (str_repeat "0" (Z.to_nat (- decpt)) ++ ds))).
      rewrite !printable_cons, printable_app, printable_repeat_zero, Hds. reflexivity.
    + destruct (Z.of_nat (String.length ds) <=? decpt).
      * rewrite !printable_app, printable_repeat_zero, Hds. reflexivity.
      * rewrite !printable_app, (printable_take _ _ Hds), (printable_drop _ _ Hds).
        reflexivity.
  - assert (Hmant : printable_text match ds with
                                   | String c EmptyString => ds
                                   | String c rest => String c ("." ++ rest)
                                   | EmptyString => ds
                                   end = true).
    { destruct ds as [|c [|c2 rest]]; exact Hds. }
    rewrite !printable_app, Hmant. unfold zfill.
    rewrite printable_app, printable_repeat_zero, printable_int.
    destruct (decpt - 1 <? 0); reflexivity.
Qed.

Lemma printable_float f : printable_text (json_float f) = true.
Proof.
  destruct f as [s|s| |s m e]; try (destruct s; reflexivity); try reflexivity.
  unfold json_float, float_repr.
  destruct (shortest_from 17 (S754_finite false m e)
              (if 0 <=? e then Z.pos m * 2 ^ e else Z.pos m)
              (if 0 <=? e then 1 else 2 ^ (- e))
              (exp10_of (if 0 <=? e then Z.pos m * 2 ^ e else Z.pos m)
                        (if 0 <=? e then 1 else 2 ^ (- e))) 1
              (exact_decimal m e)) as [D e10].
  rewrite printable_app, printable_layout.
  - destruct s; reflexivity.
  - apply printable_strip_zeros. apply printable_int.
Qed.

Lemma printable_escape_char c : printable_text (json_escape_char c) = true.
Proof. destruct c as [[] [] [] [] [] [] [] []]; reflexivity. Qed.

Lemma printable_escape s : printable_text (json_escape s) = true.
Proof.
  induction s as [|c s IH]; [reflexivity|].
  cbn [json_escape]. rewrite printable_app, printable_escape_char, IH. reflexivity.
Qed.

Lemma printable_json_string s : printable_text (json_string s) = true.
Proof.
  unfold json_string. rewrite printable_cons, printable_app, printable_escape. reflexivity.
Qed.

Lemma printable_scalar v : is_scalar v = true -> printable_text (json_dumps v) = true.
Proof.
  destruct v as [|[]|z|f|s|l|d]; try discriminate; intros _; try reflexivity.
  - apply printable_int.
  - apply printable_float.
  - apply printable_json_string.
Qed.

Lemma printable_items (d : pydict) :
  Forall (fun kv => printable_text (json_dumps (snd kv)) = true) d ->
  printable_text (json_items d) = true.
Proof.
  induction 1 as [|[k v] d Hv _ IH]; [reflexivity|]. cbn [snd] in Hv.
  cbn [json_items]. destruct d as [|kv d].
  - rewrite !printable_app, printable_json_string, Hv. reflexivity.
  - rewrite !printable_app, printable_json_string, Hv, IH. reflexivity.
Qed.

Lemma printable_dict (d : pydict) :
  Forall (fun kv => printable_text (json_dumps (snd kv)) = true) d ->
  printable_text (json_dumps (PDict d)) = true.
Proof.
  intros H. rewrite json_dumps_dict, printable_cons, printable_app, (printable_items d H).
  reflexivity.
Qed.

Lemma printable_line s : printable_text s = true -> ascii_line s = true /\ no_newline s = true.
Proof.
  intros H. split.
  - apply (str_forallb_impl printable); [|exact H].
    intros c Hc. unfold printable in Hc. apply andb_true_iff in Hc. destruct Hc as [_ Hc].
    apply Nat.leb_le in Hc. apply Nat.ltb_lt. lia.
  - apply (str_forallb_impl printable); [|exact H].
    intros c Hc. apply negb_true_iff. apply Ascii.eqb_neq. intros ->. discriminate Hc.
Qed.

(** X28: Every command that [read_config] and [write_config] send is one
    line of printable ASCII: the query for any group id, and the set
    command for any group id and any chunk of scalars, hold no newline
    and no byte that [encode('ascii')] would refuse, whatever
    characters the strings in them have ([json.dumps] escapes them). *)
Theorem commands_are_ascii_lines group_id chunk :
  forallb (fun kv => is_scalar (snd kv)) chunk = true ->
  (ascii_line (query_line group_id) = true /\ no_newline (query_line group_id) = true)
  /\ (ascii_line (set_line group_id chunk) = true
      /\ no_newline (set_line group_id chunk) = true).
Proof.
  intros Hchunk. split; apply printable_line.
  - unfold query_line. apply printable_dict. repeat constructor.
  - unfold set_line. apply printable_dict. constructor; [|constructor]. cbn [snd].
    apply printable_dict. apply Forall_forall. intros kv Hin.
    apply printable_scalar. rewrite forallb_forall in Hchunk. exact (Hchunk kv Hin).
Qed.

Lemma commands_are_ascii_lines_witness :
  (ascii_line (query_line "sys") = true /\ no_newline (query_line "sys") = true)
  /\ (ascii_line (set_line "sys" [("id", PStr (String (chr 233) (String newline "")));
                                  ("fb", PFloat S754_nan)]) = true
      /\ no_newline (set_line "sys" [("id", PStr (String (chr 233) (String newline "")));
                                     ("fb", PFloat S754_nan)]) = true).
Proof.
  apply (commands_are_ascii_lines "sys"). reflexivity.
Defined.

(** ** A text dump kept in a file *)

Lemma all_fields_on_one_line : forallb field_on_one_line all_fields = true.
Proof. vm_compute. reflexivity. Qed.

Lemma no_space_no_newline s : no_space s = true -> no_newline s = true.
Proof.
  apply str_forallb_impl. intros c Hc. apply negb_true_iff. apply Ascii.eqb_neq.
  intros ->. discriminate Hc.
Qed.

Lemma token_no_newline tok : token_ok tok = true -> no_newline tok = true.
Proof.
  unfold token_ok. rewrite andb_true_iff. intros [_ H]. apply no_space_no_newline. exact H.
Qed.

Lemma no_newline_take n s : no_newline s = true -> no_newline (str_take n s) = true.
Proof.
  revert s. induction n as [|n IH]; intros [|c s] H; try reflexivity.
  rewrite no_newline_cons in H. apply andb_true_iff in H. destruct H as [Hc Hs].
  cbn [str_take]. rewrite no_newline_cons, Hc, (IH s Hs). reflexivity.
Qed.

Lemma axis_mode_no_newline z mode :
  -4 <= z < 4 -> axis_mode_at (PInt z) = Ok mode -> no_newline mode = true.
Proof.
  intros Hz.
  assert (H : z = -4 \/ z = -3 \/ z = -2 \/ z = -1 \/ z = 0 \/ z = 1 \/ z = 2 \/ z = 3) by lia.
  destruct H as [->|[->|[->|[->|[->|[->|[->| ->]]]]]]];
    intros Hmode; vm_compute in Hmode; injection Hmode as <-; reflexivity.
Qed.

(** The rendered value of a well-typed field holds no newline. *)
Lemma field_right_no_newline p m e v kind suffix rendered :
  field_static_ok (p, m, e) = true ->
  classify (entry_units e) = Some (kind, suffix) ->
  no_newline suffix = true ->
  value_ok (entry_key e) kind v = true ->
  field_right e v = Ok rendered ->
  no_newline rendered = true.
Proof.
  intros Hstatic Hclass Hsfx Hval.
  unfold field_static_ok in Hstatic. rewrite Hclass in Hstatic.
  rewrite !andb_true_iff in Hstatic.
  destruct Hstatic as [[[[[Hbrace _] _] _] _] _].
  destruct (classify_template _ _ _ Hclass) as [Hunits Hkind].
  assert (Hint : forall z, no_newline (str_of_int z) = true).
  { intros z. apply number_chars_no_newline. apply str_of_int_number_chars. }
  unfold value_ok in Hval. unfold field_right, field_units.
  destruct (String.eqb (entry_key e) "am") eqn:Hkey.
  - destruct kind; try discriminate. destruct v as [| |z| | | |]; try discriminate.
    rewrite andb_true_iff in Hval. destruct Hval as [Hlo Hhi].
    apply Z.leb_le in Hlo. apply Z.ltb_lt in Hhi.
    destruct (axis_mode_units z (conj Hlo Hhi)) as (mode & Hmode & Hfmt & Hfree).
    pose proof (axis_mode_no_newline z mode (conj Hlo Hhi) Hmode) as Hnl.
    rewrite Hmode. cbn [bind]. rewrite Hfmt. cbn [bind].
    assert (Hfree' : brace_free (String " " mode) = true).
    { unfold brace_free. rewrite str_forallb_cons. exact Hfree. }
    rewrite (py_format_d _ _ _ Hfree') by (apply small_int_in_limit; lia).
    intros H. apply Ok_inj in H. subst rendered.
    rewrite no_newline_app, Hint, no_newline_cons, Hnl. reflexivity.
  - cbn [bind]. rewrite Hunits.
    assert (Hfixed : forall n f, n = 2%nat \/ n = 3%nat \/ n = 4%nat ->
                fixed_ok n f = true ->
                py_format (template_of (KFixed n) suffix) [PFloat f] = Ok rendered ->
                no_newline rendered = true).
    { intros n f Hn Hf. unfold fixed_ok in Hf. cbv zeta in Hf.
      rewrite andb_true_iff in Hf. destruct Hf as [Htok _].
      rewrite (py_format_fixed _ _ _ Hn Hbrace). intros H. apply Ok_inj in H. subst rendered.
      rewrite no_newline_app, (token_no_newline _ Htok), Hsfx. reflexivity. }
    destruct kind as [|n|].
    + destruct v as [| |z| | | |]; try discriminate.
      cbn [template_of]. intros H.
      pose proof (py_format_d_limit _ _ _ _ Hbrace H) as Hlim.
      rewrite (py_format_d _ _ _ Hbrace Hlim) in H. apply Ok_inj in H. subst rendered.
      rewrite no_newline_app, Hint, Hsfx. reflexivity.
    + destruct v as [| |z|f| | |]; try discriminate.
      * destruct (float_of_int z) as [f|] eqn:Hconv; [|discriminate].
        rewrite (py_format_fixed_int _ _ _ _ Hkind Hconv). apply (Hfixed n f Hkind Hval).
      * apply (Hfixed n f Hkind Hval).
    + cbn [template_of]. rewrite py_format_any.
      unfold text_ok in Hval. destruct (py_str v) as [tok|] eqn:Hstr; [|discriminate].
      rewrite andb_true_iff in Hval. destruct Hval as [Htok _].
      cbn [bind]. intros H. apply Ok_inj in H. subst rendered.
      rewrite append_nil_r. apply token_no_newline. exact Htok.
Qed.

Lemma slice_to_take k s : exists n, slice_to k s = str_take n s.
Proof. unfold slice_to. destruct (0 <=? k); eauto. Qed.

(** A printed line of a displayable field holds no newline. *)
Lemma format_line_no_newline p m e v line :
  In (p, m, e) all_fields ->
  field_ok p m e v = true ->
  format_line p m e v = Ok line ->
  no_newline line = true.
Proof.
  intros Hin Hok. pose proof (field_static p m e Hin) as Hstatic.
  pose proof all_fields_on_one_line as Hone. rewrite forallb_forall in Hone.
  specialize (Hone _ Hin). unfold field_on_one_line in Hone.
  unfold field_ok in Hok.
  destruct (label_column p m e) as [column|] eqn:Hcol; [|discriminate].
  destruct (classify (entry_units e)) as [[kind suffix]|] eqn:Hclass; [|discriminate].
  apply andb_true_iff in Hone. destruct Hone as [Hcolumn Hsfx].
  destruct (field_right e v) as [rendered|] eqn:Hright; [|discriminate].
  apply andb_true_iff in Hok. destruct Hok as [Hval _].
  pose proof (field_right_no_newline p m e v kind suffix rendered
                Hstatic Hclass Hsfx Hval Hright) as Hrendered.
  rewrite (format_line_parts _ _ _ _ _ Hcol), Hright. cbn [bind].
  intros H. apply Ok_inj in H. subst line.
  destruct (slice_to_take (- (align_of rendered + 1)) column) as [n ->].
  change (str_take n column ++ " " ++ rendered)
    with (str_take n column ++ String " " rendered).
  rewrite no_newline_app, (no_newline_take _ _ Hcolumn), no_newline_cons, Hrendered.
  reflexivity.
Qed.

Lemma mapM_Forall {A B : Type} (f : A -> res B) (Q : B -> Prop) (l : list A) :
  (forall x y, In x l -> f x = Ok y -> Q y) ->
  forall ys, mapM f l = Ok ys -> Forall Q ys.
Proof.
  induction l as [|x l IH]; intros HQ ys H.
  - apply Ok_inj in H. subst. constructor.
  - cbn [mapM] in H. apply bind_inv in H. destruct H as (y & Hy & H).
    apply bind_inv in H. destruct H as (ys' & Hys & H). apply Ok_inj in H. subst.
    constructor.
    + apply (HQ x y); [left; reflexivity | exact Hy].
    + apply IH; [|exact Hys]. intros x' y' Hin. apply HQ. right. exact Hin.
Qed.

(** *** The lines of a file *)

Lemma readlines_line s rest :
  no_newline s = true ->
  readlines ((s ++ String newline "") ++ rest) = (s ++ String newline "") :: readlines rest.
Proof.
  induction s as [|c s IH]; intros Hnl; [reflexivity|].
  rewrite no_newline_cons, andb_true_iff in Hnl. destruct Hnl as [Hc Hs].
  apply negb_true_iff in Hc. cbn [append readlines]. change "010"%char with newline.
  rewrite Hc. rewrite (IH Hs).
  destruct ((s ++ String newline "") ++ rest) as [|c2 t] eqn:Ht; [|reflexivity].
  destruct s; discriminate Ht.
Qed.

Lemma readlines_file lines :
  Forall (fun line => no_newline line = true) lines ->
  readlines (file_of_lines lines) = with_newlines lines.
Proof.
  induction 1 as [|line lines Hline _ IH]; [reflexivity|].
  cbn [file_of_lines with_newlines map]. rewrite (readlines_line _ _ Hline), IH.
  reflexivity.
Qed.

Lemma read_as_text config c rest :
  c <> "{"%char -> read config (String c rest) = read_text config (readlines (String c rest)).
Proof.
  intros Hc. unfold read. destruct (readlines_head c rest) as (l & ls & ->).
  apply Ascii.eqb_neq in Hc. rewrite Hc. reflexivity.
Qed.

(** Dumping, reading the lines, dumping again. *)
Lemma dump_reread config :
  displayable config = true ->
  exists lines config',
    dump_formatted config = Ok lines
    /\ read_text [] (with_newlines lines) = Ok config'
    /\ dump_formatted config' = Ok lines
    /\ Forall (fun line => no_newline line = true /\ starts_with_bracket line = true) lines.
Proof.
  unfold displayable. rewrite andb_true_iff. intros [Hgroups Hfields].
  assert (Hall : Forall (fun fv => In (fst fv) all_fields
                                   /\ field_ok (fst (fst (fst fv))) (snd (fst (fst fv)))
                                               (snd (fst fv)) (snd fv) = true)
                        (displayed config)).
  { apply Forall_forall. intros fv Hin. split.
    - apply (shown_In config). exact Hin.
    - rewrite forallb_forall in Hfields. apply Hfields. exact Hin. }
  destruct (read_text_fields _ Hall) as (lines & Hdump & Hredump & Hread).
  set (config' := fold_left insert_field (map reread_field (displayed config)) []).
  assert (Hdicts : all_dicts config' = true) by (apply all_dicts_fold; reflexivity).
  assert (Hshown : displayed config' = map reread_field (displayed config)).
  { apply shown_reread. intros f Hin.
    apply (lookup2_fold config all_fields all_fields_distinct [] eq_refl); [|exact Hin].
    intros f' _. reflexivity. }
  exists lines, config'. split; [|split; [|split]].
  - rewrite (dump_formatted_fields _ Hgroups). exact Hdump.
  - apply Hread. reflexivity.
  - rewrite (dump_formatted_fields _ (all_dicts_groups _ Hdicts)), Hshown. exact Hredump.
  - apply (mapM_Forall format_field _ (displayed config)); [|exact Hdump].
    intros [[[p m] e] v] line Hin Hline. rewrite Forall_forall in Hall.
    destruct (Hall _ Hin) as [Hfield Hok]. cbn [fst snd] in Hfield, Hok.
    change (format_field (p, m, e, v)) with (format_line p m e v) in Hline.
    split; [apply (format_line_no_newline p m e v line Hfield Hok Hline)|].
    destruct (field_line p m e v Hfield Hok) as (line0 & Hline0 & _ & Hfieldread).
    rewrite Hline in Hline0. apply Ok_inj in Hline0. subst line0.
    specialize (Hfieldread []). rewrite add_group_insert2 in Hfieldread by reflexivity.
    destruct (starts_with_bracket line) eqn:Hb; [reflexivity|]. exfalso.
    assert (Hskip : read_text_line [] (line ++ String (chr 10) "") = Ok []).
    { apply read_text_line_other.
      - destruct line; discriminate.
      - destruct line as [|c line]; [reflexivity | exact Hb]. }
    rewrite Hskip in Hfieldread. apply Ok_inj in Hfieldread.
    unfold insert2 in Hfieldread. cbn [assoc dict_set] in Hfieldread. discriminate Hfieldread.
Qed.

(** X29: A text dump written to a file is read back by [read] as text and
    dumps as the same lines: for a displayable store whose dump is not
    empty, [read] of the file that holds the dumped lines gives a store
    whose dump is those lines again.  (The dump of a store without
    displayed fields is an empty file, which [read] takes for JSON and
    rejects.) *)
Theorem read_of_a_dump_file config lines :
  displayable config = true ->
  dump_formatted config = Ok lines ->
  lines <> [] ->
  exists config',
    read [] (file_of_lines lines) = Ok config' /\ dump_formatted config' = Ok lines.
Proof.
  intros Hdisp Hdump Hne.
  destruct (dump_reread config Hdisp) as (lines0 & config' & Hdump0 & Hread & Hredump & Hlines).
  rewrite Hdump in Hdump0. apply Ok_inj in Hdump0. subst lines0.
  exists config'. split; [|exact Hredump].
  assert (Hnl : Forall (fun line => no_newline line = true) lines).
  { apply Forall_forall. intros line Hin. rewrite Forall_forall in Hlines.
    apply (Hlines line Hin). }
  destruct lines as [|line lines]; [contradiction|].
  inversion Hlines as [|? ? [_ Hb] _]; subst.
  destruct line as [|c line]; [discriminate Hb|]. cbn [starts_with_bracket] in Hb.
  apply Ascii.eqb_eq in Hb. subst c.
  pose proof (readlines_file _ Hnl) as Hfile.
  cbn [file_of_lines append] in Hfile |- *.
  rewrite read_as_text by discriminate. rewrite Hfile. exact Hread.
Qed.

Lemma read_of_a_dump_file_witness :
  exists config',
    read [] (file_of_lines show_lines) = Ok config'
    /\ dump_formatted config' = Ok show_lines.
Proof.
  apply (read_of_a_dump_file show_config); [vm_compute; reflexivity | | discriminate].
  vm_compute. reflexivity.
Defined.

(** ** Merging the same groups twice *)

Lemma dict_set_same {A : Type} k (v : A) d : assoc k d = Some v -> dict_set k v d = d.
Proof.
  induction d as [|[k2 v2] d IH]; [discriminate|].
  cbn [assoc dict_set]. destruct (String.eqb_spec k2 k) as [-> | _].
  - intros H. injection H as ->. reflexivity.
  - intros H. rewrite (IH H). reflexivity.
Qed.

Lemma dict_update_same {A : Type} (d m : list (string * A)) :
  (forall k v, In (k, v) d -> assoc k m = Some v) -> dict_update m d = m.
Proof.
  unfold dict_update. induction d as [|[k v] d IH]; intros H; [reflexivity|].
  cbn [fold_left fst snd]. rewrite (dict_set_same k v m) by (apply H; left; reflexivity).
  apply IH. intros k' v' Hin. apply H. right. exact Hin.
Qed.

Lemma assoc_dict_update {A : Type} (d : list (string * A)) :
  unique_keys d = true ->
  forall m k,
    assoc k (dict_update m d)
    = match assoc k d with
      | Some v => Some v
      | None => assoc k m
      end.
Proof.
  unfold dict_update. induction d as [|[k1 v1] d IH]; intros Hu m k; [reflexivity|].
  cbn [unique_keys] in Hu. apply andb_true_iff in Hu. destruct Hu as [Hk1 Hu].
  apply negb_true_iff in Hk1. cbn [fold_left fst snd assoc].
  rewrite (IH Hu), assoc_dict_set.
  destruct (String.eqb_spec k1 k) as [<- | _]; [|reflexivity].
  unfold dict_mem in Hk1. destruct (assoc k1 d); [discriminate | reflexivity].
Qed.

Lemma unique_keys_assoc {A : Type} (d : list (string * A)) k v :
  unique_keys d = true -> In (k, v) d -> assoc k d = Some v.
Proof. intros Hu Hin. apply assoc_In; [apply unique_keys_NoDup; exact Hu | exact Hin]. Qed.

(** One round of [add_group] for a group given as a dictionary, in a
    store of dictionaries: the group afterwards holds every field
    given. *)
Lemma add_group_item_holds config k d :
  all_dicts config = true -> unique_keys d = true ->
  exists m,
    add_group_item config k (PDict d) = Ok (dict_set k (PDict m) config)
    /\ (forall f v, In (f, v) d -> assoc f m = Some v).
Proof.
  intros Hall Hu. unfold add_group_item.
  destruct (assoc k config) as [cur|] eqn:Hcur.
  - destruct (all_dicts_assoc _ _ _ Hall Hcur) as [old ->]. cbn [py_dict_update bind].
    exists (dict_update old d). split; [reflexivity|].
    intros f v Hin. rewrite (assoc_dict_update d Hu), (unique_keys_assoc d f v Hu Hin).
    reflexivity.
  - exists d. split; [reflexivity|]. intros f v Hin. apply unique_keys_assoc; assumption.
Qed.

Lemma all_dicts_dict_set config k m :
  all_dicts config = true -> all_dicts (dict_set k (PDict m) config) = true.
Proof. intros H. apply (forallb_dict_set is_dict); [reflexivity | exact H]. Qed.

(** After the first pass every group given is in the store and holds
    every field given for it. *)
Lemma add_group_items_hold items :
  groups_ok items = true ->
  forall config config1,
    all_dicts config = true ->
    add_group_items config items = Ok config1 ->
    all_dicts config1 = true
    /\ (forall k, ~ In k (map fst items) -> assoc k config1 = assoc k config)
    /\ (forall k d, In (k, PDict d) items ->
                    exists m, assoc k config1 = Some (PDict m)
                              /\ forall f v, In (f, v) d -> assoc f m = Some v).
Proof.
  unfold groups_ok. rewrite andb_true_iff.
  induction items as [|[k v] items IH]; intros [Hu Hg] config config1 Hall Hadd.
  - apply Ok_inj in Hadd. subst config1.
    split; [exact Hall|]. split; [reflexivity|]. intros k d [].
  - cbn [unique_keys] in Hu. apply andb_true_iff in Hu. destruct Hu as [Hk Hu].
    apply negb_true_iff in Hk. apply dict_mem_In in Hk.
    cbn [forallb snd] in Hg. apply andb_true_iff in Hg. destruct Hg as [Hv Hg].
    destruct v as [| | | | | |d]; try discriminate Hv. cbn [is_group] in Hv.
    cbn [add_group_items] in Hadd. apply bind_inv in Hadd.
    destruct Hadd as (config' & Hstep & Hrest).
    destruct (add_group_item_holds config k d Hall Hv) as (m & Hstep' & Hm).
    rewrite Hstep' in Hstep. apply Ok_inj in Hstep. subst config'.
    destruct (IH (conj Hu Hg) _ config1 (all_dicts_dict_set config k m Hall) Hrest)
      as (Hall1 & Hother & Hheld).
    split; [exact Hall1|]. split.
    + intros k0 Hnot. cbn [map fst In] in Hnot.
      rewrite Hother by tauto. rewrite assoc_dict_set.
      destruct (String.eqb_spec k k0) as [-> | _]; [tauto | reflexivity].
    + intros k0 d0 [Hhead | Hin].
      * injection Hhead as <- <-. exists m. split; [|exact Hm].
        rewrite (Hother k Hk), assoc_dict_set, String.eqb_refl. reflexivity.
      * apply Hheld. exact Hin.
Qed.

(** A second pass over groups that the store already holds, field for
    field, changes nothing. *)
Lemma add_group_items_again items config1 :
  forallb (fun kv => is_group (snd kv)) items = true ->
  (forall k d, In (k, PDict d) items ->
               exists m, assoc k config1 = Some (PDict m)
                         /\ forall f v, In (f, v) d -> assoc f m = Some v) ->
  add_group_items config1 items = Ok config1.
Proof.
  induction items as [|[k v] items IH]; intros Hg Hheld; [reflexivity|].
  cbn [forallb snd] in Hg. apply andb_true_iff in Hg. destruct Hg as [Hv Hg].
  destruct v as [| | | | | |d]; try discriminate Hv.
  destruct (Hheld k d (or_introl eq_refl)) as (m & Hget & Hm).
  cbn [add_group_items]. unfold add_group_item. rewrite Hget. cbn [py_dict_update bind].
  rewrite (dict_update_same d m Hm), (dict_set_same _ _ _ Hget).
  apply IH; [exact Hg|]. intros k0 d0 Hin. apply Hheld. right. exact Hin.
Qed.

(** X30: [add_group] is idempotent: merging the same groups a second time
    into a store of dictionaries changes nothing. *)
Theorem add_group_twice config groups config1 :
  all_dicts config = true ->
  groups_ok groups = true ->
  add_group config (PDict groups) = Ok config1 ->
  add_group config1 (PDict groups) = Ok config1.
Proof.
  intros Hall Hok Hadd. cbn [add_group] in Hadd |- *.
  destruct (add_group_items_hold groups Hok config config1 Hall Hadd) as (_ & _ & Hheld).
  apply add_group_items_again; [|exact Hheld].
  unfold groups_ok in Hok. apply andb_true_iff in Hok. apply Hok.
Qed.

Lemma add_group_twice_witness :
  add_group [("x", PDict [("fr", PInt 1); ("vm", PInt 16000)]);
             ("sys", PDict [("id", PStr "9H3583-PXN"); ("ja", PInt 2000000);
                            ("mt", PFloat (S754_finite false 5629499534213120 (-51)))])]
            (PDict sample_config)
  = Ok [("x", PDict [("fr", PInt 1); ("vm", PInt 16000)]);
        ("sys", PDict [("id", PStr "9H3583-PXN"); ("ja", PInt 2000000);
                       ("mt", PFloat (S754_finite false 5629499534213120 (-51)))])].
Proof.
  apply (add_group_twice [("x", PDict [("fr", PInt 1)])] sample_config);
    vm_compute; reflexivity.
Defined.

